(** * Script codecs, classifier and builders: a shallow embedding of src/script.c

    Buffers are lists of bytes, a byte being an integer in [0, 255] carried
    in [Z].  A read-only input buffer [(bytes, bytes_len)] is the list of its
    [bytes_len] bytes, behind an [option] ([None] being NULL) at the entry
    points whose answer on a NULL input is modelled: the classifier, the
    CSV-delay accessor and [get_commitment_len].  An output buffer is the
    memory [bytes_out] points to (an [option] again) together with the
    separate capacity [len] the caller announces, so that "nothing was
    written" is a statement about that memory.  The [written] out-parameter
    is taken to be present and its final value is returned. *)

From Stdlib Require Import ZArith List Lia Bool Permutation Sorted.
Import ListNotations.
Local Open Scope Z_scope.

(** ** Return codes and constants of the missing headers *)

(** Modelled from the spec: the return codes of include/wally_core.h (not
    under src/): success, the internal-error signal and InvalidArgument. *)
Definition WALLY_OK : Z := 0.
Definition WALLY_ERROR : Z := -1.
Definition WALLY_EINVAL : Z := -2.

(** Modelled from the spec: the opcode bytes of script_int.h /
    include/wally_script.h (not under src/), which the spec names; they are
    the Bitcoin script opcodes. *)
Definition OP_0 : Z := 0x00.
Definition OP_PUSHDATA1 : Z := 0x4c.
Definition OP_PUSHDATA2 : Z := 0x4d.
Definition OP_PUSHDATA4 : Z := 0x4e.
Definition OP_1 : Z := 0x51.
Definition OP_16 : Z := 0x60.
Definition OP_IF : Z := 0x63.
Definition OP_NOTIF : Z := 0x64.
Definition OP_ELSE : Z := 0x67.
Definition OP_ENDIF : Z := 0x68.
Definition OP_RETURN : Z := 0x6a.
Definition OP_IFDUP : Z := 0x73.
Definition OP_DEPTH : Z := 0x74.
Definition OP_DROP : Z := 0x75.
Definition OP_DUP : Z := 0x76.
Definition OP_EQUAL : Z := 0x87.
Definition OP_EQUALVERIFY : Z := 0x88.
Definition OP_1SUB : Z := 0x8c.
Definition OP_HASH160 : Z := 0xa9.
Definition OP_CHECKSIG : Z := 0xac.
Definition OP_CHECKSIGVERIFY : Z := 0xad.
Definition OP_CHECKMULTISIG : Z := 0xae.
Definition OP_CHECKSEQUENCEVERIFY : Z := 0xb2.

(** Modelled from the spec: the fixed lengths of include/wally_crypto.h and
    include/wally_script.h (not under src/): 33-byte compressed and 65-byte
    uncompressed keys, 32-byte x-only keys, 20- and 32-byte digests, 64-byte
    raw signatures and their DER form of at most 72 bytes, and the template
    lengths P2PKH 25, P2SH 23, P2WPKH 22, P2WSH/P2TR 34. *)
Definition EC_PUBLIC_KEY_LEN : Z := 33.
Definition EC_PUBLIC_KEY_UNCOMPRESSED_LEN : Z := 65.
Definition EC_XONLY_PUBLIC_KEY_LEN : Z := 32.
Definition HASH160_LEN : Z := 20.
Definition SHA256_LEN : Z := 32.
Definition WALLY_SCRIPTPUBKEY_P2PKH_LEN : Z := 25.
Definition WALLY_SCRIPTPUBKEY_P2SH_LEN : Z := 23.
Definition WALLY_SCRIPTPUBKEY_P2WPKH_LEN : Z := 22.
Definition WALLY_SCRIPTPUBKEY_P2WSH_LEN : Z := 34.
Definition WALLY_SCRIPTPUBKEY_P2TR_LEN : Z := 34.
Definition EC_SIGNATURE_LEN : Z := 64.
Definition EC_SIGNATURE_DER_MAX_LEN : Z := 72.
Definition WALLY_MAX_OP_RETURN_LEN : Z := 80.
Definition WALLY_WITNESSSCRIPT_MAX_LEN : Z := 42.

(** Modelled from the spec: the builder flags of include/wally_script.h (not
    under src/): the two pre-hash flags, the extra-push flag and the
    BIP67 sort flag, one bit each. *)
Definition WALLY_SCRIPT_HASH160 : Z := 0x1.
Definition WALLY_SCRIPT_SHA256 : Z := 0x2.
Definition WALLY_SCRIPT_AS_PUSH : Z := 0x4.
Definition WALLY_SCRIPT_MULTISIG_SORTED : Z := 0x8.

(* varint tags and limits *)
Definition VI_TAG_16 : Z := 253.
Definition VI_TAG_32 : Z := 254.
Definition VI_TAG_64 : Z := 255.
Definition VI_MAX_8 : Z := 252.
Definition VI_MAX_16 : Z := 65535.        (* USHRT_MAX *)
Definition VI_MAX_32 : Z := 4294967295.   (* UINT_MAX *)

Definition ALL_SCRIPT_HASH_FLAGS : Z :=
  Z.lor WALLY_SCRIPT_HASH160 WALLY_SCRIPT_SHA256.

(* Max size of a DER-encoded signature with sighash flag appended *)
Definition DER_AND_HASH_MAX_LEN : Z := EC_SIGNATURE_DER_MAX_LEN + 1.

(** The ScriptPubkey type tag (the WALLY_SCRIPT_TYPE constants). *)
Inductive script_type : Set :=
| Unknown | OpReturn | P2PKH | P2SH | P2WPKH | P2WSH | P2TR
| Multisig | Csv2of2Then1 | Csv2of2Then1Opt.

(** ** Bytes, machine integers and memory *)

Definition is_byte (b : Z) : Prop := 0 <= b < 256.

(** [uint64_t]: values are reduced modulo 2^64. *)
Definition u64 (v : Z) : Z := v mod 2 ^ 64.

(** [bytes[i]]; a read past the end of the list (undefined in C) yields 0. *)
Definition byte_at (bytes : list Z) (i : Z) : Z := nth (Z.to_nat i) bytes 0.

(** [bytes_len] of an input buffer. *)
Definition blen (bytes : list Z) : Z := Z.of_nat (length bytes).

(** [bytes + n] on an input buffer. *)
Definition advance (n : Z) (bytes : list Z) : list Z := skipn (Z.to_nat n) bytes.

(** [memcpy(mem + off, data, |data|)] and single-byte stores.  The memory
    keeps its size; a store outside it (undefined in C) is dropped. *)
Fixpoint store (off : nat) (data : list Z) (mem : list Z) : list Z :=
  match mem with
  | [] => []
  | m :: ms =>
      match off with
      | S o => m :: store o data ms
      | O => match data with
             | [] => m :: ms
             | d :: ds => d :: store O ds ms
             end
      end
  end.

Definition store_at (off : Z) (data : list Z) (mem : list Z) : list Z :=
  store (Z.to_nat off) data mem.

(** Modelled from the spec: the little-endian helpers of internal.h and
    ccan/endian (not under src/): [uintN_to_le_bytes] writes the N/8 low
    bytes of the value, least significant first, and returns N/8;
    [leN_to_cpu] of a copied field reads them back. *)
Fixpoint le_bytes (n : nat) (v : Z) : list Z :=
  match n with
  | O => []
  | S n' => Z.land v 0xff :: le_bytes n' (Z.shiftr v 8)
  end.

Definition uint8_to_le_bytes (v : Z) : Z * list Z := (1, le_bytes 1 v).
Definition uint16_to_le_bytes (v : Z) : Z * list Z := (2, le_bytes 2 v).
Definition uint32_to_le_bytes (v : Z) : Z * list Z := (4, le_bytes 4 v).
Definition uint64_to_le_bytes (v : Z) : Z * list Z := (8, le_bytes 8 v).

Definition le16_at (bytes : list Z) (i : Z) : Z :=
  Z.lor (byte_at bytes i) (Z.shiftl (byte_at bytes (i + 1)) 8).

Definition le32_at (bytes : list Z) (i : Z) : Z :=
  Z.lor (le16_at bytes i) (Z.shiftl (le16_at bytes (i + 2)) 16).

(** ** Integer codecs *)

Definition script_flags_ok (flags extra_flags : Z) : bool :=
  if negb (Z.ldiff flags (Z.lor ALL_SCRIPT_HASH_FLAGS extra_flags) =? 0)
     || (Z.land flags ALL_SCRIPT_HASH_FLAGS =? ALL_SCRIPT_HASH_FLAGS)
  then false else true.

(** [script_is_op_n]: [Some n] when it returns true and sets [*n]. *)
Definition script_is_op_n (op : Z) (allow_zero : bool) : option Z :=
  if allow_zero && (op =? OP_0) then Some 0
  else if (OP_1 <=? op) && (op <=? OP_16) then Some (op - OP_1 + 1)
  else None.

Definition value_to_op_n (v : Z) : Z :=
  if v =? 0 then OP_0 else OP_1 + v - 1.

Definition is_pk_len (bytes_len : Z) : bool :=
  (bytes_len =? EC_PUBLIC_KEY_LEN) || (bytes_len =? EC_PUBLIC_KEY_UNCOMPRESSED_LEN).

Definition calc_push_opcode_size (n : Z) : Z :=
  if n <? 76 then 1
  else if n <? 256 then 2
  else if n <? 65536 then 3
  else 5.

Definition script_get_push_size (n : Z) : Z := calc_push_opcode_size n + n.

(** [get_push_size]: [None] is WALLY_EINVAL, [Some s] is WALLY_OK with
    [*size_out = s]. *)
Definition get_push_size (bytes : list Z) (get_opcode_size : bool) : option Z :=
  let bytes_len := blen bytes in
  if bytes_len =? 0 then None
  else
    let b0 := byte_at bytes 0 in
    let hdr :=
      if b0 <? 76 then Some (1, b0)
      else if b0 =? OP_PUSHDATA1 then
        if bytes_len <? 2 then None else Some (2, byte_at bytes 1)
      else if b0 =? OP_PUSHDATA2 then
        if bytes_len <? 3 then None else Some (3, le16_at bytes 1)
      else if b0 =? OP_PUSHDATA4 then
        if bytes_len <? 5 then None else Some (5, le32_at bytes 1)
      else None in
    match hdr with
    | None => None
    | Some (opcode_len, size_out) =>
        if bytes_len <? opcode_len + size_out then None
        else Some (if get_opcode_size then opcode_len else size_out)
    end.

Definition varint_get_length (v : Z) : Z :=
  if v <=? VI_MAX_8 then 1
  else if v <=? VI_MAX_16 then 1 + 2
  else if v <=? VI_MAX_32 then 1 + 4
  else 1 + 8.

(** [varint_to_bytes]: the returned count and the bytes stored at
    [bytes_out], in order. *)
Definition varint_to_bytes (v : Z) : Z * list Z :=
  if v <=? VI_MAX_8 then uint8_to_le_bytes v
  else if v <=? VI_MAX_16 then
    let '(n, bs) := uint16_to_le_bytes v in (1 + n, VI_TAG_16 :: bs)
  else if v <=? VI_MAX_32 then
    let '(n, bs) := uint32_to_le_bytes v in (1 + n, VI_TAG_32 :: bs)
  else
    let '(n, bs) := uint64_to_le_bytes v in (1 + n, VI_TAG_64 :: bs).

Definition varint_length_from_bytes (bytes : list Z) : Z :=
  let t := byte_at bytes 0 in
  if t =? VI_TAG_16 then 1 + 2
  else if t =? VI_TAG_32 then 1 + 4
  else if t =? VI_TAG_64 then 1 + 8
  else 1.

(** The macro [b(n)] of [varint_from_bytes]. *)
Definition vb (bytes : list Z) (n : Z) : Z :=
  u64 (Z.shiftl (byte_at bytes n) ((n - 1) * 8)).

(** [varint_from_bytes]: the returned size and [*v]. *)
Definition varint_from_bytes (bytes : list Z) : Z * Z :=
  let t := byte_at bytes 0 in
  let b := vb bytes in
  if t =? VI_TAG_16 then
    (1 + 2, Z.lor (b 2) (b 1))
  else if t =? VI_TAG_32 then
    (1 + 4, Z.lor (Z.lor (Z.lor (b 4) (b 3)) (b 2)) (b 1))
  else if t =? VI_TAG_64 then
    (1 + 8, Z.lor (Z.lor (Z.lor (Z.lor (Z.lor (Z.lor (Z.lor
               (b 8) (b 7)) (b 6)) (b 5)) (b 4)) (b 3)) (b 2)) (b 1))
  else (1, t).

(** The [while (v)] loop of the script-integer functions shifts one byte
    out of the 64-bit magnitude per turn, so it makes at most eight turns:
    the loops below run on that bound, and more turns would change nothing
    (see [scriptint_to_loop_fuel] and [scriptint_len_loop_fuel]). *)
Fixpoint scriptint_len_loop (fuel : nat) (v len last : Z) : Z * Z :=
  if v =? 0 then (len, last)
  else match fuel with
       | O => (len, last)
       | S f => scriptint_len_loop f (Z.shiftr v 8) (len + 1) (Z.land v 0xff)
       end.

Fixpoint scriptint_to_loop (fuel : nat) (v : Z) (out : list Z) (last : Z)
  : list Z * Z :=
  if v =? 0 then (out, last)
  else match fuel with
       | O => (out, last)
       | S f =>
           let last := Z.land v 0xff in
           scriptint_to_loop f (Z.shiftr v 8) (out ++ [last]) last
       end.

(** [uint64_t v = signed_v < 0 ? -signed_v : signed_v]. *)
Definition scriptint_magnitude (signed_v : Z) : Z :=
  u64 (if signed_v <? 0 then - signed_v else signed_v).

Definition scriptint_get_length (signed_v : Z) : Z :=
  let '(len, last) :=
    scriptint_len_loop 8 (scriptint_magnitude signed_v) 0 0 in
  len + (if Z.land last 0x80 =? 0 then 0 else 1).

(** [bytes_out[-1] |= 0x80] on the bytes written so far. *)
Definition or_last (out : list Z) (m : Z) : list Z :=
  match rev out with
  | [] => []
  | x :: r => rev r ++ [Z.lor x m]
  end.

(** [scriptint_to_bytes]: the returned [len] and the bytes stored at
    [bytes_out], in order. *)
Definition scriptint_to_bytes (signed_v : Z) : Z * list Z :=
  let '(out, last) :=
    scriptint_to_loop 8 (scriptint_magnitude signed_v) [] 0 in
  let len := blen out in
  if negb (Z.land last 0x80 =? 0) then
    (len + 1, out ++ [if signed_v <? 0 then 0x80 else 0])
  else if signed_v <? 0 then (len, or_last out 0x80)
  else (len, out).

(** The [for] loop of [scriptint_from_bytes], from index [i], [n] turns. *)
Fixpoint scriptint_from_loop (bytes : list Z) (n : nat) (i value mask : Z)
  {struct n} : Z * Z :=
  match n with
  | O => (value, mask)
  | S n' =>
      scriptint_from_loop bytes n' (i + 1)
        (Z.lor value (Z.shiftl (byte_at bytes (i + 1)) (8 * i)))
        (Z.shiftl mask 8)
  end.

(** [scriptint_from_bytes]: the return code and [*value_out].  With
    [bytes[0] <= 4] every intermediate value stays below 2^40, so the
    [int64_t] arithmetic does not wrap. *)
Definition scriptint_from_bytes (bytes : list Z) : Z * Z :=
  let len := blen bytes in
  let b0 := byte_at bytes 0 in
  if (len <? 1) || (len <=? b0) || (b0 >? 4) then (WALLY_EINVAL, 0)
  else
    let '(value, mask) := scriptint_from_loop bytes (Z.to_nat b0) 0 0 0x80 in
    if negb (Z.land (byte_at bytes b0) 0x80 =? 0)
    then (WALLY_OK, - (Z.lxor value (Z.shiftr mask 8)))
    else (WALLY_OK, value).

(** ** Confidential commitment lengths (Elements) *)

(** The prefix bytes of include/wally_transaction.h, which is not under
    src/: they are parameters of the model. *)
Class ct_prefixes : Type := {
  WALLY_TX_ASSET_CT_EXPLICIT_PREFIX : Z;
  WALLY_TX_ASSET_CT_VALUE_PREFIX_A : Z;
  WALLY_TX_ASSET_CT_VALUE_PREFIX_B : Z;
  WALLY_TX_ASSET_CT_ASSET_PREFIX_A : Z;
  WALLY_TX_ASSET_CT_ASSET_PREFIX_B : Z;
  WALLY_TX_ASSET_CT_NONCE_PREFIX_A : Z;
  WALLY_TX_ASSET_CT_NONCE_PREFIX_B : Z
}.

(** Modelled from the spec: the two field lengths of
    include/wally_transaction.h (not under src/): 9 for an explicit value
    (1-byte marker + 8-byte integer), 33 for every other non-null field. *)
Definition WALLY_TX_ASSET_CT_VALUE_UNBLIND_LEN : Z := 9.
Definition WALLY_TX_ASSET_CT_LEN : Z := 33.

Section Commitment.
Context {P : ct_prefixes}.

(** [bytes] is [None] for a NULL pointer; [*bytes] is the leading byte. *)
Definition get_commitment_len (bytes : option (list Z)) (prefixA prefixB : Z)
  : Z :=
  match bytes with
  | None => 1
  | Some bs =>
      let b := byte_at bs 0 in
      if b =? 0 then 1 (* Null commitment *)
      else if b =? WALLY_TX_ASSET_CT_EXPLICIT_PREFIX then
        if prefixA =? WALLY_TX_ASSET_CT_VALUE_PREFIX_A
        then WALLY_TX_ASSET_CT_VALUE_UNBLIND_LEN
        else WALLY_TX_ASSET_CT_LEN
      else if (b =? prefixA) || (b =? prefixB) then WALLY_TX_ASSET_CT_LEN
      else 0 (* Invalid serialization *)
  end.

Definition confidential_asset_length_from_bytes (bytes : option (list Z)) : Z :=
  get_commitment_len bytes
    WALLY_TX_ASSET_CT_ASSET_PREFIX_A WALLY_TX_ASSET_CT_ASSET_PREFIX_B.

Definition confidential_value_length_from_bytes (bytes : option (list Z)) : Z :=
  get_commitment_len bytes
    WALLY_TX_ASSET_CT_VALUE_PREFIX_A WALLY_TX_ASSET_CT_VALUE_PREFIX_B.

Definition confidential_nonce_length_from_bytes (bytes : option (list Z)) : Z :=
  get_commitment_len bytes
    WALLY_TX_ASSET_CT_NONCE_PREFIX_A WALLY_TX_ASSET_CT_NONCE_PREFIX_B.

(** What the claims on these accessors need of the header's constants:
    the explicit marker and the blinded prefixes are non-zero, the value
    prefixes differ from the explicit marker, and the first asset and
    nonce prefixes differ from the first value prefix. *)
Definition ct_prefixes_ok : Prop :=
  WALLY_TX_ASSET_CT_EXPLICIT_PREFIX <> 0 /\
  WALLY_TX_ASSET_CT_VALUE_PREFIX_A <> 0 /\
  WALLY_TX_ASSET_CT_VALUE_PREFIX_B <> 0 /\
  WALLY_TX_ASSET_CT_ASSET_PREFIX_A <> 0 /\
  WALLY_TX_ASSET_CT_ASSET_PREFIX_B <> 0 /\
  WALLY_TX_ASSET_CT_NONCE_PREFIX_A <> 0 /\
  WALLY_TX_ASSET_CT_NONCE_PREFIX_B <> 0 /\
  WALLY_TX_ASSET_CT_VALUE_PREFIX_A <> WALLY_TX_ASSET_CT_EXPLICIT_PREFIX /\
  WALLY_TX_ASSET_CT_VALUE_PREFIX_B <> WALLY_TX_ASSET_CT_EXPLICIT_PREFIX /\
  WALLY_TX_ASSET_CT_ASSET_PREFIX_A <> WALLY_TX_ASSET_CT_VALUE_PREFIX_A /\
  WALLY_TX_ASSET_CT_NONCE_PREFIX_A <> WALLY_TX_ASSET_CT_VALUE_PREFIX_A.
End Commitment.

(** The values libwally's header gives these constants. *)
Definition libwally_ct_prefixes : ct_prefixes :=
  {| WALLY_TX_ASSET_CT_EXPLICIT_PREFIX := 0x01;
     WALLY_TX_ASSET_CT_VALUE_PREFIX_A := 0x08;
     WALLY_TX_ASSET_CT_VALUE_PREFIX_B := 0x09;
     WALLY_TX_ASSET_CT_ASSET_PREFIX_A := 0x0a;
     WALLY_TX_ASSET_CT_ASSET_PREFIX_B := 0x0b;
     WALLY_TX_ASSET_CT_NONCE_PREFIX_A := 0x02;
     WALLY_TX_ASSET_CT_NONCE_PREFIX_B := 0x03 |}.

(** ** ScriptPubkey classifier *)

Definition scriptpubkey_is_op_return (bytes : list Z) : bool :=
  negb (blen bytes =? 0) && (byte_at bytes 0 =? OP_RETURN).

Definition scriptpubkey_is_p2pkh (bytes : list Z) : bool :=
  (blen bytes =? WALLY_SCRIPTPUBKEY_P2PKH_LEN) &&
  (byte_at bytes 0 =? OP_DUP) && (byte_at bytes 1 =? OP_HASH160) &&
  (byte_at bytes 2 =? 20) &&
  (byte_at bytes 23 =? OP_EQUALVERIFY) &&
  (byte_at bytes 24 =? OP_CHECKSIG).

Definition scriptpubkey_is_p2sh (bytes : list Z) : bool :=
  (blen bytes =? WALLY_SCRIPTPUBKEY_P2SH_LEN) &&
  (byte_at bytes 0 =? OP_HASH160) &&
  (byte_at bytes 1 =? 20) &&
  (byte_at bytes 22 =? OP_EQUAL).

Definition scriptpubkey_is_p2wpkh (bytes : list Z) : bool :=
  (blen bytes =? WALLY_SCRIPTPUBKEY_P2WPKH_LEN) &&
  (byte_at bytes 0 =? OP_0) &&
  (byte_at bytes 1 =? 20).

Definition scriptpubkey_is_p2wsh (bytes : list Z) : bool :=
  (blen bytes =? WALLY_SCRIPTPUBKEY_P2WSH_LEN) &&
  (byte_at bytes 0 =? OP_0) &&
  (byte_at bytes 1 =? 32).

Definition scriptpubkey_is_p2tr (bytes : list Z) : bool :=
  (blen bytes =? WALLY_SCRIPTPUBKEY_P2TR_LEN) &&
  (byte_at bytes 0 =? OP_1) &&
  (byte_at bytes 1 =? 32).

(** The [for] loop of [scriptpubkey_is_multisig]: [n] pushes still to
    read from [bytes]; the answer is [bytes_len == 2] after the last. *)
Fixpoint multisig_pushes (n : nat) (bytes : list Z) {struct n} : bool :=
  match n with
  | O => blen bytes =? 2
  | S n' =>
      match get_push_size bytes true, get_push_size bytes false with
      | Some n_op, Some n_push =>
          if negb (is_pk_len n_push) || (blen bytes <? n_op + n_push + 2)
          then false
          else multisig_pushes n' (advance (n_op + n_push) bytes)
      | _, _ => false
      end
  end.

Definition scriptpubkey_is_multisig (bytes : list Z) : bool :=
  let bytes_len := blen bytes in
  let min_1of1_len := 1 + 1 + 33 + 1 + 1 in
  if bytes_len <? min_1of1_len then false
  else
    match script_is_op_n (byte_at bytes 0) false with
    | None => false
    | Some _ =>
        if negb (byte_at bytes (bytes_len - 1) =? OP_CHECKMULTISIG) then false
        else
          match script_is_op_n (byte_at bytes (bytes_len - 2)) false with
          | None => false
          | Some n_pushes => multisig_pushes (Z.to_nat n_pushes) (advance 1 bytes)
          end
    end.

(** The CSV matchers return their boolean and [*csv_blocks]. *)
Definition scriptpubkey_is_csv_2of2_then_1 (bytes : list Z) : bool * Z :=
  let min_len := 9 + 2 * (EC_PUBLIC_KEY_LEN + 1) + 2 in
  let bytes_len := blen bytes in
  if (bytes_len <? min_len) || (bytes_len >? min_len + 2) then (false, 0)
  else if negb (byte_at bytes 0 =? OP_DEPTH) || negb (byte_at bytes 1 =? OP_1SUB) ||
          negb (byte_at bytes 2 =? OP_IF) ||
          negb (byte_at bytes 3 =? EC_PUBLIC_KEY_LEN) ||
          negb (byte_at bytes (EC_PUBLIC_KEY_LEN + 4) =? OP_CHECKSIGVERIFY) ||
          negb (byte_at bytes (EC_PUBLIC_KEY_LEN + 5) =? OP_ELSE)
  then (false, 0)
  else
    let bytes := advance (EC_PUBLIC_KEY_LEN + 6) bytes in
    let bytes_len := bytes_len - (EC_PUBLIC_KEY_LEN + 6) in
    let '(ret, blocks) := scriptint_from_bytes bytes in
    if negb (ret =? WALLY_OK) then (false, 0)
    else if (blocks <? 17) || (blocks >? 65535) then (false, 0)
    else
      let bytes_len := bytes_len - (byte_at bytes 0 + 1) in
      let bytes := advance (byte_at bytes 0 + 1) bytes in
      if bytes_len <? 3 + (EC_PUBLIC_KEY_LEN + 1) + 1 then (false, 0)
      else if negb (byte_at bytes 0 =? OP_CHECKSEQUENCEVERIFY) ||
              negb (byte_at bytes 1 =? OP_DROP) ||
              negb (byte_at bytes 2 =? OP_ENDIF) ||
              negb (byte_at bytes 3 =? EC_PUBLIC_KEY_LEN) ||
              negb (byte_at bytes (EC_PUBLIC_KEY_LEN + 4) =? OP_CHECKSIG)
      then (false, 0)
      else (true, blocks).

Definition scriptpubkey_is_csv_2of2_then_1_opt (bytes : list Z) : bool * Z :=
  let min_len := 6 + 2 * (EC_PUBLIC_KEY_LEN + 1) + 2 in
  let bytes_len := blen bytes in
  if (bytes_len <? min_len) || (bytes_len >? min_len + 2) then (false, 0)
  else if negb (byte_at bytes 0 =? EC_PUBLIC_KEY_LEN) ||
          negb (byte_at bytes (EC_PUBLIC_KEY_LEN + 1) =? OP_CHECKSIGVERIFY) ||
          negb (byte_at bytes (EC_PUBLIC_KEY_LEN + 2) =? EC_PUBLIC_KEY_LEN)
  then (false, 0)
  else
    let bytes := advance (EC_PUBLIC_KEY_LEN * 2 + 3) bytes in
    let bytes_len := bytes_len - (EC_PUBLIC_KEY_LEN * 2 + 3) in
    if negb (byte_at bytes 0 =? OP_CHECKSIG) || negb (byte_at bytes 1 =? OP_IFDUP) ||
       negb (byte_at bytes 2 =? OP_NOTIF)
    then (false, 0)
    else
      let bytes := advance 3 bytes in
      let bytes_len := bytes_len - 3 in
      let '(ret, blocks) := scriptint_from_bytes bytes in
      if negb (ret =? WALLY_OK) then (false, 0)
      else if (blocks <? 17) || (blocks >? 65535) then (false, 0)
      else
        let bytes_len := bytes_len - (byte_at bytes 0 + 1) in
        let bytes := advance (byte_at bytes 0 + 1) bytes in
        if negb (bytes_len =? 2) ||
           negb (byte_at bytes 0 =? OP_CHECKSEQUENCEVERIFY) ||
           negb (byte_at bytes 1 =? OP_ENDIF)
        then (false, 0)
        else (true, blocks).

(** The public accessors take the input pointer as an [option] ([None] is
    NULL) and return the code with the out-parameter's final value. *)
Definition wally_scriptpubkey_csv_blocks_from_csv_2of2_then_1
  (bytes : option (list Z)) : Z * Z :=
  match bytes with
  | None => (WALLY_EINVAL, 0)
  | Some bs =>
      if blen bs =? 0 then (WALLY_EINVAL, 0)
      else
        let '(ok, v) := scriptpubkey_is_csv_2of2_then_1 bs in
        if ok then (WALLY_OK, v)
        else
          let '(ok, v) := scriptpubkey_is_csv_2of2_then_1_opt bs in
          if ok then (WALLY_OK, v)
          else (WALLY_EINVAL, v)
  end.

Definition wally_scriptpubkey_get_type (bytes : option (list Z))
  : Z * script_type :=
  match bytes with
  | None => (WALLY_EINVAL, Unknown)
  | Some bs =>
      let bytes_len := blen bs in
      if bytes_len =? 0 then (WALLY_EINVAL, Unknown)
      else if scriptpubkey_is_op_return bs then (WALLY_OK, OpReturn)
      else if scriptpubkey_is_multisig bs then (WALLY_OK, Multisig)
      else if fst (scriptpubkey_is_csv_2of2_then_1 bs) then (WALLY_OK, Csv2of2Then1)
      else if fst (scriptpubkey_is_csv_2of2_then_1_opt bs)
      then (WALLY_OK, Csv2of2Then1Opt)
      else if bytes_len =? WALLY_SCRIPTPUBKEY_P2PKH_LEN then
        if scriptpubkey_is_p2pkh bs then (WALLY_OK, P2PKH)
        else (WALLY_OK, Unknown)
      else if bytes_len =? WALLY_SCRIPTPUBKEY_P2SH_LEN then
        if scriptpubkey_is_p2sh bs then (WALLY_OK, P2SH)
        else (WALLY_OK, Unknown)
      else if bytes_len =? WALLY_SCRIPTPUBKEY_P2WPKH_LEN then
        if scriptpubkey_is_p2wpkh bs then (WALLY_OK, P2WPKH)
        else (WALLY_OK, Unknown)
      else if bytes_len =? WALLY_SCRIPTPUBKEY_P2WSH_LEN then
        if scriptpubkey_is_p2wsh bs then (WALLY_OK, P2WSH)
        else if scriptpubkey_is_p2tr bs then (WALLY_OK, P2TR)
        else (WALLY_OK, Unknown)
      else (WALLY_OK, Unknown)
  end.

(** ** External collaborators *)

(** The hashing and key-tweaking primitives the builders call, and the
    build configuration.  Each primitive returns its code and the bytes it
    stores in the caller's scratch array. *)
Class crypto_ops : Type := {
  wally_hash160 : list Z -> Z * list Z;
  wally_sha256 : list Z -> Z * list Z;
  wally_hmac_sha256 : list Z -> list Z -> Z * list Z;
  wally_ec_public_key_bip341_tweak : list Z -> Z -> Z * list Z;
  wally_ec_sig_to_der : list Z -> Z * list Z;
  BUILD_ELEMENTS : bool;
  EC_FLAG_ELEMENTS : Z
}.

(** The secp256k1 point operations of the peg-in rewriter; [None] is a
    failed call, [pubkey_same] is the [memcmp] of two parsed keys. *)
Class secp256k1_ops : Type := {
  secp256k1_pubkey : Type;
  pubkey_parse : list Z -> option secp256k1_pubkey;
  pubkey_tweak_add : secp256k1_pubkey -> list Z -> option secp256k1_pubkey;
  pubkey_serialize : secp256k1_pubkey -> option (list Z);
  pubkey_create : list Z -> option secp256k1_pubkey;
  pubkey_negate : secp256k1_pubkey -> option secp256k1_pubkey;
  pubkey_combine :
    secp256k1_pubkey -> secp256k1_pubkey -> option secp256k1_pubkey;
  pubkey_same : secp256k1_pubkey -> secp256k1_pubkey -> bool
}.

(** A scratch array of [n] bytes after a primitive stored [h] in it (its
    other bytes read as 0), cut to the [m] bytes the caller uses. *)
Definition scratch (n m : nat) (h : list Z) : list Z :=
  firstn m (store 0 h (repeat 0 n)).

(** ** Builders *)

(** What a builder returns: the code, [*written] and the output memory. *)
Definition built : Type := Z * Z * option (list Z).

(** The opcode bytes [wally_script_push_from_bytes] stores before the data. *)
Definition push_opcode_bytes (bytes_len : Z) : list Z :=
  if bytes_len <? 76 then [bytes_len]
  else if bytes_len <? 256 then [OP_PUSHDATA1; Z.land bytes_len 0xff]
  else if bytes_len <? 65536 then OP_PUSHDATA2 :: le_bytes 2 bytes_len
  else OP_PUSHDATA4 :: le_bytes 4 bytes_len.

(** [memcmp] over the first [n] bytes: the sign of the first difference. *)
Fixpoint memcmp (a b : list Z) (n : nat) {struct n} : Z :=
  match n with
  | O => 0
  | S n' =>
      match a, b with
      | x :: a', y :: b' => if x =? y then memcmp a' b' n' else x - y
      | _, _ => 0
      end
  end.

Definition pubkey_compare (a b : list Z) : Z :=
  memcmp a b (Z.to_nat EC_PUBLIC_KEY_LEN).

(** [qsort] is libc's: it returns the elements in an order the comparator
    accepts.  It is modelled by insertion sort; [pubkey_compare] is a total
    order on 33-byte elements whose ties are identical elements (see
    [qsort_permutation_invariant]), which leaves no other sorted order. *)
Fixpoint qsort_insert (cmp : list Z -> list Z -> Z) (x : list Z)
  (l : list (list Z)) : list (list Z) :=
  match l with
  | [] => [x]
  | y :: l' => if cmp x y <=? 0 then x :: y :: l' else y :: qsort_insert cmp x l'
  end.

Fixpoint qsort (cmp : list Z -> list Z -> Z) (l : list (list Z))
  : list (list Z) :=
  match l with
  | [] => []
  | x :: l' => qsort_insert cmp x (qsort cmp l')
  end.

(** The [n] elements of [w] bytes of an array. *)
Fixpoint elements (n : nat) (w : nat) (bytes : list Z) {struct n}
  : list (list Z) :=
  match n with
  | O => []
  | S n' => firstn w bytes :: elements n' w (skipn w bytes)
  end.

Section Builders.
Context {C : crypto_ops}.

(** [wally_script_push_from_bytes] called with the non-NULL pointer
    [bytes_out + off] into the memory [mem] and the capacity [len]. *)
Definition script_push_at (bytes : list Z) (flags : Z)
  (mem : list Z) (off len : Z) : Z * Z * list Z :=
  if negb (script_flags_ok flags 0) || (len =? 0) then (WALLY_EINVAL, 0, mem)
  else
    let '(ret, data) :=
      if negb (Z.land flags WALLY_SCRIPT_HASH160 =? 0) then
        let '(r, h) := wally_hash160 bytes in (r, scratch 32 20 h)
      else if negb (Z.land flags WALLY_SCRIPT_SHA256 =? 0) then
        let '(r, h) := wally_sha256 bytes in (r, scratch 32 32 h)
      else (WALLY_OK, bytes) in
    if negb (ret =? WALLY_OK) then (ret, 0, mem)
    else
      let bytes_len := blen data in
      let opcode_len := calc_push_opcode_size bytes_len in
      let written := bytes_len + opcode_len in
      if len <? written then (WALLY_OK, written, mem)
      else (WALLY_OK, written,
            store_at off (push_opcode_bytes bytes_len ++ data) mem).

Definition wally_script_push_from_bytes (bytes : list Z) (flags : Z)
  (bytes_out : option (list Z)) (len : Z) : built :=
  match bytes_out with
  | None => (WALLY_EINVAL, 0, None)
  | Some mem =>
      let '(ret, written, mem) := script_push_at bytes flags mem 0 len in
      (ret, written, Some mem)
  end.

Definition wally_scriptpubkey_p2pkh_from_bytes (bytes : list Z) (flags : Z)
  (bytes_out : option (list Z)) (len : Z) : built :=
  match bytes_out with
  | None => (WALLY_EINVAL, 0, None)
  | Some mem =>
      let bytes_len := blen bytes in
      if (bytes_len =? 0) || negb (script_flags_ok flags 0) ||
         negb (Z.land flags WALLY_SCRIPT_SHA256 =? 0) || (len =? 0)
      then (WALLY_EINVAL, 0, Some mem)
      else if len <? WALLY_SCRIPTPUBKEY_P2PKH_LEN
      then (WALLY_OK, WALLY_SCRIPTPUBKEY_P2PKH_LEN, Some mem)
      else if (if negb (Z.land flags WALLY_SCRIPT_HASH160 =? 0)
               then negb (bytes_len =? EC_PUBLIC_KEY_LEN) &&
                    negb (bytes_len =? EC_PUBLIC_KEY_UNCOMPRESSED_LEN)
               else negb (bytes_len =? HASH160_LEN))
      then (WALLY_EINVAL, 0, Some mem)
      else
        let mem := store_at 0 [OP_DUP; OP_HASH160] mem in
        let '(ret, written, mem) :=
          script_push_at bytes flags mem 2 (len - 4) in
        if ret =? WALLY_OK then
          (WALLY_OK, WALLY_SCRIPTPUBKEY_P2PKH_LEN,
           Some (store_at (WALLY_SCRIPTPUBKEY_P2PKH_LEN - 1) [OP_CHECKSIG]
                  (store_at (WALLY_SCRIPTPUBKEY_P2PKH_LEN - 2)
                     [OP_EQUALVERIFY] mem)))
        else (ret, written, Some mem)
  end.

Definition wally_scriptsig_p2pkh_from_der (pub_key sig : list Z)
  (bytes_out : option (list Z)) (len : Z) : built :=
  match bytes_out with
  | None => (WALLY_EINVAL, 0, None)
  | Some mem =>
      let pub_key_len := blen pub_key in
      let sig_len := blen sig in
      if negb (is_pk_len pub_key_len) || (sig_len =? 0) ||
         (sig_len >? EC_SIGNATURE_DER_MAX_LEN + 1)
      then (WALLY_EINVAL, 0, Some mem)
      else if len <? script_get_push_size pub_key_len
                     + script_get_push_size sig_len
      then (WALLY_EINVAL, 0, Some mem)
      else
        let '(ret, written, mem) := script_push_at sig 0 mem 0 len in
        if ret =? WALLY_OK then
          let n := written in
          let '(ret, written, mem) :=
            script_push_at pub_key 0 mem n (len - n) in
          if ret =? WALLY_OK then (WALLY_OK, written + n, Some mem)
          else (* wally_clear(bytes_out, n) *)
            (ret, written, Some (store_at 0 (repeat 0 (Z.to_nat n)) mem))
        else (ret, written, Some mem)
  end.

Definition wally_scriptsig_p2pkh_from_sig (pub_key sig : list Z)
  (sighash : Z) (bytes_out : option (list Z)) (len : Z) : built :=
  if negb (Z.land sighash 0xffffff00 =? 0) then (WALLY_EINVAL, 0, bytes_out)
  else
    let '(ret, der) := wally_ec_sig_to_der sig in
    if ret =? WALLY_OK then
      wally_scriptsig_p2pkh_from_der pub_key
        (der ++ [Z.land sighash 0xff]) bytes_out len
    else (ret, 0, bytes_out).

Definition wally_scriptpubkey_op_return_from_bytes (bytes : list Z)
  (flags : Z) (bytes_out : option (list Z)) (len : Z) : built :=
  match bytes_out with
  | None => (WALLY_EINVAL, 0, None)
  | Some mem =>
      if (blen bytes >? WALLY_MAX_OP_RETURN_LEN) || negb (flags =? 0) ||
         (len =? 0)
      then (WALLY_EINVAL, 0, Some mem)
      else
        let '(ret, written, mem) :=
          script_push_at bytes flags mem 1 (len - 1) in
        if ret =? WALLY_OK
        then (WALLY_OK, written + 1, Some (store_at 0 [OP_RETURN] mem))
        else (ret, written, Some mem)
  end.

Definition wally_scriptpubkey_p2sh_from_bytes (bytes : list Z) (flags : Z)
  (bytes_out : option (list Z)) (len : Z) : built :=
  match bytes_out with
  | None => (WALLY_EINVAL, 0, None)
  | Some mem =>
      let bytes_len := blen bytes in
      if (bytes_len =? 0) ||
         negb (Z.ldiff flags WALLY_SCRIPT_HASH160 =? 0) || (len =? 0)
      then (WALLY_EINVAL, 0, Some mem)
      else if (Z.land flags WALLY_SCRIPT_HASH160 =? 0) &&
              negb (bytes_len =? HASH160_LEN)
      then (WALLY_EINVAL, 0, Some mem)
      else if len <? WALLY_SCRIPTPUBKEY_P2SH_LEN
      then (WALLY_OK, WALLY_SCRIPTPUBKEY_P2SH_LEN, Some mem)
      else
        let mem := store_at 0 [OP_HASH160] mem in
        let '(ret, written, mem) :=
          script_push_at bytes flags mem 1 (len - 2) in
        if ret =? WALLY_OK then
          (WALLY_OK, WALLY_SCRIPTPUBKEY_P2SH_LEN,
           Some (store_at (WALLY_SCRIPTPUBKEY_P2SH_LEN - 1) [OP_EQUAL] mem))
        else (ret, written, Some mem)
  end.

(** The bytes the emission loop of the multisig builder stores. *)
Definition multisig_script (threshold n_pubkeys : Z)
  (keys : list (list Z)) : list Z :=
  value_to_op_n threshold
    :: concat (map (fun k => EC_PUBLIC_KEY_LEN :: k) keys)
    ++ [value_to_op_n n_pubkeys; OP_CHECKMULTISIG].

Definition wally_scriptpubkey_multisig_from_bytes (bytes : list Z)
  (threshold flags : Z) (bytes_out : option (list Z)) (len : Z) : built :=
  match bytes_out with
  | None => (WALLY_EINVAL, 0, None)
  | Some mem =>
      let bytes_len := blen bytes in
      let n_pubkeys := bytes_len / EC_PUBLIC_KEY_LEN in
      let script_len := 3 + n_pubkeys * (EC_PUBLIC_KEY_LEN + 1) in
      if (bytes_len =? 0) || negb (bytes_len mod EC_PUBLIC_KEY_LEN =? 0) ||
         (n_pubkeys <? 1) || (n_pubkeys >? 15) ||
         (threshold <? 1) || (threshold >? 15) || (threshold >? n_pubkeys) ||
         negb (Z.ldiff flags WALLY_SCRIPT_MULTISIG_SORTED =? 0) || (len =? 0)
      then (WALLY_EINVAL, 0, Some mem)
      else if len <? script_len then (WALLY_OK, script_len, Some mem)
      else
        let pubkey_bytes :=
          elements (Z.to_nat n_pubkeys) (Z.to_nat EC_PUBLIC_KEY_LEN) bytes in
        let pubkey_bytes :=
          if negb (Z.land flags WALLY_SCRIPT_MULTISIG_SORTED =? 0)
          then qsort pubkey_compare pubkey_bytes
          else pubkey_bytes in
        (WALLY_OK, script_len,
         Some (store_at 0
                 (multisig_script threshold n_pubkeys pubkey_bytes) mem))
  end.

(** The first loop of the multisig scriptSig builder: the DER encoding
    of each signature with its sighash byte appended, or the code of the
    first failure. *)
Fixpoint multisig_ders (sigs : list (list Z)) (sighash : list Z)
  : Z + list (list Z) :=
  match sigs, sighash with
  | sig :: sigs', h :: sighash' =>
      if negb (Z.ldiff h 0xff =? 0) then inl WALLY_EINVAL
      else
        let '(ret, der) := wally_ec_sig_to_der sig in
        if negb (ret =? WALLY_OK) then inl ret
        else
          match multisig_ders sigs' sighash' with
          | inl failed => inl failed
          | inr ders => inr ((der ++ [Z.land h 0xff]) :: ders)
          end
  | _, _ => inr []
  end.

(** Its second loop: the pushes of the encoded signatures at [p], [len]
    bytes being left; the code, the memory, [p] and [len] after it. *)
Fixpoint multisig_push_ders (ders : list (list Z)) (mem : list Z)
  (p len : Z) : Z * list Z * Z * Z :=
  match ders with
  | [] => (WALLY_OK, mem, p, len)
  | der :: ders' =>
      let '(ret, der_len, mem) := script_push_at der 0 mem p len in
      if negb (ret =? WALLY_OK) then (ret, mem, p, len)
      else multisig_push_ders ders' mem (p + der_len) (len - der_len)
  end.

Definition wally_scriptsig_multisig_from_bytes (script bytes : list Z)
  (sighash : list Z) (flags : Z) (bytes_out : option (list Z)) (len : Z)
  : built :=
  let bytes_len := blen bytes in
  let n_sigs := bytes_len / EC_SIGNATURE_LEN in
  match bytes_out with
  | None => (WALLY_EINVAL, 0, None)
  | Some mem =>
      if (blen script =? 0) || (bytes_len =? 0) ||
         negb (bytes_len mod EC_SIGNATURE_LEN =? 0) ||
         (n_sigs <? 1) || (n_sigs >? 15) ||
         negb (blen sighash =? n_sigs) || negb (flags =? 0)
      then (WALLY_EINVAL, 0, Some mem)
      else
        match multisig_ders
                (elements (Z.to_nat n_sigs) (Z.to_nat EC_SIGNATURE_LEN) bytes)
                sighash with
        | inl failed => (failed, 0, Some mem)
        | inr ders =>
            let required :=
              fold_left (fun r der => r + script_get_push_size (blen der))
                ders 0
              + (1 + script_get_push_size (blen script)) in
            if len <? required then (WALLY_OK, required, Some mem)
            else
              let mem := store_at 0 [OP_0] mem in
              let '(ret, mem, p, len) :=
                multisig_push_ders ders mem 1 (len - 1) in
              if negb (ret =? WALLY_OK) then (ret, 0, Some mem)
              else
                let '(ret, script_push_len, mem) :=
                  script_push_at script 0 mem p len in
                if negb (ret =? WALLY_OK) then (ret, 0, Some mem)
                else if len <? script_push_len
                then (WALLY_ERROR, 0, Some mem)
                else (WALLY_OK, required, Some mem)
        end
  end.

(** The bytes the CSV builders store, from the two keys and the delay. *)
Definition csv_2of2_then_1_script (main recovery : list Z)
  (csv_len : Z) (csv : list Z) : list Z :=
  [OP_DEPTH; OP_1SUB; OP_IF; EC_PUBLIC_KEY_LEN] ++ main
    ++ [OP_CHECKSIGVERIFY; OP_ELSE; Z.land csv_len 0xff] ++ csv
    ++ [OP_CHECKSEQUENCEVERIFY; OP_DROP; OP_ENDIF; EC_PUBLIC_KEY_LEN]
    ++ recovery ++ [OP_CHECKSIG].

Definition csv_2of2_then_1_opt_script (main recovery : list Z)
  (csv_len : Z) (csv : list Z) : list Z :=
  [EC_PUBLIC_KEY_LEN] ++ recovery ++ [OP_CHECKSIGVERIFY; EC_PUBLIC_KEY_LEN]
    ++ main ++ [OP_CHECKSIG; OP_IFDUP; OP_NOTIF; Z.land csv_len 0xff] ++ csv
    ++ [OP_CHECKSEQUENCEVERIFY; OP_ENDIF].

Definition wally_scriptpubkey_csv_2of2_then_1_from_bytes (bytes : list Z)
  (csv_blocks flags : Z) (bytes_out : option (list Z)) (len : Z) : built :=
  let csv_len := scriptint_get_length csv_blocks in
  let script_len := 2 * (EC_PUBLIC_KEY_LEN + 1) + 9 + 1 + csv_len in
  match bytes_out with
  | None => (WALLY_EINVAL, 0, None)
  | Some mem =>
      if negb (blen bytes =? 2 * EC_PUBLIC_KEY_LEN) ||
         (csv_blocks <? 17) || (csv_blocks >? 0xffff) || negb (flags =? 0)
      then (WALLY_EINVAL, 0, Some mem)
      else if len <? script_len then (WALLY_OK, script_len, Some mem)
      else
        let main := firstn (Z.to_nat EC_PUBLIC_KEY_LEN) bytes in
        let recovery :=
          firstn (Z.to_nat EC_PUBLIC_KEY_LEN) (advance EC_PUBLIC_KEY_LEN bytes) in
        (WALLY_OK, script_len,
         Some (store_at 0
                 (csv_2of2_then_1_script main recovery csv_len
                    (snd (scriptint_to_bytes csv_blocks))) mem))
  end.

Definition wally_scriptpubkey_csv_2of2_then_1_from_bytes_opt (bytes : list Z)
  (csv_blocks flags : Z) (bytes_out : option (list Z)) (len : Z) : built :=
  let csv_len := scriptint_get_length csv_blocks in
  let script_len := 2 * (EC_PUBLIC_KEY_LEN + 1) + 6 + 1 + csv_len in
  match bytes_out with
  | None => (WALLY_EINVAL, 0, None)
  | Some mem =>
      if negb (blen bytes =? 2 * EC_PUBLIC_KEY_LEN) ||
         (csv_blocks <? 17) || (csv_blocks >? 0xffff) || negb (flags =? 0)
      then (WALLY_EINVAL, 0, Some mem)
      else if len <? script_len then (WALLY_OK, script_len, Some mem)
      else
        let main := firstn (Z.to_nat EC_PUBLIC_KEY_LEN) bytes in
        let recovery :=
          firstn (Z.to_nat EC_PUBLIC_KEY_LEN) (advance EC_PUBLIC_KEY_LEN bytes) in
        (WALLY_OK, script_len,
         Some (store_at 0
                 (csv_2of2_then_1_opt_script main recovery csv_len
                    (snd (scriptint_to_bytes csv_blocks))) mem))
  end.

Definition wally_witness_program_from_bytes_and_version (bytes : list Z)
  (version flags : Z) (bytes_out : option (list Z)) (len : Z) : built :=
  let v1plus_max_size := WALLY_WITNESSSCRIPT_MAX_LEN - 2 in
  let bytes_len := blen bytes in
  match bytes_out with
  | None => (WALLY_EINVAL, 0, None)
  | Some mem =>
      if (version >? 16) || negb (script_flags_ok flags WALLY_SCRIPT_AS_PUSH) ||
         (len =? 0)
      then (WALLY_EINVAL, 0, Some mem)
      else if (if negb (Z.land flags ALL_SCRIPT_HASH_FLAGS =? 0)
               then bytes_len =? 0
               else if (version =? 0) && negb (bytes_len =? HASH160_LEN) &&
                       negb (bytes_len =? SHA256_LEN)
               then true
               else (bytes_len <? 2) || (bytes_len >? v1plus_max_size))
      then (WALLY_EINVAL, 0, Some mem)
      else
        let as_push := negb (Z.land flags WALLY_SCRIPT_AS_PUSH =? 0) in
        if as_push && (len <? 2) then (WALLY_EINVAL, 0, Some mem)
        else
          let off := if as_push then 1 else 0 in
          let len := if as_push then len - 1 else len in
          let mem := store_at off [value_to_op_n version] mem in
          let '(ret, written, mem) :=
            script_push_at bytes (Z.ldiff flags WALLY_SCRIPT_AS_PUSH)
              mem (off + 1) (len - 1) in
          if ret =? WALLY_OK then
            let written := written + 1 in
            if as_push
            then (WALLY_OK, written + 1,
                  Some (store_at 0 [Z.land written 0xff] mem))
            else (WALLY_OK, written, Some mem)
          else (ret, written, Some mem)
  end.

Definition wally_witness_program_from_bytes (bytes : list Z) (flags : Z)
  (bytes_out : option (list Z)) (len : Z) : built :=
  wally_witness_program_from_bytes_and_version bytes 0 flags bytes_out len.

Definition wally_scriptpubkey_p2tr_from_bytes (bytes : list Z) (flags : Z)
  (bytes_out : option (list Z)) (len : Z) : built :=
  match bytes_out with
  | None => (WALLY_EINVAL, 0, None)
  | Some mem =>
      if (if BUILD_ELEMENTS then negb (Z.ldiff flags EC_FLAG_ELEMENTS =? 0)
          else negb (flags =? 0))
      then (WALLY_EINVAL, 0, Some mem)
      else if len <? WALLY_SCRIPTPUBKEY_P2TR_LEN
      then (WALLY_OK, WALLY_SCRIPTPUBKEY_P2TR_LEN, Some mem)
      else
        let '(ret, xonly) :=
          if blen bytes =? EC_PUBLIC_KEY_LEN then
            let '(r, tweaked) := wally_ec_public_key_bip341_tweak bytes flags in
            (r, skipn 1 (scratch 33 33 tweaked))
          else (WALLY_OK, bytes) in
        if negb (ret =? WALLY_OK) then (ret, 0, Some mem)
        else if negb (blen xonly =? EC_XONLY_PUBLIC_KEY_LEN)
        then (WALLY_EINVAL, 0, Some mem)
        else
          (WALLY_OK, WALLY_SCRIPTPUBKEY_P2TR_LEN,
           Some (store_at 0 (OP_1 :: blen xonly :: xonly) mem))
  end.
End Builders.

(** ** Peg-in contract script (Elements) *)

Section Pegin.
Context {C : crypto_ops} {E : secp256k1_ops}.

(** The key-push branch of the rewriter at the push [p] (output position
    [q], [bytes_len] bytes left): the code and the memory on a failing
    path ([inl]), the memory on the passing one ([inr]). *)
Definition pegin_tweak_key (p script : list Z) (mem : list Z)
  (q bytes_len : Z) : (Z * list Z) + list Z :=
  let key := firstn (Z.to_nat EC_PUBLIC_KEY_LEN) (advance 1 p) in
  match pubkey_parse key with
  | None => inl (WALLY_ERROR, mem)
  | Some pub_key =>
      let '(ret, tweak_buf) := wally_hmac_sha256 key script in
      let tweak := scratch 32 32 tweak_buf in
      if negb (ret =? WALLY_OK) then inl (ret, mem)
      else
        match pubkey_tweak_add pub_key tweak with
        | None => inl (WALLY_ERROR, mem)
        | Some pub_key_tweaked =>
            match pubkey_serialize pub_key_tweaked with
            | None => inl (WALLY_ERROR, mem)
            | Some ser_pub_key =>
                let '(ret, _, mem) :=
                  script_push_at ser_pub_key 0 mem q bytes_len in
                if negb (ret =? WALLY_OK) then inl (ret, mem)
                else
                  (* sanity checks as per elementsd *)
                  match pubkey_create tweak with
                  | None => inl (WALLY_ERROR, mem)
                  | Some pub_key_from_tweak =>
                      match pubkey_negate pub_key with
                      | None => inl (WALLY_ERROR, mem)
                      | Some neg_key =>
                          match pubkey_combine neg_key pub_key_tweaked with
                          | None => inl (WALLY_ERROR, mem)
                          | Some pub_key_combined =>
                              if pubkey_same pub_key_combined pub_key_from_tweak
                              then inr mem
                              else inl (WALLY_ERROR, mem)
                          end
                      end
                  end
            end
        end
  end.

(** The [for (;;)] loop: [p] is what is left of the redeem script, [q]
    the output position.  Every turn consumes at least one byte, so the
    turns are bounded by the script length; [None] is that bound running
    out (it does not on bytes, see [pegin_loop_total]). *)
Fixpoint pegin_loop (fuel : nat) (p script : list Z) (flags : Z)
  (mem : list Z) (q : Z) (op_else_found : bool) : option (Z * list Z) :=
  match fuel with
  | O => None
  | S fuel' =>
      let bytes_len := blen p in
      let next (n : Z) (mem : list Z) (op_else_found : bool) :=
        if bytes_len - n =? 0 then Some (WALLY_OK, mem)
        else pegin_loop fuel' (advance n p) script flags mem (q + n)
               op_else_found in
      match get_push_size p false with
      | Some size_out =>
          match get_push_size p true with
          | None => Some (WALLY_EINVAL, mem)
          | Some opcode_size =>
              let offset_siz := size_out + opcode_size in
              if bytes_len <? offset_siz then Some (WALLY_EINVAL, mem)
              else if (opcode_size =? 1) && (size_out =? EC_PUBLIC_KEY_LEN) &&
                      negb op_else_found
              then
                match pegin_tweak_key p script mem q bytes_len with
                | inl failed => Some failed
                | inr mem => next offset_siz mem op_else_found
                end
              else
                next offset_siz
                  (store_at q (firstn (Z.to_nat offset_siz) p) mem)
                  op_else_found
          end
      | None =>
          let op_else_found :=
            if (byte_at p 0 =? OP_ELSE) && (flags =? 0) then true
            else op_else_found in
          next 1 (store_at q [byte_at p 0] mem) op_else_found
      end
  end.

Definition wally_elements_pegin_contract_script_from_bytes
  (redeem_script script : list Z) (flags : Z)
  (bytes_out : option (list Z)) (len : Z) : option built :=
  let redeem_script_len := blen redeem_script in
  match bytes_out with
  | None => Some (WALLY_EINVAL, 0, None)
  | Some mem =>
      if (redeem_script_len =? 0) || (blen script =? 0) ||
         negb (flags =? 0) || negb (len =? redeem_script_len)
      then Some (WALLY_EINVAL, 0, Some mem)
      else
        match pegin_loop (length redeem_script) redeem_script script flags
                mem 0 false with
        | None => None
        | Some (ret, mem) =>
            if ret =? WALLY_OK
            then Some (WALLY_OK, redeem_script_len, Some mem)
            else Some (ret, 0, Some mem)
        end
  end.
End Pegin.

(** The 33-byte direct key pushes before the first OP_ELSE opcode, as the
    claim on the rewriter words them: the script is read opcode by opcode
    from offset [off]; a push (as [get_push_size] accepts it) is skipped
    with its data, and the reading stops at the first OP_ELSE opcode.  The
    result lists the offsets of the direct pushes of 33 bytes met. *)
Fixpoint key_push_offsets (fuel : nat) (off : Z) (p : list Z) : list Z :=
  match fuel with
  | O => []
  | S fuel' =>
      if blen p =? 0 then []
      else
        match get_push_size p true, get_push_size p false with
        | Some hdr, Some payload =>
            let rest :=
              key_push_offsets fuel' (off + (payload + hdr))
                (advance (payload + hdr) p) in
            if (hdr =? 1) && (payload =? EC_PUBLIC_KEY_LEN)
            then off :: rest else rest
        | _, _ =>
            if byte_at p 0 =? OP_ELSE then []
            else key_push_offsets fuel' (off + 1) (advance 1 p)
        end
  end.

(** Offset [i] lies inside one of those pushes (opcode byte and key). *)
Definition in_tweaked_key_push (redeem_script : list Z) (i : Z) : Prop :=
  exists off,
    In off (key_push_offsets (length redeem_script) 0 redeem_script) /\
    off <= i < off + 1 + EC_PUBLIC_KEY_LEN.

(** ** Vocabulary of the statements *)

(** The value of little-endian digits. *)
Fixpoint le_value (ds : list Z) : Z :=
  match ds with
  | [] => 0
  | d :: ds' => d + 256 * le_value ds'
  end.

(** Every element is a byte (decidable form of [Forall is_byte]). *)
Definition bytesb (l : list Z) : bool :=
  forallb (fun b => (0 <=? b) && (b <? 256)) l.

(** The 25-byte script OP_DUP OP_HASH160 0x14 <20 bytes> OP_EQUALVERIFY
    OP_CHECKSIG, and the offsets of its five opcode bytes. *)
Definition p2pkh_script (hash : list Z) : list Z :=
  [OP_DUP; OP_HASH160; 20] ++ hash ++ [OP_EQUALVERIFY; OP_CHECKSIG].

Definition p2pkh_opcode_offsets : list Z := [0; 1; 2; 23; 24].

(** A push of a 33- or 65-byte key, in any of the four push encodings. *)
Inductive key_push : list Z -> Prop :=
| key_push_direct (k : list Z) :
    is_pk_len (blen k) = true -> key_push (blen k :: k)
| key_push_data1 (k : list Z) :
    is_pk_len (blen k) = true -> key_push (OP_PUSHDATA1 :: blen k :: k)
| key_push_data2 (k : list Z) :
    is_pk_len (blen k) = true -> key_push (OP_PUSHDATA2 :: blen k :: 0 :: k)
| key_push_data4 (k : list Z) :
    is_pk_len (blen k) = true ->
    key_push (OP_PUSHDATA4 :: blen k :: 0 :: 0 :: 0 :: k).

(** The script OP_m <pushes> OP_k OP_CHECKMULTISIG, [k] the number of pushes. *)
Definition bare_multisig (m : Z) (pushes : list (list Z)) : list Z :=
  value_to_op_n m :: concat pushes
    ++ [value_to_op_n (Z.of_nat (length pushes)); OP_CHECKMULTISIG].

(** Every byte read from the buffer is a byte. *)
Definition bytes_ok (p : list Z) : Prop := forall i, is_byte (byte_at p i).

(** The code and the [*written] a builder returns. *)
Definition ret_of (r : built) : Z := fst (fst r).
Definition written_of (r : built) : Z := snd (fst r).

(** The order [qsort] sees on [n]-byte elements, and elements of that size. *)
Definition memcmp_n (n : nat) (a b : list Z) : Z := memcmp a b n.
Definition mem_le (n : nat) (a b : list Z) : Prop := memcmp a b n <= 0.
Definition sized (n : nat) (a : list Z) : Prop := length a = n.

(** A compressed serialisation has 33 bytes: what the rewriter's claim
    takes from secp256k1. *)
Definition serialize_is_compressed {E : secp256k1_ops} : Prop :=
  forall pk s, pubkey_serialize pk = Some s -> blen s = EC_PUBLIC_KEY_LEN.

(** The offsets the rewriter may still tweak from its current state, and an
    offset lying outside all the pushes that start at given offsets. *)
Definition pending_offsets (fuel : nat) (q : Z) (p : list Z)
  (op_else_found : bool) : list Z :=
  if op_else_found then [] else key_push_offsets fuel q p.

Definition outside (offs : list Z) (i : Z) : Prop :=
  forall off, In off offs -> ~ (off <= i < off + 1 + EC_PUBLIC_KEY_LEN).

(** ** Stand-ins for the collaborators

    Concrete instances on which the model can be run: constant digests, and
    the integers under addition in place of the curve. *)
Definition example_crypto : crypto_ops :=
  {| wally_hash160 := fun bytes => (WALLY_OK, repeat 0x11 20);
     wally_sha256 := fun bytes => (WALLY_OK, repeat 0x22 32);
     wally_hmac_sha256 := fun key msg => (WALLY_OK, repeat 0x05 32);
     wally_ec_public_key_bip341_tweak :=
       fun bytes flags => (WALLY_OK, 0x02 :: repeat 0x33 32);
     wally_ec_sig_to_der := fun sig => (WALLY_OK, 0x30 :: repeat 0x44 69);
     BUILD_ELEMENTS := true;
     EC_FLAG_ELEMENTS := 0x10 |}.

Definition example_secp256k1 : secp256k1_ops :=
  {| secp256k1_pubkey := Z;
     pubkey_parse := fun key => Some (byte_at key 1);
     pubkey_tweak_add := fun pk tweak => Some (pk + byte_at tweak 0);
     pubkey_serialize := fun pk => Some (0x02 :: Z.land pk 0xff :: repeat 0 31);
     pubkey_create := fun tweak => Some (byte_at tweak 0);
     pubkey_negate := fun pk => Some (- pk);
     pubkey_combine := fun a b => Some (a + b);
     pubkey_same := Z.eqb |}.

(** A redeem script with one key push on each side of OP_ELSE. *)
Definition example_redeem_script : list Z :=
  [33] ++ repeat 0x07 33 ++ [OP_CHECKSIGVERIFY; OP_ELSE; 33]
    ++ repeat 0x09 33 ++ [OP_CHECKSIG].

(** ** The rest of src/script.c *)

(** Modelled from the spec: the AllocationFailure code of
    include/wally_core.h (not under src/). *)
Definition WALLY_ENOMEM : Z := -3.

(** Modelled from the spec: the scratch size of include/wally_script.h (not
    under src/) for a pay-to-pubkey-hash scriptSig, a pushed signature of at
    most 73 bytes and a pushed key of at most 65. *)
Definition WALLY_SCRIPTSIG_P2PKH_MAX_LEN : Z := 140.

Definition script_get_push_size_from_bytes (bytes : list Z) : option Z :=
  get_push_size bytes false.

Definition script_get_push_opcode_size_from_bytes (bytes : list Z)
  : option Z :=
  get_push_size bytes true.

(** [wally_varint_get_length]: the code and [*written]. *)
Definition wally_varint_get_length (value : Z) : Z * Z :=
  (WALLY_OK, varint_get_length value).

Definition wally_varint_to_bytes (value : Z) (bytes_out : option (list Z))
  (len : Z) : built :=
  match bytes_out with
  | None => (WALLY_EINVAL, 0, None)
  | Some mem =>
      if len <? varint_get_length value then (WALLY_EINVAL, 0, Some mem)
      else
        let '(n, bs) := varint_to_bytes value in
        (WALLY_OK, n, Some (store_at 0 bs mem))
  end.

(** [varbuff_to_bytes]: the returned count and the bytes stored at
    [bytes_out], in order. *)
Definition varbuff_to_bytes (bytes : list Z) : Z * list Z :=
  let bytes_len := blen bytes in
  let '(n, prefix) := varint_to_bytes bytes_len in
  (n + bytes_len, prefix ++ (if bytes_len =? 0 then [] else bytes)).

(** [confidential_value_to_bytes]: the returned count and the bytes stored. *)
Definition confidential_value_to_bytes (bytes : list Z) : Z * list Z :=
  let bytes_len := blen bytes in
  (if bytes_len =? 0 then 1 else bytes_len,
   if bytes_len =? 0 then [0] else bytes).

Section CommitmentVarint.
Context {P : ct_prefixes}.

(** [confidential_commitment_varint_from_bytes]: the returned size and
    [*v].  The [switch] is read in the order of its labels. *)
Definition confidential_commitment_varint_from_bytes (bytes : list Z)
  (ct_value : bool) : Z * Z :=
  let b := byte_at bytes 0 in
  if b =? WALLY_TX_ASSET_CT_EXPLICIT_PREFIX then
    let v := if ct_value then WALLY_TX_ASSET_CT_VALUE_UNBLIND_LEN
             else WALLY_TX_ASSET_CT_LEN in
    (v, v)
  else if (b =? WALLY_TX_ASSET_CT_VALUE_PREFIX_A) ||
          (b =? WALLY_TX_ASSET_CT_VALUE_PREFIX_B) ||
          (b =? WALLY_TX_ASSET_CT_ASSET_PREFIX_A) ||
          (b =? WALLY_TX_ASSET_CT_ASSET_PREFIX_B) ||
          (b =? WALLY_TX_ASSET_CT_NONCE_PREFIX_A) ||
          (b =? WALLY_TX_ASSET_CT_NONCE_PREFIX_B)
  then (WALLY_TX_ASSET_CT_LEN, WALLY_TX_ASSET_CT_LEN)
  else (1, 0).

Definition confidential_asset_varint_from_bytes (bytes : list Z) : Z * Z :=
  confidential_commitment_varint_from_bytes bytes false.

Definition confidential_value_varint_from_bytes (bytes : list Z) : Z * Z :=
  confidential_commitment_varint_from_bytes bytes true.

Definition confidential_nonce_varint_from_bytes (bytes : list Z) : Z * Z :=
  confidential_commitment_varint_from_bytes bytes false.
End CommitmentVarint.

(** ** Peg-out script (Elements) *)

Definition wally_elements_pegout_script_size
  (genesis_blockhash_len mainchain_script_len sub_pubkey_len
     whitelistproof_len : Z) : Z * Z :=
  (WALLY_OK,
   1 + script_get_push_size genesis_blockhash_len
     + script_get_push_size mainchain_script_len
     + script_get_push_size sub_pubkey_len
     + script_get_push_size whitelistproof_len).

Section Pegout.
Context {C : crypto_ops}.

(** The state the macro [pegout_script_push] works on: the offset of
    [bytes_out] in the caller's memory, [len], [bytes_written], [*written]
    and the memory. *)
Record pegout_state : Type := {
  po_off : Z;
  po_len : Z;
  po_bytes_written : Z;
  po_written : Z;
  po_mem : list Z
}.

(** One expansion of [pegout_script_push]: [inl] is a [return] with its
    code, [*written] and the memory. *)
Definition pegout_script_push (bytes : list Z) (st : pegout_state)
  : (Z * Z * list Z) + pegout_state :=
  if po_len st <? po_bytes_written st
  then inl (WALLY_OK, po_written st, po_mem st)
  else
    let off := po_off st + po_bytes_written st in
    let len := po_len st - po_bytes_written st in
    let '(ret, bytes_written, mem) :=
      script_push_at bytes 0 (po_mem st) off len in
    if negb (ret =? WALLY_OK) then inl (ret, po_written st, mem)
    else
      inr {| po_off := off; po_len := len; po_bytes_written := bytes_written;
             po_written := po_written st + bytes_written; po_mem := mem |}.

Definition wally_elements_pegout_script_from_bytes
  (genesis_blockhash mainchain_script sub_pubkey whitelistproof : list Z)
  (flags : Z) (bytes_out : option (list Z)) (len : Z) : built :=
  match bytes_out with
  | None => (WALLY_EINVAL, 0, None)
  | Some mem =>
      if negb (blen genesis_blockhash =? SHA256_LEN) ||
         (blen mainchain_script =? 0) ||
         negb (blen sub_pubkey =? EC_PUBLIC_KEY_LEN) ||
         (blen whitelistproof =? 0) || negb (flags =? 0) || (len =? 0)
      then (WALLY_EINVAL, 0, Some mem)
      else
        let st :=
          {| po_off := 0; po_len := len; po_bytes_written := 1;
             po_written := 0 + 1; po_mem := store_at 0 [OP_RETURN] mem |} in
        let finish (r : Z * Z * list Z) : built :=
          let '(ret, written, mem) := r in (ret, written, Some mem) in
        match pegout_script_push genesis_blockhash st with
        | inl r => finish r
        | inr st =>
            match pegout_script_push mainchain_script st with
            | inl r => finish r
            | inr st =>
                match pegout_script_push sub_pubkey st with
                | inl r => finish r
                | inr st =>
                    match pegout_script_push whitelistproof st with
                    | inl r => finish r
                    | inr st => (WALLY_OK, po_written st, Some (po_mem st))
                    end
                end
            end
        end
  end.
End Pegout.

(** ** Witness stacks *)

(** The witness-stack container and the allocator are collaborators: a
    stack type, the two calls the code makes on it with their codes
    ([None] is no stack allocated), and whether [wally_malloc] of a size
    succeeds. *)
Class witness_stack_ops : Type := {
  wally_tx_witness_stack : Type;
  wally_tx_witness_stack_init_alloc : Z -> Z * option wally_tx_witness_stack;
  wally_tx_witness_stack_add :
    wally_tx_witness_stack -> list Z -> Z * wally_tx_witness_stack;
  wally_malloc : Z -> bool
}.

Section Witness.
Context {C : crypto_ops} {W : witness_stack_ops}.

(** The [while] loop of [scriptsig_to_witness] on what is left of the
    buffer.  Every successful turn consumes a push, at least its opcode
    byte, so the buffer length bounds the turns; [None] is that bound
    running out (it does not, see [scriptsig_to_witness_loop_total]). *)
Fixpoint scriptsig_to_witness_loop (fuel : nat) (p : list Z)
  (output : wally_tx_witness_stack) : option (Z * wally_tx_witness_stack) :=
  if blen p =? 0 then Some (WALLY_OK, output)
  else
    match fuel with
    | O => None
    | S fuel' =>
        match script_get_push_size_from_bytes p with
        | None => Some (WALLY_EINVAL, output)
        | Some push_size =>
            match script_get_push_opcode_size_from_bytes p with
            | None => Some (WALLY_EINVAL, output)
            | Some opcode_size =>
                let p := advance opcode_size p in
                let '(ret, output) :=
                  wally_tx_witness_stack_add output
                    (firstn (Z.to_nat push_size) p) in
                if ret =? WALLY_OK
                then scriptsig_to_witness_loop fuel' (advance push_size p) output
                else Some (ret, output)
            end
        end
    end.

(** [scriptsig_to_witness]: the code and [*output] ([None] is NULL). *)
Definition scriptsig_to_witness (bytes : list Z)
  : option (Z * option wally_tx_witness_stack) :=
  if blen bytes =? 0 then Some (WALLY_EINVAL, None)
  else
    let '(ret, output) := wally_tx_witness_stack_init_alloc 2 in
    if negb (ret =? WALLY_OK) then Some (ret, None)
    else
      match output with
      | None => Some (ret, None)
      | Some output =>
          match scriptsig_to_witness_loop (length bytes) bytes output with
          | None => None
          | Some (ret, output) =>
              if ret =? WALLY_OK then Some (WALLY_OK, Some output)
              else Some (ret, None)
          end
      end.

Definition wally_witness_p2wpkh_from_der (pub_key sig : list Z)
  : option (Z * option wally_tx_witness_stack) :=
  let buff := repeat 0 (Z.to_nat WALLY_SCRIPTSIG_P2PKH_MAX_LEN) in
  let '(ret, written, buff) :=
    wally_scriptsig_p2pkh_from_der pub_key sig (Some buff)
      WALLY_SCRIPTSIG_P2PKH_MAX_LEN in
  if ret =? WALLY_OK then
    if written >? WALLY_SCRIPTSIG_P2PKH_MAX_LEN then Some (WALLY_ERROR, None)
    else
      match buff with
      | None => Some (WALLY_EINVAL, None)
      | Some buff => scriptsig_to_witness (firstn (Z.to_nat written) buff)
      end
  else Some (ret, None).

Definition wally_witness_p2wpkh_from_sig (pub_key sig : list Z) (sighash : Z)
  : option (Z * option wally_tx_witness_stack) :=
  let buff := repeat 0 (Z.to_nat WALLY_SCRIPTSIG_P2PKH_MAX_LEN) in
  let '(ret, written, buff) :=
    wally_scriptsig_p2pkh_from_sig pub_key sig sighash (Some buff)
      WALLY_SCRIPTSIG_P2PKH_MAX_LEN in
  if ret =? WALLY_OK then
    if written >? WALLY_SCRIPTSIG_P2PKH_MAX_LEN then Some (WALLY_ERROR, None)
    else
      match buff with
      | None => Some (WALLY_EINVAL, None)
      | Some buff => scriptsig_to_witness (firstn (Z.to_nat written) buff)
      end
  else Some (ret, None).

Definition wally_witness_p2tr_from_sig (sig : list Z)
  : Z * option wally_tx_witness_stack :=
  let sig_len := blen sig in
  if negb (sig_len =? 64) && negb (sig_len =? 65) then (WALLY_EINVAL, None)
  else
    let '(ret, witness) := wally_tx_witness_stack_init_alloc 1 in
    if ret =? WALLY_OK then
      match witness with
      | None => (ret, None)
      | Some witness =>
          let '(ret, witness) := wally_tx_witness_stack_add witness sig in
          if negb (ret =? WALLY_OK) then (ret, None)
          else (ret, Some witness)
      end
    else (ret, None).

Definition wally_witness_multisig_from_bytes (script bytes : list Z)
  (sighash : list Z) (flags : Z)
  : option (Z * option wally_tx_witness_stack) :=
  if blen script =? 0 then Some (WALLY_EINVAL, None)
  else
    match script_is_op_n (byte_at script 0) false with
    | None => Some (WALLY_EINVAL, None)
    | Some n_sigs =>
        if (n_sigs =? 0) || (n_sigs >? 15) then Some (WALLY_EINVAL, None)
        else
          (* OP_O ([sig + sighash_byte])+ [prevout_script] *)
          let buff_len :=
            1 + (1 + DER_AND_HASH_MAX_LEN) * n_sigs
              + script_get_push_size (blen script) in
          if negb (wally_malloc buff_len) then Some (WALLY_ENOMEM, None)
          else
            let buff := repeat 0 (Z.to_nat buff_len) in
            let '(ret, written, buff) :=
              wally_scriptsig_multisig_from_bytes script bytes sighash flags
                (Some buff) buff_len in
            if ret =? WALLY_OK then
              if written >? buff_len then Some (WALLY_ERROR, None)
              else
                match buff with
                | None => Some (WALLY_EINVAL, None)
                | Some buff =>
                    scriptsig_to_witness (firstn (Z.to_nat written) buff)
                end
            else Some (ret, None)
    end.
End Witness.

(** ** Vocabulary of the further statements *)

(** A push of [bytes] as [wally_script_push_from_bytes] stores it without
    hashing: the opcode bytes, then the data. *)
Definition push_encoding (bytes : list Z) : list Z :=
  push_opcode_bytes (blen bytes) ++ bytes.

(** The data [wally_script_push_from_bytes] pushes under [flags] once the
    hash (if any) has succeeded. *)
Definition push_payload {C : crypto_ops} (bytes : list Z) (flags : Z)
  : list Z :=
  if negb (Z.land flags WALLY_SCRIPT_HASH160 =? 0)
  then scratch 32 20 (snd (wally_hash160 bytes))
  else if negb (Z.land flags WALLY_SCRIPT_SHA256 =? 0)
  then scratch 32 32 (snd (wally_sha256 bytes))
  else bytes.

(** The memory of a builder's result, and its first [written] bytes. *)
Definition mem_of (r : built) : list Z :=
  match snd r with Some m => m | None => [] end.

Definition script_of (r : built) : list Z :=
  firstn (Z.to_nat (written_of r)) (mem_of r).

(** The scripts the further builders store: OP_HASH160 <20 bytes> OP_EQUAL,
    a witness program (version opcode, pushed program), and the peg-out
    script OP_RETURN <genesis hash> <mainchain script> <key> <proof>. *)
Definition p2sh_script (hash : list Z) : list Z :=
  [OP_HASH160; 20] ++ hash ++ [OP_EQUAL].

Definition witness_program (version : Z) (prog : list Z) : list Z :=
  value_to_op_n version :: push_encoding prog.

Definition pegout_script
  (genesis_blockhash mainchain_script sub_pubkey whitelistproof : list Z)
  : list Z :=
  OP_RETURN :: push_encoding genesis_blockhash
    ++ push_encoding mainchain_script ++ push_encoding sub_pubkey
    ++ push_encoding whitelistproof.

(** The scriptSig OP_0 <signature>... <script> of a multisig input. *)
Definition multisig_scriptsig (ders : list (list Z)) (script : list Z)
  : list Z :=
  OP_0 :: concat (map push_encoding ders) ++ push_encoding script.

Section WitnessItems.
Context {W : witness_stack_ops}.

(** Adding items to a witness stack one after the other, stopping at the
    first call of [wally_tx_witness_stack_add] that fails. *)
Fixpoint witness_add_all (items : list (list Z))
  (output : wally_tx_witness_stack) : Z * wally_tx_witness_stack :=
  match items with
  | [] => (WALLY_OK, output)
  | item :: items' =>
      let '(ret, output) := wally_tx_witness_stack_add output item in
      if ret =? WALLY_OK then witness_add_all items' output
      else (ret, output)
  end.

(** A stack allocated for [n] items and filled with [items]; the stack is
    freed (NULL is returned) when a call fails. *)
Definition witness_of_items (n : Z) (items : list (list Z))
  : Z * option wally_tx_witness_stack :=
  let '(ret, output) := wally_tx_witness_stack_init_alloc n in
  if negb (ret =? WALLY_OK) then (ret, None)
  else
    match output with
    | None => (ret, None)
    | Some output =>
        let '(ret, output) := witness_add_all items output in
        if ret =? WALLY_OK then (WALLY_OK, Some output) else (ret, None)
    end.
End WitnessItems.

(** A witness stack as the list of its items, last added last, with an
    allocator that never fails. *)
Definition example_witness_stack : witness_stack_ops :=
  {| wally_tx_witness_stack := list (list Z);
     wally_tx_witness_stack_init_alloc := fun n => (WALLY_OK, Some []);
     wally_tx_witness_stack_add := fun st item => (WALLY_OK, st ++ [item]);
     wally_malloc := fun n => true |}.

(** A delay the CSV builders accept with its script-integer encoding: [k]
    bytes [csv], one to three, which the decoder reads back after their
    count whatever follows. *)
Definition csv_encoding (v k : Z) (csv : list Z) : Prop :=
  17 <= v <= 65535 /\ length csv = Z.to_nat k /\ 1 <= k <= 3 /\
  forall rest, scriptint_from_bytes (k :: csv ++ rest) = (WALLY_OK, v).

Section PeginTweak.
Context {C : crypto_ops} {E : secp256k1_ops}.

(** The push the peg-in rewriter stores in place of the push of [key]
    under the contract [script]: the push of the serialised key tweaked by
    HMAC-SHA256(key, script); [None] when a step of the tweak fails. *)
Definition pegin_tweaked_push (key script : list Z) : option (list Z) :=
  match pubkey_parse key with
  | None => None
  | Some pub_key =>
      let '(ret, tweak_buf) := wally_hmac_sha256 key script in
      if negb (ret =? WALLY_OK) then None
      else
        match pubkey_tweak_add pub_key (scratch 32 32 tweak_buf) with
        | None => None
        | Some pub_key_tweaked =>
            match pubkey_serialize pub_key_tweaked with
            | None => None
            | Some ser_pub_key => Some (push_encoding ser_pub_key)
            end
        end
  end.
End PeginTweak.

(** The memory [m] has the size of [mem] and the same bytes from offset
    [len] on: what a call that writes only into the first [len] bytes of
    its buffer leaves of the memory around it. *)
Definition same_beyond (m mem : list Z) (len : Z) : Prop :=
  blen m = blen mem /\
  forall i, len <= i -> byte_at m i = byte_at mem i.

(** * Theorems *)

(** * Memory and buffers *)

Lemma store_length (mem : list Z) :
  forall off data, length (store off data mem) = length mem.
Proof.
  induction mem as [| m ms IH]; intros off data; cbn [store]; [reflexivity |].
  destruct off; [destruct data |]; cbn [length]; now rewrite ?IH.
Qed.

Lemma store_nil (mem : list Z) : forall off, store off [] mem = mem.
Proof.
  induction mem as [| m ms IH]; intros off; cbn [store]; [reflexivity |].
  destruct off; [reflexivity | now rewrite IH].
Qed.

(** A store that fits at offset 0 puts its data first. *)
Lemma store_0_fits (data : list Z) :
  forall mem, (length data <= length mem)%nat ->
  store 0 data mem = data ++ skipn (length data) mem.
Proof.
  induction data as [| d ds IH]; intros mem Hlen.
  - now rewrite store_nil.
  - destruct mem as [| m ms]; [cbn in Hlen; lia |].
    cbn [store length skipn app]. rewrite IH by (cbn in Hlen; lia). reflexivity.
Qed.

Lemma firstn_store_0 (data mem : list Z) :
  (length data <= length mem)%nat ->
  firstn (length data) (store 0 data mem) = data.
Proof.
  intros H. rewrite store_0_fits by exact H.
  rewrite firstn_app, Nat.sub_diag, firstn_all. cbn [firstn].
  now rewrite app_nil_r.
Qed.

(** Reading a memory after a store. *)
Lemma nth_store (mem : list Z) :
  forall off data i,
    nth i (store off data mem) 0
    = if (off <=? i)%nat && (i <? off + length data)%nat && (i <? length mem)%nat
      then nth (i - off) data 0 else nth i mem 0.
Proof.
  induction mem as [| m ms IH]; intros off data i; cbn [store].
  - destruct i; cbn [nth length]; now rewrite andb_false_r.
  - destruct off as [| o].
    + destruct data as [| d ds].
      * cbn [length]. rewrite Nat.add_0_r.
        replace (i <? 0)%nat with false by (symmetry; apply Nat.ltb_ge; lia).
        now rewrite andb_false_r.
      * destruct i as [| i]; [reflexivity |].
        cbn [nth length]. rewrite IH. cbn [Nat.leb Nat.add Nat.sub].
        rewrite Nat.sub_0_r. reflexivity.
    + destruct i as [| i]; [reflexivity |].
      cbn [nth length]. rewrite IH. reflexivity.
Qed.

Lemma blen_app (a b : list Z) : blen (a ++ b) = blen a + blen b.
Proof. unfold blen. rewrite length_app. lia. Qed.

Lemma blen_cons (a : Z) (b : list Z) : blen (a :: b) = 1 + blen b.
Proof. unfold blen. cbn [length]. lia. Qed.

Lemma blen_nonneg (a : list Z) : 0 <= blen a.
Proof. unfold blen. lia. Qed.

Lemma bytesb_ok (p : list Z) : bytesb p = true -> bytes_ok p.
Proof.
  unfold bytesb. rewrite forallb_forall. intros H i. unfold byte_at.
  destruct (nth_in_or_default (Z.to_nat i) p 0) as [Hin | ->];
    [| unfold is_byte; lia].
  apply H in Hin. unfold is_byte. lia.
Qed.

Lemma bytes_ok_advance (n : Z) (p : list Z) : bytes_ok p -> bytes_ok (advance n p).
Proof.
  intros H i. unfold byte_at, advance. rewrite nth_skipn.
  specialize (H (Z.of_nat (Z.to_nat n + Z.to_nat i))).
  unfold byte_at in H. now rewrite Nat2Z.id in H.
Qed.

Lemma blen_advance (n : Z) (p : list Z) :
  0 <= n <= blen p -> blen (advance n p) = blen p - n.
Proof. intros H. unfold blen, advance in *. rewrite length_skipn. lia. Qed.

Lemma byte_at_advance (n i : Z) (p : list Z) :
  0 <= n -> 0 <= i -> byte_at (advance n p) i = byte_at p (n + i).
Proof.
  intros Hn Hi. unfold byte_at, advance. rewrite nth_skipn. f_equal. lia.
Qed.

Lemma byte_at_firstn (n i : Z) (p : list Z) :
  0 <= i < n -> byte_at (firstn (Z.to_nat n) p) i = byte_at p i.
Proof.
  intros Hi. unfold byte_at. rewrite nth_firstn.
  now replace (Z.to_nat i <? Z.to_nat n)%nat with true
    by (symmetry; apply Nat.ltb_lt; lia).
Qed.

Lemma blen_store_at (off : Z) (data mem : list Z) :
  blen (store_at off data mem) = blen mem.
Proof. unfold blen, store_at. now rewrite store_length. Qed.

Lemma byte_at_store_at_out (off i : Z) (data mem : list Z) :
  0 <= off -> 0 <= i -> i < off \/ off + blen data <= i ->
  byte_at (store_at off data mem) i = byte_at mem i.
Proof.
  intros Ho Hi Hout. unfold byte_at, store_at, blen in *. rewrite nth_store.
  destruct (Nat.leb_spec (Z.to_nat off) (Z.to_nat i));
    destruct (Nat.ltb_spec (Z.to_nat i) (Z.to_nat off + length data));
    cbn [andb]; try reflexivity; lia.
Qed.

Lemma byte_at_store_at_in (off i : Z) (data mem : list Z) :
  0 <= off -> off <= i < off + blen data -> i < blen mem ->
  byte_at (store_at off data mem) i = byte_at data (i - off).
Proof.
  intros Ho Hi Hm. unfold byte_at, store_at, blen in *. rewrite nth_store.
  replace (Z.to_nat off <=? Z.to_nat i)%nat with true
    by (symmetry; apply Nat.leb_le; lia).
  replace (Z.to_nat i <? Z.to_nat off + length data)%nat with true
    by (symmetry; apply Nat.ltb_lt; lia).
  replace (Z.to_nat i <? length mem)%nat with true
    by (symmetry; apply Nat.ltb_lt; lia).
  cbn [andb]. f_equal. lia.
Qed.

(** * Integer codecs *)

Lemma testbit_above (v n i : Z) :
  0 <= v < 2 ^ n -> 0 <= n <= i -> Z.testbit v i = false.
Proof.
  intros Hv Hn. rewrite <- (Z.mod_small v (2 ^ n)) by lia.
  apply Z.mod_pow2_bits_high; lia.
Qed.

Lemma testbit_255 (m : Z) : Z.testbit 255 m = (0 <=? m) && (m <? 8).
Proof.
  change 255 with (Z.ones 8).
  destruct (Z.leb_spec 0 m); [| now rewrite Z.testbit_neg_r by lia].
  destruct (Z.ltb_spec m 8).
  - now rewrite Z.ones_spec_low by lia.
  - now rewrite Z.ones_spec_high by lia.
Qed.

(** Bit [i] of the byte of [v] at bit offset [j], put back at offset [j]. *)
Lemma byte_field_bit (v j i : Z) :
  0 <= j -> 0 <= i ->
  Z.testbit (Z.shiftl (Z.land (Z.shiftr v j) 255) j) i
  = (j <=? i) && (i <? j + 8) && Z.testbit v i.
Proof.
  intros Hj Hi. rewrite Z.shiftl_spec by lia.
  destruct (Z.leb_spec j i).
  - rewrite Z.land_spec, Z.shiftr_spec, testbit_255 by lia.
    replace (i - j + j) with i by lia.
    replace (0 <=? i - j) with true by (symmetry; apply Z.leb_le; lia).
    destruct (Z.ltb_spec (i - j) 8), (Z.ltb_spec i (j + 8)); try lia;
      cbn; now rewrite ?andb_true_r, ?andb_false_r.
  - now rewrite Z.testbit_neg_r by lia.
Qed.

Lemma u64_bit (x i : Z) : Z.testbit (u64 x) i = (i <? 64) && Z.testbit x i.
Proof. unfold u64. apply Z.testbit_mod_pow2. lia. Qed.

Ltac decide_cmp :=
  repeat match goal with
    | |- context [?a <=? ?b] =>
        first [ replace (a <=? b) with true by (symmetry; apply Z.leb_le; lia)
              | replace (a <=? b) with false by (symmetry; apply Z.leb_gt; lia) ]
    | |- context [?a <? ?b] =>
        first [ replace (a <? b) with true by (symmetry; apply Z.ltb_lt; lia)
              | replace (a <? b) with false by (symmetry; apply Z.ltb_ge; lia) ]
    end.

Lemma land_255_small (v : Z) : 0 <= v < 256 -> Z.land v 255 = v.
Proof.
  intros. change 255 with (Z.ones 8). rewrite Z.land_ones by lia.
  apply Z.mod_small. lia.
Qed.

Lemma land_255_range (v : Z) : 0 <= Z.land v 255 < 256.
Proof.
  change 255 with (Z.ones 8). rewrite Z.land_ones by lia.
  apply Z.mod_pos_bound. lia.
Qed.

Lemma vb_le_field (v : Z) (l : list Z) (n j : Z) :
  0 <= j -> j = (n - 1) * 8 ->
  byte_at l n = Z.land (Z.shiftr v j) 255 ->
  forall i, 0 <= i ->
  Z.testbit (vb l n) i = (i <? 64) && ((j <=? i) && (i <? j + 8) && Z.testbit v i).
Proof.
  intros Hj Hn Hb i Hi. unfold vb. rewrite u64_bit, Hb, <- Hn.
  now rewrite byte_field_bit by lia.
Qed.

Ltac bool_tidy :=
  cbn [andb orb negb];
  rewrite ?andb_false_r, ?andb_true_r, ?orb_false_r, ?orb_false_l;
  cbn [andb orb negb].

Ltac le_field_case v n :=
  decide_cmp; bool_tidy;
  first [ reflexivity | symmetry; apply (testbit_above v n); lia ].

Lemma decode16 v rest t : 0 <= v < 2 ^ 16 ->
  let l := t :: le_bytes 2 v ++ rest in
  Z.lor (vb l 2) (vb l 1) = v.
Proof.
  intros Hv l. apply Z.bits_inj'. intros i Hi.
  rewrite !Z.lor_spec.
  rewrite (vb_le_field v l 2 8), (vb_le_field v l 1 0) by (try lia; reflexivity).
  assert (Hc : i < 8 \/ 8 <= i < 16 \/ 16 <= i) by lia.
  destruct Hc as [Hc | [Hc | Hc]]; le_field_case v 16.
Qed.

Lemma decode32 v rest t : 0 <= v < 2 ^ 32 ->
  let l := t :: le_bytes 4 v ++ rest in
  Z.lor (Z.lor (Z.lor (vb l 4) (vb l 3)) (vb l 2)) (vb l 1) = v.
Proof.
  intros Hv l. apply Z.bits_inj'. intros i Hi.
  rewrite !Z.lor_spec.
  rewrite (vb_le_field v l 4 24), (vb_le_field v l 3 16),
    (vb_le_field v l 2 8), (vb_le_field v l 1 0) by (try lia; reflexivity).
  assert (Hc : i < 8 \/ 8 <= i < 16 \/ 16 <= i < 24 \/ 24 <= i < 32 \/ 32 <= i)
    by lia.
  destruct Hc as [Hc | [Hc | [Hc | [Hc | Hc]]]]; le_field_case v 32.
Qed.

Lemma decode64 v rest t : 0 <= v < 2 ^ 64 ->
  let l := t :: le_bytes 8 v ++ rest in
  Z.lor (Z.lor (Z.lor (Z.lor (Z.lor (Z.lor (Z.lor
    (vb l 8) (vb l 7)) (vb l 6)) (vb l 5)) (vb l 4)) (vb l 3)) (vb l 2)) (vb l 1)
  = v.
Proof.
  intros Hv l. apply Z.bits_inj'. intros i Hi.
  rewrite !Z.lor_spec.
  rewrite (vb_le_field v l 8 56), (vb_le_field v l 7 48),
    (vb_le_field v l 6 40), (vb_le_field v l 5 32),
    (vb_le_field v l 4 24), (vb_le_field v l 3 16),
    (vb_le_field v l 2 8), (vb_le_field v l 1 0) by (try lia; reflexivity).
  assert (Hc : i < 8 \/ 8 <= i < 16 \/ 16 <= i < 24 \/ 24 <= i < 32 \/
               32 <= i < 40 \/ 40 <= i < 48 \/ 48 <= i < 56 \/ 56 <= i < 64 \/
               64 <= i) by lia.
  destruct Hc as [Hc | [Hc | [Hc | [Hc | [Hc | [Hc | [Hc | [Hc | Hc]]]]]]]];
    le_field_case v 64.
Qed.

(** C3: for every unsigned 64-bit value [v], decoding the bytes the varint
    encoder produces (whatever follows them in the buffer) yields [v] and the
    number of bytes the encoder wrote, and that number is
    [varint_get_length v], the minimal-form length: 1 byte for [v <= 252],
    3 for [v <= 0xFFFF], 5 for [v <= 0xFFFFFFFF], 9 otherwise. *)
Theorem varint_roundtrip (v : Z) (rest : list Z) :
  0 <= v < 2 ^ 64 ->
  varint_from_bytes (snd (varint_to_bytes v) ++ rest)
    = (fst (varint_to_bytes v), v) /\
  fst (varint_to_bytes v) = blen (snd (varint_to_bytes v)) /\
  fst (varint_to_bytes v) = varint_get_length v /\
  varint_get_length v =
    (if v <=? 252 then 1 else if v <=? 0xFFFF then 3
     else if v <=? 0xFFFFFFFF then 5 else 9).
Proof.
  intros Hv. unfold varint_to_bytes, varint_get_length, VI_MAX_8, VI_MAX_16, VI_MAX_32.
  destruct (Z.leb_spec v 252) as [H8 | H8];
    [| destruct (Z.leb_spec v 65535) as [H16 | H16];
       [| destruct (Z.leb_spec v 4294967295) as [H32 | H32]]].
  - repeat split. unfold varint_from_bytes, uint8_to_le_bytes.
    cbn [fst snd le_bytes app byte_at nth Z.to_nat].
    rewrite land_255_small by lia. unfold VI_TAG_16, VI_TAG_32, VI_TAG_64.
    destruct (Z.eqb_spec v 253); [lia |].
    destruct (Z.eqb_spec v 254); [lia |].
    destruct (Z.eqb_spec v 255); [lia | reflexivity].
  - repeat split. unfold varint_from_bytes, uint16_to_le_bytes.
    cbn [fst snd]. change (byte_at _ 0) with VI_TAG_16. cbn [Z.eqb VI_TAG_16 Pos.eqb].
    f_equal. apply (decode16 v rest VI_TAG_16). lia.
  - repeat split. unfold varint_from_bytes, uint32_to_le_bytes.
    cbn [fst snd]. change (byte_at _ 0) with VI_TAG_32.
    change (VI_TAG_32 =? VI_TAG_16) with false. change (VI_TAG_32 =? VI_TAG_32) with true.
    cbv iota. f_equal. apply (decode32 v rest VI_TAG_32). lia.
  - repeat split. unfold varint_from_bytes, uint64_to_le_bytes.
    cbn [fst snd]. change (byte_at _ 0) with VI_TAG_64.
    change (VI_TAG_64 =? VI_TAG_16) with false. change (VI_TAG_64 =? VI_TAG_32) with false.
    change (VI_TAG_64 =? VI_TAG_64) with true.
    cbv iota. f_equal. apply (decode64 v rest VI_TAG_64). lia.
Qed.

Lemma varint_roundtrip_witness :
  0 <= 300 < 2 ^ 64 /\
  varint_from_bytes (snd (varint_to_bytes 300) ++ [7]) = (3, 300) /\
  varint_get_length 300 = 3.
Proof.
  assert (H : 0 <= 300 < 2 ^ 64) by lia.
  destruct (varint_roundtrip 300 [7] H) as (Hd & _ & Hl & _).
  split; [exact H | split; [exact Hd | symmetry; exact Hl]].
Defined.

Lemma land_255_mod (v : Z) : Z.land v 255 = v mod 256.
Proof. change 255 with (Z.ones 8). now rewrite Z.land_ones by lia. Qed.

Lemma land_low_shiftl (a b k : Z) :
  0 <= a < 2 ^ k -> 0 <= k -> Z.land a (Z.shiftl b k) = 0.
Proof.
  intros Ha Hk. apply Z.bits_inj'. intros i Hi.
  rewrite Z.land_spec, Z.bits_0.
  destruct (Z.lt_ge_cases i k).
  - now rewrite Z.shiftl_spec_low, andb_false_r by lia.
  - now rewrite (testbit_above a k i) by lia.
Qed.

Lemma lor_low_shiftl (a b k : Z) :
  0 <= a < 2 ^ k -> 0 <= k -> Z.lor a (Z.shiftl b k) = a + b * 2 ^ k.
Proof.
  intros Ha Hk. pose proof (Z.add_lor_land a (Z.shiftl b k)) as H.
  rewrite land_low_shiftl in H by lia. rewrite Z.shiftl_mul_pow2 in * by lia. lia.
Qed.

Lemma lxor_high_bit (m j : Z) :
  0 <= m < 2 ^ j -> 0 <= j -> Z.lxor (m + 2 ^ j) (2 ^ j) = m.
Proof.
  intros Hm Hj.
  replace (m + 2 ^ j) with (Z.lxor m (2 ^ j)).
  - now rewrite Z.lxor_assoc, Z.lxor_nilpotent, Z.lxor_0_r.
  - symmetry. apply Z.add_nocarry_lxor.
    replace (2 ^ j) with (Z.shiftl 1 j) by (rewrite Z.shiftl_mul_pow2; lia).
    apply land_low_shiftl; lia.
Qed.

Lemma le_value_app (ds es : list Z) :
  le_value (ds ++ es) = le_value ds + 2 ^ (8 * blen ds) * le_value es.
Proof.
  induction ds as [| d ds IH]; cbn [app le_value].
  - change (blen []) with 0. rewrite Z.mul_0_r, Z.pow_0_r. lia.
  - rewrite IH. unfold blen. cbn [length]. rewrite Nat2Z.inj_succ.
    replace (8 * Z.succ (Z.of_nat (length ds))) with (8 + 8 * Z.of_nat (length ds)) by lia.
    rewrite Z.pow_add_r by lia. lia.
Qed.

Lemma le_value_bound (ds : list Z) :
  Forall is_byte ds -> 0 <= le_value ds < 2 ^ (8 * blen ds).
Proof.
  induction 1 as [| d ds Hd _ IH]; cbn [le_value].
  - change (blen []) with 0. rewrite Z.mul_0_r, Z.pow_0_r. lia.
  - unfold blen in *. cbn [length]. rewrite Nat2Z.inj_succ.
    replace (8 * Z.succ (Z.of_nat (length ds))) with (8 + 8 * Z.of_nat (length ds)) by lia.
    rewrite Z.pow_add_r by lia. unfold is_byte in Hd. lia.
Qed.

(** What the encoder's loop returns: the digits of [v] after [out]. *)
Lemma scriptint_to_loop_digits (fuel : nat) :
  forall v out last, 0 <= v < 2 ^ (8 * Z.of_nat fuel) ->
  exists ds l,
    scriptint_to_loop fuel v out last = (out ++ ds, l) /\
    Forall is_byte ds /\ le_value ds = v /\
    ((v = 0 /\ ds = [] /\ l = last) \/
     (exists ds', ds = ds' ++ [l] /\ 1 <= l)).
Proof.
  induction fuel as [| f IH]; intros v out last Hv.
  - assert (v = 0) by (cbn in Hv; lia). subst v. exists [], last. cbn.
    rewrite app_nil_r. repeat split; auto.
  - cbn [scriptint_to_loop]. destruct (Z.eqb_spec v 0) as [-> | Hnz].
    + exists [], last. rewrite app_nil_r. repeat split; auto.
    + rewrite land_255_mod, Z.shiftr_div_pow2 by lia. change (2 ^ 8) with 256.
      assert (Hq : 0 <= v / 256 < 2 ^ (8 * Z.of_nat f)).
      { rewrite Nat2Z.inj_succ in Hv.
        replace (8 * Z.succ (Z.of_nat f)) with (8 + 8 * Z.of_nat f) in Hv by lia.
        rewrite Z.pow_add_r in Hv by lia. change (2 ^ 8) with 256 in Hv.
        split; [apply Z.div_pos; lia | apply Z.div_lt_upper_bound; lia]. }
      destruct (IH (v / 256) (out ++ [v mod 256]) (v mod 256) Hq)
        as (ds & l & Heq & Hb & Hval & Hshape).
      exists (v mod 256 :: ds), l. rewrite Heq, <- app_assoc. cbn [app].
      assert (Hm : 0 <= v mod 256 < 256) by (apply Z.mod_pos_bound; lia).
      repeat split.
      * constructor; [exact Hm | exact Hb].
      * cbn [le_value]. rewrite Hval. pose proof (Z.div_mod v 256). lia.
      * right. destruct Hshape as [(Hz & -> & ->) | (ds' & -> & Hl)].
        -- exists []. split; [reflexivity |].
           pose proof (Z.div_mod v 256). lia.
        -- exists (v mod 256 :: ds'). split; [reflexivity | exact Hl].
Qed.

Lemma scriptint_len_loop_to_loop (fuel : nat) :
  forall v out last len,
    scriptint_len_loop fuel v len last
    = (len + blen (fst (scriptint_to_loop fuel v out last)) - blen out,
       snd (scriptint_to_loop fuel v out last)).
Proof.
  induction fuel as [| f IH]; intros v out last len; cbn [scriptint_len_loop scriptint_to_loop].
  - destruct (v =? 0); cbn [fst snd]; f_equal; lia.
  - destruct (v =? 0); cbn [fst snd]; [f_equal; lia |].
    rewrite (IH _ (out ++ [Z.land v 255])). f_equal.
    unfold blen. rewrite length_app. cbn [length]. lia.
Qed.

(** The decoder's loop over digits [ds] lying after [pre] in the buffer. *)
Lemma scriptint_from_loop_digits (ds : list Z) :
  forall pre rest i value mask,
    Forall is_byte ds -> blen pre = i + 1 -> 0 <= i -> 0 <= value < 2 ^ (8 * i) ->
    scriptint_from_loop (pre ++ ds ++ rest) (length ds) i value mask
    = (value + 2 ^ (8 * i) * le_value ds, mask * 2 ^ (8 * blen ds)).
Proof.
  induction ds as [| d ds IH]; intros pre rest i value mask Hb Hpre Hi Hv.
  - cbn [length scriptint_from_loop le_value]. change (blen []) with 0.
    rewrite Z.mul_0_r, Z.pow_0_r. f_equal; lia.
  - inversion Hb as [| ? ? Hd Hds]; subst.
    cbn [length scriptint_from_loop].
    assert (Hnth : byte_at (pre ++ (d :: ds) ++ rest) (i + 1) = d).
    { unfold byte_at. unfold blen in Hpre. rewrite app_nth2 by lia.
      replace (Z.to_nat (i + 1) - length pre)%nat with 0%nat by lia. reflexivity. }
    rewrite Hnth.
    replace (pre ++ (d :: ds) ++ rest) with ((pre ++ [d]) ++ ds ++ rest)
      by (rewrite <- app_assoc; reflexivity).
    rewrite IH; try assumption.
    + rewrite lor_low_shiftl, Z.shiftl_mul_pow2 by lia.
      cbn [le_value]. unfold blen. cbn [length]. rewrite Nat2Z.inj_succ.
      replace (8 * (i + 1)) with (8 * i + 8) by lia.
      replace (8 * Z.succ (Z.of_nat (length ds))) with (8 + 8 * Z.of_nat (length ds)) by lia.
      rewrite !Z.pow_add_r by lia. f_equal; lia.
    + unfold blen in *. rewrite length_app. cbn [length]. lia.
    + lia.
    + rewrite lor_low_shiftl by lia. unfold is_byte in Hd.
      replace (8 * (i + 1)) with (8 * i + 8) by lia.
      rewrite Z.pow_add_r by lia. nia.
Qed.

Lemma scriptint_to_loop_fuel (fuel : nat) :
  forall v out last k, 0 <= v < 2 ^ (8 * Z.of_nat fuel) ->
  scriptint_to_loop (fuel + k) v out last = scriptint_to_loop fuel v out last.
Proof.
  induction fuel as [| f IH]; intros v out last k Hv.
  - assert (v = 0) by (cbn in Hv; lia). subst v. now destruct k.
  - cbn [Nat.add scriptint_to_loop]. destruct (Z.eqb_spec v 0); [reflexivity |].
    apply IH. rewrite Z.shiftr_div_pow2 by lia. change (2 ^ 8) with 256.
    rewrite Nat2Z.inj_succ in Hv.
    replace (8 * Z.succ (Z.of_nat f)) with (8 + 8 * Z.of_nat f) in Hv by lia.
    rewrite Z.pow_add_r in Hv by lia. change (2 ^ 8) with 256 in Hv.
    split; [apply Z.div_pos; lia | apply Z.div_lt_upper_bound; lia].
Qed.

Lemma scriptint_len_loop_fuel (fuel : nat) :
  forall v len last k, 0 <= v < 2 ^ (8 * Z.of_nat fuel) ->
  scriptint_len_loop (fuel + k) v len last = scriptint_len_loop fuel v len last.
Proof.
  intros v len last k Hv.
  rewrite !(scriptint_len_loop_to_loop _ v [] last len).
  now rewrite scriptint_to_loop_fuel.
Qed.

Lemma scriptint_magnitude_range (signed_v : Z) :
  0 <= scriptint_magnitude signed_v < 2 ^ (8 * Z.of_nat 8).
Proof. unfold scriptint_magnitude, u64. apply Z.mod_pos_bound. reflexivity. Qed.

Lemma land_128 (l : Z) :
  0 <= l < 256 -> Z.land l 128 = if l <? 128 then 0 else 128.
Proof.
  intros Hl. change 128 with (Z.shiftl 1 7) at 1.
  destruct (Z.ltb_spec l 128).
  - apply land_low_shiftl; lia.
  - replace l with (Z.lor (l - 128) (Z.shiftl 1 7))
      by (rewrite lor_low_shiftl; lia).
    rewrite Z.land_lor_distr_l, Z.land_diag, land_low_shiftl by lia.
    reflexivity.
Qed.

Lemma lor_128 (l : Z) : 0 <= l < 128 -> Z.lor l 128 = l + 128.
Proof.
  intros. change 128 with (Z.shiftl 1 7) at 1.
  rewrite lor_low_shiftl by lia. reflexivity.
Qed.

Lemma or_last_snoc (ds : list Z) (l m : Z) :
  or_last (ds ++ [l]) m = ds ++ [Z.lor l m].
Proof.
  unfold or_last. rewrite rev_app_distr. cbn [rev app].
  now rewrite rev_involutive.
Qed.

(** Decoding digits [ds ++ [l]] presented after their count. *)
Lemma scriptint_from_bytes_digits (ds : list Z) (l : Z) (rest : list Z) :
  Forall is_byte ds -> is_byte l -> blen ds <= 3 ->
  scriptint_from_bytes (blen (ds ++ [l]) :: (ds ++ [l]) ++ rest)
  = (WALLY_OK,
     if l <? 128 then le_value ds + l * 2 ^ (8 * blen ds)
     else - (le_value ds + (l - 128) * 2 ^ (8 * blen ds))).
Proof.
  intros Hds Hl Hk. unfold scriptint_from_bytes.
  pose proof (blen_nonneg ds) as Hk0. pose proof (blen_nonneg rest) as Hr0.
  assert (Hn : blen (ds ++ [l]) = blen ds + 1) by (rewrite blen_app; reflexivity).
  set (bytes := blen (ds ++ [l]) :: (ds ++ [l]) ++ rest).
  assert (Hlen : blen bytes = 1 + (blen ds + 1) + blen rest).
  { unfold bytes, blen. cbn [length]. rewrite !length_app. cbn [length]. lia. }
  assert (Hb0 : byte_at bytes 0 = blen ds + 1) by (unfold bytes; rewrite Hn; reflexivity).
  rewrite Hb0, Hlen.
  replace (1 + (blen ds + 1) + blen rest <? 1) with false
    by (symmetry; apply Z.ltb_ge; lia).
  replace (1 + (blen ds + 1) + blen rest <=? blen ds + 1) with false
    by (symmetry; apply Z.leb_gt; lia).
  replace (blen ds + 1 >? 4) with false
    by (symmetry; rewrite Z.gtb_ltb; apply Z.ltb_ge; lia).
  cbn [orb].
  assert (Hall : Forall is_byte (ds ++ [l])) by (apply Forall_app; auto).
  replace (Z.to_nat (blen ds + 1)) with (length (ds ++ [l]))
    by (rewrite <- Hn; unfold blen; now rewrite Nat2Z.id).
  pose proof (scriptint_from_loop_digits (ds ++ [l]) [blen (ds ++ [l])] rest
                0 0 128 Hall) as Hloop.
  cbn [app] in Hloop. fold bytes in Hloop.
  rewrite Hloop by (try reflexivity; cbn; lia). clear Hloop.
  assert (Hlast : byte_at bytes (blen ds + 1) = l).
  { unfold bytes, byte_at.
    replace (Z.to_nat (blen ds + 1)) with (S (length ds))
      by (unfold blen; lia).
    cbn [nth]. rewrite <- app_assoc, app_nth2 by lia.
    now rewrite Nat.sub_diag. }
  rewrite Hlast, land_128 by exact Hl.
  rewrite le_value_app. cbn [le_value].
  pose proof (le_value_bound ds Hds) as Hv.
  assert (Hp : 0 < 2 ^ (8 * blen ds)) by (apply Z.pow_pos_nonneg; lia).
  change (8 * 0) with 0. rewrite Z.pow_0_r.
  destruct (Z.ltb_spec l 128) as [Hlt | Hge]; cbn [Z.eqb negb].
  - f_equal. lia.
  - f_equal. f_equal.
    rewrite Hn, Z.shiftr_div_pow2 by lia.
    replace (8 * (blen ds + 1)) with (8 * blen ds + 8) by lia.
    rewrite Z.pow_add_r by lia. change (2 ^ 8) with 256.
    replace (128 * (2 ^ (8 * blen ds) * 256) / 256) with (2 ^ (8 * blen ds + 7)).
    2:{ rewrite Z.pow_add_r by lia. change (2 ^ 7) with 128.
        replace (128 * (2 ^ (8 * blen ds) * 256))
          with ((2 ^ (8 * blen ds) * 128) * 256) by lia.
        now rewrite Z.div_mul by lia. }
    replace (0 + 1 * (le_value ds + 2 ^ (8 * blen ds) * (l + 256 * 0)))
      with ((le_value ds + (l - 128) * 2 ^ (8 * blen ds)) + 2 ^ (8 * blen ds + 7)).
    2:{ rewrite Z.pow_add_r by lia. change (2 ^ 7) with 128. lia. }
    apply lxor_high_bit; [| lia].
    rewrite Z.pow_add_r by lia. change (2 ^ 7) with 128.
    unfold is_byte in Hl. nia.
Qed.

Lemma pow8_bound (k : Z) (m c : Z) :
  0 <= k -> 0 < c -> c * 2 ^ (8 * k) <= m -> m < 2 ^ 31 -> k <= 3.
Proof.
  intros Hk Hc Hm Hlt.
  destruct (Z.le_gt_cases k 3); [assumption |].
  assert (2 ^ (8 * 4) <= 2 ^ (8 * k)) by (apply Z.pow_le_mono_r; lia).
  change (2 ^ (8 * 4)) with 4294967296 in *. change (2 ^ 31) with 2147483648 in *. nia.
Qed.

Lemma pow8_bound_high (k : Z) (m l : Z) :
  0 <= k -> 128 <= l -> l * 2 ^ (8 * k) <= m -> m < 2 ^ 31 -> k <= 2.
Proof.
  intros Hk Hc Hm Hlt.
  destruct (Z.le_gt_cases k 2); [assumption |].
  assert (2 ^ (8 * 3) <= 2 ^ (8 * k)) by (apply Z.pow_le_mono_r; lia).
  change (2 ^ (8 * 3)) with 16777216 in *. change (2 ^ 31) with 2147483648 in *. nia.
Qed.

Lemma scriptint_from_bytes_zero (rest : list Z) :
  scriptint_from_bytes (0 :: rest) = (WALLY_OK, 0).
Proof.
  unfold scriptint_from_bytes. pose proof (blen_nonneg rest).
  change (byte_at (0 :: rest) 0) with 0.
  replace (blen (0 :: rest)) with (1 + blen rest)
    by (unfold blen; cbn [length]; lia).
  replace (1 + blen rest <? 1) with false by (symmetry; apply Z.ltb_ge; lia).
  replace (1 + blen rest <=? 0) with false by (symmetry; apply Z.leb_gt; lia).
  reflexivity.
Qed.

(** C4: for every signed [v] with [|v| < 2^31], the decoder applied to the
    encoder's output presented after its length byte returns WALLY_OK and
    [v]; the encoder's count is the number of bytes it stores and equals
    [scriptint_get_length v]; encoding 0 stores no byte, 128 stores
    [0x80; 0x00] and -128 stores [0x80; 0x80]. *)
Theorem scriptint_roundtrip (v : Z) (rest : list Z) :
  - 2 ^ 31 < v < 2 ^ 31 ->
  scriptint_from_bytes
    (fst (scriptint_to_bytes v) :: snd (scriptint_to_bytes v) ++ rest)
    = (WALLY_OK, v) /\
  fst (scriptint_to_bytes v) = blen (snd (scriptint_to_bytes v)) /\
  fst (scriptint_to_bytes v) = scriptint_get_length v /\
  scriptint_to_bytes 0 = (0, []) /\
  scriptint_to_bytes 128 = (2, [0x80; 0x00]) /\
  scriptint_to_bytes (-128) = (2, [0x80; 0x80]).
Proof.
  intros Hv.
  assert (Hlen : fst (scriptint_to_bytes v) = scriptint_get_length v).
  { unfold scriptint_to_bytes, scriptint_get_length.
    rewrite (scriptint_len_loop_to_loop 8 _ [] 0 0).
    destruct (scriptint_to_loop 8 (scriptint_magnitude v) [] 0) as [o l].
    cbn [fst snd]. change (blen []) with 0.
    destruct (Z.land l 128 =? 0); cbn [negb];
      [destruct (v <? 0) |]; cbn [fst]; lia. }
  split; [| split; [| split; [exact Hlen | repeat split]]].
  all: destruct (Z.eq_dec v 0) as [-> | Hnz];
    [first [apply scriptint_from_bytes_zero | reflexivity] |].
  all: unfold scriptint_to_bytes.
  all: set (m := scriptint_magnitude v).
  all: assert (Hm : m = Z.abs v)
    by (unfold m, scriptint_magnitude, u64;
        destruct (Z.ltb_spec v 0); rewrite Z.mod_small; lia).
  all: destruct (scriptint_to_loop_digits 8 m [] 0 (scriptint_magnitude_range v))
    as (ds & l & Heq & Hb & Hval & Hshape).
  all: cbn [app] in Heq; rewrite Heq.
  all: destruct Hshape as [(Hz & _) | (ds' & -> & Hl1)]; [lia |].
  all: apply Forall_app in Hb; destruct Hb as [Hds' Hl']; inversion Hl' as [| ? ? Hlb _]; subst.
  all: rewrite le_value_app in Hval; cbn [le_value] in Hval.
  all: pose proof (le_value_bound ds' Hds') as Hvb.
  all: pose proof (blen_nonneg ds') as Hk0.
  all: assert (Hp : 0 < 2 ^ (8 * blen ds')) by (apply Z.pow_pos_nonneg; lia).
  all: rewrite land_128 by exact Hlb.
  all: unfold is_byte in Hlb.
  all: destruct (Z.ltb_spec l 128) as [Hlow | Hhigh]; cbn [Z.eqb negb].
  - (* decode, top bit clear *)
    assert (Hk : blen ds' <= 3) by (apply (pow8_bound _ m l); nia).
    destruct (Z.ltb_spec v 0) as [Hneg | Hpos]; cbn [fst snd].
    + rewrite or_last_snoc.
      replace (blen (ds' ++ [l])) with (blen (ds' ++ [Z.lor l 128]))
        by (rewrite !blen_app; reflexivity).
      rewrite lor_128 by lia.
      rewrite scriptint_from_bytes_digits by (auto; unfold is_byte; lia).
      replace (l + 128 <? 128) with false by (symmetry; apply Z.ltb_ge; lia).
      f_equal. nia.
    + rewrite scriptint_from_bytes_digits by (auto; unfold is_byte; lia).
      replace (l <? 128) with true by (symmetry; apply Z.ltb_lt; lia).
      f_equal. nia.
  - (* decode, top bit set: one more byte *)
    assert (Hk : blen ds' <= 2) by (apply (pow8_bound_high _ m l); nia).
    cbn [fst snd].
    replace (blen (ds' ++ [l]) + 1)
      with (blen ((ds' ++ [l]) ++ [if v <? 0 then 128 else 0]))
      by (rewrite !blen_app; reflexivity).
    assert (Hall : Forall is_byte (ds' ++ [l]))
      by (apply Forall_app; split; auto).
    rewrite scriptint_from_bytes_digits;
      [| exact Hall | destruct (v <? 0); unfold is_byte; lia
       | rewrite blen_app; change (blen [l]) with 1; lia].
    rewrite le_value_app. cbn [le_value].
    destruct (Z.ltb_spec v 0) as [Hneg | Hpos].
    + change (128 <? 128) with false. cbv iota. f_equal. nia.
    + change (0 <? 128) with true. cbv iota. f_equal. nia.
  - (* count, top bit clear *)
    destruct (v <? 0); cbn [fst snd]; [rewrite or_last_snoc |];
      rewrite !blen_app; reflexivity.
  - cbn [fst snd]. rewrite !blen_app. reflexivity.
Qed.

Lemma scriptint_roundtrip_witness :
  - 2 ^ 31 < -128 < 2 ^ 31 /\
  scriptint_from_bytes [2; 0x80; 0x80] = (WALLY_OK, -128).
Proof.
  assert (H : - 2 ^ 31 < -128 < 2 ^ 31) by lia.
  destruct (scriptint_roundtrip (-128) [] H) as (Hd & _).
  split; [exact H | exact Hd].
Defined.

(** * Classifier *)

Ltac list_of_length l :=
  repeat (destruct l as [| ? l]; [discriminate |]);
  try (destruct l; [| discriminate]).

Example scriptint_144 : scriptint_to_bytes 144 = (2, [0x90; 0x00]).
Proof. reflexivity. Qed.

(** C2: for every pair of 33-byte keys and the delay 144, the template-A
    CSV builder called with a buffer of at least 80 bytes succeeds and
    writes 80 bytes; the classifier returns Csv2of2Then1 on them and the
    CSV-delay accessor succeeds and returns 144. *)
Theorem csv_2of2_then_1_roundtrip (main recovery mem : list Z) (len : Z) :
  length main = 33%nat -> length recovery = 33%nat ->
  80 <= len -> len <= blen mem ->
  exists mem',
    wally_scriptpubkey_csv_2of2_then_1_from_bytes
      (main ++ recovery) 144 0 (Some mem) len = (WALLY_OK, 80, Some mem') /\
    wally_scriptpubkey_get_type (Some (firstn 80 mem'))
      = (WALLY_OK, Csv2of2Then1) /\
    wally_scriptpubkey_csv_blocks_from_csv_2of2_then_1 (Some (firstn 80 mem'))
      = (WALLY_OK, 144).
Proof.
  intros Hm Hr Hlen Hmem.
  unfold wally_scriptpubkey_csv_2of2_then_1_from_bytes.
  change (scriptint_get_length 144) with 2.
  change (snd (scriptint_to_bytes 144)) with [0x90; 0x00].
  replace (blen (main ++ recovery)) with 66
    by (rewrite blen_app; unfold blen; rewrite Hm, Hr; reflexivity).
  change (2 * (EC_PUBLIC_KEY_LEN + 1) + 9 + 1 + 2) with 80.
  replace (len <? 80) with false by (symmetry; apply Z.ltb_ge; lia).
  cbn [Z.eqb Z.mul EC_PUBLIC_KEY_LEN Pos.mul Pos.eqb negb orb Z.ltb Z.gtb Z.compare
       Pos.compare Pos.compare_cont Pos.add].
  eexists. split; [reflexivity |].
  list_of_length main. list_of_length recovery.
  unfold store_at. change (Z.to_nat 0) with 0%nat.
  match goal with
  | |- context [store 0 ?d mem] =>
      let d' := eval vm_compute in d in
      change d with d';
      change 80%nat with (length d');
      rewrite (firstn_store_0 d' mem) by (unfold blen in Hmem; cbn [length]; lia)
  end.
  split; vm_compute; reflexivity.
Qed.

Lemma csv_2of2_then_1_roundtrip_witness :
  length (repeat 2 33) = 33%nat /\ length (repeat 3 33) = 33%nat /\
  80 <= 80 /\ 80 <= blen (repeat 0 80) /\
  exists mem',
    wally_scriptpubkey_csv_2of2_then_1_from_bytes
      (repeat 2 33 ++ repeat 3 33) 144 0 (Some (repeat 0 80)) 80
    = (WALLY_OK, 80, Some mem') /\
    wally_scriptpubkey_get_type (Some (firstn 80 mem'))
    = (WALLY_OK, Csv2of2Then1) /\
    wally_scriptpubkey_csv_blocks_from_csv_2of2_then_1 (Some (firstn 80 mem'))
    = (WALLY_OK, 144).
Proof.
  assert (H1 : length (repeat 2 33) = 33%nat) by reflexivity.
  assert (H2 : length (repeat 3 33) = 33%nat) by reflexivity.
  assert (H3 : 80 <= 80) by lia.
  assert (H4 : 80 <= blen (repeat 0 80)) by (vm_compute; discriminate).
  repeat (split; [assumption |]).
  exact (csv_2of2_then_1_roundtrip
           (repeat 2 33) (repeat 3 33) (repeat 0 80) 80 H1 H2 H3 H4).
Defined.

(** The classifier on a 25-byte script: only the OP_RETURN and P2PKH
    matchers can accept it. *)
Lemma get_type_25 (bs : list Z) :
  blen bs = 25 ->
  wally_scriptpubkey_get_type (Some bs)
  = (WALLY_OK,
     if byte_at bs 0 =? OP_RETURN then OpReturn
     else if scriptpubkey_is_p2pkh bs then P2PKH else Unknown).
Proof.
  intros H. unfold wally_scriptpubkey_get_type, scriptpubkey_is_op_return,
    scriptpubkey_is_multisig, scriptpubkey_is_csv_2of2_then_1,
    scriptpubkey_is_csv_2of2_then_1_opt.
  rewrite H. cbn [Z.eqb negb andb].
  destruct (byte_at bs 0 =? OP_RETURN); [reflexivity |].
  change (25 <? 1 + 1 + 33 + 1 + 1) with true.
  change (25 <? 9 + 2 * (EC_PUBLIC_KEY_LEN + 1) + 2) with true.
  change (25 <? 6 + 2 * (EC_PUBLIC_KEY_LEN + 1) + 2) with true.
  cbn [orb fst]. change (25 =? WALLY_SCRIPTPUBKEY_P2PKH_LEN) with true.
  cbv iota. now destruct (scriptpubkey_is_p2pkh bs).
Qed.

(** C7 (amended): the classifier returns P2PKH on every 25-byte script
    OP_DUP OP_HASH160 0x14 <20 bytes> OP_EQUALVERIFY OP_CHECKSIG; with one of
    its five opcode bytes replaced by a different byte it returns Unknown,
    except that OP_RETURN in place of the first byte gives OpReturn. *)
Theorem p2pkh_type_and_flipped_opcode (hash : list Z) (i b : Z) :
  length hash = 20%nat ->
  In i p2pkh_opcode_offsets ->
  b <> byte_at (p2pkh_script hash) i ->
  wally_scriptpubkey_get_type (Some (p2pkh_script hash)) = (WALLY_OK, P2PKH) /\
  wally_scriptpubkey_get_type (Some (store_at i [b] (p2pkh_script hash)))
  = (WALLY_OK, if (i =? 0) && (b =? OP_RETURN) then OpReturn else Unknown).
Proof.
  intros Hh Hi Hb. list_of_length hash. split; [reflexivity |].
  rewrite get_type_25
    by (unfold blen, store_at; rewrite store_length; reflexivity).
  unfold scriptpubkey_is_p2pkh.
  cbn [In p2pkh_opcode_offsets] in Hi.
  destruct Hi as [<- | [<- | [<- | [<- | [<- | []]]]]];
    match goal with
    | |- context [store_at ?k [b] ?s] =>
        let t := eval vm_compute in (store_at k [b] s) in
        change (store_at k [b] s) with t
    end;
    vm_compute in Hb;
    repeat match goal with
      | |- context [byte_at ?l ?k] =>
          let v := eval vm_compute in (byte_at l k) in
          change (byte_at l k) with v
      | |- context [blen ?l] =>
          let v := eval vm_compute in (blen l) in change (blen l) with v
      end;
    unfold OP_RETURN, OP_DUP, OP_HASH160, OP_EQUALVERIFY, OP_CHECKSIG,
      WALLY_SCRIPTPUBKEY_P2PKH_LEN;
    cbn [Z.eqb Pos.eqb andb];
    repeat match goal with
      | |- context [b =? ?c] => destruct (Z.eqb_spec b c); try lia
      end;
    cbn [andb]; reflexivity.
Qed.

Lemma p2pkh_type_and_flipped_opcode_witness :
  length (repeat 0 20) = 20%nat /\ In 24 p2pkh_opcode_offsets /\
  0 <> byte_at (p2pkh_script (repeat 0 20)) 24 /\
  wally_scriptpubkey_get_type
    (Some (store_at 24 [0] (p2pkh_script (repeat 0 20))))
  = (WALLY_OK, Unknown).
Proof.
  assert (H1 : length (repeat 0 20) = 20%nat) by reflexivity.
  assert (H2 : In 24 p2pkh_opcode_offsets) by (cbn; tauto).
  assert (H3 : 0 <> byte_at (p2pkh_script (repeat 0 20)) 24) by discriminate.
  destruct (p2pkh_type_and_flipped_opcode (repeat 0 20) 24 0 H1 H2 H3)
    as (_ & Hf).
  repeat (split; [assumption |]). exact Hf.
Defined.

(** C7, as stated, fails: replacing OP_DUP by OP_RETURN in a P2PKH script
    makes the classifier return OpReturn, not Unknown. *)
Lemma p2pkh_flipped_to_op_return :
  byte_at (p2pkh_script (repeat 0 20)) 0 <> OP_RETURN /\
  wally_scriptpubkey_get_type
    (Some (store_at 0 [OP_RETURN] (p2pkh_script (repeat 0 20))))
  = (WALLY_OK, OpReturn) /\
  OpReturn <> Unknown.
Proof. repeat split; [discriminate | discriminate]. Qed.

(** [get_push_size] on a key push followed by anything. *)
Lemma key_push_sizes (p rest : list Z) :
  key_push p ->
  exists n_op n_push,
    get_push_size (p ++ rest) true = Some n_op /\
    get_push_size (p ++ rest) false = Some n_push /\
    is_pk_len n_push = true /\ blen p = n_op + n_push /\ 0 < n_op.
Proof.
  intros Hp. pose proof (blen_nonneg rest) as Hr.
  destruct Hp as [k Hk | k Hk | k Hk | k Hk];
    [exists 1, (blen k) | exists 2, (blen k) | exists 3, (blen k)
    | exists 5, (blen k)];
    (assert (Hv : blen k = 33 \/ blen k = 65)
      by (unfold is_pk_len, EC_PUBLIC_KEY_LEN, EC_PUBLIC_KEY_UNCOMPRESSED_LEN in Hk;
          destruct (Z.eqb_spec (blen k) 33), (Z.eqb_spec (blen k) 65);
          try discriminate; lia));
    unfold get_push_size, le32_at, le16_at;
    rewrite !blen_app, !blen_cons;
    cbn [app];
    repeat match goal with
      | |- context [byte_at (?a :: ?l) ?i] =>
          let v := eval cbv [byte_at nth Z.to_nat Z.add Pos.add Pos.succ
                              Pos.to_nat Pos.iter_op Nat.add] in
                     (byte_at (a :: l) i) in
          change (byte_at (a :: l) i) with v
      end;
    destruct Hv as [Hv | Hv]; rewrite Hv in *;
    repeat match goal with
      | |- context [Z.lor ?a ?b] =>
          let v := eval vm_compute in (Z.lor a b) in change (Z.lor a b) with v
      end;
    unfold OP_PUSHDATA1, OP_PUSHDATA2, OP_PUSHDATA4;
    cbn [Z.ltb Z.eqb Z.compare Pos.compare Pos.compare_cont Pos.eqb];
    repeat (match goal with
      | |- context [?a =? 0] =>
          replace (a =? 0) with false by (symmetry; apply Z.eqb_neq; lia)
      | |- context [?a <? ?b] =>
          replace (a <? b) with false by (symmetry; apply Z.ltb_ge; lia)
      end; cbv beta iota);
    repeat split; lia.
Qed.

Lemma multisig_pushes_accepts (pushes : list (list Z)) :
  forall tail, Forall key_push pushes -> blen tail = 2 ->
  multisig_pushes (length pushes) (concat pushes ++ tail) = true.
Proof.
  induction pushes as [| p ps IH]; intros tail Hp Ht.
  - cbn [length concat app multisig_pushes]. rewrite Ht. reflexivity.
  - inversion Hp as [| ? ? Hp1 Hps]; subst.
    cbn [length concat multisig_pushes]. rewrite <- app_assoc.
    destruct (key_push_sizes p (concat ps ++ tail) Hp1)
      as (n_op & n_push & -> & -> & -> & Hlen & Hop).
    cbn [negb orb].
    pose proof (blen_nonneg (concat ps)).
    replace (blen (p ++ concat ps ++ tail) <? n_op + n_push + 2) with false
      by (symmetry; apply Z.ltb_ge; rewrite !blen_app; lia).
    unfold advance. rewrite <- Hlen. unfold blen. rewrite Nat2Z.id.
    rewrite skipn_app, skipn_all, Nat.sub_diag. cbn [app skipn].
    now apply IH.
Qed.

Lemma concat_key_pushes_len (pushes : list (list Z)) :
  Forall key_push pushes -> 34 * Z.of_nat (length pushes) <= blen (concat pushes).
Proof.
  induction 1 as [| p ps Hp _ IH]; cbn [concat length]; [cbn; lia |].
  rewrite blen_app, Nat2Z.inj_succ.
  destruct (key_push_sizes p [] Hp) as (n_op & n_push & _ & _ & Hpk & Hlen & Hop).
  unfold is_pk_len, EC_PUBLIC_KEY_LEN, EC_PUBLIC_KEY_UNCOMPRESSED_LEN in Hpk.
  destruct (Z.eqb_spec n_push 33), (Z.eqb_spec n_push 65); try discriminate; lia.
Qed.

Lemma script_is_op_n_value (n : Z) :
  1 <= n <= 16 -> script_is_op_n (value_to_op_n n) false = Some n.
Proof.
  intros Hn. unfold script_is_op_n, value_to_op_n, OP_1, OP_16.
  replace (n =? 0) with false by (symmetry; apply Z.eqb_neq; lia).
  cbn [andb].
  replace (81 <=? 81 + n - 1) with true by (symmetry; apply Z.leb_le; lia).
  replace (81 + n - 1 <=? 96) with true by (symmetry; apply Z.leb_le; lia).
  cbn [andb]. f_equal. lia.
Qed.

(** C9: the classifier returns Multisig on OP_m <k key pushes> OP_k
    OP_CHECKMULTISIG for all [m] and [k] in 1..16 with [m > k], the pushes
    being pushes of 33- or 65-byte keys: the threshold opcode is never
    compared with the key count. *)
Theorem multisig_threshold_not_compared (m : Z) (pushes : list (list Z)) :
  Forall key_push pushes ->
  1 <= m <= 16 -> 1 <= Z.of_nat (length pushes) <= 16 ->
  m > Z.of_nat (length pushes) ->
  wally_scriptpubkey_get_type (Some (bare_multisig m pushes))
  = (WALLY_OK, Multisig).
Proof.
  intros Hp Hm Hk _. set (k := Z.of_nat (length pushes)) in *.
  pose proof (concat_key_pushes_len pushes Hp) as Hc. fold k in Hc.
  set (tail := [value_to_op_n k; OP_CHECKMULTISIG]).
  assert (Hs : bare_multisig m pushes = value_to_op_n m :: concat pushes ++ tail)
    by reflexivity.
  assert (Hlen : blen (bare_multisig m pushes) = 1 + blen (concat pushes) + 2)
    by (rewrite Hs, blen_cons, blen_app; change (blen tail) with 2; lia).
  assert (Hnth : forall j, (j < 2)%nat ->
            byte_at (bare_multisig m pushes) (1 + blen (concat pushes) + Z.of_nat j)
            = nth j tail 0).
  { intros j Hj. rewrite Hs. unfold byte_at, blen.
    replace (Z.to_nat (1 + Z.of_nat (length (concat pushes)) + Z.of_nat j))
      with (S (length (concat pushes) + j)) by lia.
    cbn [nth]. rewrite app_nth2 by lia. f_equal. lia. }
  unfold wally_scriptpubkey_get_type, scriptpubkey_is_op_return.
  replace (blen (bare_multisig m pushes) =? 0) with false
    by (symmetry; apply Z.eqb_neq; lia).
  assert (Hb0 : byte_at (bare_multisig m pushes) 0 = value_to_op_n m) by reflexivity.
  rewrite Hb0.
  replace (value_to_op_n m =? OP_RETURN) with false
    by (symmetry; apply Z.eqb_neq; unfold value_to_op_n, OP_RETURN, OP_0, OP_1;
        destruct (m =? 0); lia).
  cbn [negb andb].
  unfold scriptpubkey_is_multisig. rewrite Hb0, Hlen.
  replace (1 + blen (concat pushes) + 2 <? 1 + 1 + 33 + 1 + 1) with false
    by (symmetry; apply Z.ltb_ge; lia).
  rewrite script_is_op_n_value by exact Hm.
  replace (1 + blen (concat pushes) + 2 - 1)
    with (1 + blen (concat pushes) + Z.of_nat 1) by lia.
  replace (1 + blen (concat pushes) + 2 - 2)
    with (1 + blen (concat pushes) + Z.of_nat 0) by lia.
  rewrite !Hnth by lia. cbn [nth tail].
  change (OP_CHECKMULTISIG =? OP_CHECKMULTISIG) with true. cbn [negb].
  rewrite script_is_op_n_value by exact Hk.
  unfold k. rewrite Nat2Z.id. rewrite Hs. change (advance 1 (?a :: ?l)) with l.
  rewrite multisig_pushes_accepts by (auto; reflexivity).
  reflexivity.
Qed.

Lemma multisig_threshold_not_compared_witness :
  Forall key_push [33 :: repeat 2 33; 33 :: repeat 3 33] /\
  1 <= 3 <= 16 /\ 1 <= 2 <= 16 /\ 3 > 2 /\
  wally_scriptpubkey_get_type
    (Some (bare_multisig 3 [33 :: repeat 2 33; 33 :: repeat 3 33]))
  = (WALLY_OK, Multisig).
Proof.
  assert (H1 : Forall key_push [33 :: repeat 2 33; 33 :: repeat 3 33]).
  { repeat constructor.
    - apply (key_push_direct (repeat 2 33)). reflexivity.
    - apply (key_push_direct (repeat 3 33)). reflexivity. }
  assert (H2 : 1 <= 3 <= 16) by lia.
  assert (H3 : 1 <= 2 <= 16) by lia.
  assert (H4 : 3 > 2) by lia.
  repeat (split; [assumption |]).
  exact (multisig_threshold_not_compared 3 _ H1 H2 H3 H4).
Defined.

(** * Key sorting *)

Section KeyOrder.
Variable n : nat.

Lemma memcmp_opp : forall a b m, memcmp b a m = - memcmp a b m.
Proof.
  intros a b m. revert a b.
  induction m as [| m IH]; intros a b; [reflexivity |].
  cbn [memcmp]. destruct a as [| x a], b as [| y b]; try reflexivity.
  rewrite (Z.eqb_sym y x). destruct (Z.eqb_spec x y); [apply IH | lia].
Qed.

Lemma mem_le_total (a b : list Z) : mem_le n a b \/ mem_le n b a.
Proof. unfold mem_le. rewrite (memcmp_opp a b). lia. Qed.

Lemma memcmp_antisym : forall m a b,
  length a = m -> length b = m ->
  memcmp a b m <= 0 -> memcmp b a m <= 0 -> a = b.
Proof.
  induction m as [| m IH]; intros a b Ha Hb Hab Hba.
  - destruct a, b; try discriminate; reflexivity.
  - destruct a as [| x a], b as [| y b]; try discriminate.
    cbn [memcmp] in Hab, Hba. rewrite (Z.eqb_sym y x) in Hba.
    destruct (Z.eqb_spec x y) as [-> | Hne]; [| lia].
    f_equal. apply IH; auto.
Qed.

Lemma memcmp_trans : forall m a b c,
  length a = m -> length b = m -> length c = m ->
  memcmp a b m <= 0 -> memcmp b c m <= 0 -> memcmp a c m <= 0.
Proof.
  induction m as [| m IH]; intros a b c Ha Hb Hc Hab Hbc; [cbn; lia |].
  destruct a as [| x a], b as [| y b], c as [| z c]; try discriminate.
  cbn [memcmp] in *.
  destruct (Z.eqb_spec x y), (Z.eqb_spec y z), (Z.eqb_spec x z); try lia.
  apply (IH a b c); auto.
Qed.

Lemma mem_le_antisym (a b : list Z) :
  sized n a -> sized n b -> mem_le n a b -> mem_le n b a -> a = b.
Proof. intros; now apply (memcmp_antisym n). Qed.

Lemma mem_le_trans (a b c : list Z) :
  sized n a -> sized n b -> sized n c -> mem_le n a b -> mem_le n b c -> mem_le n a c.
Proof. intros; now apply (memcmp_trans n a b c). Qed.

Lemma qsort_insert_perm (x : list Z) (l : list (list Z)) :
  Permutation (x :: l) (qsort_insert (memcmp_n n) x l).
Proof.
  induction l as [| y l IH]; cbn [qsort_insert]; [reflexivity |].
  destruct (memcmp_n n x y <=? 0); [reflexivity |].
  rewrite perm_swap. now apply perm_skip.
Qed.

Lemma qsort_perm (l : list (list Z)) : Permutation l (qsort (memcmp_n n) l).
Proof.
  induction l as [| x l IH]; cbn [qsort]; [reflexivity |].
  rewrite <- qsort_insert_perm. now apply perm_skip.
Qed.

Lemma qsort_insert_sorted (x : list Z) (l : list (list Z)) :
  sized n x -> Forall (sized n) l ->
  StronglySorted (mem_le n) l -> StronglySorted (mem_le n) (qsort_insert (memcmp_n n) x l).
Proof.
  intros Hx Hl Hs. induction Hs as [| y l Hs IH Hy]; cbn [qsort_insert].
  - repeat constructor.
  - inversion Hl as [| ? ? Hys Hls]; subst.
    destruct (Z.leb_spec (memcmp_n n x y) 0) as [Hle | Hgt].
    + constructor; [now constructor |].
      constructor; [exact Hle |].
      rewrite Forall_forall in *. intros z Hz.
      apply (mem_le_trans x y z); auto.
    + constructor; [now apply IH |].
      assert (Hyx : mem_le n y x)
        by (destruct (mem_le_total x y); [unfold mem_le, memcmp_n in *; lia | assumption]).
      rewrite Forall_forall in *. intros z Hz.
      apply (Permutation_in z (Permutation_sym (qsort_insert_perm x l))) in Hz.
      destruct Hz as [<- | Hz]; auto.
Qed.

Lemma qsort_sorted (l : list (list Z)) :
  Forall (sized n) l -> StronglySorted (mem_le n) (qsort (memcmp_n n) l).
Proof.
  induction 1 as [| x l Hx Hl IH]; cbn [qsort]; [constructor |].
  apply qsort_insert_sorted; auto.
  rewrite Forall_forall in *. intros z Hz. apply Hl.
  now apply (Permutation_in z (Permutation_sym (qsort_perm l))).
Qed.

(** A list has one sorted arrangement. *)
Lemma sorted_perm_unique (l1 : list (list Z)) :
  forall l2, Forall (sized n) l1 ->
  StronglySorted (mem_le n) l1 -> StronglySorted (mem_le n) l2 ->
  Permutation l1 l2 -> l1 = l2.
Proof.
  induction l1 as [| a l1 IH]; intros l2 Hsz H1 H2 Hp.
  - now apply Permutation_nil in Hp.
  - destruct l2 as [| b l2];
      [apply Permutation_sym, Permutation_nil in Hp; discriminate |].
    inversion H1 as [| ? ? H1' Ha]; subst.
    inversion H2 as [| ? ? H2' Hb]; subst.
    inversion Hsz as [| ? ? Hsa Hsl]; subst.
    assert (Hsz2 : Forall (sized n) (b :: l2)).
    { rewrite Forall_forall in *. intros z Hz. apply Hsz.
      now apply (Permutation_in z (Permutation_sym Hp)). }
    inversion Hsz2 as [| ? ? Hsb _]; subst.
    assert (Hab : a = b).
    { rewrite Forall_forall in Ha, Hb.
      assert (Hina : In a (b :: l2))
        by (apply (Permutation_in a Hp); now left).
      assert (Hinb : In b (a :: l1))
        by (apply (Permutation_in b (Permutation_sym Hp)); now left).
      destruct Hina as [-> | Hina]; [reflexivity |].
      destruct Hinb as [-> | Hinb]; [reflexivity |].
      apply mem_le_antisym; auto. }
    subst b. f_equal. apply IH; auto.
    now apply Permutation_cons_inv in Hp.
Qed.

Lemma qsort_permutation_invariant (l l' : list (list Z)) :
  Forall (sized n) l -> Permutation l l' -> qsort (memcmp_n n) l = qsort (memcmp_n n) l'.
Proof.
  intros Hsz Hp.
  assert (Hsz' : Forall (sized n) l').
  { rewrite Forall_forall in *. intros z Hz. apply Hsz.
    now apply (Permutation_in z (Permutation_sym Hp)). }
  apply sorted_perm_unique.
  - rewrite Forall_forall in *. intros z Hz. apply Hsz.
    now apply (Permutation_in z (Permutation_sym (qsort_perm l))).
  - now apply qsort_sorted.
  - now apply qsort_sorted.
  - rewrite <- (qsort_perm l), <- (qsort_perm l'). exact Hp.
Qed.

Lemma elements_concat (ks : list (list Z)) :
  Forall (sized n) ks -> elements (length ks) n (concat ks) = ks.
Proof.
  induction 1 as [| k ks Hk _ IH]; cbn [length concat elements]; [reflexivity |].
  unfold sized in Hk.
  rewrite firstn_app, skipn_app, <- Hk, firstn_all, skipn_all, Nat.sub_diag.
  cbn [firstn skipn app]. now rewrite app_nil_r, Hk, IH.
Qed.

Lemma concat_sized_length (ks : list (list Z)) :
  Forall (sized n) ks -> length (concat ks) = (length ks * n)%nat.
Proof.
  induction 1 as [| k ks Hk _ IH]; cbn [concat length]; [reflexivity |].
  rewrite length_app, IH. unfold sized in Hk. cbn. lia.
Qed.
End KeyOrder.

(** C6: with the sort flag and threshold 2, the multisig builder returns the
    same code, length and output bytes for three 33-byte keys given in any
    order (the keys need not even be distinct). *)
Theorem multisig_sorted_order_independent
  (k1 k2 k3 : list Z) (ks : list (list Z)) (mem : list Z) (len : Z) :
  length k1 = 33%nat -> length k2 = 33%nat -> length k3 = 33%nat ->
  Permutation [k1; k2; k3] ks -> 105 <= len ->
  exists out,
    wally_scriptpubkey_multisig_from_bytes (concat [k1; k2; k3]) 2
      WALLY_SCRIPT_MULTISIG_SORTED (Some mem) len = (WALLY_OK, 105, Some out) /\
    wally_scriptpubkey_multisig_from_bytes (concat ks) 2
      WALLY_SCRIPT_MULTISIG_SORTED (Some mem) len = (WALLY_OK, 105, Some out).
Proof.
  intros H1 H2 H3 Hp Hlen.
  assert (Hsz : Forall (sized 33) [k1; k2; k3]) by (repeat constructor; assumption).
  assert (Hsz' : Forall (sized 33) ks).
  { rewrite Forall_forall in *. intros z Hz. apply Hsz.
    now apply (Permutation_in z (Permutation_sym Hp)). }
  assert (Hn : length ks = 3%nat) by (now rewrite <- (Permutation_length Hp)).
  assert (Hrun : forall l, Forall (sized 33) l -> length l = 3%nat ->
            wally_scriptpubkey_multisig_from_bytes (concat l) 2
              WALLY_SCRIPT_MULTISIG_SORTED (Some mem) len
            = (WALLY_OK, 105,
               Some (store_at 0
                       (multisig_script 2 3 (qsort pubkey_compare l)) mem))).
  { intros l Hl Hl3. unfold wally_scriptpubkey_multisig_from_bytes.
    replace (blen (concat l)) with 99
      by (unfold blen; rewrite (concat_sized_length 33 l Hl), Hl3; reflexivity).
    change (99 / EC_PUBLIC_KEY_LEN) with 3.
    change (3 + 3 * (EC_PUBLIC_KEY_LEN + 1)) with 105.
    replace (len =? 0) with false by (symmetry; apply Z.eqb_neq; lia).
    replace (len <? 105) with false by (symmetry; apply Z.ltb_ge; lia).
    cbn -[elements qsort multisig_script store_at concat].
    change (Pos.to_nat 3) with (3%nat). rewrite <- Hl3 at 1.
    change (Pos.to_nat 33) with (33%nat).
    now rewrite (elements_concat 33 l Hl). }
  eexists. split.
  - apply Hrun; [exact Hsz | reflexivity].
  - rewrite (Hrun ks Hsz' Hn).
    assert (Hq : qsort pubkey_compare ks = qsort pubkey_compare [k1; k2; k3])
      by (symmetry; apply (qsort_permutation_invariant 33); assumption).
    now rewrite Hq.
Qed.

Lemma multisig_sorted_order_independent_witness :
  length (repeat 3 33) = 33%nat /\ length (repeat 1 33) = 33%nat /\
  length (repeat 2 33) = 33%nat /\
  Permutation [repeat 3 33; repeat 1 33; repeat 2 33]
    [repeat 1 33; repeat 2 33; repeat 3 33] /\
  105 <= 105 /\
  exists out,
    wally_scriptpubkey_multisig_from_bytes
      (concat [repeat 3 33; repeat 1 33; repeat 2 33]) 2
      WALLY_SCRIPT_MULTISIG_SORTED (Some (repeat 0 105)) 105
    = (WALLY_OK, 105, Some out) /\
    wally_scriptpubkey_multisig_from_bytes
      (concat [repeat 1 33; repeat 2 33; repeat 3 33]) 2
      WALLY_SCRIPT_MULTISIG_SORTED (Some (repeat 0 105)) 105
    = (WALLY_OK, 105, Some out).
Proof.
  assert (H1 : length (repeat 3 33) = 33%nat) by reflexivity.
  assert (H2 : length (repeat 1 33) = 33%nat) by reflexivity.
  assert (H3 : length (repeat 2 33) = 33%nat) by reflexivity.
  assert (H4 : Permutation [repeat 3 33; repeat 1 33; repeat 2 33]
                 [repeat 1 33; repeat 2 33; repeat 3 33]).
  { apply perm_trans with [repeat 1 33; repeat 3 33; repeat 2 33].
    - apply perm_swap.
    - apply perm_skip, perm_swap. }
  assert (H5 : 105 <= 105) by lia.
  repeat (split; [assumption |]).
  exact (multisig_sorted_order_independent _ _ _ _ (repeat 0 105) 105
           H1 H2 H3 H4 H5).
Defined.

(** * Builders *)

Lemma scriptint_get_length_nonneg (v : Z) : 0 <= scriptint_get_length v.
Proof.
  unfold scriptint_get_length.
  rewrite (scriptint_len_loop_to_loop 8 _ [] 0 0).
  change (blen []) with 0.
  pose proof (blen_nonneg (fst (scriptint_to_loop 8 (scriptint_magnitude v) [] 0))).
  destruct (Z.land _ 128 =? 0); lia.
Qed.

Lemma scriptint_get_length_csv (v : Z) :
  17 <= v <= 65535 -> scriptint_get_length v <= 3.
Proof.
  intros Hv. unfold scriptint_get_length.
  rewrite (scriptint_len_loop_to_loop 8 _ [] 0 0).
  change (blen []) with 0.
  assert (Hm : scriptint_magnitude v = v)
    by (unfold scriptint_magnitude, u64;
        replace (v <? 0) with false by (symmetry; apply Z.ltb_ge; lia);
        apply Z.mod_small; lia).
  destruct (scriptint_to_loop_digits 8 _ [] 0 (scriptint_magnitude_range v))
    as (ds & l & Heq & Hb & Hval & Hshape).
  cbn [app] in Heq. rewrite Heq. cbn [fst snd].
  destruct Hshape as [(Hz & _) | (ds' & -> & Hl1)]; [lia |].
  rewrite Hm, le_value_app in Hval. cbn [le_value] in Hval.
  apply Forall_app in Hb. destruct Hb as [Hds' _].
  pose proof (le_value_bound ds' Hds') as Hvb.
  pose proof (blen_nonneg ds') as Hk0.
  rewrite blen_app. change (blen [l]) with 1.
  assert (blen ds' <= 1).
  { destruct (Z.le_gt_cases (blen ds') 1); [assumption |].
    assert (2 ^ (8 * 2) <= 2 ^ (8 * blen ds')) by (apply Z.pow_le_mono_r; lia).
    change (2 ^ (8 * 2)) with 65536 in *. nia. }
  destruct (Z.land l 128 =? 0); lia.
Qed.

Lemma script_get_push_size_pos (n : Z) : 0 <= n -> 1 <= script_get_push_size n.
Proof.
  intros Hn. unfold script_get_push_size, calc_push_opcode_size.
  destruct (n <? 76); [lia |]. destruct (n <? 256); [lia |].
  destruct (n <? 65536); lia.
Qed.

Lemma push_sizes_sum_ge (ders : list (list Z)) :
  forall r, r <= fold_left (fun r der => r + script_get_push_size (blen der)) ders r.
Proof.
  induction ders as [| d ds IH]; intros r; cbn [fold_left]; [lia |].
  specialize (IH (r + script_get_push_size (blen d))).
  pose proof (script_get_push_size_pos (blen d) (blen_nonneg d)). lia.
Qed.

Section Probe.
Context {C : crypto_ops}.

Ltac flat := cbn [ret_of written_of fst snd].

(** The first loop of the multisig scriptSig builder fails with a code
    other than WALLY_OK. *)
Lemma multisig_ders_inl (sigs : list (list Z)) :
  forall sighash r, multisig_ders sigs sighash = inl r -> r <> WALLY_OK.
Proof.
  induction sigs as [| s sigs IH]; intros sighash r; cbn [multisig_ders];
    [discriminate |].
  destruct sighash as [| h hs]; [discriminate |].
  destruct (negb (Z.ldiff h 255 =? 0)); [intros [= <-]; discriminate |].
  destruct (wally_ec_sig_to_der s) as [ret der].
  destruct (Z.eqb_spec ret WALLY_OK) as [-> | Hret]; cbn [negb];
    [| intros [= <-]; exact Hret].
  destruct (multisig_ders sigs hs) as [e |] eqn:He; [| discriminate].
  intros [= <-]. now apply (IH hs).
Qed.

(** C1 (amended): on a present zero-length output buffer and valid other
    arguments, the CSV-recovery builders (both templates), the taproot
    builder and the multisig scriptSig builder write nothing and report
    exactly the length a call with a large enough buffer reports on success;
    the P2PKH, P2SH, OP_RETURN, multisig and witness-program scriptPubkey
    builders, the push primitive and the P2PKH scriptSig builders reject the
    buffer (with WALLY_EINVAL, or the signature encoder's failure), write
    nothing and report 0. *)
Theorem zero_length_probe (keys xkey script sigs sighash : list Z)
  (csv_blocks tr_flags ms_flags : Z) (mem big : list Z) (len : Z) :
  blen keys = 66 -> 17 <= csv_blocks <= 65535 -> 81 <= len ->
  ret_of (wally_scriptpubkey_p2tr_from_bytes xkey tr_flags (Some big) len)
    = WALLY_OK ->
  ret_of (wally_scriptsig_multisig_from_bytes script sigs sighash ms_flags
            (Some big) len) = WALLY_OK ->
  (* the builders that report the length *)
  (wally_scriptpubkey_csv_2of2_then_1_from_bytes keys csv_blocks 0 (Some mem) 0
   = (WALLY_OK,
      written_of (wally_scriptpubkey_csv_2of2_then_1_from_bytes
                    keys csv_blocks 0 (Some big) len),
      Some mem) /\
   ret_of (wally_scriptpubkey_csv_2of2_then_1_from_bytes
             keys csv_blocks 0 (Some big) len) = WALLY_OK) /\
  (wally_scriptpubkey_csv_2of2_then_1_from_bytes_opt keys csv_blocks 0 (Some mem) 0
   = (WALLY_OK,
      written_of (wally_scriptpubkey_csv_2of2_then_1_from_bytes_opt
                    keys csv_blocks 0 (Some big) len),
      Some mem) /\
   ret_of (wally_scriptpubkey_csv_2of2_then_1_from_bytes_opt
             keys csv_blocks 0 (Some big) len) = WALLY_OK) /\
  wally_scriptpubkey_p2tr_from_bytes xkey tr_flags (Some mem) 0
  = (WALLY_OK,
     written_of (wally_scriptpubkey_p2tr_from_bytes xkey tr_flags (Some big) len),
     Some mem) /\
  wally_scriptsig_multisig_from_bytes script sigs sighash ms_flags (Some mem) 0
  = (WALLY_OK,
     written_of (wally_scriptsig_multisig_from_bytes script sigs sighash
                   ms_flags (Some big) len),
     Some mem) /\
  (* the builders that reject the buffer *)
  (forall bytes flags,
      wally_scriptpubkey_p2pkh_from_bytes bytes flags (Some mem) 0
      = (WALLY_EINVAL, 0, Some mem)) /\
  (forall bytes flags,
      wally_scriptpubkey_p2sh_from_bytes bytes flags (Some mem) 0
      = (WALLY_EINVAL, 0, Some mem)) /\
  (forall bytes flags,
      wally_scriptpubkey_op_return_from_bytes bytes flags (Some mem) 0
      = (WALLY_EINVAL, 0, Some mem)) /\
  (forall bytes threshold flags,
      wally_scriptpubkey_multisig_from_bytes bytes threshold flags (Some mem) 0
      = (WALLY_EINVAL, 0, Some mem)) /\
  (forall bytes version flags,
      wally_witness_program_from_bytes_and_version bytes version flags
        (Some mem) 0 = (WALLY_EINVAL, 0, Some mem)) /\
  (forall bytes flags,
      wally_witness_program_from_bytes bytes flags (Some mem) 0
      = (WALLY_EINVAL, 0, Some mem)) /\
  (forall bytes flags,
      wally_script_push_from_bytes bytes flags (Some mem) 0
      = (WALLY_EINVAL, 0, Some mem)) /\
  (forall pub_key sig,
      wally_scriptsig_p2pkh_from_der pub_key sig (Some mem) 0
      = (WALLY_EINVAL, 0, Some mem)) /\
  (forall pub_key sig sighash,
      exists ret,
        ret <> WALLY_OK /\
        wally_scriptsig_p2pkh_from_sig pub_key sig sighash (Some mem) 0
        = (ret, 0, Some mem)).
Proof.
  intros Hk Hcsv Hlen Htr Hms.
  assert (Hder : forall pub_key sig,
             wally_scriptsig_p2pkh_from_der pub_key sig (Some mem) 0
             = (WALLY_EINVAL, 0, Some mem)).
  { intros pub_key sig. unfold wally_scriptsig_p2pkh_from_der.
    destruct (negb (is_pk_len (blen pub_key)) || (blen sig =? 0) ||
              (blen sig >? EC_SIGNATURE_DER_MAX_LEN + 1)); [reflexivity |].
    pose proof (script_get_push_size_pos _ (blen_nonneg pub_key)).
    pose proof (script_get_push_size_pos _ (blen_nonneg sig)).
    now replace (0 <? _) with true by (symmetry; apply Z.ltb_lt; lia). }
  pose proof (scriptint_get_length_nonneg csv_blocks) as Hl0.
  pose proof (scriptint_get_length_csv csv_blocks Hcsv) as Hl3.
  assert (Hargs : negb (blen keys =? 2 * EC_PUBLIC_KEY_LEN)
                  || (csv_blocks <? 17) || (csv_blocks >? 65535)
                  || negb (0 =? 0) = false).
  { rewrite Hk, Z.gtb_ltb.
    replace (csv_blocks <? 17) with false by (symmetry; apply Z.ltb_ge; lia).
    replace (65535 <? csv_blocks) with false by (symmetry; apply Z.ltb_ge; lia).
    reflexivity. }
  repeat match goal with |- _ /\ _ => split end.
  - unfold wally_scriptpubkey_csv_2of2_then_1_from_bytes.
    rewrite Hargs. unfold EC_PUBLIC_KEY_LEN.
    replace (0 <? _) with true by (symmetry; apply Z.ltb_lt; lia).
    replace (len <? _) with false by (symmetry; apply Z.ltb_ge; lia).
    reflexivity.
  - unfold wally_scriptpubkey_csv_2of2_then_1_from_bytes.
    rewrite Hargs. unfold EC_PUBLIC_KEY_LEN.
    replace (len <? _) with false by (symmetry; apply Z.ltb_ge; lia).
    reflexivity.
  - unfold wally_scriptpubkey_csv_2of2_then_1_from_bytes_opt.
    rewrite Hargs. unfold EC_PUBLIC_KEY_LEN.
    replace (0 <? _) with true by (symmetry; apply Z.ltb_lt; lia).
    replace (len <? _) with false by (symmetry; apply Z.ltb_ge; lia).
    reflexivity.
  - unfold wally_scriptpubkey_csv_2of2_then_1_from_bytes_opt.
    rewrite Hargs. unfold EC_PUBLIC_KEY_LEN.
    replace (len <? _) with false by (symmetry; apply Z.ltb_ge; lia).
    reflexivity.
  - revert Htr. unfold wally_scriptpubkey_p2tr_from_bytes.
    destruct (if BUILD_ELEMENTS then _ else _); [discriminate |].
    unfold WALLY_SCRIPTPUBKEY_P2TR_LEN.
    replace (len <? 34) with false by (symmetry; apply Z.ltb_ge; lia).
    change (0 <? 34) with true. cbv iota.
    destruct (if blen xkey =? EC_PUBLIC_KEY_LEN then _ else _) as [r x].
    destruct (Z.eqb_spec r WALLY_OK) as [-> | Hr]; cbn [negb];
      [| flat; intros; congruence].
    destruct (blen x =? EC_XONLY_PUBLIC_KEY_LEN); cbn [negb];
      [reflexivity | discriminate].
  - revert Hms. unfold wally_scriptsig_multisig_from_bytes.
    destruct ((blen script =? 0) || _ || _ || _ || _ || _ || _);
      [discriminate |].
    destruct (multisig_ders _ sighash) as [e | ders] eqn:Hd;
      [apply multisig_ders_inl in Hd; intros He; exfalso; exact (Hd He) |].
    set (required := fold_left _ ders 0 + _).
    assert (Hreq : 0 < required).
    { unfold required. pose proof (push_sizes_sum_ge ders 0).
      pose proof (script_get_push_size_pos _ (blen_nonneg script)). lia. }
    replace (0 <? required) with true by (symmetry; apply Z.ltb_lt; lia).
    destruct (len <? required); [reflexivity |].
    destruct (multisig_push_ders _ _ _ _) as [[[r1 m1] p1] l1].
    destruct (Z.eqb_spec r1 WALLY_OK) as [-> | Hr1]; cbn [negb];
      [| intros He; exfalso; exact (Hr1 He)].
    destruct (script_push_at script 0 m1 p1 l1) as [[r2 w2] m2].
    destruct (Z.eqb_spec r2 WALLY_OK) as [-> | Hr2]; cbn [negb];
      [| intros He; exfalso; exact (Hr2 He)].
    destruct (l1 <? w2); [discriminate | reflexivity].
  - intros. unfold wally_scriptpubkey_p2pkh_from_bytes.
    now rewrite orb_true_r.
  - intros. unfold wally_scriptpubkey_p2sh_from_bytes.
    now rewrite orb_true_r.
  - intros. unfold wally_scriptpubkey_op_return_from_bytes.
    now rewrite orb_true_r.
  - intros. unfold wally_scriptpubkey_multisig_from_bytes.
    now rewrite orb_true_r.
  - intros. unfold wally_witness_program_from_bytes_and_version.
    now rewrite orb_true_r.
  - intros. unfold wally_witness_program_from_bytes,
      wally_witness_program_from_bytes_and_version.
    now rewrite orb_true_r.
  - intros. unfold wally_script_push_from_bytes, script_push_at.
    now rewrite orb_true_r.
  - exact Hder.
  - intros pub_key sig sh. unfold wally_scriptsig_p2pkh_from_sig.
    destruct (negb (Z.land sh 4294967040 =? 0));
      [exists WALLY_EINVAL; split; [discriminate | reflexivity] |].
    destruct (wally_ec_sig_to_der sig) as [ret der].
    destruct (Z.eqb_spec ret WALLY_OK) as [-> | Hret].
    + exists WALLY_EINVAL. split; [discriminate | apply Hder].
    + exists ret. split; [exact Hret | reflexivity].
Qed.
End Probe.

Lemma zero_length_probe_witness :
  blen (repeat 2 66) = 66 /\ 17 <= 144 <= 65535 /\ 81 <= 200 /\
  ret_of (wally_scriptpubkey_p2tr_from_bytes (C := example_crypto)
            (repeat 3 32) 0 (Some (repeat 0 200)) 200) = WALLY_OK /\
  ret_of (wally_scriptsig_multisig_from_bytes (C := example_crypto)
            [OP_1; 33; OP_1; OP_CHECKMULTISIG] (repeat 1 128) [1; 1] 0
            (Some (repeat 0 200)) 200) = WALLY_OK /\
  wally_scriptpubkey_csv_2of2_then_1_from_bytes
    (repeat 2 66) 144 0 (Some [0xaa]) 0 = (WALLY_OK, 80, Some [0xaa]) /\
  wally_scriptpubkey_p2tr_from_bytes (C := example_crypto)
    (repeat 3 32) 0 (Some [0xaa]) 0 = (WALLY_OK, 34, Some [0xaa]) /\
  wally_scriptsig_multisig_from_bytes (C := example_crypto)
    [OP_1; 33; OP_1; OP_CHECKMULTISIG] (repeat 1 128) [1; 1] 0 (Some [0xaa]) 0
  = (WALLY_OK, 150, Some [0xaa]).
Proof.
  assert (H1 : blen (repeat 2 66) = 66) by reflexivity.
  assert (H2 : 17 <= 144 <= 65535) by lia.
  assert (H3 : 81 <= 200) by lia.
  assert (H4 : ret_of (wally_scriptpubkey_p2tr_from_bytes (C := example_crypto)
            (repeat 3 32) 0 (Some (repeat 0 200)) 200) = WALLY_OK) by reflexivity.
  assert (H5 : ret_of (wally_scriptsig_multisig_from_bytes (C := example_crypto)
            [OP_1; 33; OP_1; OP_CHECKMULTISIG] (repeat 1 128) [1; 1] 0
            (Some (repeat 0 200)) 200) = WALLY_OK) by reflexivity.
  pose proof (zero_length_probe (C := example_crypto) (repeat 2 66) (repeat 3 32)
                [OP_1; 33; OP_1; OP_CHECKMULTISIG] (repeat 1 128) [1; 1]
                144 0 0 [0xaa] (repeat 0 200) 200 H1 H2 H3 H4 H5)
    as ((Ha & _) & _ & Htr & Hms & _).
  repeat (split; [first [assumption | exact Ha | exact Htr] |]).
  exact Hms.
Defined.

(** C1, as stated, fails: the P2PKH builder given a 20-byte hash and a
    zero-length buffer returns WALLY_EINVAL and reports 0, while the same
    call with a 25-byte buffer writes 25 bytes. *)
Lemma p2pkh_rejects_empty_buffer :
  wally_scriptpubkey_p2pkh_from_bytes (C := example_crypto)
    (repeat 0 20) 0 (Some []) 0 = (WALLY_EINVAL, 0, Some []) /\
  wally_scriptpubkey_p2pkh_from_bytes (C := example_crypto)
    (repeat 0 20) 0 (Some (repeat 0 25)) 25
  = (WALLY_OK, 25, Some (p2pkh_script (repeat 0 20))).
Proof. split; reflexivity. Qed.

(** * Confidential commitment lengths *)

Section CommitmentFacts.
Context {P : ct_prefixes}.

(** The four outcomes of [get_commitment_len] on a present buffer. *)
Lemma get_commitment_len_cases (bs : list Z) (prefixA prefixB : Z) :
  let b := byte_at bs 0 in
  get_commitment_len (Some bs) prefixA prefixB =
    if b =? 0 then 1
    else if b =? WALLY_TX_ASSET_CT_EXPLICIT_PREFIX then
      if prefixA =? WALLY_TX_ASSET_CT_VALUE_PREFIX_A then 9 else 33
    else if (b =? prefixA) || (b =? prefixB) then 33 else 0.
Proof. reflexivity. Qed.

Ltac decide_eqb :=
  repeat match goal with
    | |- context [?a =? ?b] =>
        first [ replace (a =? b) with true by (symmetry; apply Z.eqb_eq; congruence)
              | replace (a =? b) with false
                  by (symmetry; apply Z.eqb_neq; congruence) ]
    end.

(** C8: on a non-empty buffer each commitment length accessor returns 1 for
    a leading zero byte; for the explicit marker, 9 with the value prefixes
    and 33 with the asset or nonce prefixes; 33 for a leading byte equal to
    one of its two blinded prefixes; and [get_commitment_len] returns 0 for
    every other leading byte. *)
Theorem commitment_length_by_leading_byte (bs : list Z) :
  ct_prefixes_ok -> bs <> [] ->
  let b := byte_at bs 0 in
  (b = 0 ->
     confidential_asset_length_from_bytes (Some bs) = 1 /\
     confidential_value_length_from_bytes (Some bs) = 1 /\
     confidential_nonce_length_from_bytes (Some bs) = 1) /\
  (b = WALLY_TX_ASSET_CT_EXPLICIT_PREFIX ->
     confidential_value_length_from_bytes (Some bs) = 9 /\
     confidential_asset_length_from_bytes (Some bs) = 33 /\
     confidential_nonce_length_from_bytes (Some bs) = 33) /\
  (b = WALLY_TX_ASSET_CT_ASSET_PREFIX_A \/ b = WALLY_TX_ASSET_CT_ASSET_PREFIX_B ->
     confidential_asset_length_from_bytes (Some bs) = 33) /\
  (b = WALLY_TX_ASSET_CT_VALUE_PREFIX_A \/ b = WALLY_TX_ASSET_CT_VALUE_PREFIX_B ->
     confidential_value_length_from_bytes (Some bs) = 33) /\
  (b = WALLY_TX_ASSET_CT_NONCE_PREFIX_A \/ b = WALLY_TX_ASSET_CT_NONCE_PREFIX_B ->
     confidential_nonce_length_from_bytes (Some bs) = 33) /\
  (forall prefixA prefixB,
      b <> 0 -> b <> WALLY_TX_ASSET_CT_EXPLICIT_PREFIX ->
      b <> prefixA -> b <> prefixB ->
      get_commitment_len (Some bs) prefixA prefixB = 0).
Proof.
  intros (He & Hva & Hvb & Haa & Hab & Hna & Hnb & Hvae & Hvbe & Hav & Hnv) _.
  cbv zeta. set (b := byte_at bs 0).
  unfold confidential_asset_length_from_bytes,
    confidential_value_length_from_bytes, confidential_nonce_length_from_bytes.
  repeat match goal with |- _ /\ _ => split end;
    intros;
    repeat match goal with H : _ \/ _ |- _ => destruct H end;
    repeat match goal with |- _ /\ _ => split end;
    rewrite get_commitment_len_cases; cbv zeta; fold b;
    decide_eqb; rewrite ?orb_true_r; cbn [orb];
    repeat match goal with
      | |- context [if ?c then _ else _] => destruct c
      end;
    reflexivity.
Qed.

(** C10: the asset, value and nonce length accessors return 1 on a NULL
    pointer, as they do on a buffer whose leading byte is zero. *)
Theorem commitment_length_null_pointer (rest : list Z) :
  confidential_asset_length_from_bytes None = 1 /\
  confidential_value_length_from_bytes None = 1 /\
  confidential_nonce_length_from_bytes None = 1 /\
  confidential_asset_length_from_bytes (Some (0 :: rest)) = 1 /\
  confidential_value_length_from_bytes (Some (0 :: rest)) = 1 /\
  confidential_nonce_length_from_bytes (Some (0 :: rest)) = 1.
Proof. repeat split. Qed.
End CommitmentFacts.

Lemma commitment_length_by_leading_byte_witness :
  ct_prefixes_ok (P := libwally_ct_prefixes) /\ [0x01; 0x2a] <> [] /\
  confidential_value_length_from_bytes (P := libwally_ct_prefixes)
    (Some [0x01; 0x2a]) = 9 /\
  confidential_asset_length_from_bytes (P := libwally_ct_prefixes)
    (Some [0x01; 0x2a]) = 33.
Proof.
  assert (H1 : ct_prefixes_ok (P := libwally_ct_prefixes))
    by (unfold ct_prefixes_ok; cbn; repeat split; discriminate).
  assert (H2 : [0x01; 0x2a] <> []) by discriminate.
  destruct (commitment_length_by_leading_byte (P := libwally_ct_prefixes)
              [0x01; 0x2a] H1 H2) as (_ & He & _).
  destruct (He eq_refl) as (Hv & Ha & _).
  split; [exact H1 | split; [exact H2 | split; [exact Hv | exact Ha]]].
Defined.

Lemma libwally_ct_prefixes_ok : ct_prefixes_ok (P := libwally_ct_prefixes).
Proof. unfold ct_prefixes_ok. cbn. repeat split; discriminate. Qed.

(** * Peg-in contract script *)

(** What [get_push_size] promises on a buffer of bytes. *)
Lemma get_push_size_bounds (p : list Z) (s : Z) :
  bytes_ok p -> get_push_size p false = Some s ->
  exists h, get_push_size p true = Some h /\
            1 <= h /\ 0 <= s /\ h + s <= blen p.
Proof.
  intros Hok. unfold get_push_size.
  pose proof (Hok 0) as H0. pose proof (Hok 1) as H1. pose proof (Hok 2) as H2.
  pose proof (Hok 3) as H3. pose proof (Hok 4) as H4. unfold is_byte in *.
  assert (H16 : forall i, 0 <= le16_at p i).
  { intros i. unfold le16_at. apply Z.lor_nonneg. split.
    - apply (Hok i).
    - apply Z.shiftl_nonneg. apply (Hok (i + 1)). }
  assert (H32 : 0 <= le32_at p 1).
  { unfold le32_at. apply Z.lor_nonneg. split; [apply H16 |].
    apply Z.shiftl_nonneg. apply H16. }
  destruct (blen p =? 0); [discriminate |].
  destruct (byte_at p 0 <? 76);
    [| destruct (byte_at p 0 =? OP_PUSHDATA1);
       [destruct (blen p <? 2); [discriminate |]
       | destruct (byte_at p 0 =? OP_PUSHDATA2);
         [destruct (blen p <? 3); [discriminate |]
         | destruct (byte_at p 0 =? OP_PUSHDATA4);
           [destruct (blen p <? 5); [discriminate |] | discriminate]]]];
    match goal with
    | |- context [?a <? ?b] => destruct (Z.ltb_spec a b); [discriminate |]
    end;
    intros [= <-]; eexists; (split; [reflexivity |]);
    specialize (H16 1); lia.
Qed.

Section PeginFrame.
Context {C : crypto_ops} {E : secp256k1_ops}.

Hypothesis Hser : serialize_is_compressed.

(** The key branch passes only by storing a 34-byte push at [q]. *)
Lemma pegin_tweak_key_inr (p script mem : list Z) (q bytes_len : Z) mem1 :
  34 <= bytes_len ->
  pegin_tweak_key p script mem q bytes_len = inr mem1 ->
  exists ser, blen ser = 33 /\ mem1 = store_at q (33 :: ser) mem.
Proof.
  intros Hlen. unfold pegin_tweak_key.
  destruct (pubkey_parse _) as [pk |]; [| discriminate].
  destruct (wally_hmac_sha256 _ _) as [r tw].
  destruct (negb (r =? WALLY_OK)); [discriminate |].
  destruct (pubkey_tweak_add _ _) as [pkt |]; [| discriminate].
  destruct (pubkey_serialize pkt) as [ser |] eqn:Hs; [| discriminate].
  apply Hser in Hs. unfold EC_PUBLIC_KEY_LEN in Hs.
  unfold script_push_at. change (script_flags_ok 0 0) with true.
  replace (bytes_len =? 0) with false by (symmetry; apply Z.eqb_neq; lia).
  cbn [negb orb]. change (Z.land 0 _) with 0. cbn [Z.eqb negb].
  rewrite Hs. change (calc_push_opcode_size 33) with 1.
  replace (bytes_len <? 33 + 1) with false by (symmetry; apply Z.ltb_ge; lia).
  change (push_opcode_bytes 33 ++ ser) with (33 :: ser).
  change (negb (WALLY_OK =? WALLY_OK)) with false. cbv iota.
  destruct (pubkey_create _); [| discriminate].
  destruct (pubkey_negate _); [| discriminate].
  destruct (pubkey_combine _ _); [| discriminate].
  destruct (pubkey_same _ _); [| discriminate].
  intros [= <-]. exists ser. split; [exact Hs | reflexivity].
Qed.

Lemma pegin_tweak_key_inl (p script mem : list Z) (q bytes_len : Z) r m :
  pegin_tweak_key p script mem q bytes_len = inl (r, m) -> r <> WALLY_OK.
Proof.
  unfold pegin_tweak_key.
  destruct (pubkey_parse _) as [pk |]; [| intros [= <- _]; discriminate].
  destruct (wally_hmac_sha256 _ _) as [r0 tw].
  destruct (Z.eqb_spec r0 WALLY_OK) as [-> | Hr0]; cbn [negb];
    [| intros [= <- _]; exact Hr0].
  destruct (pubkey_tweak_add _ _) as [pkt |]; [| intros [= <- _]; discriminate].
  destruct (pubkey_serialize pkt) as [ser |]; [| intros [= <- _]; discriminate].
  destruct (script_push_at _ _ _ _ _) as [[r1 w1] m1].
  destruct (Z.eqb_spec r1 WALLY_OK) as [-> | Hr1]; cbn [negb];
    [| intros [= <- _]; exact Hr1].
  destruct (pubkey_create _); [| intros [= <- _]; discriminate].
  destruct (pubkey_negate _); [| intros [= <- _]; discriminate].
  destruct (pubkey_combine _ _); [| intros [= <- _]; discriminate].
  destruct (pubkey_same _ _); [discriminate | intros [= <- _]; discriminate].
Qed.

Lemma pegin_loop_frame (fuel : nat) :
  forall p script mem q found mem',
    bytes_ok p -> 1 <= blen p -> 0 <= q -> q + blen p <= blen mem ->
    pegin_loop fuel p script 0 mem q found = Some (WALLY_OK, mem') ->
    blen mem' = blen mem /\
    (forall i, 0 <= i < q -> byte_at mem' i = byte_at mem i) /\
    (forall i, q <= i < q + blen p ->
               outside (pending_offsets fuel q p found) i ->
               byte_at mem' i = byte_at p (i - q)).
Proof.
  induction fuel as [| f IH];
    intros p script mem q found mem' Hok Hp1 Hq Hfit Hrun; [discriminate |].
  cbn [pegin_loop] in Hrun.
  (* one turn: [n] bytes consumed, memory [mem1], flag [found1] *)
  assert (Hstep : forall n mem1 found1,
             1 <= n <= blen p ->
             blen mem1 = blen mem ->
             (forall i, 0 <= i < q -> byte_at mem1 i = byte_at mem i) ->
             (forall i, q <= i < q + n ->
                        outside (pending_offsets (S f) q p found) i ->
                        byte_at mem1 i = byte_at p (i - q)) ->
             (forall i, outside (pending_offsets (S f) q p found) i ->
                        outside (pending_offsets f (q + n) (advance n p) found1) i) ->
             (if blen p - n =? 0 then Some (WALLY_OK, mem1)
              else pegin_loop f (advance n p) script 0 mem1 (q + n) found1)
             = Some (WALLY_OK, mem') ->
             blen mem' = blen mem /\
             (forall i, 0 <= i < q -> byte_at mem' i = byte_at mem i) /\
             (forall i, q <= i < q + blen p ->
                        outside (pending_offsets (S f) q p found) i ->
                        byte_at mem' i = byte_at p (i - q))).
  { intros n mem1 found1 Hn Hlen1 Hlow Hmid Hoffs Hnext.
    destruct (Z.eqb_spec (blen p - n) 0) as [Hend | Hmore].
    - injection Hnext as <-. repeat split; auto.
      intros i Hi. apply Hmid. lia.
    - pose proof (blen_nonneg (advance n p)).
      apply IH in Hnext;
        [| now apply bytes_ok_advance | rewrite blen_advance by lia; lia | lia
         | rewrite blen_advance by lia; lia].
      destruct Hnext as (Hl & Hlo & Hhi). repeat split.
      + congruence.
      + intros i Hi. rewrite Hlo by lia. now apply Hlow.
      + intros i Hi Hout. destruct (Z.lt_ge_cases i (q + n)).
        * rewrite Hlo by lia. apply Hmid; [lia | exact Hout].
        * rewrite Hhi; [| rewrite blen_advance by lia; lia | now apply Hoffs].
          rewrite byte_at_advance by lia. f_equal. lia. }
  clear IH.
  destruct (get_push_size p false) as [s |] eqn:Hs.
  - destruct (get_push_size_bounds p s Hok Hs) as (h & Hh & Hh1 & Hs0 & Hhs).
    rewrite Hh in Hrun.
    replace (blen p <? s + h) with false in Hrun
      by (symmetry; apply Z.ltb_ge; lia).
    assert (Hoffs : key_push_offsets (S f) q p =
              let rest := key_push_offsets f (q + (s + h)) (advance (s + h) p) in
              if (h =? 1) && (s =? EC_PUBLIC_KEY_LEN) then q :: rest else rest).
    { cbn [key_push_offsets].
      replace (blen p =? 0) with false by (symmetry; apply Z.eqb_neq; lia).
      now rewrite Hh, Hs. }
    destruct ((h =? 1) && (s =? EC_PUBLIC_KEY_LEN) && negb found) eqn:Hkey.
    + (* a key push before OP_ELSE *)
      apply andb_prop in Hkey. destruct Hkey as [Hkey Hnf].
      rewrite Hkey in Hoffs. apply andb_prop in Hkey. destruct Hkey as [Hh' Hs'].
      apply Z.eqb_eq in Hh', Hs'. subst h s.
      destruct found; [discriminate |]. unfold EC_PUBLIC_KEY_LEN in *.
      destruct (pegin_tweak_key p script mem q (blen p)) as [[r m] | mem1] eqn:Htw.
      * apply pegin_tweak_key_inl in Htw. congruence.
      * apply pegin_tweak_key_inr in Htw; [| lia].
        destruct Htw as (ser & Hser33 & ->).
        assert (Hdata : blen (33 :: ser) = 34)
          by (unfold blen in *; cbn [length]; lia).
        apply (Hstep (33 + 1) (store_at q (33 :: ser) mem) false);
          auto; try lia.
        -- apply blen_store_at.
        -- intros i Hi. apply byte_at_store_at_out; lia.
        -- intros i Hi Hout. exfalso.
           apply (Hout q); [| unfold EC_PUBLIC_KEY_LEN; lia].
           unfold pending_offsets. rewrite Hoffs. now left.
        -- intros i Hout off Hin. apply Hout.
           unfold pending_offsets in *. rewrite Hoffs. now right.
    + (* any other push: copied *)
      apply (Hstep (s + h) (store_at q (firstn (Z.to_nat (s + h)) p) mem) found);
        auto; try lia.
      * apply blen_store_at.
      * intros i Hi. apply byte_at_store_at_out; lia.
      * intros i Hi _.
        assert (Hfl : blen (firstn (Z.to_nat (s + h)) p) = s + h)
          by (unfold blen in *; rewrite length_firstn; lia).
        rewrite byte_at_store_at_in by lia.
        apply byte_at_firstn. lia.
      * intros i Hout off Hin. apply Hout.
        unfold pending_offsets in *. destruct found; [exact Hin |].
        rewrite Hoffs. cbv zeta.
        destruct ((h =? 1) && (s =? EC_PUBLIC_KEY_LEN)); [now right | exact Hin].
  - (* an opcode byte: copied *)
    assert (Hoffs : key_push_offsets (S f) q p =
              if byte_at p 0 =? OP_ELSE then []
              else key_push_offsets f (q + 1) (advance 1 p)).
    { cbn [key_push_offsets].
      replace (blen p =? 0) with false by (symmetry; apply Z.eqb_neq; lia).
      rewrite Hs. now destruct (get_push_size p true). }
    change (0 =? 0) with true in Hrun. rewrite andb_true_r in Hrun.
    apply (Hstep 1 (store_at q [byte_at p 0] mem)
             (if byte_at p 0 =? OP_ELSE then true else found));
      auto; try lia.
    + apply blen_store_at.
    + intros i Hi. apply byte_at_store_at_out; lia.
    + intros i Hi _. change (blen [byte_at p 0]) with 1 in *.
      rewrite byte_at_store_at_in by (change (blen [byte_at p 0]) with 1; lia).
      replace i with q by lia. now rewrite !Z.sub_diag.
    + intros i Hout off Hin. apply Hout.
      unfold pending_offsets in *. destruct found.
      * now destruct (byte_at p 0 =? OP_ELSE).
      * rewrite Hoffs. now destruct (byte_at p 0 =? OP_ELSE).
Qed.

Lemma pegin_loop_total (fuel : nat) :
  forall p script mem q found,
    bytes_ok p -> 1 <= blen p -> (length p <= fuel)%nat ->
    pegin_loop fuel p script 0 mem q found <> None.
Proof.
  induction fuel as [| f IH]; intros p script mem q found Hok Hp1 Hfuel;
    [unfold blen in Hp1; lia |].
  cbn [pegin_loop].
  assert (Hstep : forall n mem1 found1,
             1 <= n <= blen p ->
             (if blen p - n =? 0 then Some (WALLY_OK, mem1)
              else pegin_loop f (advance n p) script 0 mem1 (q + n) found1)
             <> None).
  { intros n mem1 found1 Hn.
    destruct (Z.eqb_spec (blen p - n) 0); [discriminate |].
    pose proof (blen_nonneg (advance n p)).
    apply IH; [now apply bytes_ok_advance | rewrite blen_advance by lia; lia |].
    unfold advance. rewrite length_skipn. unfold blen in *. lia. }
  destruct (get_push_size p false) as [s |] eqn:Hs.
  - destruct (get_push_size_bounds p s Hok Hs) as (h & Hh & Hh1 & Hs0 & Hhs).
    rewrite Hh.
    destruct (blen p <? s + h); [discriminate |].
    destruct ((h =? 1) && (s =? EC_PUBLIC_KEY_LEN) && negb found).
    + destruct (pegin_tweak_key _ _ _ _ _); [discriminate |].
      apply Hstep. lia.
    + apply Hstep. lia.
  - apply Hstep. lia.
Qed.

(** C5: when the peg-in rewriter succeeds on a redeem script (of bytes, with
    an output buffer of the announced size), the length it reports is the
    length of the redeem script, and every byte outside the direct 33-byte
    key pushes that precede the first OP_ELSE opcode is found unchanged at
    its offset in the output. *)
Theorem pegin_rewrite_frame (redeem_script script : list Z) (flags : Z)
  (mem : list Z) (len w : Z) (out : option (list Z)) :
  bytesb redeem_script = true -> len <= blen mem ->
  wally_elements_pegin_contract_script_from_bytes
    redeem_script script flags (Some mem) len = Some (WALLY_OK, w, out) ->
  w = blen redeem_script /\
  exists mem',
    out = Some mem' /\ blen mem' = blen mem /\
    forall i, 0 <= i < blen redeem_script ->
              ~ in_tweaked_key_push redeem_script i ->
              byte_at mem' i = byte_at redeem_script i.
Proof.
  intros Hb Hlen. unfold wally_elements_pegin_contract_script_from_bytes.
  pose proof (blen_nonneg redeem_script) as Hr0.
  destruct (Z.eqb_spec (blen redeem_script) 0) as [| Hne]; [discriminate |].
  destruct (blen script =? 0); [discriminate |].
  destruct (Z.eqb_spec flags 0) as [-> | ]; [| discriminate].
  destruct (Z.eqb_spec len (blen redeem_script)) as [-> | ]; [| discriminate].
  cbn [negb orb].
  destruct (pegin_loop _ _ _ _ _ _ _) as [[r m] |] eqn:Hrun; [| discriminate].
  destruct (Z.eqb_spec r WALLY_OK) as [-> | ]; [| intros [= ? _ _]; congruence].
  intros [= <- <-]. split; [reflexivity |].
  apply pegin_loop_frame in Hrun; [| now apply bytesb_ok | lia | lia | lia].
  destruct Hrun as (Hl & _ & Hframe).
  exists m. repeat split; auto.
  intros i Hi Hout. rewrite Hframe; [f_equal; lia | lia |].
  intros off Hin Hrange. apply Hout. exists off. split; assumption.
Qed.

Lemma pegin_rewrite_returns (redeem_script script : list Z) (flags : Z)
  (bytes_out : option (list Z)) (len : Z) :
  bytesb redeem_script = true ->
  wally_elements_pegin_contract_script_from_bytes
    redeem_script script flags bytes_out len <> None.
Proof.
  intros Hb. unfold wally_elements_pegin_contract_script_from_bytes.
  pose proof (blen_nonneg redeem_script) as Hr0.
  destruct bytes_out as [mem |]; [| discriminate].
  destruct (Z.eqb_spec (blen redeem_script) 0) as [| Hne]; [discriminate |].
  destruct (blen script =? 0); [discriminate |].
  destruct (Z.eqb_spec flags 0) as [-> | ]; [| discriminate].
  destruct (negb (len =? blen redeem_script)); [discriminate |].
  cbn [negb orb].
  pose proof (pegin_loop_total (length redeem_script) redeem_script script
                mem 0 false (bytesb_ok _ Hb)) as Ht.
  destruct (pegin_loop _ _ _ _ _ _ _) as [[r m] |].
  - destruct (r =? WALLY_OK); discriminate.
  - exfalso. apply Ht; [lia | lia | reflexivity].
Qed.
End PeginFrame.

Lemma pegin_rewrite_frame_witness :
  serialize_is_compressed (E := example_secp256k1) /\
  bytesb example_redeem_script = true /\
  71 <= blen (repeat 0xee 71) /\
  exists mem',
    wally_elements_pegin_contract_script_from_bytes
      (C := example_crypto) (E := example_secp256k1)
      example_redeem_script [1; 2; 3] 0 (Some (repeat 0xee 71)) 71
    = Some (WALLY_OK, 71, Some mem') /\
    forall i, 0 <= i < blen example_redeem_script ->
              ~ in_tweaked_key_push example_redeem_script i ->
              byte_at mem' i = byte_at example_redeem_script i.
Proof.
  assert (H1 : serialize_is_compressed (E := example_secp256k1))
    by (intros pk s [= <-]; reflexivity).
  assert (H2 : bytesb example_redeem_script = true) by reflexivity.
  assert (H3 : 71 <= blen (repeat 0xee 71)) by (vm_compute; discriminate).
  repeat (split; [assumption |]).
  assert (Hrun : exists out,
             wally_elements_pegin_contract_script_from_bytes
               (C := example_crypto) (E := example_secp256k1)
               example_redeem_script [1; 2; 3] 0 (Some (repeat 0xee 71)) 71
             = Some (WALLY_OK, 71, out))
    by (eexists; vm_compute; reflexivity).
  destruct Hrun as (out & Hrun).
  destruct (pegin_rewrite_frame (C := example_crypto) (E := example_secp256k1)
              H1 example_redeem_script [1; 2; 3] 0 (repeat 0xee 71) 71 71 out
              H2 H3 Hrun) as (_ & mem' & -> & _ & Hframe).
  exists mem'. split; [exact Hrun | exact Hframe].
Defined.

(** * Further properties of script.c *)

(** ** Stores and pushes *)

(** Two stores in a row are the store of the two data in a row. *)
Lemma store_app (mem : list Z) :
  forall off a b,
    store off (a ++ b) mem = store (off + length a) b (store off a mem).
Proof.
  intros off a b. apply (nth_ext _ _ 0 0).
  - now rewrite !store_length.
  - intros i _. rewrite !nth_store, store_length, length_app.
    destruct (Nat.leb_spec off i), (Nat.ltb_spec i (off + (length a + length b))),
      (Nat.ltb_spec i (length mem)), (Nat.leb_spec (off + length a) i),
      (Nat.ltb_spec i (off + length a + length b)),
      (Nat.ltb_spec i (off + length a));
      cbn [andb]; try lia; try reflexivity.
    + rewrite app_nth2 by lia. f_equal. lia.
    + now rewrite app_nth1 by lia.
Qed.

Lemma store_at_app (off : Z) (a b mem : list Z) :
  0 <= off ->
  store_at (off + blen a) b (store_at off a mem) = store_at off (a ++ b) mem.
Proof.
  intros Hoff. unfold store_at, blen. rewrite store_app. f_equal. lia.
Qed.

Lemma firstn_store_at_0 (data mem : list Z) (n : Z) :
  n = blen data -> n <= blen mem ->
  firstn (Z.to_nat n) (store_at 0 data mem) = data.
Proof.
  intros -> Hm. unfold store_at, blen in *. rewrite Nat2Z.id.
  apply firstn_store_0. lia.
Qed.

Lemma skipn_store_at_0 (data mem : list Z) (n : Z) :
  n = blen data -> n <= blen mem ->
  skipn (Z.to_nat n) (store_at 0 data mem) = skipn (Z.to_nat n) mem.
Proof.
  intros -> Hm. unfold store_at, blen in *. rewrite Nat2Z.id.
  change (Z.to_nat 0) with 0%nat. rewrite store_0_fits by lia.
  rewrite skipn_app, skipn_all, Nat.sub_diag. reflexivity.
Qed.

Lemma calc_push_opcode_size_range (n : Z) : 1 <= calc_push_opcode_size n <= 5.
Proof.
  unfold calc_push_opcode_size.
  destruct (n <? 76), (n <? 256), (n <? 65536); lia.
Qed.

Lemma blen_le_bytes (k : nat) : forall v, blen (le_bytes k v) = Z.of_nat k.
Proof.
  induction k as [| k IH]; intros v; [reflexivity |].
  cbn [le_bytes]. rewrite blen_cons, IH. lia.
Qed.

Lemma blen_push_opcode_bytes (n : Z) :
  blen (push_opcode_bytes n) = calc_push_opcode_size n.
Proof.
  unfold push_opcode_bytes, calc_push_opcode_size.
  destruct (n <? 76); [reflexivity |].
  destruct (n <? 256); [reflexivity |].
  destruct (n <? 65536); rewrite blen_cons, blen_le_bytes; reflexivity.
Qed.

Lemma blen_push_encoding (bs : list Z) :
  blen (push_encoding bs) = script_get_push_size (blen bs).
Proof.
  unfold push_encoding, script_get_push_size.
  now rewrite blen_app, blen_push_opcode_bytes.
Qed.

(** Reading back the two- and four-byte little-endian length fields. *)
Lemma le16_at_le_bytes (n t : Z) (rest : list Z) :
  0 <= n < 65536 -> le16_at (t :: le_bytes 2 n ++ rest) 1 = n.
Proof.
  intros Hn. unfold le16_at. cbn [le_bytes app].
  change (byte_at (t :: ?a :: ?b :: ?l) 1) with a.
  change (byte_at (t :: ?a :: ?b :: ?l) (1 + 1)) with b.
  rewrite !land_255_mod, Z.shiftr_div_pow2 by lia. change (2 ^ 8) with 256.
  rewrite lor_low_shiftl by (try lia; apply Z.mod_pos_bound; lia).
  change (2 ^ 8) with 256.
  rewrite (Z.mod_small (n / 256)) by
    (split; [apply Z.div_pos; lia | apply Z.div_lt_upper_bound; lia]).
  pose proof (Z.div_mod n 256). lia.
Qed.

Lemma le32_at_le_bytes (n t : Z) (rest : list Z) :
  0 <= n < 2 ^ 32 -> le32_at (t :: le_bytes 4 n ++ rest) 1 = n.
Proof.
  intros Hn. unfold le32_at, le16_at. cbn [le_bytes app].
  change (byte_at (t :: ?a :: ?b :: ?c :: ?d :: ?l) 1) with a.
  change (byte_at (t :: ?a :: ?b :: ?c :: ?d :: ?l) (1 + 1)) with b.
  change (byte_at (t :: ?a :: ?b :: ?c :: ?d :: ?l) (1 + 2)) with c.
  change (byte_at (t :: ?a :: ?b :: ?c :: ?d :: ?l) (1 + 2 + 1)) with d.
  rewrite !land_255_mod, !Z.shiftr_div_pow2 by lia. change (2 ^ 8) with 256.
  assert (H256 : forall x, 0 <= x mod 256 < 2 ^ 8)
    by (intros; apply Z.mod_pos_bound; lia).
  rewrite !(lor_low_shiftl _ _ 8) by (try lia; apply H256).
  change (2 ^ 8) with 256 in *. change (2 ^ 32) with 4294967296 in Hn.
  assert (Hlo : 0 <= n mod 256 + n / 256 mod 256 * 256 < 2 ^ 16).
  { change (2 ^ 16) with 65536.
    pose proof (Z.mod_pos_bound n 256). pose proof (Z.mod_pos_bound (n / 256) 256).
    lia. }
  rewrite lor_low_shiftl by (try lia; exact Hlo).
  change (2 ^ 16) with 65536.
  pose proof (Z.div_mod n 256). pose proof (Z.div_mod (n / 256) 256).
  pose proof (Z.div_mod (n / 256 / 256) 256).
  assert (0 <= n / 256 / 256 / 256 < 256).
  { split.
    - repeat apply Z.div_pos; lia.
    - repeat apply Z.div_lt_upper_bound; lia. }
  rewrite (Z.mod_small (n / 256 / 256 / 256)) by lia.
  lia.
Qed.

(** [get_push_size] reads back what a push stored, whatever follows. *)
Lemma get_push_size_push_encoding (bs rest : list Z) (opcode : bool) :
  blen bs < 2 ^ 32 ->
  get_push_size (push_encoding bs ++ rest) opcode
  = Some (if opcode then calc_push_opcode_size (blen bs) else blen bs).
Proof.
  intros Hn. pose proof (blen_nonneg bs) as H0. pose proof (blen_nonneg rest).
  change (2 ^ 32) with 4294967296 in Hn.
  unfold get_push_size.
  rewrite blen_app, blen_push_encoding.
  unfold push_encoding, push_opcode_bytes, script_get_push_size,
    calc_push_opcode_size.
  destruct (Z.ltb_spec (blen bs) 76) as [H76 | H76].
  - cbn [app]. change (byte_at (?a :: ?l) 0) with a.
    replace (1 + blen bs + blen rest =? 0) with false
      by (symmetry; apply Z.eqb_neq; lia).
    replace (blen bs <? 76) with true by (symmetry; apply Z.ltb_lt; lia).
    replace (1 + blen bs + blen rest <? 1 + blen bs) with false
      by (symmetry; apply Z.ltb_ge; lia).
    reflexivity.
  - destruct (Z.ltb_spec (blen bs) 256) as [H256 | H256];
      [| destruct (Z.ltb_spec (blen bs) 65536) as [H64k | H64k]].
    + cbn [app]. change (byte_at (?a :: ?l) 0) with a.
      change (byte_at (?a :: ?b :: ?l) 1) with b.
      rewrite land_255_small by lia.
      replace (2 + blen bs + blen rest =? 0) with false
        by (symmetry; apply Z.eqb_neq; lia).
      change (OP_PUSHDATA1 <? 76) with false.
      change (OP_PUSHDATA1 =? OP_PUSHDATA1) with true. cbv iota.
      replace (2 + blen bs + blen rest <? 2) with false
        by (symmetry; apply Z.ltb_ge; lia).
      replace (2 + blen bs + blen rest <? 2 + blen bs) with false
        by (symmetry; apply Z.ltb_ge; lia).
      reflexivity.
    + rewrite <- !app_comm_cons, <- app_assoc.
      rewrite le16_at_le_bytes by lia.
      change (byte_at (?a :: ?l) 0) with a.
      replace (3 + blen bs + blen rest =? 0) with false
        by (symmetry; apply Z.eqb_neq; lia).
      change (OP_PUSHDATA2 <? 76) with false.
      change (OP_PUSHDATA2 =? OP_PUSHDATA1) with false.
      change (OP_PUSHDATA2 =? OP_PUSHDATA2) with true. cbv iota.
      replace (3 + blen bs + blen rest <? 3) with false
        by (symmetry; apply Z.ltb_ge; lia).
      replace (3 + blen bs + blen rest <? 3 + blen bs) with false
        by (symmetry; apply Z.ltb_ge; lia).
      reflexivity.
    + rewrite <- !app_comm_cons, <- app_assoc.
      rewrite le32_at_le_bytes by (change (2 ^ 32) with 4294967296; lia).
      change (byte_at (?a :: ?l) 0) with a.
      replace (5 + blen bs + blen rest =? 0) with false
        by (symmetry; apply Z.eqb_neq; lia).
      change (OP_PUSHDATA4 <? 76) with false.
      change (OP_PUSHDATA4 =? OP_PUSHDATA1) with false.
      change (OP_PUSHDATA4 =? OP_PUSHDATA2) with false.
      change (OP_PUSHDATA4 =? OP_PUSHDATA4) with true. cbv iota.
      replace (5 + blen bs + blen rest <? 5) with false
        by (symmetry; apply Z.ltb_ge; lia).
      replace (5 + blen bs + blen rest <? 5 + blen bs) with false
        by (symmetry; apply Z.ltb_ge; lia).
      reflexivity.
Qed.

Section PushFacts.
Context {C : crypto_ops}.

(** What a passing call of the push primitive did. *)
Lemma script_push_at_ok (bytes : list Z) (flags : Z) (mem : list Z)
  (off len w : Z) (m : list Z) :
  script_push_at bytes flags mem off len = (WALLY_OK, w, m) ->
  script_flags_ok flags 0 = true /\ len <> 0 /\
  w = script_get_push_size (blen (push_payload bytes flags)) /\
  m = if len <? w then mem
      else store_at off (push_encoding (push_payload bytes flags)) mem.
Proof.
  unfold script_push_at, push_payload, push_encoding, script_get_push_size.
  destruct (script_flags_ok flags 0); [| discriminate].
  destruct (Z.eqb_spec len 0); [discriminate |]. cbn [negb orb].
  assert (Hfin : forall r data,
    (if negb (r =? WALLY_OK) then (r, 0, mem)
     else if len <? blen data + calc_push_opcode_size (blen data)
          then (WALLY_OK, blen data + calc_push_opcode_size (blen data), mem)
          else (WALLY_OK, blen data + calc_push_opcode_size (blen data),
                store_at off (push_opcode_bytes (blen data) ++ data) mem))
    = (WALLY_OK, w, m) ->
    true = true /\ len <> 0 /\
    w = calc_push_opcode_size (blen data) + blen data /\
    m = if len <? w then mem
        else store_at off (push_opcode_bytes (blen data) ++ data) mem).
  { intros r data. destruct (Z.eqb_spec r WALLY_OK) as [-> | Hr]; cbn [negb].
    - rewrite (Z.add_comm (blen data)).
      destruct (len <? _) eqn:E; intros [= <- <-]; rewrite E; auto.
    - intros [= ? _ _]. congruence. }
  destruct (negb (Z.land flags WALLY_SCRIPT_HASH160 =? 0)).
  - destruct (wally_hash160 bytes) as [r h]. cbn [snd]. apply Hfin.
  - destruct (negb (Z.land flags WALLY_SCRIPT_SHA256 =? 0)).
    + destruct (wally_sha256 bytes) as [r h]. cbn [snd]. apply Hfin.
    + apply Hfin.
Qed.

(** An unhashed push into a buffer that has room. *)
Lemma script_push_at_fits (bytes mem : list Z) (off len : Z) :
  script_get_push_size (blen bytes) <= len ->
  script_push_at bytes 0 mem off len
  = (WALLY_OK, script_get_push_size (blen bytes),
     store_at off (push_encoding bytes) mem).
Proof.
  intros Hlen. pose proof (blen_nonneg bytes).
  pose proof (calc_push_opcode_size_range (blen bytes)).
  unfold script_push_at, script_get_push_size in *.
  change (script_flags_ok 0 0) with true.
  replace (len =? 0) with false by (symmetry; apply Z.eqb_neq; lia).
  cbn [negb orb]. change (Z.land 0 _) with 0. cbn [Z.eqb negb].
  change (negb (WALLY_OK =? WALLY_OK)) with false. cbv iota.
  replace (len <? _) with false by (symmetry; apply Z.ltb_ge; lia).
  rewrite (Z.add_comm (blen bytes)). reflexivity.
Qed.
End PushFacts.

(** ** Small integers and pushes *)

(** X1: [value_to_op_n] and [script_is_op_n] are inverse to each other: an
    opcode is accepted with value [n] exactly when it is the opcode of [n],
    [n] being in 0..16, and 1..16 when zero is not allowed. *)
Theorem op_n_roundtrip (op n : Z) (allow_zero : bool) :
  script_is_op_n op allow_zero = Some n <->
  (if allow_zero then 0 else 1) <= n <= 16 /\ op = value_to_op_n n.
Proof.
  unfold script_is_op_n, value_to_op_n, OP_0, OP_1, OP_16. split.
  - destruct allow_zero; cbn [andb].
    + destruct (Z.eqb_spec op 0) as [-> |]; [intros [= <-]; split; [lia | reflexivity] |].
      destruct (Z.leb_spec 81 op), (Z.leb_spec op 96); cbn [andb];
        try discriminate.
      intros [= <-]. replace (op - 81 + 1 =? 0) with false
        by (symmetry; apply Z.eqb_neq; lia). lia.
    + destruct (Z.leb_spec 81 op), (Z.leb_spec op 96); cbn [andb];
        try discriminate.
      intros [= <-]. replace (op - 81 + 1 =? 0) with false
        by (symmetry; apply Z.eqb_neq; lia). lia.
  - intros (Hn & ->). destruct (Z.eqb_spec n 0) as [-> | Hnz].
    + destruct allow_zero; [reflexivity | lia].
    + assert (1 <= n) by (destruct allow_zero; lia).
      replace (81 + n - 1 =? 0) with false by (symmetry; apply Z.eqb_neq; lia).
      rewrite andb_false_r.
      replace (81 <=? 81 + n - 1) with true by (symmetry; apply Z.leb_le; lia).
      replace (81 + n - 1 <=? 96) with true by (symmetry; apply Z.leb_le; lia).
      cbn [andb]. f_equal. lia.
Qed.

Section PushRoundTrip.
Context {C : crypto_ops}.

(** X2: pushing fewer than 2^32 bytes without hashing into a buffer with
    room returns the size [script_get_push_size] computes and leaves the
    bytes after it alone; on what was written, the two push-size readers
    return the opcode size [calc_push_opcode_size] chose and the payload
    length, and the payload follows the opcode bytes unchanged. *)
Theorem push_roundtrip (bytes mem : list Z) (len : Z) :
  blen bytes < 2 ^ 32 ->
  script_get_push_size (blen bytes) <= len -> len <= blen mem ->
  let r := wally_script_push_from_bytes bytes 0 (Some mem) len in
  let n := script_get_push_size (blen bytes) in
  let k := calc_push_opcode_size (blen bytes) in
  ret_of r = WALLY_OK /\ written_of r = n /\
  skipn (Z.to_nat n) (mem_of r) = skipn (Z.to_nat n) mem /\
  script_get_push_opcode_size_from_bytes (script_of r) = Some k /\
  script_get_push_size_from_bytes (script_of r) = Some (blen bytes) /\
  advance k (script_of r) = bytes.
Proof.
  intros H32 Hlen Hmem. cbv zeta.
  unfold wally_script_push_from_bytes, script_of.
  rewrite script_push_at_fits by exact Hlen.
  cbn [ret_of written_of mem_of fst snd].
  pose proof (blen_push_encoding bytes) as Hpe.
  rewrite firstn_store_at_0, skipn_store_at_0 by (rewrite ?Hpe; lia).
  repeat split.
  - unfold script_get_push_opcode_size_from_bytes.
    rewrite <- (app_nil_r (push_encoding bytes)).
    now rewrite get_push_size_push_encoding.
  - unfold script_get_push_size_from_bytes.
    rewrite <- (app_nil_r (push_encoding bytes)).
    now rewrite get_push_size_push_encoding.
  - unfold advance, push_encoding. rewrite <- blen_push_opcode_bytes.
    unfold blen. rewrite Nat2Z.id, skipn_app, skipn_all, Nat.sub_diag.
    reflexivity.
Qed.
End PushRoundTrip.

Lemma push_roundtrip_witness :
  blen (repeat 7 300) < 2 ^ 32 /\
  script_get_push_size (blen (repeat 7 300)) <= 400 /\
  400 <= blen (repeat 0 400) /\
  script_get_push_size_from_bytes
    (script_of (wally_script_push_from_bytes (C := example_crypto)
                  (repeat 7 300) 0 (Some (repeat 0 400)) 400))
  = Some 300.
Proof.
  assert (H1 : blen (repeat 7 300) < 2 ^ 32) by (vm_compute; reflexivity).
  assert (H2 : script_get_push_size (blen (repeat 7 300)) <= 400)
    by (vm_compute; discriminate).
  assert (H3 : 400 <= blen (repeat 0 400)) by (vm_compute; discriminate).
  destruct (push_roundtrip (C := example_crypto) (repeat 7 300) (repeat 0 400)
              400 H1 H2 H3) as (_ & _ & _ & _ & Hp & _).
  repeat (split; [assumption |]). exact Hp.
Defined.

(** ** Builders and the classifier *)

Lemma blen_scratch (n m : nat) (h : list Z) :
  (m <= n)%nat -> blen (scratch n m h) = Z.of_nat m.
Proof.
  intros H. unfold scratch, blen.
  rewrite length_firstn, store_length, repeat_length. lia.
Qed.

(** Stores next to each other, in either order. *)
Lemma store_at_then (a b mem : list Z) :
  store_at (blen a) b (store_at 0 a mem) = store_at 0 (a ++ b) mem.
Proof. rewrite <- (store_at_app 0 a b mem) by lia. reflexivity. Qed.

Lemma store_at_before (a b mem : list Z) :
  store_at 0 a (store_at (blen a) b mem) = store_at 0 (a ++ b) mem.
Proof.
  unfold store_at, blen. rewrite Nat2Z.id. change (Z.to_nat 0) with 0%nat.
  apply (nth_ext _ _ 0 0).
  - now rewrite !store_length.
  - intros i _. rewrite !nth_store, store_length, length_app.
    destruct (Nat.leb_spec 0 i), (Nat.ltb_spec i (0 + length a)),
      (Nat.ltb_spec i (length mem)), (Nat.leb_spec (length a) i),
      (Nat.ltb_spec i (length a + length b)),
      (Nat.ltb_spec i (0 + (length a + length b)));
      cbn [andb]; try lia; try reflexivity.
    + now rewrite app_nth1 by lia.
    + rewrite app_nth2 by lia. f_equal. lia.
Qed.

Lemma script_of_store (ret n : Z) (s mem : list Z) :
  n = blen s -> n <= blen mem ->
  script_of (ret, n, Some (store_at 0 s mem)) = s.
Proof. intros. unfold script_of. now apply firstn_store_at_0. Qed.

Lemma blen_length (l : list Z) (n : nat) :
  blen l = Z.of_nat n -> length l = n.
Proof. unfold blen. lia. Qed.

Lemma get_type_p2pkh_script (hash : list Z) :
  blen hash = 20 ->
  wally_scriptpubkey_get_type (Some (p2pkh_script hash)) = (WALLY_OK, P2PKH).
Proof.
  intros H. apply (blen_length _ 20) in H. list_of_length hash. reflexivity.
Qed.

Lemma get_type_p2sh_script (hash : list Z) :
  blen hash = 20 ->
  wally_scriptpubkey_get_type (Some (p2sh_script hash)) = (WALLY_OK, P2SH).
Proof.
  intros H. apply (blen_length _ 20) in H. list_of_length hash. reflexivity.
Qed.

Lemma get_type_witness_v0 (prog : list Z) :
  blen prog = 20 \/ blen prog = 32 ->
  wally_scriptpubkey_get_type (Some (witness_program 0 prog))
  = (WALLY_OK, if blen prog =? 20 then P2WPKH else P2WSH).
Proof.
  intros [H | H]; rewrite H.
  - apply (blen_length _ 20) in H. list_of_length prog. reflexivity.
  - apply (blen_length _ 32) in H. list_of_length prog. reflexivity.
Qed.

Lemma get_type_witness_v1 (prog : list Z) :
  blen prog = 32 ->
  wally_scriptpubkey_get_type (Some (witness_program 1 prog))
  = (WALLY_OK, P2TR).
Proof.
  intros H. apply (blen_length _ 32) in H. list_of_length prog. reflexivity.
Qed.

Lemma ldiff_disjoint (a b : Z) : Z.land a b = 0 -> Z.ldiff a b = a.
Proof.
  intros H. apply Z.bits_inj'. intros i Hi.
  rewrite Z.ldiff_spec.
  assert (Hb : Z.testbit (Z.land a b) i = false) by (rewrite H; apply Z.bits_0).
  rewrite Z.land_spec in Hb.
  destruct (Z.testbit a i), (Z.testbit b i); cbn in *; congruence.
Qed.

(** A flag word with no bit outside bit 0 is 0 or 1. *)
Lemma ldiff_1_cases (flags : Z) : Z.ldiff flags 1 = 0 -> flags = 0 \/ flags = 1.
Proof.
  intros H.
  assert (Hf : flags = Z.land flags 1).
  { apply Z.bits_inj'. intros i Hi.
    assert (Hb : Z.testbit (Z.ldiff flags 1) i = false)
      by (rewrite H; apply Z.bits_0).
    rewrite Z.ldiff_spec in Hb. rewrite Z.land_spec.
    destruct (Z.testbit flags i), (Z.testbit 1 i); cbn in *; congruence. }
  change 1 with (Z.ones 1) in Hf. rewrite Z.land_ones in Hf by lia.
  change (2 ^ 1) with 2 in Hf. pose proof (Z.mod_pos_bound flags 2). lia.
Qed.

(** The stores of the P2PKH and P2SH builders, as one store. *)
Lemma p2pkh_stores (hash mem : list Z) :
  blen hash = 20 ->
  store_at 24 [OP_CHECKSIG]
    (store_at 23 [OP_EQUALVERIFY]
       (store_at 2 (push_encoding hash) (store_at 0 [OP_DUP; OP_HASH160] mem)))
  = store_at 0 (p2pkh_script hash) mem.
Proof.
  intros H.
  assert (E : p2pkh_script hash
              = (([OP_DUP; OP_HASH160] ++ push_encoding hash)
                   ++ [OP_EQUALVERIFY]) ++ [OP_CHECKSIG]).
  { unfold p2pkh_script, push_encoding. rewrite H, <- !app_assoc. reflexivity. }
  rewrite E, <- !store_at_then, !blen_app, blen_push_encoding, H. reflexivity.
Qed.

Lemma p2sh_stores (hash mem : list Z) :
  blen hash = 20 ->
  store_at 22 [OP_EQUAL]
    (store_at 1 (push_encoding hash) (store_at 0 [OP_HASH160] mem))
  = store_at 0 (p2sh_script hash) mem.
Proof.
  intros H.
  assert (E : p2sh_script hash
              = ([OP_HASH160] ++ push_encoding hash) ++ [OP_EQUAL]).
  { unfold p2sh_script, push_encoding. rewrite H, <- !app_assoc. reflexivity. }
  rewrite E, <- !store_at_then, !blen_app, blen_push_encoding, H. reflexivity.
Qed.

Section BuilderTypes.
Context {C : crypto_ops}.

Lemma blen_push_payload_hash160 (bytes : list Z) (flags : Z) :
  Z.land flags WALLY_SCRIPT_HASH160 <> 0 ->
  blen (push_payload bytes flags) = 20.
Proof.
  intros H. unfold push_payload.
  destruct (Z.eqb_spec (Z.land flags WALLY_SCRIPT_HASH160) 0); [easy |].
  cbn [negb]. now rewrite blen_scratch by lia.
Qed.

(** X3: whenever the P2PKH builder succeeds on a buffer of at least 25
    bytes, it has written exactly the 25-byte script OP_DUP OP_HASH160
    <20 bytes> OP_EQUALVERIFY OP_CHECKSIG around the pushed data (the input
    hash, or the HASH160 of the input key), it has left the bytes after the
    script alone, and the classifier gives the script the type P2PKH. *)
Theorem p2pkh_builder_classified (bytes : list Z) (flags : Z)
  (mem : list Z) (len : Z) :
  WALLY_SCRIPTPUBKEY_P2PKH_LEN <= len -> len <= blen mem ->
  let r := wally_scriptpubkey_p2pkh_from_bytes bytes flags (Some mem) len in
  ret_of r = WALLY_OK ->
  written_of r = WALLY_SCRIPTPUBKEY_P2PKH_LEN /\
  blen (push_payload bytes flags) = HASH160_LEN /\
  script_of r = p2pkh_script (push_payload bytes flags) /\
  skipn 25 (mem_of r) = skipn 25 mem /\
  wally_scriptpubkey_get_type (Some (script_of r)) = (WALLY_OK, P2PKH).
Proof.
  unfold WALLY_SCRIPTPUBKEY_P2PKH_LEN, HASH160_LEN. intros Hlen Hmem. cbv zeta.
  unfold wally_scriptpubkey_p2pkh_from_bytes.
  destruct (blen bytes =? 0); [discriminate |].
  destruct (script_flags_ok flags 0); [| discriminate].
  destruct (Z.eqb_spec (Z.land flags WALLY_SCRIPT_SHA256) 0) as [Hsha |];
    [| discriminate].
  destruct (len =? 0); [discriminate |]. cbn [negb orb].
  unfold WALLY_SCRIPTPUBKEY_P2PKH_LEN.
  replace (len <? 25) with false by (symmetry; apply Z.ltb_ge; lia).
  assert (Hpay : (if negb (Z.land flags WALLY_SCRIPT_HASH160 =? 0)
                  then negb (blen bytes =? EC_PUBLIC_KEY_LEN) &&
                       negb (blen bytes =? EC_PUBLIC_KEY_UNCOMPRESSED_LEN)
                  else negb (blen bytes =? HASH160_LEN)) = false ->
                 blen (push_payload bytes flags) = 20).
  { destruct (Z.eqb_spec (Z.land flags WALLY_SCRIPT_HASH160) 0) as [H160 | H160].
    - cbn [negb]. unfold push_payload. rewrite H160, Hsha. cbn [Z.eqb negb].
      unfold HASH160_LEN. destruct (Z.eqb_spec (blen bytes) 20); easy.
    - intros _. now apply blen_push_payload_hash160. }
  destruct (if negb (Z.land flags WALLY_SCRIPT_HASH160 =? 0) then _ else _);
    [discriminate |].
  specialize (Hpay eq_refl).
  destruct (script_push_at bytes flags _ 2 (len - 4)) as [[ret w] m] eqn:Hp.
  destruct (Z.eqb_spec ret WALLY_OK) as [-> | Hr];
    [| cbn [ret_of fst]; intros; contradiction].
  intros _. apply script_push_at_ok in Hp. destruct Hp as (_ & _ & -> & ->).
  rewrite Hpay. change (script_get_push_size 20) with 21.
  replace (len - 4 <? 21) with false by (symmetry; apply Z.ltb_ge; lia).
  change (25 - 2) with 23. change (25 - 1) with 24.
  rewrite p2pkh_stores by exact Hpay.
  assert (Hl : blen (p2pkh_script (push_payload bytes flags)) = 25).
  { unfold p2pkh_script. rewrite !blen_app, Hpay. reflexivity. }
  rewrite script_of_store by (cbn [written_of fst snd]; lia).
  cbn [written_of mem_of fst snd].
  repeat split.
  - change 25%nat with (Z.to_nat 25). apply skipn_store_at_0; lia.
  - now apply get_type_p2pkh_script.
Qed.

(** X4: whenever the P2SH builder succeeds on a buffer of at least 23
    bytes, it has written exactly the 23-byte script OP_HASH160 <20 bytes>
    OP_EQUAL around the pushed data (the input hash, or the HASH160 of the
    input script), and the classifier gives it the type P2SH. *)
Theorem p2sh_builder_classified (bytes : list Z) (flags : Z)
  (mem : list Z) (len : Z) :
  WALLY_SCRIPTPUBKEY_P2SH_LEN <= len -> len <= blen mem ->
  let r := wally_scriptpubkey_p2sh_from_bytes bytes flags (Some mem) len in
  ret_of r = WALLY_OK ->
  written_of r = WALLY_SCRIPTPUBKEY_P2SH_LEN /\
  blen (push_payload bytes flags) = HASH160_LEN /\
  script_of r = p2sh_script (push_payload bytes flags) /\
  skipn 23 (mem_of r) = skipn 23 mem /\
  wally_scriptpubkey_get_type (Some (script_of r)) = (WALLY_OK, P2SH).
Proof.
  unfold WALLY_SCRIPTPUBKEY_P2SH_LEN, HASH160_LEN. intros Hlen Hmem. cbv zeta.
  unfold wally_scriptpubkey_p2sh_from_bytes.
  destruct (blen bytes =? 0); [discriminate |].
  destruct (Z.eqb_spec (Z.ldiff flags WALLY_SCRIPT_HASH160) 0) as [Hfl |];
    [| discriminate].
  destruct (len =? 0); [discriminate |]. cbn [negb orb].
  apply ldiff_1_cases in Hfl.
  assert (Hpay : (Z.land flags WALLY_SCRIPT_HASH160 =? 0) &&
                 negb (blen bytes =? HASH160_LEN) = false ->
                 blen (push_payload bytes flags) = 20).
  { destruct Hfl as [-> | ->].
    - unfold push_payload, HASH160_LEN. cbn.
      destruct (Z.eqb_spec (blen bytes) 20); easy.
    - intros _. now apply blen_push_payload_hash160. }
  destruct (_ && _); [discriminate |]. specialize (Hpay eq_refl).
  unfold WALLY_SCRIPTPUBKEY_P2SH_LEN.
  replace (len <? 23) with false by (symmetry; apply Z.ltb_ge; lia).
  destruct (script_push_at bytes flags _ 1 (len - 2)) as [[ret w] m] eqn:Hp.
  destruct (Z.eqb_spec ret WALLY_OK) as [-> | Hr];
    [| cbn [ret_of fst]; intros; contradiction].
  intros _. apply script_push_at_ok in Hp. destruct Hp as (_ & _ & -> & ->).
  rewrite Hpay. change (script_get_push_size 20) with 21.
  replace (len - 2 <? 21) with false by (symmetry; apply Z.ltb_ge; lia).
  change (23 - 1) with 22.
  rewrite p2sh_stores by exact Hpay.
  assert (Hl : blen (p2sh_script (push_payload bytes flags)) = 23).
  { unfold p2sh_script. rewrite !blen_app, Hpay. reflexivity. }
  rewrite script_of_store by (cbn [written_of fst snd]; lia).
  cbn [written_of mem_of fst snd].
  repeat split.
  - change 23%nat with (Z.to_nat 23). apply skipn_store_at_0; lia.
  - now apply get_type_p2sh_script.
Qed.
End BuilderTypes.

(** A flag word with no bit outside the low [k] bits is below [2 ^ k]. *)
Lemma ldiff_ones_small (a k : Z) :
  0 <= k -> Z.ldiff a (Z.ones k) = 0 -> 0 <= a < 2 ^ k.
Proof.
  intros Hk H.
  assert (Hf : a = Z.land a (Z.ones k)).
  { apply Z.bits_inj'. intros i Hi.
    assert (Hb : Z.testbit (Z.ldiff a (Z.ones k)) i = false)
      by (rewrite H; apply Z.bits_0).
    rewrite Z.ldiff_spec in Hb. rewrite Z.land_spec.
    destruct (Z.testbit a i), (Z.testbit (Z.ones k) i); cbn in *; congruence. }
  rewrite Z.land_ones in Hf by lia. rewrite Hf. apply Z.mod_pos_bound. lia.
Qed.

(** The flag words [script_flags_ok] accepts beside AS_PUSH. *)
Lemma script_flags_ok_as_push (flags : Z) :
  script_flags_ok flags WALLY_SCRIPT_AS_PUSH = true ->
  flags = 0 \/ flags = 1 \/ flags = 2 \/ flags = 4 \/ flags = 5 \/ flags = 6.
Proof.
  unfold script_flags_ok.
  destruct (Z.eqb_spec (Z.ldiff flags
              (Z.lor ALL_SCRIPT_HASH_FLAGS WALLY_SCRIPT_AS_PUSH)) 0) as [H |];
    [| discriminate].
  apply (ldiff_ones_small flags 3) in H; [| lia]. change (2 ^ 3) with 8 in H.
  assert (Hc : flags = 0 \/ flags = 1 \/ flags = 2 \/ flags = 3 \/ flags = 4 \/
               flags = 5 \/ flags = 6 \/ flags = 7) by lia.
  destruct Hc as [-> | [-> | [-> | [-> | [-> | [-> | [-> | ->]]]]]]];
    cbn; intros; try discriminate; tauto.
Qed.

Section WitnessProgram.
Context {C : crypto_ops}.

Lemma blen_push_payload_cases (bytes : list Z) (flags : Z) :
  blen (push_payload bytes flags)
  = if negb (Z.land flags WALLY_SCRIPT_HASH160 =? 0) then 20
    else if negb (Z.land flags WALLY_SCRIPT_SHA256 =? 0) then 32
    else blen bytes.
Proof.
  unfold push_payload.
  destruct (negb (Z.land flags WALLY_SCRIPT_HASH160 =? 0));
    [now rewrite blen_scratch by lia |].
  destruct (negb (Z.land flags WALLY_SCRIPT_SHA256 =? 0));
    [now rewrite blen_scratch by lia | reflexivity].
Qed.

(** X5: whenever the witness-program builder succeeds and what it reports
    fits the buffer, it has written the version opcode followed by the push
    of the program (the input, or its HASH160 or SHA256), and with the
    AS_PUSH flag that script as one push (its length byte first).  A
    version-0 program is 20 or 32 bytes long and the classifier gives the
    script the type P2WPKH or P2WSH accordingly; a version-1 program of 32
    bytes gets the type P2TR. *)
Theorem witness_program_builder (bytes : list Z) (version flags : Z)
  (mem : list Z) (len : Z) :
  let r := wally_witness_program_from_bytes_and_version bytes version flags
             (Some mem) len in
  let prog := push_payload bytes (Z.ldiff flags WALLY_SCRIPT_AS_PUSH) in
  ret_of r = WALLY_OK -> written_of r <= len -> len <= blen mem ->
  script_of r
  = (if Z.land flags WALLY_SCRIPT_AS_PUSH =? 0 then witness_program version prog
     else push_encoding (witness_program version prog)) /\
  (version = 0 ->
   wally_scriptpubkey_get_type (Some (witness_program version prog))
   = (WALLY_OK, if blen prog =? HASH160_LEN then P2WPKH else P2WSH)) /\
  (version = 1 -> blen prog = SHA256_LEN ->
   wally_scriptpubkey_get_type (Some (witness_program version prog))
   = (WALLY_OK, P2TR)).
Proof.
  cbv zeta. unfold wally_witness_program_from_bytes_and_version.
  destruct (version >? 16); [discriminate |].
  destruct (script_flags_ok flags WALLY_SCRIPT_AS_PUSH) eqn:Hok;
    [| discriminate].
  destruct (len =? 0); [discriminate |]. cbn [negb orb].
  set (P := push_payload bytes (Z.ldiff flags WALLY_SCRIPT_AS_PUSH)).
  assert (HP : (if negb (Z.land flags ALL_SCRIPT_HASH_FLAGS =? 0)
                then blen bytes =? 0
                else if (version =? 0) && negb (blen bytes =? HASH160_LEN) &&
                        negb (blen bytes =? SHA256_LEN)
                then true
                else (blen bytes <? 2) ||
                     (blen bytes >? WALLY_WITNESSSCRIPT_MAX_LEN - 2)) = false ->
               blen P <= 40 /\ (version = 0 -> blen P = 20 \/ blen P = 32)).
  { subst P. rewrite blen_push_payload_cases.
    apply script_flags_ok_as_push in Hok.
    unfold HASH160_LEN, SHA256_LEN, WALLY_WITNESSSCRIPT_MAX_LEN.
    destruct Hok as [-> | [-> | [-> | [-> | [-> | ->]]]]]; cbn;
      try (intros _; split; [lia | tauto]);
      (destruct (Z.eqb_spec version 0) as [-> | Hv]; cbn [andb];
       [ destruct (Z.eqb_spec (blen bytes) 20), (Z.eqb_spec (blen bytes) 32);
         cbn [negb andb]; try discriminate; intros _; split; try lia; tauto
       | destruct (Z.ltb_spec (blen bytes) 2); [discriminate |];
         destruct (blen bytes >? 40) eqn:Hgt; [discriminate |];
         intros _; split; [lia | tauto] ]). }
  destruct (if negb (Z.land flags ALL_SCRIPT_HASH_FLAGS =? 0) then _ else _);
    [discriminate |].
  destruct (HP eq_refl) as [HP40 HP0]. clear HP.
  assert (Hty : (version = 0 ->
     wally_scriptpubkey_get_type (Some (witness_program version P))
     = (WALLY_OK, if blen P =? HASH160_LEN then P2WPKH else P2WSH)) /\
    (version = 1 -> blen P = SHA256_LEN ->
     wally_scriptpubkey_get_type (Some (witness_program version P))
     = (WALLY_OK, P2TR))).
  { split.
    - intros ->. now apply get_type_witness_v0, HP0.
    - intros ->. apply get_type_witness_v1. }
  pose proof (blen_nonneg P) as HPn.
  assert (Hsz : script_get_push_size (blen P) = 1 + blen P).
  { unfold script_get_push_size, calc_push_opcode_size.
    replace (blen P <? 76) with true by (symmetry; apply Z.ltb_lt; lia).
    reflexivity. }
  destruct (Z.eqb_spec (Z.land flags WALLY_SCRIPT_AS_PUSH) 0) as [Hap | Hap];
    cbn [negb andb].
  - destruct (script_push_at bytes _ _ (0 + 1) (len - 1)) as [[ret w] m] eqn:Hp.
    destruct (Z.eqb_spec ret WALLY_OK) as [-> | Hr];
      [| cbn [ret_of fst]; intros; contradiction].
    apply script_push_at_ok in Hp. destruct Hp as (_ & _ & -> & ->).
    fold P. rewrite Hsz. cbn [written_of fst snd]. intros _ Hw Hmem.
    replace (len - 1 <? 1 + blen P) with false
      by (symmetry; apply Z.ltb_ge; lia).
    change (0 + 1) with (blen [value_to_op_n version]).
    rewrite store_at_then.
    split; [| exact Hty].
    apply script_of_store; [| lia].
    unfold witness_program. cbn [app].
    rewrite blen_cons, blen_push_encoding, Hsz. lia.
  - destruct (Z.ltb_spec len 2); [discriminate |].
    destruct (script_push_at bytes _ _ (1 + 1) (len - 1 - 1))
      as [[ret w] m] eqn:Hp.
    destruct (Z.eqb_spec ret WALLY_OK) as [-> | Hr];
      [| cbn [ret_of fst]; intros; contradiction].
    apply script_push_at_ok in Hp. destruct Hp as (_ & _ & -> & ->).
    fold P. rewrite Hsz. cbn [written_of fst snd]. intros _ Hw Hmem.
    replace (len - 1 - 1 <? 1 + blen P) with false
      by (symmetry; apply Z.ltb_ge; lia).
    change (1 + 1) with (1 + blen [value_to_op_n version]).
    rewrite store_at_app by lia.
    rewrite land_255_small by lia.
    pose proof (store_at_before [1 + blen P + 1]
                  ([value_to_op_n version] ++ push_encoding P) mem) as Hst.
    change (blen [1 + blen P + 1]) with 1 in Hst. rewrite Hst. clear Hst.
    split; [| exact Hty].
    assert (Hwl : blen (witness_program version P) = 1 + blen P + 1).
    { unfold witness_program. rewrite blen_cons, blen_push_encoding, Hsz. lia. }
    assert (Hpe : push_encoding (witness_program version P)
                  = [1 + blen P + 1] ++ [value_to_op_n version] ++ push_encoding P).
    { unfold push_encoding at 1. rewrite Hwl. unfold push_opcode_bytes.
      replace (1 + blen P + 1 <? 76) with true
        by (symmetry; apply Z.ltb_lt; lia).
      reflexivity. }
    rewrite Hpe. apply script_of_store; [| lia].
    rewrite <- Hpe, blen_push_encoding, Hwl.
    unfold script_get_push_size, calc_push_opcode_size.
    replace (1 + blen P + 1 <? 76) with true
      by (symmetry; apply Z.ltb_lt; lia).
    lia.
Qed.
End WitnessProgram.

Section MoreBuilders.
Context {C : crypto_ops}.

(** X6: whenever the taproot builder succeeds on a buffer of at least 34
    bytes, it has written OP_1 and the push of a 32-byte x-only key: the
    input itself when it has 32 bytes, the tweaked key without its first
    byte when the input has 33; the classifier gives the script the type
    P2TR. *)
Theorem p2tr_builder_classified (bytes : list Z) (flags : Z)
  (mem : list Z) (len : Z) :
  WALLY_SCRIPTPUBKEY_P2TR_LEN <= len -> len <= blen mem ->
  let r := wally_scriptpubkey_p2tr_from_bytes bytes flags (Some mem) len in
  let xonly :=
    if blen bytes =? EC_PUBLIC_KEY_LEN
    then skipn 1 (scratch 33 33
                    (snd (wally_ec_public_key_bip341_tweak bytes flags)))
    else bytes in
  ret_of r = WALLY_OK ->
  written_of r = WALLY_SCRIPTPUBKEY_P2TR_LEN /\
  blen xonly = EC_XONLY_PUBLIC_KEY_LEN /\
  script_of r = witness_program 1 xonly /\
  wally_scriptpubkey_get_type (Some (script_of r)) = (WALLY_OK, P2TR).
Proof.
  unfold WALLY_SCRIPTPUBKEY_P2TR_LEN, EC_XONLY_PUBLIC_KEY_LEN.
  intros Hlen Hmem. cbv zeta.
  unfold wally_scriptpubkey_p2tr_from_bytes.
  destruct (if BUILD_ELEMENTS then _ else _); [discriminate |].
  unfold WALLY_SCRIPTPUBKEY_P2TR_LEN.
  replace (len <? 34) with false by (symmetry; apply Z.ltb_ge; lia).
  assert (Hout : forall xonly,
    blen xonly = 32 ->
    let r := (WALLY_OK, 34, Some (store_at 0 (witness_program 1 xonly) mem)) in
    written_of r = 34 /\ blen xonly = 32 /\
    script_of r = witness_program 1 xonly /\
    wally_scriptpubkey_get_type (Some (script_of r)) = (WALLY_OK, P2TR)).
  { intros xonly Hl. cbv zeta.
    rewrite script_of_store;
      [| unfold witness_program; rewrite blen_cons, blen_push_encoding, Hl;
         reflexivity | lia].
    repeat split; [exact Hl | now apply get_type_witness_v1]. }
  assert (Hwp : forall xonly, blen xonly = 32 ->
            OP_1 :: blen xonly :: xonly = witness_program 1 xonly).
  { intros xonly Hl. unfold witness_program, push_encoding. now rewrite Hl. }
  unfold EC_XONLY_PUBLIC_KEY_LEN.
  destruct (blen bytes =? EC_PUBLIC_KEY_LEN).
  - destruct (wally_ec_public_key_bip341_tweak bytes flags) as [ret tw].
    cbn [snd]. cbv beta iota.
    destruct (Z.eqb_spec ret WALLY_OK) as [-> | Hr]; cbn [negb];
      [| cbn [ret_of fst]; intros; contradiction].
    destruct (Z.eqb_spec (blen (skipn 1 (scratch 33 33 tw))) 32) as [Hl | Hl];
      [| discriminate].
    cbn [negb]. intros _. rewrite Hwp by exact Hl. now apply Hout.
  - cbv beta iota. change (negb (WALLY_OK =? WALLY_OK)) with false. cbv iota.
    destruct (Z.eqb_spec (blen bytes) 32) as [Hl | Hl]; [| discriminate].
    cbn [negb]. intros _. rewrite Hwp by exact Hl. now apply Hout.
Qed.

(** X7: whenever the OP_RETURN builder succeeds and what it reports fits
    the buffer, it has written OP_RETURN followed by the push of the data
    (at most 80 bytes), one byte more than the push; the classifier gives
    the script the type OpReturn and the push-size reader finds the data
    length behind the opcode. *)
Theorem op_return_builder_classified (bytes : list Z) (flags : Z)
  (mem : list Z) (len : Z) :
  let r := wally_scriptpubkey_op_return_from_bytes bytes flags (Some mem) len in
  ret_of r = WALLY_OK -> written_of r <= len -> len <= blen mem ->
  blen bytes <= WALLY_MAX_OP_RETURN_LEN /\
  written_of r = 1 + script_get_push_size (blen bytes) /\
  script_of r = OP_RETURN :: push_encoding bytes /\
  wally_scriptpubkey_get_type (Some (script_of r)) = (WALLY_OK, OpReturn) /\
  script_get_push_size_from_bytes (advance 1 (script_of r))
  = Some (blen bytes).
Proof.
  cbv zeta. unfold wally_scriptpubkey_op_return_from_bytes.
  destruct (blen bytes >? WALLY_MAX_OP_RETURN_LEN) eqn:Hmax; [discriminate |].
  destruct (Z.eqb_spec flags 0) as [-> |]; [| discriminate].
  destruct (len =? 0); [discriminate |]. cbn [negb orb].
  destruct (script_push_at bytes 0 mem 1 (len - 1)) as [[ret w] m] eqn:Hp.
  destruct (Z.eqb_spec ret WALLY_OK) as [-> | Hr];
    [| cbn [ret_of fst]; intros; contradiction].
  apply script_push_at_ok in Hp. destruct Hp as (_ & _ & -> & ->).
  change (push_payload bytes 0) with bytes.
  cbn [written_of fst snd]. intros _ Hw Hmem.
  replace (len - 1 <? script_get_push_size (blen bytes)) with false
    by (symmetry; apply Z.ltb_ge; lia).
  pose proof (store_at_before [OP_RETURN] (push_encoding bytes) mem) as Hst.
  change (blen [OP_RETURN]) with 1 in Hst. rewrite Hst. clear Hst.
  cbn [app].
  rewrite script_of_store
    by (rewrite ?blen_cons, ?blen_push_encoding; lia).
  unfold WALLY_MAX_OP_RETURN_LEN in *.
  repeat split; try lia.
  change (advance 1 (OP_RETURN :: push_encoding bytes))
    with (push_encoding bytes).
  unfold script_get_push_size_from_bytes.
  rewrite <- (app_nil_r (push_encoding bytes)).
  rewrite get_push_size_push_encoding; [reflexivity |].
  change (2 ^ 32) with 4294967296. lia.
Qed.
End MoreBuilders.

(** ** The multisig builder *)

(** The elements of an array of [n] elements of [w] bytes. *)
Lemma elements_sized (w : nat) :
  forall n bytes, length bytes = (n * w)%nat ->
    Forall (sized w) (elements n w bytes) /\
    concat (elements n w bytes) = bytes /\
    length (elements n w bytes) = n.
Proof.
  induction n as [| n IH]; intros bytes Hl; cbn [elements concat length].
  - destruct bytes; [auto | discriminate].
  - destruct (IH (skipn w bytes)) as (Hs & Hc & Hn).
    { rewrite length_skipn, Hl. cbn. lia. }
    repeat split.
    + constructor; [| exact Hs]. unfold sized. rewrite length_firstn, Hl.
      cbn. lia.
    + rewrite Hc. apply firstn_skipn.
    + now rewrite Hn.
Qed.

(** The classifier on OP_m <key pushes> OP_k OP_CHECKMULTISIG. *)
Lemma get_type_bare_multisig (m : Z) (pushes : list (list Z)) :
  Forall key_push pushes ->
  1 <= m <= 16 -> 1 <= Z.of_nat (length pushes) <= 16 ->
  wally_scriptpubkey_get_type (Some (bare_multisig m pushes))
  = (WALLY_OK, Multisig).
Proof.
  intros Hp Hm Hk. set (k := Z.of_nat (length pushes)) in *.
  pose proof (concat_key_pushes_len pushes Hp) as Hc. fold k in Hc.
  set (tail := [value_to_op_n k; OP_CHECKMULTISIG]).
  assert (Hs : bare_multisig m pushes = value_to_op_n m :: concat pushes ++ tail)
    by reflexivity.
  assert (Hlen : blen (bare_multisig m pushes) = 1 + blen (concat pushes) + 2)
    by (rewrite Hs, blen_cons, blen_app; change (blen tail) with 2; lia).
  assert (Hnth : forall j, (j < 2)%nat ->
            byte_at (bare_multisig m pushes) (1 + blen (concat pushes) + Z.of_nat j)
            = nth j tail 0).
  { intros j Hj. rewrite Hs. unfold byte_at, blen.
    replace (Z.to_nat (1 + Z.of_nat (length (concat pushes)) + Z.of_nat j))
      with (S (length (concat pushes) + j)) by lia.
    cbn [nth]. rewrite app_nth2 by lia. f_equal. lia. }
  unfold wally_scriptpubkey_get_type, scriptpubkey_is_op_return.
  replace (blen (bare_multisig m pushes) =? 0) with false
    by (symmetry; apply Z.eqb_neq; lia).
  assert (Hb0 : byte_at (bare_multisig m pushes) 0 = value_to_op_n m) by reflexivity.
  rewrite Hb0.
  replace (value_to_op_n m =? OP_RETURN) with false
    by (symmetry; apply Z.eqb_neq; unfold value_to_op_n, OP_RETURN, OP_0, OP_1;
        destruct (m =? 0); lia).
  cbn [negb andb].
  unfold scriptpubkey_is_multisig. rewrite Hb0, Hlen.
  replace (1 + blen (concat pushes) + 2 <? 1 + 1 + 33 + 1 + 1) with false
    by (symmetry; apply Z.ltb_ge; lia).
  rewrite script_is_op_n_value by exact Hm.
  replace (1 + blen (concat pushes) + 2 - 1)
    with (1 + blen (concat pushes) + Z.of_nat 1) by lia.
  replace (1 + blen (concat pushes) + 2 - 2)
    with (1 + blen (concat pushes) + Z.of_nat 0) by lia.
  rewrite !Hnth by lia. cbn [nth tail].
  change (OP_CHECKMULTISIG =? OP_CHECKMULTISIG) with true. cbn [negb].
  rewrite script_is_op_n_value by exact Hk.
  unfold k. rewrite Nat2Z.id. rewrite Hs. change (advance 1 (?a :: ?l)) with l.
  rewrite multisig_pushes_accepts by (auto; reflexivity).
  reflexivity.
Qed.

(** The builder's script is a bare multisig script of direct pushes. *)
Lemma multisig_script_bare (threshold : Z) (keys : list (list Z)) :
  Forall (sized 33) keys ->
  multisig_script threshold (Z.of_nat (length keys)) keys
  = bare_multisig threshold (map (fun k => EC_PUBLIC_KEY_LEN :: k) keys) /\
  Forall key_push (map (fun k => EC_PUBLIC_KEY_LEN :: k) keys) /\
  blen (multisig_script threshold (Z.of_nat (length keys)) keys)
  = 3 + 34 * Z.of_nat (length keys).
Proof.
  intros Hs. repeat split.
  - unfold multisig_script, bare_multisig. now rewrite length_map.
  - rewrite Forall_map. rewrite Forall_forall in *. intros k Hk.
    specialize (Hs k Hk). unfold sized in Hs.
    replace EC_PUBLIC_KEY_LEN with (blen k) by (unfold blen; now rewrite Hs).
    apply key_push_direct. unfold blen. now rewrite Hs.
  - unfold multisig_script. rewrite blen_cons, blen_app.
    change (blen [_; _]) with 2.
    assert (Hc : blen (concat (map (fun k => EC_PUBLIC_KEY_LEN :: k) keys))
                 = 34 * Z.of_nat (length keys)).
    { clear threshold. induction Hs as [| k ks Hk _ IH];
        cbn [map concat length]; [reflexivity |].
      rewrite blen_app, blen_cons, IH, Nat2Z.inj_succ. unfold sized in Hk.
      unfold blen. rewrite Hk. lia. }
    rewrite Hc. lia.
Qed.

Section MultisigBuilder.
Context {C : crypto_ops}.

(** X8: whenever the multisig builder succeeds and what it reports fits the
    buffer, the input is [n] keys of 33 bytes with 1 <= threshold <= n <=
    15, and the builder has written 3 + 34 n bytes: the threshold opcode, a
    direct push of every input key (in the input order, or in ascending
    [memcmp] order with the sort flag), the opcode of [n] and
    OP_CHECKMULTISIG; the classifier gives the script the type Multisig. *)
Theorem multisig_builder_classified (bytes : list Z) (threshold flags : Z)
  (mem : list Z) (len : Z) :
  let r := wally_scriptpubkey_multisig_from_bytes bytes threshold flags
             (Some mem) len in
  let n := blen bytes / EC_PUBLIC_KEY_LEN in
  let keys := elements (Z.to_nat n) 33 bytes in
  ret_of r = WALLY_OK -> written_of r <= len -> len <= blen mem ->
  1 <= threshold <= n /\ n <= 15 /\ concat keys = bytes /\
  Forall (sized 33) keys /\
  written_of r = 3 + 34 * n /\
  (exists sorted,
     script_of r = multisig_script threshold n sorted /\
     Permutation keys sorted /\
     (Z.land flags WALLY_SCRIPT_MULTISIG_SORTED = 0 -> sorted = keys) /\
     (Z.land flags WALLY_SCRIPT_MULTISIG_SORTED <> 0 ->
      StronglySorted (mem_le 33) sorted)) /\
  wally_scriptpubkey_get_type (Some (script_of r)) = (WALLY_OK, Multisig).
Proof.
  cbv zeta. unfold wally_scriptpubkey_multisig_from_bytes, EC_PUBLIC_KEY_LEN.
  set (n := blen bytes / 33).
  destruct (Z.eqb_spec (blen bytes) 0); [discriminate |].
  destruct (Z.eqb_spec (blen bytes mod 33) 0) as [Hmod |]; [| discriminate].
  destruct (Z.ltb_spec n 1); [discriminate |].
  destruct (n >? 15) eqn:Hn15; [discriminate |].
  destruct (Z.ltb_spec threshold 1); [discriminate |].
  destruct (threshold >? 15) eqn:Ht15; [discriminate |].
  destruct (threshold >? n) eqn:Htn; [discriminate |].
  destruct (negb (Z.ldiff flags WALLY_SCRIPT_MULTISIG_SORTED =? 0));
    [discriminate |].
  destruct (len =? 0); [discriminate |]. cbn [negb orb].
  destruct (Z.ltb_spec len (3 + n * (33 + 1))) as [Hshort | Hfits].
  { cbn [ret_of written_of fst snd]. lia. }
  cbn [ret_of written_of fst snd]. intros _ _ Hmem.
  assert (Hbl : length bytes = (Z.to_nat n * 33)%nat).
  { pose proof (Z.div_mod (blen bytes) 33 ltac:(lia)) as Hd. fold n in Hd. unfold blen in *. lia. }
  change (Z.to_nat 33) with 33%nat.
  destruct (elements_sized 33 (Z.to_nat n) bytes Hbl) as (Hsz & Hcat & Hcnt).
  set (keys := elements (Z.to_nat n) 33 bytes) in *.
  set (sorted := if negb (Z.land flags WALLY_SCRIPT_MULTISIG_SORTED =? 0)
                 then qsort pubkey_compare keys else keys).
  assert (Hperm : Permutation keys sorted).
  { subst sorted. destruct (negb _); [apply (qsort_perm 33) | reflexivity]. }
  assert (Hsz' : Forall (sized 33) sorted).
  { rewrite Forall_forall in *. intros z Hz. apply Hsz.
    now apply (Permutation_in z (Permutation_sym Hperm)). }
  assert (Hcnt' : n = Z.of_nat (length sorted)).
  { rewrite <- (Permutation_length Hperm), Hcnt. lia. }
  destruct (multisig_script_bare threshold sorted Hsz') as (Hbare & Hkp & Hlen).
  rewrite <- Hcnt' in Hbare, Hlen.
  rewrite script_of_store by (cbn [written_of fst snd]; lia).
  repeat split; try lia; try assumption.
  - exists sorted. repeat split; [exact Hperm | |].
    + subst sorted. intros ->. reflexivity.
    + subst sorted. intros Hf.
      destruct (Z.eqb_spec (Z.land flags WALLY_SCRIPT_MULTISIG_SORTED) 0);
        [contradiction |].
      cbn [negb]. now apply (qsort_sorted 33).
  - rewrite Hbare. apply get_type_bare_multisig; [exact Hkp | lia |].
    rewrite length_map. lia.
Qed.
End MultisigBuilder.

(** ** CSV scripts for every delay *)

(** The script-integer codec on what the encoder stores, as the CSV scripts
    use it: the decoder finds the value after the count, and the count is
    the number of bytes stored and what [scriptint_get_length] announces. *)
Lemma scriptint_codec (v : Z) (rest : list Z) :
  - 2 ^ 31 < v < 2 ^ 31 ->
  scriptint_from_bytes
    (fst (scriptint_to_bytes v) :: snd (scriptint_to_bytes v) ++ rest)
    = (WALLY_OK, v) /\
  fst (scriptint_to_bytes v) = blen (snd (scriptint_to_bytes v)) /\
  fst (scriptint_to_bytes v) = scriptint_get_length v.
Proof.
  intros Hv.
  assert (Hlen : fst (scriptint_to_bytes v) = scriptint_get_length v).
  { unfold scriptint_to_bytes, scriptint_get_length.
    rewrite (scriptint_len_loop_to_loop 8 _ [] 0 0).
    destruct (scriptint_to_loop 8 (scriptint_magnitude v) [] 0) as [o l].
    cbn [fst snd]. change (blen []) with 0.
    destruct (Z.land l 128 =? 0); cbn [negb];
      [destruct (v <? 0) |]; cbn [fst]; lia. }
  split; [| split; [| exact Hlen]].
  all: destruct (Z.eq_dec v 0) as [-> | Hnz];
    [first [apply scriptint_from_bytes_zero | reflexivity] |].
  all: unfold scriptint_to_bytes.
  all: set (m := scriptint_magnitude v).
  all: assert (Hm : m = Z.abs v)
    by (unfold m, scriptint_magnitude, u64;
        destruct (Z.ltb_spec v 0); rewrite Z.mod_small; lia).
  all: destruct (scriptint_to_loop_digits 8 m [] 0 (scriptint_magnitude_range v))
    as (ds & l & Heq & Hb & Hval & Hshape).
  all: cbn [app] in Heq; rewrite Heq.
  all: destruct Hshape as [(Hz & _) | (ds' & -> & Hl1)]; [lia |].
  all: apply Forall_app in Hb; destruct Hb as [Hds' Hl']; inversion Hl' as [| ? ? Hlb _]; subst.
  all: rewrite le_value_app in Hval; cbn [le_value] in Hval.
  all: pose proof (le_value_bound ds' Hds') as Hvb.
  all: pose proof (blen_nonneg ds') as Hk0.
  all: assert (Hp : 0 < 2 ^ (8 * blen ds')) by (apply Z.pow_pos_nonneg; lia).
  all: rewrite land_128 by exact Hlb.
  all: unfold is_byte in Hlb.
  all: destruct (Z.ltb_spec l 128) as [Hlow | Hhigh]; cbn [Z.eqb negb].
  - assert (Hk : blen ds' <= 3) by (apply (pow8_bound _ m l); nia).
    destruct (Z.ltb_spec v 0) as [Hneg | Hpos]; cbn [fst snd].
    + rewrite or_last_snoc.
      replace (blen (ds' ++ [l])) with (blen (ds' ++ [Z.lor l 128]))
        by (rewrite !blen_app; reflexivity).
      rewrite lor_128 by lia.
      rewrite scriptint_from_bytes_digits by (auto; unfold is_byte; lia).
      replace (l + 128 <? 128) with false by (symmetry; apply Z.ltb_ge; lia).
      f_equal. nia.
    + rewrite scriptint_from_bytes_digits by (auto; unfold is_byte; lia).
      replace (l <? 128) with true by (symmetry; apply Z.ltb_lt; lia).
      f_equal. nia.
  - assert (Hk : blen ds' <= 2) by (apply (pow8_bound_high _ m l); nia).
    cbn [fst snd].
    replace (blen (ds' ++ [l]) + 1)
      with (blen ((ds' ++ [l]) ++ [if v <? 0 then 128 else 0]))
      by (rewrite !blen_app; reflexivity).
    assert (Hall : Forall is_byte (ds' ++ [l]))
      by (apply Forall_app; split; auto).
    rewrite scriptint_from_bytes_digits;
      [| exact Hall | destruct (v <? 0); unfold is_byte; lia
       | rewrite blen_app; change (blen [l]) with 1; lia].
    rewrite le_value_app. cbn [le_value].
    destruct (Z.ltb_spec v 0) as [Hneg | Hpos].
    + change (128 <? 128) with false. cbv iota. f_equal. nia.
    + change (0 <? 128) with true. cbv iota. f_equal. nia.
  - destruct (v <? 0); cbn [fst snd]; [rewrite or_last_snoc |];
      rewrite !blen_app; reflexivity.
  - cbn [fst snd]. rewrite !blen_app. reflexivity.
Qed.

Lemma csv_encoding_of_delay (v : Z) :
  17 <= v <= 65535 ->
  csv_encoding v (scriptint_get_length v) (snd (scriptint_to_bytes v)).
Proof.
  intros Hv.
  assert (Hr : - 2 ^ 31 < v < 2 ^ 31) by (change (2 ^ 31) with 2147483648; lia).
  pose proof (scriptint_get_length_csv v Hv) as H3.
  destruct (scriptint_codec v [] Hr) as (_ & Hb & Hl).
  assert (H1 : 1 <= scriptint_get_length v).
  { destruct (Z.le_gt_cases 1 (scriptint_get_length v)) as [| H0]; [assumption |].
    pose proof (scriptint_get_length_nonneg v).
    assert (Hz : scriptint_get_length v = 0) by lia.
    destruct (scriptint_codec v [] Hr) as (Hd & _ & _).
    rewrite <- Hl in Hz. rewrite Hz in Hd, Hb.
    assert (Hnil : snd (scriptint_to_bytes v) = [])
      by (destruct (snd (scriptint_to_bytes v)); [reflexivity | discriminate]).
    rewrite Hnil in Hd. cbn in Hd. injection Hd as Hd. lia. }
  repeat split; try lia.
  - rewrite <- Hl, Hb. unfold blen. now rewrite Nat2Z.id.
  - intros rest. rewrite <- Hl. now apply scriptint_codec.
Qed.

Ltac csv_cases k csv :=
  match goal with
  | Hk : 1 <= k <= 3, Hl : length csv = Z.to_nat k |- _ =>
      let E := fresh in
      assert (E : k = 1 \/ k = 2 \/ k = 3) by lia;
      destruct E as [-> | [-> | ->]];
      [ change (Z.to_nat 1) with 1%nat in Hl
      | change (Z.to_nat 2) with 2%nat in Hl
      | change (Z.to_nat 3) with 3%nat in Hl ];
      list_of_length csv
  end.

(** The two CSV matchers on the scripts the two builders store. *)
Lemma csv_2of2_then_1_script_matches (main recovery csv : list Z) (v k : Z) :
  length main = 33%nat -> length recovery = 33%nat -> csv_encoding v k csv ->
  let s := csv_2of2_then_1_script main recovery k csv in
  blen s = 78 + k /\
  scriptpubkey_is_csv_2of2_then_1 s = (true, v) /\
  wally_scriptpubkey_get_type (Some s) = (WALLY_OK, Csv2of2Then1).
Proof.
  intros Hm Hr (Hv & Hl & Hk & Hdec) s.
  list_of_length main.
  assert (Hlen : blen s = 78 + k).
  { subst s. unfold csv_2of2_then_1_script, blen.
    rewrite !length_app, Hl, Hr. cbn [length]. lia. }
  assert (Hmatch : scriptpubkey_is_csv_2of2_then_1 s = (true, v)).
  { unfold scriptpubkey_is_csv_2of2_then_1.
    set (post := [OP_CHECKSEQUENCEVERIFY; OP_DROP; OP_ENDIF; EC_PUBLIC_KEY_LEN]
                   ++ recovery ++ [OP_CHECKSIG]).
    assert (Ht : advance (EC_PUBLIC_KEY_LEN + 6) s = k :: csv ++ post).
    { subst s. unfold csv_2of2_then_1_script.
      rewrite land_255_small by lia. reflexivity. }
    rewrite Ht, Hdec, Hlen.
    replace ((v <? 17) || (v >? 65535)) with false
      by (symmetry; apply orb_false_intro; lia).
    clear Hdec Ht Hlen. subst s post. unfold csv_2of2_then_1_script.
    list_of_length recovery. csv_cases k csv; reflexivity. }
  repeat split.
  - exact Hlen.
  - exact Hmatch.
  - unfold wally_scriptpubkey_get_type. rewrite Hmatch.
    clear Hdec Hmatch Hlen. subst s. unfold csv_2of2_then_1_script.
    list_of_length recovery. csv_cases k csv; reflexivity.
Qed.

Lemma csv_2of2_then_1_opt_script_matches (main recovery csv : list Z)
  (v k : Z) :
  length main = 33%nat -> length recovery = 33%nat -> csv_encoding v k csv ->
  let s := csv_2of2_then_1_opt_script main recovery k csv in
  blen s = 75 + k /\
  scriptpubkey_is_csv_2of2_then_1 s = (false, 0) /\
  scriptpubkey_is_csv_2of2_then_1_opt s = (true, v) /\
  wally_scriptpubkey_get_type (Some s) = (WALLY_OK, Csv2of2Then1Opt).
Proof.
  intros Hm Hr (Hv & Hl & Hk & Hdec) s.
  assert (Hlen : blen s = 75 + k).
  { subst s. unfold csv_2of2_then_1_opt_script, blen.
    rewrite !length_app, Hl, Hr, Hm. cbn [length]. lia. }
  assert (Hnot : scriptpubkey_is_csv_2of2_then_1 s = (false, 0)).
  { unfold scriptpubkey_is_csv_2of2_then_1. rewrite Hlen.
    replace (75 + k <? 9 + 2 * (EC_PUBLIC_KEY_LEN + 1) + 2) with true
      by (symmetry; apply Z.ltb_lt; unfold EC_PUBLIC_KEY_LEN; lia).
    reflexivity. }
  list_of_length main. list_of_length recovery.
  assert (Hmatch : scriptpubkey_is_csv_2of2_then_1_opt s = (true, v)).
  { unfold scriptpubkey_is_csv_2of2_then_1_opt.
    set (post := [OP_CHECKSEQUENCEVERIFY; OP_ENDIF]).
    assert (Ht : advance 3 (advance (EC_PUBLIC_KEY_LEN * 2 + 3) s)
                 = k :: csv ++ post).
    { subst s. unfold csv_2of2_then_1_opt_script.
      rewrite land_255_small by lia. reflexivity. }
    rewrite Ht, Hdec, Hlen.
    replace ((v <? 17) || (v >? 65535)) with false
      by (symmetry; apply orb_false_intro; lia).
    clear Hdec Ht Hlen Hnot. subst s post. unfold csv_2of2_then_1_opt_script.
    csv_cases k csv; reflexivity. }
  repeat split.
  - exact Hlen.
  - exact Hnot.
  - exact Hmatch.
  - unfold wally_scriptpubkey_get_type. rewrite Hnot, Hmatch.
    clear Hdec Hmatch Hlen Hnot. subst s. unfold csv_2of2_then_1_opt_script.
    csv_cases k csv; reflexivity.
Qed.

(** The two keys the CSV builders read from their 66-byte input. *)
Lemma csv_keys_sized (bytes : list Z) :
  blen bytes = 2 * EC_PUBLIC_KEY_LEN ->
  length (firstn (Z.to_nat EC_PUBLIC_KEY_LEN) bytes) = 33%nat /\
  length (firstn (Z.to_nat EC_PUBLIC_KEY_LEN)
            (advance EC_PUBLIC_KEY_LEN bytes)) = 33%nat.
Proof.
  unfold blen, advance, EC_PUBLIC_KEY_LEN. intros H.
  rewrite !length_firstn, length_skipn. lia.
Qed.

(** X9: whenever the template-A CSV builder succeeds and what it reports
    fits the buffer, the delay is in 17..65535 and the script written has
    78 bytes plus the delay's script-integer length; the classifier gives it
    the type Csv2of2Then1 and the delay accessor returns the delay the
    script was built with. *)
Theorem csv_2of2_then_1_builder_roundtrip (bytes : list Z)
  (csv_blocks flags : Z) (mem : list Z) (len : Z) :
  let r := wally_scriptpubkey_csv_2of2_then_1_from_bytes bytes csv_blocks
             flags (Some mem) len in
  ret_of r = WALLY_OK -> written_of r <= len -> len <= blen mem ->
  17 <= csv_blocks <= 65535 /\
  written_of r = 78 + scriptint_get_length csv_blocks /\
  wally_scriptpubkey_get_type (Some (script_of r))
  = (WALLY_OK, Csv2of2Then1) /\
  wally_scriptpubkey_csv_blocks_from_csv_2of2_then_1 (Some (script_of r))
  = (WALLY_OK, csv_blocks).
Proof.
  cbv zeta. unfold wally_scriptpubkey_csv_2of2_then_1_from_bytes.
  destruct (Z.eqb_spec (blen bytes) (2 * EC_PUBLIC_KEY_LEN)) as [Hb |];
    [| discriminate].
  destruct (Z.ltb_spec csv_blocks 17); [discriminate |].
  destruct (csv_blocks >? 65535) eqn:Hmax; [discriminate |].
  destruct (flags =? 0); [| discriminate]. cbn [negb orb].
  assert (Hv : 17 <= csv_blocks <= 65535) by lia.
  destruct (csv_keys_sized bytes Hb) as [Hm Hr].
  destruct (csv_2of2_then_1_script_matches _ _ _ _ _ Hm Hr
              (csv_encoding_of_delay csv_blocks Hv)) as (Hlen & Hmatch & Hty).
  change (2 * (EC_PUBLIC_KEY_LEN + 1) + 9 + 1 + scriptint_get_length csv_blocks)
    with (78 + scriptint_get_length csv_blocks).
  destruct (Z.ltb_spec len (78 + scriptint_get_length csv_blocks));
    cbn [ret_of written_of fst snd]; [lia |].
  intros _ _ Hmem. rewrite script_of_store by lia.
  repeat split; try lia; [exact Hty |].
  unfold wally_scriptpubkey_csv_blocks_from_csv_2of2_then_1.
  rewrite Hlen, Hmatch. pose proof (scriptint_get_length_nonneg csv_blocks).
  replace (78 + scriptint_get_length csv_blocks =? 0) with false
    by (symmetry; apply Z.eqb_neq; lia).
  reflexivity.
Qed.

(** X10: whenever the template-B (optimised) CSV builder succeeds and what it
    reports fits the buffer, the delay is in 17..65535 and the script
    written has 75 bytes plus the delay's script-integer length; the
    classifier gives it the type Csv2of2Then1Opt and the delay accessor
    returns the delay the script was built with. *)
Theorem csv_2of2_then_1_opt_builder_roundtrip (bytes : list Z)
  (csv_blocks flags : Z) (mem : list Z) (len : Z) :
  let r := wally_scriptpubkey_csv_2of2_then_1_from_bytes_opt bytes csv_blocks
             flags (Some mem) len in
  ret_of r = WALLY_OK -> written_of r <= len -> len <= blen mem ->
  17 <= csv_blocks <= 65535 /\
  written_of r = 75 + scriptint_get_length csv_blocks /\
  wally_scriptpubkey_get_type (Some (script_of r))
  = (WALLY_OK, Csv2of2Then1Opt) /\
  wally_scriptpubkey_csv_blocks_from_csv_2of2_then_1 (Some (script_of r))
  = (WALLY_OK, csv_blocks).
Proof.
  cbv zeta. unfold wally_scriptpubkey_csv_2of2_then_1_from_bytes_opt.
  destruct (Z.eqb_spec (blen bytes) (2 * EC_PUBLIC_KEY_LEN)) as [Hb |];
    [| discriminate].
  destruct (Z.ltb_spec csv_blocks 17); [discriminate |].
  destruct (csv_blocks >? 65535) eqn:Hmax; [discriminate |].
  destruct (flags =? 0); [| discriminate]. cbn [negb orb].
  assert (Hv : 17 <= csv_blocks <= 65535) by lia.
  destruct (csv_keys_sized bytes Hb) as [Hm Hr].
  destruct (csv_2of2_then_1_opt_script_matches _ _ _ _ _ Hm Hr
              (csv_encoding_of_delay csv_blocks Hv))
    as (Hlen & Hnot & Hmatch & Hty).
  change (2 * (EC_PUBLIC_KEY_LEN + 1) + 6 + 1 + scriptint_get_length csv_blocks)
    with (75 + scriptint_get_length csv_blocks).
  destruct (Z.ltb_spec len (75 + scriptint_get_length csv_blocks));
    cbn [ret_of written_of fst snd]; [lia |].
  intros _ _ Hmem. rewrite script_of_store by lia.
  repeat split; try lia; [exact Hty |].
  unfold wally_scriptpubkey_csv_blocks_from_csv_2of2_then_1.
  rewrite Hlen, Hnot, Hmatch. pose proof (scriptint_get_length_nonneg csv_blocks).
  replace (75 + scriptint_get_length csv_blocks =? 0) with false
    by (symmetry; apply Z.eqb_neq; lia).
  reflexivity.
Qed.

(** What a match of either CSV matcher says of the first byte and of the
    delay. *)
Lemma csv_2of2_then_1_match (bytes : list Z) (v : Z) :
  scriptpubkey_is_csv_2of2_then_1 bytes = (true, v) ->
  byte_at bytes 0 = OP_DEPTH /\ 17 <= v <= 65535.
Proof.
  unfold scriptpubkey_is_csv_2of2_then_1.
  destruct (_ || _); [discriminate |].
  destruct (Z.eqb_spec (byte_at bytes 0) OP_DEPTH) as [H0 |];
    [| discriminate].
  cbn [negb orb]. destruct (_ || _); [discriminate |].
  destruct (scriptint_from_bytes _) as [ret blocks].
  destruct (negb (ret =? WALLY_OK)); [discriminate |].
  destruct (Z.ltb_spec blocks 17); [discriminate |].
  destruct (blocks >? 65535) eqn:Hmax; [discriminate |]. cbn [orb].
  destruct (_ <? _); [discriminate |].
  destruct (_ || _); [discriminate |].
  intros [= <-]. split; [exact H0 | lia].
Qed.

Lemma csv_2of2_then_1_opt_match (bytes : list Z) (v : Z) :
  scriptpubkey_is_csv_2of2_then_1_opt bytes = (true, v) ->
  byte_at bytes 0 = EC_PUBLIC_KEY_LEN /\ 17 <= v <= 65535.
Proof.
  unfold scriptpubkey_is_csv_2of2_then_1_opt.
  destruct (_ || _); [discriminate |].
  destruct (Z.eqb_spec (byte_at bytes 0) EC_PUBLIC_KEY_LEN) as [H0 |];
    [| discriminate].
  cbn [negb orb]. destruct (_ || _); [discriminate |].
  destruct (_ || _); [discriminate |].
  destruct (scriptint_from_bytes _) as [ret blocks].
  destruct (negb (ret =? WALLY_OK)); [discriminate |].
  destruct (Z.ltb_spec blocks 17); [discriminate |].
  destruct (blocks >? 65535) eqn:Hmax; [discriminate |]. cbn [orb].
  destruct (_ || _); [discriminate |].
  intros [= <-]. split; [exact H0 | lia].
Qed.

(** Neither matcher sets the delay when it rejects. *)
Lemma csv_matchers_reject (bytes : list Z) (v : Z) :
  (scriptpubkey_is_csv_2of2_then_1 bytes = (false, v) -> v = 0) /\
  (scriptpubkey_is_csv_2of2_then_1_opt bytes = (false, v) -> v = 0).
Proof.
  split.
  - unfold scriptpubkey_is_csv_2of2_then_1.
    repeat match goal with
      | |- context [let '(_, _) := ?e in _] => destruct e
      | |- (if ?c then _ else _) = _ -> _ => destruct c
      end; congruence.
  - unfold scriptpubkey_is_csv_2of2_then_1_opt.
    repeat match goal with
      | |- context [let '(_, _) := ?e in _] => destruct e
      | |- (if ?c then _ else _) = _ -> _ => destruct c
      end; congruence.
Qed.

(** The first byte of a CSV script keeps the two matchers tried before the
    CSV ones from accepting it. *)
Lemma get_type_first_byte (bytes : list Z) :
  byte_at bytes 0 = OP_DEPTH \/ byte_at bytes 0 = EC_PUBLIC_KEY_LEN ->
  scriptpubkey_is_op_return bytes = false /\
  scriptpubkey_is_multisig bytes = false.
Proof.
  intros H. unfold scriptpubkey_is_op_return, scriptpubkey_is_multisig.
  destruct H as [-> | ->].
  - split; [apply andb_false_r |]. now destruct (_ <? _).
  - split; [apply andb_false_r |]. now destruct (_ <? _).
Qed.

(** X11: the CSV-delay accessor succeeds exactly on the scripts the classifier
    gives one of the two CSV types; the delay it then returns lies in
    17..65535, and on every other non-empty script it returns WALLY_EINVAL
    with the delay 0. *)
Theorem csv_blocks_accessor_agrees_with_type (bytes : list Z) :
  let r := wally_scriptpubkey_csv_blocks_from_csv_2of2_then_1 (Some bytes) in
  let t := wally_scriptpubkey_get_type (Some bytes) in
  (fst r = WALLY_OK <->
   t = (WALLY_OK, Csv2of2Then1) \/ t = (WALLY_OK, Csv2of2Then1Opt)) /\
  (fst r = WALLY_OK -> 17 <= snd r <= 65535) /\
  (fst r <> WALLY_OK -> r = (WALLY_EINVAL, 0)).
Proof.
  cbv zeta.
  unfold wally_scriptpubkey_csv_blocks_from_csv_2of2_then_1,
    wally_scriptpubkey_get_type.
  destruct (blen bytes =? 0).
  { repeat split; try discriminate; try tauto.
    intros [H | H]; discriminate. }
  destruct (scriptpubkey_is_csv_2of2_then_1 bytes) as [[|] v] eqn:Ha.
  - destruct (csv_2of2_then_1_match bytes v Ha) as [H0 Hv].
    destruct (get_type_first_byte bytes (or_introl H0)) as [-> ->].
    cbn [fst snd].
    split; [split; [left; reflexivity | reflexivity] |].
    split; [intros _; exact Hv | intros H; now elim H].
  - pose proof (proj1 (csv_matchers_reject bytes v) Ha) as Hv0. subst v.
    destruct (scriptpubkey_is_csv_2of2_then_1_opt bytes) as [[|] w] eqn:Hb.
    + destruct (csv_2of2_then_1_opt_match bytes w Hb) as [H0 Hv].
      destruct (get_type_first_byte bytes (or_intror H0)) as [-> ->].
      cbn [fst snd].
      split; [split; [right; reflexivity | reflexivity] |].
      split; [intros _; exact Hv | intros H; now elim H].
    + pose proof (proj2 (csv_matchers_reject bytes w) Hb) as Hw0. subst w.
      cbn [fst snd].
      split; [split; [discriminate |] |].
      * repeat match goal with
          | |- context [if ?c then _ else _] => destruct c
          end; intros [H | H]; discriminate.
      * split; [discriminate | reflexivity].
Qed.

(** ** The peg-out script *)

Section PegoutFacts.
Context {C : crypto_ops}.

(** The push primitive without hashing, in all its cases. *)
Lemma script_push_at_plain (bytes mem : list Z) (off len : Z) :
  script_push_at bytes 0 mem off len
  = if len =? 0 then (WALLY_EINVAL, 0, mem)
    else (WALLY_OK, script_get_push_size (blen bytes),
          if len <? script_get_push_size (blen bytes) then mem
          else store_at off (push_encoding bytes) mem).
Proof.
  unfold script_push_at, script_get_push_size, push_encoding.
  change (script_flags_ok 0 0) with true. cbn [negb orb].
  destruct (len =? 0); [reflexivity |].
  change (Z.land 0 _) with 0. cbn [Z.eqb negb].
  change (negb (WALLY_OK =? WALLY_OK)) with false. cbv iota.
  rewrite (Z.add_comm (blen bytes)).
  now destruct (len <? _).
Qed.

(** One expansion of the macro, in all its cases. *)
Lemma pegout_script_push_cases (bytes : list Z) (st : pegout_state) :
  pegout_script_push bytes st
  = if po_len st <? po_bytes_written st
    then inl (WALLY_OK, po_written st, po_mem st)
    else if po_len st - po_bytes_written st =? 0
    then inl (WALLY_EINVAL, po_written st, po_mem st)
    else
      let size := script_get_push_size (blen bytes) in
      let off := po_off st + po_bytes_written st in
      let len := po_len st - po_bytes_written st in
      inr {| po_off := off; po_len := len; po_bytes_written := size;
             po_written := po_written st + size;
             po_mem := if len <? size then po_mem st
                       else store_at off (push_encoding bytes) (po_mem st) |}.
Proof.
  unfold pegout_script_push. rewrite script_push_at_plain.
  destruct (po_len st <? po_bytes_written st); [reflexivity |].
  destruct (po_len st - po_bytes_written st =? 0); reflexivity.
Qed.

(** X12: whenever the peg-out builder succeeds and what it reports fits the
    buffer, the genesis hash has 32 bytes, the key 33, and the builder has
    written OP_RETURN followed by the pushes of the genesis hash, the
    mainchain script, the key and the whitelist proof, in that order; the
    length is the one [wally_elements_pegout_script_size] computes and the
    classifier gives the script the type OpReturn. *)
Theorem pegout_script_built
  (genesis_blockhash mainchain_script sub_pubkey whitelistproof : list Z)
  (flags : Z) (mem : list Z) (len : Z) :
  let r := wally_elements_pegout_script_from_bytes genesis_blockhash
             mainchain_script sub_pubkey whitelistproof flags (Some mem) len in
  ret_of r = WALLY_OK -> written_of r <= len -> len <= blen mem ->
  blen genesis_blockhash = SHA256_LEN /\
  blen sub_pubkey = EC_PUBLIC_KEY_LEN /\
  (WALLY_OK, written_of r)
  = wally_elements_pegout_script_size (blen genesis_blockhash)
      (blen mainchain_script) (blen sub_pubkey) (blen whitelistproof) /\
  script_of r = pegout_script genesis_blockhash mainchain_script sub_pubkey
                  whitelistproof /\
  wally_scriptpubkey_get_type (Some (script_of r)) = (WALLY_OK, OpReturn).
Proof.
  cbv zeta. unfold wally_elements_pegout_script_from_bytes,
    wally_elements_pegout_script_size.
  destruct (Z.eqb_spec (blen genesis_blockhash) SHA256_LEN) as [Hg |];
    [| discriminate].
  destruct (blen mainchain_script =? 0); [discriminate |].
  destruct (Z.eqb_spec (blen sub_pubkey) EC_PUBLIC_KEY_LEN) as [Hs |];
    [| discriminate].
  destruct (blen whitelistproof =? 0); [discriminate |].
  destruct (flags =? 0); [| discriminate].
  destruct (Z.eqb_spec len 0); [discriminate |]. cbn [negb orb].
  pose proof (script_get_push_size_pos _ (blen_nonneg genesis_blockhash)) as P1.
  pose proof (script_get_push_size_pos _ (blen_nonneg mainchain_script)) as P2.
  pose proof (script_get_push_size_pos _ (blen_nonneg sub_pubkey)) as P3.
  pose proof (script_get_push_size_pos _ (blen_nonneg whitelistproof)) as P4.
  set (s1 := script_get_push_size (blen genesis_blockhash)) in *.
  set (s2 := script_get_push_size (blen mainchain_script)) in *.
  set (s3 := script_get_push_size (blen sub_pubkey)) in *.
  set (s4 := script_get_push_size (blen whitelistproof)) in *.
  rewrite !pegout_script_push_cases.
  cbn [po_off po_len po_bytes_written po_written po_mem]. cbv zeta.
  fold s1.
  destruct (Z.ltb_spec len 1); [cbn [ret_of written_of fst snd]; lia |].
  destruct (Z.eqb_spec (len - 1) 0); [discriminate |].
  rewrite !pegout_script_push_cases.
  cbn [po_off po_len po_bytes_written po_written po_mem]. cbv zeta.
  fold s2.
  destruct (Z.ltb_spec (len - 1) s1); [cbn [ret_of written_of fst snd]; lia |].
  destruct (Z.eqb_spec (len - 1 - s1) 0); [discriminate |].
  rewrite !pegout_script_push_cases.
  cbn [po_off po_len po_bytes_written po_written po_mem]. cbv zeta.
  fold s3.
  destruct (Z.ltb_spec (len - 1 - s1) s2);
    [cbn [ret_of written_of fst snd]; lia |].
  destruct (Z.eqb_spec (len - 1 - s1 - s2) 0); [discriminate |].
  rewrite !pegout_script_push_cases.
  cbn [po_off po_len po_bytes_written po_written po_mem]. cbv zeta.
  fold s4.
  destruct (Z.ltb_spec (len - 1 - s1 - s2) s3);
    [cbn [ret_of written_of fst snd]; lia |].
  destruct (Z.eqb_spec (len - 1 - s1 - s2 - s3) 0); [discriminate |].
  cbn [ret_of written_of fst snd po_written po_mem]. intros _ Hw Hmem.
  replace (len - 1 - s1 - s2 - s3 <? s4) with false
    by (symmetry; apply Z.ltb_ge; lia).
  assert (Hst : store_at (0 + 1 + s1 + s2 + s3) (push_encoding whitelistproof)
            (store_at (0 + 1 + s1 + s2) (push_encoding sub_pubkey)
               (store_at (0 + 1 + s1) (push_encoding mainchain_script)
                  (store_at (0 + 1) (push_encoding genesis_blockhash)
                     (store_at 0 [OP_RETURN] mem))))
          = store_at 0 (pegout_script genesis_blockhash mainchain_script
                          sub_pubkey whitelistproof) mem).
  { assert (E : pegout_script genesis_blockhash mainchain_script sub_pubkey
                  whitelistproof
                = ((([OP_RETURN] ++ push_encoding genesis_blockhash)
                      ++ push_encoding mainchain_script)
                     ++ push_encoding sub_pubkey)
                    ++ push_encoding whitelistproof).
    { unfold pegout_script. rewrite <- !app_assoc. reflexivity. }
    rewrite E, <- !store_at_then, !blen_app, !blen_push_encoding.
    change (blen [OP_RETURN]) with 1. fold s1 s2 s3.
    now rewrite !Z.add_0_l. }
  rewrite Hst.
  assert (Hl : blen (pegout_script genesis_blockhash mainchain_script
                       sub_pubkey whitelistproof) = 1 + s1 + s2 + s3 + s4).
  { unfold pegout_script. rewrite blen_cons, !blen_app, !blen_push_encoding.
    fold s1 s2 s3 s4. lia. }
  rewrite script_of_store by lia.
  repeat split; assumption.
Qed.

(** X13: the peg-out builder on valid arguments and any non-empty buffer.
    With the successive script prefixes ending at [b1] (OP_RETURN), [b2],
    [b3], [b4] (after the first, second and third push) and [total], a
    buffer of exactly [b1], [b2], [b3] or [b4] bytes is rejected with
    WALLY_EINVAL, a shorter one than [b4] that ends inside a push gets
    WALLY_OK with the end of that push (not the total) as the length
    needed, and only a buffer longer than [b4] gets the total. *)
Theorem pegout_undersized_buffer
  (genesis_blockhash mainchain_script sub_pubkey whitelistproof : list Z)
  (mem : list Z) (len : Z) :
  blen genesis_blockhash = SHA256_LEN -> blen mainchain_script <> 0 ->
  blen sub_pubkey = EC_PUBLIC_KEY_LEN -> blen whitelistproof <> 0 ->
  0 < len ->
  let r := wally_elements_pegout_script_from_bytes genesis_blockhash
             mainchain_script sub_pubkey whitelistproof 0 (Some mem) len in
  let b1 := 1 in
  let b2 := b1 + script_get_push_size (blen genesis_blockhash) in
  let b3 := b2 + script_get_push_size (blen mainchain_script) in
  let b4 := b3 + script_get_push_size (blen sub_pubkey) in
  let total := b4 + script_get_push_size (blen whitelistproof) in
  (len = b1 \/ len = b2 \/ len = b3 \/ len = b4 ->
   ret_of r = WALLY_EINVAL /\ written_of r = len) /\
  (b1 < len < b2 -> ret_of r = WALLY_OK /\ written_of r = b2) /\
  (b2 < len < b3 -> ret_of r = WALLY_OK /\ written_of r = b3) /\
  (b3 < len < b4 -> ret_of r = WALLY_OK /\ written_of r = b4) /\
  (b4 < len -> ret_of r = WALLY_OK /\ written_of r = total).
Proof.
  intros Hg Hm Hs Hw Hlen. cbv zeta.
  unfold wally_elements_pegout_script_from_bytes.
  rewrite Hg, Hs, !Z.eqb_refl.
  replace (blen mainchain_script =? 0) with false
    by (symmetry; now apply Z.eqb_neq).
  replace (blen whitelistproof =? 0) with false
    by (symmetry; now apply Z.eqb_neq).
  replace (len =? 0) with false by (symmetry; apply Z.eqb_neq; lia).
  cbn [negb orb].
  pose proof (script_get_push_size_pos _ (blen_nonneg genesis_blockhash)) as P1.
  pose proof (script_get_push_size_pos _ (blen_nonneg mainchain_script)) as P2.
  pose proof (script_get_push_size_pos _ (blen_nonneg sub_pubkey)) as P3.
  pose proof (script_get_push_size_pos _ (blen_nonneg whitelistproof)) as P4.
  rewrite Hg, Hs in *.
  set (s1 := script_get_push_size SHA256_LEN) in *.
  set (s2 := script_get_push_size (blen mainchain_script)) in *.
  set (s3 := script_get_push_size EC_PUBLIC_KEY_LEN) in *.
  set (s4 := script_get_push_size (blen whitelistproof)) in *.
  rewrite !pegout_script_push_cases.
  cbn [po_off po_len po_bytes_written po_written po_mem]. cbv zeta.
  rewrite Hg. fold s1.
  destruct (Z.ltb_spec len 1); [lia |].
  destruct (Z.eqb_spec (len - 1) 0).
  { cbn [ret_of written_of fst snd]. repeat split; lia. }
  rewrite !pegout_script_push_cases.
  cbn [po_off po_len po_bytes_written po_written po_mem]. cbv zeta.
  fold s2.
  destruct (Z.ltb_spec (len - 1) s1).
  { cbn [ret_of written_of fst snd]. repeat split; lia. }
  destruct (Z.eqb_spec (len - 1 - s1) 0).
  { cbn [ret_of written_of fst snd]. repeat split; lia. }
  rewrite !pegout_script_push_cases.
  cbn [po_off po_len po_bytes_written po_written po_mem]. cbv zeta.
  rewrite Hs. fold s3.
  destruct (Z.ltb_spec (len - 1 - s1) s2).
  { cbn [ret_of written_of fst snd]. repeat split; lia. }
  destruct (Z.eqb_spec (len - 1 - s1 - s2) 0).
  { cbn [ret_of written_of fst snd]. repeat split; lia. }
  rewrite !pegout_script_push_cases.
  cbn [po_off po_len po_bytes_written po_written po_mem]. cbv zeta.
  fold s4.
  destruct (Z.ltb_spec (len - 1 - s1 - s2) s3).
  { cbn [ret_of written_of fst snd]. repeat split; lia. }
  destruct (Z.eqb_spec (len - 1 - s1 - s2 - s3) 0).
  { cbn [ret_of written_of fst snd]. repeat split; lia. }
  cbn [ret_of written_of fst snd po_written]. repeat split; lia.
Qed.
End PegoutFacts.

(** ** ScriptSigs and witness stacks *)

(** The opcode size [get_push_size] returns is 1, 2, 3 or 5. *)
Lemma get_push_opcode_size_pos (p : list Z) (h : Z) :
  get_push_size p true = Some h -> 1 <= h /\ blen p <> 0.
Proof.
  unfold get_push_size. destruct (Z.eqb_spec (blen p) 0); [discriminate |].
  destruct (byte_at p 0 <? 76);
    [| destruct (byte_at p 0 =? OP_PUSHDATA1);
       [destruct (blen p <? 2); [discriminate |]
       | destruct (byte_at p 0 =? OP_PUSHDATA2);
         [destruct (blen p <? 3); [discriminate |]
         | destruct (byte_at p 0 =? OP_PUSHDATA4);
           [destruct (blen p <? 5); [discriminate |] | discriminate]]]];
    destruct (_ <? _); try discriminate; intros [= <-]; lia.
Qed.

Lemma advance_push_encoding (item rest : list Z) :
  advance (calc_push_opcode_size (blen item)) (push_encoding item ++ rest)
  = item ++ rest.
Proof.
  unfold advance, push_encoding. rewrite <- blen_push_opcode_bytes.
  unfold blen. rewrite Nat2Z.id, <- app_assoc, skipn_app, skipn_all, Nat.sub_diag.
  reflexivity.
Qed.

Lemma firstn_blen_app (item rest : list Z) :
  firstn (Z.to_nat (blen item)) (item ++ rest) = item.
Proof.
  unfold blen. rewrite Nat2Z.id, firstn_app, firstn_all, Nat.sub_diag.
  cbn [firstn]. apply app_nil_r.
Qed.

Lemma advance_blen_app (item rest : list Z) :
  advance (blen item) (item ++ rest) = rest.
Proof.
  unfold advance, blen. rewrite Nat2Z.id, skipn_app, skipn_all, Nat.sub_diag.
  reflexivity.
Qed.

Section WitnessFacts.
Context {C : crypto_ops} {W : witness_stack_ops}.

(** The loop of [scriptsig_to_witness] ends within as many turns as the
    buffer has bytes. *)
Lemma scriptsig_to_witness_loop_total (fuel : nat) :
  forall p output, (length p <= fuel)%nat ->
    scriptsig_to_witness_loop fuel p output <> None.
Proof.
  induction fuel as [| fuel IH]; intros p output Hp.
  - destruct p; [cbn; discriminate | cbn in Hp; lia].
  - cbn [scriptsig_to_witness_loop].
    destruct (blen p =? 0); [discriminate |].
    unfold script_get_push_size_from_bytes,
      script_get_push_opcode_size_from_bytes.
    destruct (get_push_size p false) as [s |]; [| discriminate].
    destruct (get_push_size p true) as [h |] eqn:Hh; [| discriminate].
    destruct (wally_tx_witness_stack_add _ _) as [ret out].
    destruct (ret =? WALLY_OK); [| discriminate].
    apply IH. apply get_push_opcode_size_pos in Hh.
    unfold advance, blen in *. rewrite !length_skipn. lia.
Qed.

(** On a buffer of pushes the loop adds the pushed items in order. *)
Lemma scriptsig_to_witness_loop_pushes (items : list (list Z)) :
  forall fuel output,
    Forall (fun item => blen item < 2 ^ 32) items ->
    (length (concat (map push_encoding items)) <= fuel)%nat ->
    scriptsig_to_witness_loop fuel (concat (map push_encoding items)) output
    = Some (witness_add_all items output).
Proof.
  induction items as [| item items IH]; intros fuel output Hsz Hfuel.
  - cbn [map concat witness_add_all]. now destruct fuel.
  - inversion Hsz as [| ? ? Hi Hrest]; subst.
    cbn [map concat witness_add_all] in *.
    set (rest := concat (map push_encoding items)) in *.
    pose proof (blen_push_encoding item) as Hpe.
    pose proof (script_get_push_size_pos _ (blen_nonneg item)) as Hpos.
    pose proof (calc_push_opcode_size_range (blen item)) as Hop.
    pose proof (blen_nonneg rest) as Hr.
    assert (Hne : (blen (push_encoding item ++ rest) =? 0) = false)
      by (apply Z.eqb_neq; rewrite blen_app; lia).
    destruct fuel as [| fuel].
    { apply Z.eqb_neq in Hne. unfold blen in Hne. lia. }
    cbn [scriptsig_to_witness_loop]. rewrite Hne.
    unfold script_get_push_size_from_bytes,
      script_get_push_opcode_size_from_bytes.
    rewrite !get_push_size_push_encoding by exact Hi.
    rewrite advance_push_encoding, firstn_blen_app, advance_blen_app.
    destruct (wally_tx_witness_stack_add output item) as [ret out].
    destruct (ret =? WALLY_OK); [| reflexivity].
    apply IH; [exact Hrest |].
    rewrite length_app in Hfuel. unfold blen, script_get_push_size in *. lia.
Qed.

(** [scriptsig_to_witness] on a scriptSig made of pushes. *)
Lemma scriptsig_to_witness_items (items : list (list Z)) :
  items <> [] -> Forall (fun item => blen item < 2 ^ 32) items ->
  scriptsig_to_witness (concat (map push_encoding items))
  = Some (witness_of_items 2 items).
Proof.
  intros Hne Hsz. unfold scriptsig_to_witness, witness_of_items.
  assert (Hlen : (blen (concat (map push_encoding items)) =? 0) = false).
  { destruct items as [| item items]; [contradiction |].
    cbn [map concat]. apply Z.eqb_neq. rewrite blen_app, blen_push_encoding.
    pose proof (script_get_push_size_pos _ (blen_nonneg item)).
    pose proof (blen_nonneg (concat (map push_encoding items))). lia. }
  rewrite Hlen.
  destruct (wally_tx_witness_stack_init_alloc 2) as [ret [out |]];
    destruct (negb (ret =? WALLY_OK)); try reflexivity.
  rewrite scriptsig_to_witness_loop_pushes by (auto; lia).
  destruct (witness_add_all items out) as [r o].
  destruct (r =? WALLY_OK); reflexivity.
Qed.

(** X14: [scriptsig_to_witness] always returns (its loop ends), and on a
    scriptSig made of the pushes of a non-empty list of items, each shorter
    than 2^32 bytes, it returns the stack allocated for two items and
    filled with exactly those items in order: the code is WALLY_OK when no
    call on the stack fails, and otherwise the failing call's code with no
    stack. *)
Theorem scriptsig_to_witness_pushes (bytes : list Z)
  (items : list (list Z)) :
  scriptsig_to_witness bytes <> None /\
  (items <> [] -> Forall (fun item => blen item < 2 ^ 32) items ->
   scriptsig_to_witness (concat (map push_encoding items))
   = Some (witness_of_items 2 items)).
Proof.
  split.
  - unfold scriptsig_to_witness. destruct (blen bytes =? 0); [discriminate |].
    destruct (wally_tx_witness_stack_init_alloc 2) as [ret [out |]];
      destruct (negb (ret =? WALLY_OK)); try discriminate.
    pose proof (scriptsig_to_witness_loop_total (length bytes) bytes out
                  (Nat.le_refl _)) as Ht.
    destruct (scriptsig_to_witness_loop _ _ _) as [[r o] |]; [| contradiction].
    destruct (r =? WALLY_OK); discriminate.
  - apply scriptsig_to_witness_items.
Qed.

(** The P2PKH scriptSig builder in all its cases. *)
Lemma scriptsig_p2pkh_from_der_eq (pub_key sig mem : list Z) (len : Z) :
  wally_scriptsig_p2pkh_from_der pub_key sig (Some mem) len
  = if is_pk_len (blen pub_key) && (1 <=? blen sig) &&
       (blen sig <=? EC_SIGNATURE_DER_MAX_LEN + 1) &&
       (script_get_push_size (blen sig)
        + script_get_push_size (blen pub_key) <=? len)
    then (WALLY_OK,
          script_get_push_size (blen sig)
          + script_get_push_size (blen pub_key),
          Some (store_at 0 (push_encoding sig ++ push_encoding pub_key) mem))
    else (WALLY_EINVAL, 0, Some mem).
Proof.
  unfold wally_scriptsig_p2pkh_from_der.
  pose proof (blen_nonneg sig) as Hs0.
  pose proof (script_get_push_size_pos _ (blen_nonneg sig)) as Ps.
  pose proof (script_get_push_size_pos _ (blen_nonneg pub_key)) as Pk.
  destruct (is_pk_len (blen pub_key)); cbn [negb orb andb]; [| reflexivity].
  destruct (Z.eqb_spec (blen sig) 0) as [Hz | Hz].
  { replace (1 <=? blen sig) with false by (symmetry; apply Z.leb_gt; lia).
    reflexivity. }
  replace (1 <=? blen sig) with true by (symmetry; apply Z.leb_le; lia).
  cbn [orb andb]. rewrite Z.gtb_ltb.
  destruct (Z.ltb_spec (EC_SIGNATURE_DER_MAX_LEN + 1) (blen sig)).
  { replace (blen sig <=? EC_SIGNATURE_DER_MAX_LEN + 1) with false
      by (symmetry; apply Z.leb_gt; lia).
    reflexivity. }
  replace (blen sig <=? EC_SIGNATURE_DER_MAX_LEN + 1) with true
    by (symmetry; apply Z.leb_le; lia).
  cbn [andb]. rewrite (Z.add_comm (script_get_push_size (blen pub_key))).
  destruct (Z.ltb_spec len (script_get_push_size (blen sig)
                            + script_get_push_size (blen pub_key))).
  { replace (_ <=? len) with false by (symmetry; apply Z.leb_gt; lia).
    reflexivity. }
  replace (_ <=? len) with true by (symmetry; apply Z.leb_le; lia).
  rewrite script_push_at_fits by lia.
  change (WALLY_OK =? WALLY_OK) with true. cbv iota.
  rewrite script_push_at_fits by lia.
  change (WALLY_OK =? WALLY_OK) with true. cbv iota.
  rewrite <- (blen_push_encoding sig), store_at_then.
  now rewrite blen_push_encoding, Z.add_comm.
Qed.

(** X15: the P2PKH scriptSig builder succeeds exactly when the key has 33 or
    65 bytes, the signature 1 to 73 bytes and the buffer holds both pushes;
    it then writes the push of the signature followed by the push of the
    key and reports their length.  In every other case, a too short buffer
    included, it returns WALLY_EINVAL with nothing written: this builder
    does not report the length it needs. *)
Theorem scriptsig_p2pkh_from_der_built (pub_key sig mem : list Z) (len : Z) :
  len <= blen mem ->
  let r := wally_scriptsig_p2pkh_from_der pub_key sig (Some mem) len in
  let needed := script_get_push_size (blen sig)
                + script_get_push_size (blen pub_key) in
  if is_pk_len (blen pub_key) && (1 <=? blen sig) &&
     (blen sig <=? EC_SIGNATURE_DER_MAX_LEN + 1) && (needed <=? len)
  then ret_of r = WALLY_OK /\ written_of r = needed /\
       script_of r = push_encoding sig ++ push_encoding pub_key /\
       skipn (Z.to_nat needed) (mem_of r) = skipn (Z.to_nat needed) mem
  else r = (WALLY_EINVAL, 0, Some mem).
Proof.
  intros Hmem. cbv zeta. rewrite scriptsig_p2pkh_from_der_eq.
  destruct (_ && _) eqn:Hok; [| reflexivity].
  apply andb_prop in Hok. destruct Hok as [_ Hfit]. apply Z.leb_le in Hfit.
  assert (Hl : blen (push_encoding sig ++ push_encoding pub_key)
               = script_get_push_size (blen sig)
                 + script_get_push_size (blen pub_key))
    by now rewrite blen_app, !blen_push_encoding.
  rewrite script_of_store by lia.
  cbn [ret_of written_of mem_of fst snd].
  repeat split. apply skipn_store_at_0; lia.
Qed.

(** The P2WPKH witness from a DER signature, in all its cases. *)
Lemma witness_p2wpkh_from_der_eq (pub_key sig : list Z) :
  wally_witness_p2wpkh_from_der pub_key sig
  = Some (if is_pk_len (blen pub_key) && (1 <=? blen sig) &&
             (blen sig <=? EC_SIGNATURE_DER_MAX_LEN + 1)
          then witness_of_items 2 [sig; pub_key]
          else (WALLY_EINVAL, None)).
Proof.
  unfold wally_witness_p2wpkh_from_der.
  set (buff := repeat 0 (Z.to_nat WALLY_SCRIPTSIG_P2PKH_MAX_LEN)).
  assert (Hb : WALLY_SCRIPTSIG_P2PKH_MAX_LEN <= blen buff)
    by (vm_compute; discriminate).
  rewrite scriptsig_p2pkh_from_der_eq.
  destruct (is_pk_len (blen pub_key)) eqn:Hpk; cbn [andb]; [| reflexivity].
  destruct (Z.leb_spec 1 (blen sig)); cbn [andb]; [| reflexivity].
  destruct (Z.leb_spec (blen sig) (EC_SIGNATURE_DER_MAX_LEN + 1));
    cbn [andb]; [| reflexivity].
  assert (Hfit : script_get_push_size (blen sig)
                 + script_get_push_size (blen pub_key)
                 <= WALLY_SCRIPTSIG_P2PKH_MAX_LEN).
  { unfold is_pk_len, EC_PUBLIC_KEY_LEN, EC_PUBLIC_KEY_UNCOMPRESSED_LEN in Hpk.
    unfold script_get_push_size, calc_push_opcode_size,
      WALLY_SCRIPTSIG_P2PKH_MAX_LEN, EC_SIGNATURE_DER_MAX_LEN in *.
    replace (blen sig <? 76) with true by (symmetry; apply Z.ltb_lt; lia).
    destruct (Z.eqb_spec (blen pub_key) 33) as [E |];
      [rewrite E; change (33 <? 76) with true; cbv iota; lia |].
    destruct (Z.eqb_spec (blen pub_key) 65) as [E |];
      [rewrite E; change (65 <? 76) with true; cbv iota; lia |].
    discriminate. }
  replace (_ <=? WALLY_SCRIPTSIG_P2PKH_MAX_LEN) with true
    by (symmetry; apply Z.leb_le; lia).
  change (WALLY_OK =? WALLY_OK) with true. cbv iota.
  replace (_ >? WALLY_SCRIPTSIG_P2PKH_MAX_LEN) with false
    by (symmetry; rewrite Z.gtb_ltb; apply Z.ltb_ge; lia).
  rewrite firstn_store_at_0;
    [| now rewrite blen_app, !blen_push_encoding | lia].
  replace (push_encoding sig ++ push_encoding pub_key)
    with (concat (map push_encoding [sig; pub_key]))
    by (cbn [map concat]; now rewrite app_nil_r).
  apply scriptsig_to_witness_items; [discriminate |].
  unfold is_pk_len, EC_PUBLIC_KEY_LEN, EC_PUBLIC_KEY_UNCOMPRESSED_LEN,
    EC_SIGNATURE_DER_MAX_LEN in *.
  repeat constructor; change (2 ^ 32) with 4294967296; lia.
Qed.

(** X16: the P2WPKH witness built from a DER signature and a key is the stack
    allocated for two items and filled with the signature, then the key,
    when the key has 33 or 65 bytes and the signature 1 to 73 bytes (the
    140-byte scratch buffer always holds both pushes, so the length
    mismatch error cannot occur); otherwise the call returns WALLY_EINVAL
    and no stack. *)
Theorem witness_p2wpkh_from_der_items (pub_key sig : list Z) :
  let valid := is_pk_len (blen pub_key) && (1 <=? blen sig) &&
               (blen sig <=? EC_SIGNATURE_DER_MAX_LEN + 1) in
  (valid = true ->
   wally_witness_p2wpkh_from_der pub_key sig
   = Some (witness_of_items 2 [sig; pub_key])) /\
  (valid = false ->
   wally_witness_p2wpkh_from_der pub_key sig = Some (WALLY_EINVAL, None)).
Proof.
  cbv zeta. rewrite witness_p2wpkh_from_der_eq.
  destruct (_ && _); split; intros H; try discriminate H; reflexivity.
Qed.

(** X17: with a sighash below 256 the two P2PKH calls that take a compact
    signature behave as their DER counterparts on the DER encoding followed
    by the sighash byte: for a key of 33 or 65 bytes and a DER encoding of
    at most 72 bytes, the scriptSig builder writes the push of that
    signature, then the push of the key, and the witness call returns the
    stack of these two items.  A sighash with a bit above the low eight is
    rejected with WALLY_EINVAL before anything is encoded. *)
Theorem p2pkh_from_sig_appends_sighash (pub_key sig der : list Z)
  (sighash : Z) (mem : list Z) (len : Z) :
  0 <= sighash < 2 ^ 32 ->
  wally_ec_sig_to_der sig = (WALLY_OK, der) ->
  is_pk_len (blen pub_key) = true -> blen der <= EC_SIGNATURE_DER_MAX_LEN ->
  script_get_push_size (blen (der ++ [sighash]))
  + script_get_push_size (blen pub_key) <= len -> len <= blen mem ->
  let r := wally_scriptsig_p2pkh_from_sig pub_key sig sighash (Some mem) len in
  let w := wally_witness_p2wpkh_from_sig pub_key sig sighash in
  if sighash <? 256
  then ret_of r = WALLY_OK /\
       script_of r = push_encoding (der ++ [sighash]) ++ push_encoding pub_key /\
       w = Some (witness_of_items 2 [der ++ [sighash]; pub_key])
  else r = (WALLY_EINVAL, 0, Some mem) /\ w = Some (WALLY_EINVAL, None).
Proof.
  intros Hs0 Hder Hpk Hdl Hfit Hmem. cbv zeta.
  pose proof (blen_nonneg der) as Hd0.
  destruct (Z.ltb_spec sighash 256) as [Hlt | Hge].
  - assert (Hhi : Z.land sighash 0xffffff00 = 0).
    { change 0xffffff00 with (Z.shiftl 0xffffff 8).
      apply land_low_shiftl; [change (2 ^ 8) with 256 |]; lia. }
    assert (Hsig : forall out n,
              wally_scriptsig_p2pkh_from_sig pub_key sig sighash out n
              = wally_scriptsig_p2pkh_from_der pub_key (der ++ [sighash])
                  out n).
    { intros out n. unfold wally_scriptsig_p2pkh_from_sig.
      rewrite Hhi, Hder, land_255_small by lia. reflexivity. }
    assert (Hwit : wally_witness_p2wpkh_from_sig pub_key sig sighash
                   = wally_witness_p2wpkh_from_der pub_key (der ++ [sighash])).
    { unfold wally_witness_p2wpkh_from_sig, wally_witness_p2wpkh_from_der.
      now rewrite Hsig. }
    rewrite Hsig, Hwit, witness_p2wpkh_from_der_eq,
      scriptsig_p2pkh_from_der_eq, Hpk.
    assert (Hbl : blen (der ++ [sighash]) = blen der + 1)
      by (rewrite blen_app; reflexivity).
    replace (1 <=? blen (der ++ [sighash])) with true
      by (symmetry; apply Z.leb_le; lia).
    replace (blen (der ++ [sighash]) <=? EC_SIGNATURE_DER_MAX_LEN + 1)
      with true by (symmetry; apply Z.leb_le; lia).
    replace (_ <=? len) with true by (symmetry; apply Z.leb_le; lia).
    cbn [andb]. rewrite script_of_store;
      [| now rewrite (blen_app (push_encoding (der ++ [sighash]))),
           !blen_push_encoding | lia].
    repeat split.
  - assert (Hhi : Z.land sighash 0xffffff00 <> 0).
    { intros Hz.
      assert (E : sighash = Z.land sighash 0xff).
      { rewrite <- (Z.lor_0_r (Z.land sighash 0xff)), <- Hz,
          <- Z.land_lor_distr_r.
        change (Z.lor 0xff 0xffffff00) with (Z.ones 32).
        rewrite Z.land_ones by lia. symmetry. apply Z.mod_small. lia. }
      pose proof (land_255_range sighash). lia. }
    unfold wally_witness_p2wpkh_from_sig, wally_scriptsig_p2pkh_from_sig.
    replace (Z.land sighash 4294967040 =? 0) with false
      by (symmetry; now apply Z.eqb_neq).
    split; reflexivity.
Qed.
End WitnessFacts.

(** ** The multisig scriptSig and witness *)

Lemma fold_left_push_sizes (ders : list (list Z)) :
  forall r,
    fold_left (fun r der => r + script_get_push_size (blen der)) ders r
    = r + blen (concat (map push_encoding ders)).
Proof.
  induction ders as [| d ds IH]; intros r; cbn [fold_left map concat].
  - change (blen []) with 0. lia.
  - rewrite IH, blen_app, blen_push_encoding. lia.
Qed.

Section MultisigScriptsig.
Context {C : crypto_ops}.

(** The second loop of the scriptSig builder when the pushes fit with room
    to spare. *)
Lemma multisig_push_ders_fits (ders : list (list Z)) :
  forall mem p len,
    0 <= p -> blen (concat (map push_encoding ders)) < len ->
    multisig_push_ders ders mem p len
    = (WALLY_OK, store_at p (concat (map push_encoding ders)) mem,
       p + blen (concat (map push_encoding ders)),
       len - blen (concat (map push_encoding ders))).
Proof.
  induction ders as [| d ds IH]; intros mem p len Hp Hlen;
    cbn [multisig_push_ders map concat] in *.
  - change (blen []) with 0. unfold store_at. rewrite store_nil.
    f_equal; [f_equal |]; lia.
  - rewrite blen_app, blen_push_encoding in Hlen.
    rewrite blen_app.
    pose proof (blen_nonneg (concat (map push_encoding ds))).
    pose proof (script_get_push_size_pos _ (blen_nonneg d)).
    rewrite script_push_at_fits by lia.
    change (negb (WALLY_OK =? WALLY_OK)) with false. cbv iota.
    rewrite IH by lia.
    rewrite <- (blen_push_encoding d), store_at_app by lia.
    f_equal; [f_equal |]; lia.
Qed.

(** The first loop yields one encoded signature for each signature that
    comes with a sighash. *)
Lemma multisig_ders_length (sigs : list (list Z)) :
  forall sighash ders,
    multisig_ders sigs sighash = inr ders ->
    length ders = Nat.min (length sigs) (length sighash).
Proof.
  induction sigs as [| s sigs IH]; intros sighash ders;
    cbn [multisig_ders length].
  - intros [= <-]. reflexivity.
  - destruct sighash as [| h hs]; [intros [= <-]; reflexivity |].
    destruct (negb (Z.ldiff h 255 =? 0)); [discriminate |].
    destruct (wally_ec_sig_to_der s) as [ret der].
    destruct (negb (ret =? WALLY_OK)); [discriminate |].
    destruct (multisig_ders sigs hs) as [e | ds] eqn:Hd; [discriminate |].
    intros [= <-]. cbn [length]. now rewrite (IH hs ds Hd).
Qed.

(** The multisig scriptSig builder on a buffer that holds the script. *)
Lemma scriptsig_multisig_spec (script bytes sighash : list Z) (flags : Z)
  (mem : list Z) (len : Z) :
  let r := wally_scriptsig_multisig_from_bytes script bytes sighash flags
             (Some mem) len in
  let n_sigs := blen bytes / EC_SIGNATURE_LEN in
  ret_of r = WALLY_OK -> written_of r <= len ->
  exists ders,
    multisig_ders (elements (Z.to_nat n_sigs) 64 bytes) sighash = inr ders /\
    length ders = Z.to_nat n_sigs /\ 1 <= n_sigs <= 15 /\
    blen script <> 0 /\
    r = (WALLY_OK, blen (multisig_scriptsig ders script),
         Some (store_at 0 (multisig_scriptsig ders script) mem)).
Proof.
  cbv zeta. unfold wally_scriptsig_multisig_from_bytes.
  destruct (Z.eqb_spec (blen script) 0); [discriminate |].
  destruct (blen bytes =? 0); [discriminate |].
  destruct (Z.eqb_spec (blen bytes mod EC_SIGNATURE_LEN) 0) as [Hmod |];
    [| discriminate].
  destruct (Z.ltb_spec (blen bytes / EC_SIGNATURE_LEN) 1); [discriminate |].
  destruct (blen bytes / EC_SIGNATURE_LEN >? 15) eqn:H15; [discriminate |].
  destruct (Z.eqb_spec (blen sighash) (blen bytes / EC_SIGNATURE_LEN))
    as [Hsh |]; [| discriminate].
  destruct (flags =? 0); [| discriminate]. cbn [negb orb].
  change (Z.to_nat EC_SIGNATURE_LEN) with 64%nat.
  destruct (multisig_ders _ sighash) as [e | ders] eqn:Hders.
  { cbn [ret_of written_of fst snd]. intros ->.
    now apply multisig_ders_inl in Hders. }
  rewrite fold_left_push_sizes, Z.add_0_l.
  set (S := blen (concat (map push_encoding ders))).
  pose proof (blen_nonneg (concat (map push_encoding ders))) as HS. fold S in HS.
  pose proof (script_get_push_size_pos _ (blen_nonneg script)) as Hp.
  destruct (Z.ltb_spec len (S + (1 + script_get_push_size (blen script)))).
  { cbn [ret_of written_of fst snd]. lia. }
  rewrite multisig_push_ders_fits by (fold S; lia). fold S.
  change (negb (WALLY_OK =? WALLY_OK)) with false. cbv iota.
  rewrite script_push_at_fits by lia.
  change (negb (WALLY_OK =? WALLY_OK)) with false. cbv iota.
  replace (len - 1 - S <? script_get_push_size (blen script)) with false
    by (symmetry; apply Z.ltb_ge; lia).
  cbn [ret_of written_of fst snd]. intros _ _.
  assert (Hst : store_at (1 + S) (push_encoding script)
                  (store_at 1 (concat (map push_encoding ders))
                     (store_at 0 [OP_0] mem))
                = store_at 0 (multisig_scriptsig ders script) mem).
  { assert (E : multisig_scriptsig ders script
                = ([OP_0] ++ concat (map push_encoding ders))
                    ++ push_encoding script)
      by (unfold multisig_scriptsig; now rewrite <- app_assoc).
    rewrite E, <- !store_at_then, blen_app. reflexivity. }
  rewrite Hst.
  assert (Hl : blen (multisig_scriptsig ders script)
               = S + (1 + script_get_push_size (blen script))).
  { unfold multisig_scriptsig.
    rewrite blen_cons, blen_app, blen_push_encoding. fold S. lia. }
  exists ders. rewrite Hl.
  repeat split; try lia.
  rewrite (multisig_ders_length _ _ _ Hders).
  assert (Hn : length (elements (Z.to_nat (blen bytes / EC_SIGNATURE_LEN))
                         64 bytes)
               = Z.to_nat (blen bytes / EC_SIGNATURE_LEN)).
  { apply elements_sized.
    pose proof (Z.div_mod (blen bytes) EC_SIGNATURE_LEN ltac:(discriminate)) as Hd.
    unfold EC_SIGNATURE_LEN, blen in *. lia. }
  rewrite Hn, <- Hsh. unfold blen. lia.
Qed.
End MultisigScriptsig.

Lemma script_is_op_n_range (op m : Z) :
  script_is_op_n op false = Some m -> 1 <= m <= 16.
Proof.
  unfold script_is_op_n, OP_1, OP_16. cbn [andb].
  destruct (Z.leb_spec 81 op), (Z.leb_spec op 96); cbn [andb];
    try discriminate.
  intros [= <-]. lia.
Qed.

Lemma multisig_scriptsig_pushes (ders : list (list Z)) (script : list Z) :
  multisig_scriptsig ders script
  = concat (map push_encoding ([] :: ders ++ [script])).
Proof.
  unfold multisig_scriptsig. cbn [map concat].
  rewrite map_app, concat_app. cbn [map concat]. now rewrite app_nil_r.
Qed.

Lemma pushes_bound (ders : list (list Z)) (bound : Z) :
  blen (concat (map push_encoding ders)) <= bound ->
  Forall (fun der => blen der < bound) ders.
Proof.
  induction ders as [| d ds IH]; intros H; [constructor |].
  cbn [map concat] in H. rewrite blen_app, blen_push_encoding in H.
  pose proof (blen_nonneg (concat (map push_encoding ds))).
  pose proof (calc_push_opcode_size_range (blen d)).
  pose proof (blen_nonneg d).
  unfold script_get_push_size in H.
  constructor; [lia | apply IH; lia].
Qed.

Section MultisigWitness.
Context {C : crypto_ops} {W : witness_stack_ops}.

(** X18: whenever the multisig scriptSig builder succeeds and what it reports
    fits the buffer, the input is 1 to 15 signatures of 64 bytes with as
    many sighash words, each encoded (DER, then the sighash byte) without
    failure, and the builder has written OP_0, the push of every encoded
    signature in order, and the push of the script. *)
Theorem scriptsig_multisig_built (script bytes sighash : list Z) (flags : Z)
  (mem : list Z) (len : Z) :
  let r := wally_scriptsig_multisig_from_bytes script bytes sighash flags
             (Some mem) len in
  let n_sigs := blen bytes / EC_SIGNATURE_LEN in
  ret_of r = WALLY_OK -> written_of r <= len -> len <= blen mem ->
  exists ders,
    multisig_ders (elements (Z.to_nat n_sigs) 64 bytes) sighash = inr ders /\
    length ders = Z.to_nat n_sigs /\ 1 <= n_sigs <= 15 /\
    blen script <> 0 /\
    written_of r = blen (multisig_scriptsig ders script) /\
    script_of r = multisig_scriptsig ders script.
Proof.
  cbv zeta. intros Hret Hw Hmem.
  destruct (scriptsig_multisig_spec script bytes sighash flags mem len
              Hret Hw) as (ders & Hders & Hn & Hn15 & Hs & Hr).
  exists ders. rewrite Hr in Hw |- *. cbn [written_of fst snd] in *.
  rewrite script_of_store by lia.
  repeat split; try assumption; lia.
Qed.

(** X19: the multisig witness.  The scratch buffer is sized from the
    threshold opcode [m] at the start of the script; when the allocation
    succeeds and the scriptSig built in it fits, the witness is the stack
    allocated for two items and filled with an empty item, every encoded
    signature in order, and the script. *)
Theorem witness_multisig_items (script bytes sighash : list Z) (flags m : Z) :
  let buff_len := 1 + (1 + DER_AND_HASH_MAX_LEN) * m
                  + script_get_push_size (blen script) in
  let r := wally_scriptsig_multisig_from_bytes script bytes sighash flags
             (Some (repeat 0 (Z.to_nat buff_len))) buff_len in
  script_is_op_n (byte_at script 0) false = Some m -> m <= 15 ->
  wally_malloc buff_len = true -> blen script < 2 ^ 32 ->
  ret_of r = WALLY_OK -> written_of r <= buff_len ->
  exists ders,
    multisig_ders
      (elements (Z.to_nat (blen bytes / EC_SIGNATURE_LEN)) 64 bytes) sighash
    = inr ders /\
    wally_witness_multisig_from_bytes script bytes sighash flags
    = Some (witness_of_items 2 ([] :: ders ++ [script])).
Proof.
  cbv zeta. intros Hop Hm Hmalloc Hs32 Hret Hw.
  pose proof (script_is_op_n_range _ _ Hop) as Hm1.
  pose proof (script_get_push_size_pos _ (blen_nonneg script)) as Hp.
  set (buff_len := 1 + (1 + DER_AND_HASH_MAX_LEN) * m
                   + script_get_push_size (blen script)) in *.
  assert (Hb0 : 0 <= buff_len) by (unfold buff_len, DER_AND_HASH_MAX_LEN,
                                     EC_SIGNATURE_DER_MAX_LEN; lia).
  assert (Hbl : buff_len <= blen (repeat 0 (Z.to_nat buff_len)))
    by (unfold blen; rewrite repeat_length; lia).
  destruct (scriptsig_multisig_spec script bytes sighash flags _ _ Hret Hw)
    as (ders & Hders & Hn & Hn15 & Hsne & Hr).
  exists ders. split; [exact Hders |].
  unfold wally_witness_multisig_from_bytes.
  replace (blen script =? 0) with false by (symmetry; now apply Z.eqb_neq).
  rewrite Hop.
  replace (m =? 0) with false by (symmetry; apply Z.eqb_neq; lia).
  replace (m >? 15) with false
    by (symmetry; rewrite Z.gtb_ltb; apply Z.ltb_ge; lia).
  cbn [orb]. fold buff_len. rewrite Hmalloc. cbn [negb].
  rewrite Hr in Hw |- *. cbn [written_of fst snd] in Hw.
  change (WALLY_OK =? WALLY_OK) with true. cbv iota.
  replace (_ >? buff_len) with false
    by (symmetry; rewrite Z.gtb_ltb; apply Z.ltb_ge; lia).
  assert (Hl : blen (multisig_scriptsig ders script)
               = 1 + blen (concat (map push_encoding ders))
                 + script_get_push_size (blen script)).
  { unfold multisig_scriptsig.
    rewrite blen_cons, blen_app, blen_push_encoding. lia. }
  rewrite firstn_store_at_0 by (try reflexivity; lia).
  rewrite multisig_scriptsig_pushes.
  apply scriptsig_to_witness_items; [discriminate |].
  constructor; [reflexivity |].
  apply Forall_app. split; [| repeat constructor; exact Hs32].
  apply Forall_impl with (P := fun der => blen der < 1110);
    [intros a Ha; change (2 ^ 32) with 4294967296; lia |].
  apply pushes_bound.
  unfold buff_len, DER_AND_HASH_MAX_LEN, EC_SIGNATURE_DER_MAX_LEN in *. lia.
Qed.
End MultisigWitness.

(** ** Varints and length-prefixed buffers *)

(** The varint codec on an unsigned 64-bit value, whatever follows the
    encoding. *)
Lemma varint_codec (v : Z) (rest : list Z) :
  0 <= v < 2 ^ 64 ->
  varint_from_bytes (snd (varint_to_bytes v) ++ rest)
    = (fst (varint_to_bytes v), v) /\
  fst (varint_to_bytes v) = blen (snd (varint_to_bytes v)) /\
  fst (varint_to_bytes v) = varint_get_length v.
Proof.
  intros Hv. unfold varint_to_bytes, varint_get_length, VI_MAX_8, VI_MAX_16, VI_MAX_32.
  destruct (Z.leb_spec v 252) as [H8 | H8];
    [| destruct (Z.leb_spec v 65535) as [H16 | H16];
       [| destruct (Z.leb_spec v 4294967295) as [H32 | H32]]].
  - repeat split. unfold varint_from_bytes, uint8_to_le_bytes.
    cbn [fst snd le_bytes app byte_at nth Z.to_nat].
    rewrite land_255_small by lia. unfold VI_TAG_16, VI_TAG_32, VI_TAG_64.
    destruct (Z.eqb_spec v 253); [lia |].
    destruct (Z.eqb_spec v 254); [lia |].
    destruct (Z.eqb_spec v 255); [lia | reflexivity].
  - repeat split. unfold varint_from_bytes, uint16_to_le_bytes.
    cbn [fst snd]. change (byte_at _ 0) with VI_TAG_16. cbn [Z.eqb VI_TAG_16 Pos.eqb].
    f_equal. apply (decode16 v rest VI_TAG_16). lia.
  - repeat split. unfold varint_from_bytes, uint32_to_le_bytes.
    cbn [fst snd]. change (byte_at _ 0) with VI_TAG_32.
    change (VI_TAG_32 =? VI_TAG_16) with false. change (VI_TAG_32 =? VI_TAG_32) with true.
    cbv iota. f_equal. apply (decode32 v rest VI_TAG_32). lia.
  - repeat split. unfold varint_from_bytes, uint64_to_le_bytes.
    cbn [fst snd]. change (byte_at _ 0) with VI_TAG_64.
    change (VI_TAG_64 =? VI_TAG_16) with false. change (VI_TAG_64 =? VI_TAG_32) with false.
    change (VI_TAG_64 =? VI_TAG_64) with true.
    cbv iota. f_equal. apply (decode64 v rest VI_TAG_64). lia.
Qed.

Lemma varint_length_is_decoded_size (bytes : list Z) :
  varint_length_from_bytes bytes = fst (varint_from_bytes bytes).
Proof.
  unfold varint_length_from_bytes, varint_from_bytes.
  destruct (_ =? VI_TAG_16); [reflexivity |].
  destruct (_ =? VI_TAG_32); [reflexivity |].
  destruct (_ =? VI_TAG_64); reflexivity.
Qed.

(** A store at the start of a memory that holds it, as a list. *)
Lemma store_at_0_fits (data mem : list Z) :
  blen data <= blen mem ->
  store_at 0 data mem = data ++ skipn (Z.to_nat (blen data)) mem.
Proof.
  intros H. unfold store_at, blen in *. rewrite Nat2Z.id.
  change (Z.to_nat 0) with 0%nat. apply store_0_fits. lia.
Qed.

(** X20: [wally_varint_to_bytes] on an unsigned 64-bit value and a buffer of
    [len] bytes succeeds exactly when [len] is at least
    [varint_get_length value]; it then reports that length (the one
    [wally_varint_get_length] gives), leaves the bytes after it alone, and
    on the buffer the decoder returns the value and that length, as does
    [varint_length_from_bytes].  On a shorter buffer it returns WALLY_EINVAL
    and writes nothing. *)
Theorem wally_varint_to_bytes_roundtrip (value : Z) (mem : list Z) (len : Z) :
  0 <= value < 2 ^ 64 -> len <= blen mem ->
  let r := wally_varint_to_bytes value (Some mem) len in
  let n := snd (wally_varint_get_length value) in
  if n <=? len
  then ret_of r = WALLY_OK /\ written_of r = n /\
       varint_from_bytes (mem_of r) = (n, value) /\
       varint_length_from_bytes (mem_of r) = n /\
       skipn (Z.to_nat n) (mem_of r) = skipn (Z.to_nat n) mem
  else r = (WALLY_EINVAL, 0, Some mem).
Proof.
  intros Hv Hmem. cbv zeta.
  unfold wally_varint_to_bytes, wally_varint_get_length. cbn [snd].
  destruct (varint_codec value (skipn (Z.to_nat (varint_get_length value)) mem)
              Hv) as (Hdec & Hcnt & Hlen).
  destruct (Z.leb_spec (varint_get_length value) len) as [Hfit | Hshort].
  - replace (len <? varint_get_length value) with false
      by (symmetry; apply Z.ltb_ge; lia).
    destruct (varint_to_bytes value) as [n bs]. cbn [fst snd] in *. subst n.
    cbn [ret_of written_of mem_of fst snd].
    rewrite varint_length_is_decoded_size.
    rewrite store_at_0_fits by lia. rewrite Hlen, Hdec.
    repeat split; try assumption.
    + now rewrite Hlen.
    + rewrite <- Hlen. unfold blen. rewrite Nat2Z.id.
      now rewrite skipn_app, skipn_all, Nat.sub_diag.
  - replace (len <? varint_get_length value) with true
      by (symmetry; apply Z.ltb_lt; lia).
    reflexivity.
Qed.

(** X21: [varbuff_to_bytes] on a buffer shorter than 2^64 bytes stores the
    varint of its length, then the buffer: the count returned is the number
    of bytes stored, [varint_get_length] of the length plus the length; the
    varint decoder finds the length at the start, and the buffer's bytes
    follow the varint unchanged, whatever comes after them. *)
Theorem varbuff_to_bytes_roundtrip (bytes rest : list Z) :
  blen bytes < 2 ^ 64 ->
  let n := fst (varbuff_to_bytes bytes) in
  let out := snd (varbuff_to_bytes bytes) in
  let k := varint_get_length (blen bytes) in
  n = blen out /\ n = k + blen bytes /\
  varint_from_bytes (out ++ rest) = (k, blen bytes) /\
  firstn (Z.to_nat (blen bytes)) (advance k (out ++ rest)) = bytes /\
  advance n (out ++ rest) = rest.
Proof.
  intros Hb. cbv zeta. pose proof (blen_nonneg bytes) as H0.
  unfold varbuff_to_bytes.
  assert (Hpay : (if blen bytes =? 0 then [] else bytes) = bytes).
  { destruct (Z.eqb_spec (blen bytes) 0) as [E |]; [| reflexivity].
    destruct bytes; [reflexivity | discriminate]. }
  rewrite Hpay.
  destruct (varint_codec (blen bytes) (bytes ++ rest) (conj H0 Hb))
    as (Hdec & Hcnt & Hlen).
  destruct (varint_to_bytes (blen bytes)) as [n prefix].
  cbn [fst snd] in *. subst n. rewrite <- app_assoc, Hdec, <- Hlen.
  repeat split.
  - now rewrite blen_app.
  - rewrite advance_blen_app. apply firstn_blen_app.
  - rewrite <- blen_app, app_assoc. apply advance_blen_app.
Qed.

(** ** What the readers accept *)

Lemma bytes_ok_Forall (p : list Z) : bytes_ok p -> Forall is_byte p.
Proof.
  intros Hok. apply Forall_forall. intros x Hx.
  destruct (In_nth p x 0 Hx) as (i & _ & <-).
  specialize (Hok (Z.of_nat i)). unfold byte_at in Hok.
  now rewrite Nat2Z.id in Hok.
Qed.

(** X22: the script-integer decoder on a buffer of bytes succeeds exactly when
    the buffer is not empty, its first byte (the count) is at most 4 and
    fewer than the buffer's length; whatever it returns, the value lies
    strictly between -2^31 and 2^31, and it is 0 with WALLY_EINVAL. *)
Theorem scriptint_from_bytes_range (bytes : list Z) :
  bytes_ok bytes ->
  let r := scriptint_from_bytes bytes in
  (fst r = WALLY_OK <->
   1 <= blen bytes /\ byte_at bytes 0 <= 4 /\ byte_at bytes 0 < blen bytes) /\
  (fst r <> WALLY_OK -> r = (WALLY_EINVAL, 0)) /\
  - 2 ^ 31 < snd r < 2 ^ 31.
Proof.
  intros Hok. cbv zeta.
  pose proof (Hok 0) as Hk. unfold is_byte in Hk.
  destruct (Z.ltb_spec (blen bytes) 1) as [Hl1 | Hl1].
  { unfold scriptint_from_bytes.
    replace (blen bytes <? 1) with true by (symmetry; apply Z.ltb_lt; lia).
    cbn [orb fst snd]. repeat split; try discriminate; try lia; reflexivity. }
  destruct (Z.leb_spec (blen bytes) (byte_at bytes 0)) as [Hl2 | Hl2].
  { unfold scriptint_from_bytes.
    replace (blen bytes <=? byte_at bytes 0) with true
      by (symmetry; apply Z.leb_le; lia).
    rewrite orb_true_r. cbn [orb fst snd].
    repeat split; try discriminate; try lia; reflexivity. }
  destruct (Z.ltb_spec 4 (byte_at bytes 0)) as [Hl3 | Hl3].
  { unfold scriptint_from_bytes. rewrite Z.gtb_ltb.
    replace (4 <? byte_at bytes 0) with true by (symmetry; apply Z.ltb_lt; lia).
    rewrite orb_true_r. cbn [fst snd].
    repeat split; try discriminate; try lia; reflexivity. }
  destruct bytes as [| k tl]; [cbn in Hl1; lia |].
  change (byte_at (k :: tl) 0) with k in *.
  assert (Hval : exists v, scriptint_from_bytes (k :: tl) = (WALLY_OK, v) /\
                           - 2 ^ 31 < v < 2 ^ 31).
  { destruct (Z.eq_dec k 0) as [-> | Hk0].
    - exists 0. split; [apply scriptint_from_bytes_zero | lia].
    - rewrite blen_cons in Hl2.
      set (digits := firstn (Z.to_nat k) tl).
      assert (Hdl : length digits = Z.to_nat k)
        by (unfold digits, blen in *; rewrite length_firstn; lia).
      assert (Hne : digits <> []) by (intros E; rewrite E in Hdl; cbn in Hdl; lia).
      pose proof (app_removelast_last 0 Hne) as Hsplit.
      set (ds := removelast digits) in *. set (l := last digits 0) in *.
      clearbody ds l.
      assert (Htl : tl = (ds ++ [l]) ++ skipn (Z.to_nat k) tl)
        by (rewrite <- Hsplit; symmetry; apply firstn_skipn).
      assert (Hbk : blen (ds ++ [l]) = k)
        by (rewrite <- Hsplit; unfold blen; lia).
      assert (Hall : Forall is_byte (ds ++ [l])).
      { apply bytes_ok_Forall, Forall_inv_tail in Hok.
        rewrite Htl in Hok. now apply Forall_app in Hok. }
      apply Forall_app in Hall. destruct Hall as [Hds Hlb].
      apply Forall_inv in Hlb.
      assert (Hk3 : blen ds <= 3)
        by (rewrite blen_app in Hbk; change (blen [l]) with 1 in Hbk; lia).
      rewrite Htl. set (rest := skipn (Z.to_nat k) tl). clearbody rest.
      assert (E : k :: (ds ++ [l]) ++ rest
                  = blen (ds ++ [l]) :: (ds ++ [l]) ++ rest) by now rewrite Hbk.
      rewrite E, scriptint_from_bytes_digits by assumption.
      eexists. split; [reflexivity |].
      pose proof (le_value_bound ds Hds) as Hlv.
      pose proof (blen_nonneg ds) as Hd0.
      assert (Hp : 0 < 2 ^ (8 * blen ds) <= 2 ^ 24)
        by (split; [apply Z.pow_pos_nonneg; lia
                   | apply Z.pow_le_mono_r; lia]).
      change (2 ^ 24) with 16777216 in Hp.
      change (2 ^ 31) with 2147483648. unfold is_byte in Hlb.
      destruct (Z.ltb_spec l 128); nia. }
  destruct Hval as (v & -> & Hv). cbn [fst snd].
  repeat split; try lia.
Qed.

Lemma scriptint_from_bytes_range_witness :
  bytes_ok [2; 0x80; 0x80] /\
  - 2 ^ 31 < snd (scriptint_from_bytes [2; 0x80; 0x80]) < 2 ^ 31.
Proof.
  assert (H : bytes_ok [2; 0x80; 0x80]) by (apply bytesb_ok; reflexivity).
  split; [exact H |].
  exact (proj2 (proj2 (scriptint_from_bytes_range [2; 0x80; 0x80] H))).
Defined.

(** The bytes of a buffer whose length and opcode bytes a fixed-size
    matcher has checked. *)
Ltac fixed_template bytes n Hlen Hm :=
  apply Z.eqb_eq in Hlen; apply (blen_length _ n) in Hlen;
  list_of_length bytes;
  repeat (apply andb_prop in Hm; destruct Hm as [Hm ?]);
  repeat match goal with
    | H : (byte_at _ _ =? _) = true |- _ =>
        apply Z.eqb_eq in H;
        cbv [byte_at nth Z.to_nat Pos.to_nat Pos.iter_op Nat.add] in H
    end;
  subst.

(** X23: the five fixed-size types are given exactly to their templates: the
    classifier returns P2PKH on OP_DUP OP_HASH160 <20 bytes> OP_EQUALVERIFY
    OP_CHECKSIG and on nothing else, P2SH on OP_HASH160 <20 bytes> OP_EQUAL,
    P2WPKH and P2WSH on OP_0 followed by the push of 20 and of 32 bytes, and
    P2TR on OP_1 followed by the push of 32 bytes. *)
Theorem fixed_size_types_are_templates (bytes : list Z) :
  (wally_scriptpubkey_get_type (Some bytes) = (WALLY_OK, P2PKH) <->
   exists hash, blen hash = 20 /\ bytes = p2pkh_script hash) /\
  (wally_scriptpubkey_get_type (Some bytes) = (WALLY_OK, P2SH) <->
   exists hash, blen hash = 20 /\ bytes = p2sh_script hash) /\
  (wally_scriptpubkey_get_type (Some bytes) = (WALLY_OK, P2WPKH) <->
   exists prog, blen prog = 20 /\ bytes = witness_program 0 prog) /\
  (wally_scriptpubkey_get_type (Some bytes) = (WALLY_OK, P2WSH) <->
   exists prog, blen prog = 32 /\ bytes = witness_program 0 prog) /\
  (wally_scriptpubkey_get_type (Some bytes) = (WALLY_OK, P2TR) <->
   exists prog, blen prog = 32 /\ bytes = witness_program 1 prog).
Proof.
  repeat split.
  - unfold wally_scriptpubkey_get_type.
    repeat match goal with
      | |- context [if ?c then _ else _] => destruct c eqn:?
      end; try discriminate.
    intros _.
    match goal with
    | Hl : (blen bytes =? WALLY_SCRIPTPUBKEY_P2PKH_LEN) = true,
      Hm : scriptpubkey_is_p2pkh bytes = true |- _ =>
        unfold scriptpubkey_is_p2pkh in Hm; fixed_template bytes 25%nat Hl Hm
    end.
    match goal with
    | |- exists h, _ /\ ?L = _ => exists (firstn 20 (skipn 3 L))
    end.
    split; reflexivity.
  - intros (hash & Hl & ->). now apply get_type_p2pkh_script.
  - unfold wally_scriptpubkey_get_type.
    repeat match goal with
      | |- context [if ?c then _ else _] => destruct c eqn:?
      end; try discriminate.
    intros _.
    match goal with
    | Hl : (blen bytes =? WALLY_SCRIPTPUBKEY_P2SH_LEN) = true,
      Hm : scriptpubkey_is_p2sh bytes = true |- _ =>
        unfold scriptpubkey_is_p2sh in Hm; fixed_template bytes 23%nat Hl Hm
    end.
    match goal with
    | |- exists h, _ /\ ?L = _ => exists (firstn 20 (skipn 2 L))
    end.
    split; reflexivity.
  - intros (hash & Hl & ->). now apply get_type_p2sh_script.
  - unfold wally_scriptpubkey_get_type.
    repeat match goal with
      | |- context [if ?c then _ else _] => destruct c eqn:?
      end; try discriminate.
    intros _.
    match goal with
    | Hl : (blen bytes =? WALLY_SCRIPTPUBKEY_P2WPKH_LEN) = true,
      Hm : scriptpubkey_is_p2wpkh bytes = true |- _ =>
        unfold scriptpubkey_is_p2wpkh in Hm; fixed_template bytes 22%nat Hl Hm
    end.
    match goal with
    | |- exists h, _ /\ ?L = _ => exists (skipn 2 L)
    end.
    split; reflexivity.
  - intros (prog & Hl & ->).
    rewrite get_type_witness_v0 by (left; exact Hl). now rewrite Hl.
  - unfold wally_scriptpubkey_get_type.
    repeat match goal with
      | |- context [if ?c then _ else _] => destruct c eqn:?
      end; try discriminate.
    intros _.
    match goal with
    | Hl : (blen bytes =? WALLY_SCRIPTPUBKEY_P2WSH_LEN) = true,
      Hm : scriptpubkey_is_p2wsh bytes = true |- _ =>
        unfold scriptpubkey_is_p2wsh in Hm; fixed_template bytes 34%nat Hl Hm
    end.
    match goal with
    | |- exists h, _ /\ ?L = _ => exists (skipn 2 L)
    end.
    split; reflexivity.
  - intros (prog & Hl & ->).
    rewrite get_type_witness_v0 by (right; exact Hl). now rewrite Hl.
  - unfold wally_scriptpubkey_get_type.
    repeat match goal with
      | |- context [if ?c then _ else _] => destruct c eqn:?
      end; try discriminate.
    intros _.
    match goal with
    | Hl : (blen bytes =? WALLY_SCRIPTPUBKEY_P2WSH_LEN) = true,
      Hm : scriptpubkey_is_p2tr bytes = true |- _ =>
        unfold scriptpubkey_is_p2tr in Hm; fixed_template bytes 34%nat Hl Hm
    end.
    match goal with
    | |- exists h, _ /\ ?L = _ => exists (skipn 2 L)
    end.
    split; reflexivity.
  - intros (prog & Hl & ->). now apply get_type_witness_v1.
Qed.

(** ** Calls with a buffer that is too short *)

Section ShortBuffers.
Context {C : crypto_ops}.

(** A failing call of the push primitive reports no length and writes
    nothing. *)
Lemma script_push_at_not_ok (bytes : list Z) (flags : Z) (mem : list Z)
  (off len ret w : Z) (m : list Z) :
  script_push_at bytes flags mem off len = (ret, w, m) ->
  ret <> WALLY_OK -> w = 0 /\ m = mem.
Proof.
  unfold script_push_at.
  destruct (_ || _); [intros [= <- <- <-]; auto |].
  assert (Hfin : forall r data,
    (if negb (r =? WALLY_OK) then (r, 0, mem)
     else if len <? blen data + calc_push_opcode_size (blen data)
          then (WALLY_OK, blen data + calc_push_opcode_size (blen data), mem)
          else (WALLY_OK, blen data + calc_push_opcode_size (blen data),
                store_at off (push_opcode_bytes (blen data) ++ data) mem))
    = (ret, w, m) -> ret <> WALLY_OK -> w = 0 /\ m = mem).
  { intros r data. destruct (negb (r =? WALLY_OK)).
    - intros [= <- <- <-]. auto.
    - destruct (len <? _); intros [= <- <- <-] H; now elim H. }
  destruct (negb (Z.land flags WALLY_SCRIPT_HASH160 =? 0)).
  - destruct (wally_hash160 bytes) as [r h]. apply Hfin.
  - destruct (negb (Z.land flags WALLY_SCRIPT_SHA256 =? 0)).
    + destruct (wally_sha256 bytes) as [r h]. apply Hfin.
    + apply Hfin.
Qed.

Ltac flat_result := cbn [ret_of written_of mem_of fst snd].

(** X24: eight builders leave the buffer alone when it is too short: whenever
    the push primitive, the P2PKH, P2SH, multisig, CSV (both templates) and
    taproot scriptPubkey builders or the multisig scriptSig builder report
    a length above the buffer's, they have returned WALLY_OK and written
    nothing. *)
Theorem short_buffer_left_untouched (bytes script sighash : list Z)
  (flags threshold csv_blocks : Z) (mem : list Z) (len : Z) (r : built) :
  0 <= len ->
  In r [wally_script_push_from_bytes bytes flags (Some mem) len;
        wally_scriptpubkey_p2pkh_from_bytes bytes flags (Some mem) len;
        wally_scriptpubkey_p2sh_from_bytes bytes flags (Some mem) len;
        wally_scriptpubkey_multisig_from_bytes bytes threshold flags
          (Some mem) len;
        wally_scriptpubkey_csv_2of2_then_1_from_bytes bytes csv_blocks flags
          (Some mem) len;
        wally_scriptpubkey_csv_2of2_then_1_from_bytes_opt bytes csv_blocks
          flags (Some mem) len;
        wally_scriptpubkey_p2tr_from_bytes bytes flags (Some mem) len;
        wally_scriptsig_multisig_from_bytes script bytes sighash flags
          (Some mem) len] ->
  len < written_of r -> ret_of r = WALLY_OK /\ mem_of r = mem.
Proof.
  intros Hlen Hin.
  cbn [In] in Hin.
  destruct Hin as [<- | [<- | [<- | [<- | [<- | [<- | [<- | [<- | []]]]]]]]].
  - unfold wally_script_push_from_bytes.
    destruct (script_push_at bytes flags mem 0 len) as [[ret w] m] eqn:Hp.
    flat_result. intros Hw.
    destruct (Z.eq_dec ret WALLY_OK) as [-> | Hne].
    + apply script_push_at_ok in Hp. destruct Hp as (_ & _ & _ & ->).
      replace (len <? w) with true by (symmetry; apply Z.ltb_lt; lia). auto.
    + apply script_push_at_not_ok in Hp; [| exact Hne]. lia.
  - unfold wally_scriptpubkey_p2pkh_from_bytes.
    destruct (_ || _); [flat_result; lia |].
    destruct (Z.ltb_spec len WALLY_SCRIPTPUBKEY_P2PKH_LEN);
      [flat_result; auto |].
    destruct (if negb _ then _ else _); [flat_result; lia |].
    destruct (script_push_at _ _ _ _ _) as [[ret w] m] eqn:Hp.
    destruct (Z.eqb_spec ret WALLY_OK) as [-> | Hne]; [flat_result; lia |].
    apply script_push_at_not_ok in Hp; [| exact Hne]. flat_result. lia.
  - unfold wally_scriptpubkey_p2sh_from_bytes.
    destruct (_ || _); [flat_result; lia |].
    destruct (_ && _); [flat_result; lia |].
    destruct (Z.ltb_spec len WALLY_SCRIPTPUBKEY_P2SH_LEN);
      [flat_result; auto |].
    destruct (script_push_at _ _ _ _ _) as [[ret w] m] eqn:Hp.
    destruct (Z.eqb_spec ret WALLY_OK) as [-> | Hne]; [flat_result; lia |].
    apply script_push_at_not_ok in Hp; [| exact Hne]. flat_result. lia.
  - unfold wally_scriptpubkey_multisig_from_bytes.
    destruct (_ || _); [flat_result; lia |].
    destruct (Z.ltb_spec len (3 + blen bytes / EC_PUBLIC_KEY_LEN
                                  * (EC_PUBLIC_KEY_LEN + 1)));
      flat_result; [auto | lia].
  - unfold wally_scriptpubkey_csv_2of2_then_1_from_bytes.
    destruct (_ || _); [flat_result; lia |].
    destruct (Z.ltb_spec len (2 * (EC_PUBLIC_KEY_LEN + 1) + 9 + 1
                              + scriptint_get_length csv_blocks));
      flat_result; [auto | lia].
  - unfold wally_scriptpubkey_csv_2of2_then_1_from_bytes_opt.
    destruct (_ || _); [flat_result; lia |].
    destruct (Z.ltb_spec len (2 * (EC_PUBLIC_KEY_LEN + 1) + 6 + 1
                              + scriptint_get_length csv_blocks));
      flat_result; [auto | lia].
  - unfold wally_scriptpubkey_p2tr_from_bytes.
    destruct (if BUILD_ELEMENTS then _ else _); [flat_result; lia |].
    destruct (Z.ltb_spec len WALLY_SCRIPTPUBKEY_P2TR_LEN);
      [flat_result; auto |].
    destruct (if blen bytes =? EC_PUBLIC_KEY_LEN then _ else _) as [ret x].
    destruct (negb (ret =? WALLY_OK)); [flat_result; lia |].
    destruct (negb (blen x =? EC_XONLY_PUBLIC_KEY_LEN)); flat_result; lia.
  - unfold wally_scriptsig_multisig_from_bytes.
    destruct (_ || _); [flat_result; lia |].
    destruct (multisig_ders _ _) as [e | ders]; [flat_result; lia |].
    match goal with
    | |- context [if len <? ?req then _ else _] =>
        destruct (Z.ltb_spec len req); [flat_result; auto |]
    end.
    destruct (multisig_push_ders _ _ _ _) as [[[ret m] p] l].
    destruct (negb (ret =? WALLY_OK)); [flat_result; lia |].
    destruct (script_push_at _ _ _ _ _) as [[ret' w] m'].
    destruct (negb (ret' =? WALLY_OK)); [flat_result; lia |].
    destruct (l <? w); flat_result; lia.
Qed.

(** X25: the OP_RETURN and witness-program builders do write into a buffer
    that is too short: whenever they report a length above the buffer's,
    they have returned WALLY_OK and stored their leading opcode (OP_RETURN;
    the version opcode, after the length byte with AS_PUSH) in the buffer,
    which then has at least 2 bytes.  On a 1-byte buffer the OP_RETURN
    builder returns WALLY_EINVAL for every input it would otherwise
    accept. *)
Theorem short_buffer_opcode_written (bytes : list Z) (version flags : Z)
  (mem : list Z) (len : Z) :
  0 <= len ->
  let r1 := wally_scriptpubkey_op_return_from_bytes bytes flags (Some mem)
              len in
  let r2 := wally_witness_program_from_bytes_and_version bytes version flags
              (Some mem) len in
  (len < written_of r1 ->
   ret_of r1 = WALLY_OK /\ 2 <= len /\
   mem_of r1 = store_at 0 [OP_RETURN] mem) /\
  (len = 1 -> ret_of r1 = WALLY_EINVAL /\ written_of r1 = 0) /\
  (len < written_of r2 ->
   ret_of r2 = WALLY_OK /\ 2 <= len /\
   mem_of r2
   = if Z.land flags WALLY_SCRIPT_AS_PUSH =? 0
     then store_at 0 [value_to_op_n version] mem
     else store_at 0 [Z.land (written_of r2 - 1) 0xff; value_to_op_n version]
            mem).
Proof.
  intros Hlen. cbv zeta. split; [| split].
  - unfold wally_scriptpubkey_op_return_from_bytes.
    destruct (Z.eqb_spec len 0) as [Hz | Hnz];
      [rewrite !orb_true_r; flat_result; lia |].
    destruct (_ || _); [flat_result; lia |].
    destruct (script_push_at _ _ _ _ _) as [[ret w] m] eqn:Hp.
    destruct (Z.eqb_spec ret WALLY_OK) as [-> | Hne]; flat_result.
    + apply script_push_at_ok in Hp. destruct Hp as (_ & Hl0 & _ & ->).
      intros Hw.
      replace (len - 1 <? w) with true by (symmetry; apply Z.ltb_lt; lia).
      repeat split; [lia].
    + apply script_push_at_not_ok in Hp; [| exact Hne]. lia.
  - intros ->. unfold wally_scriptpubkey_op_return_from_bytes.
    destruct (_ || _); [split; reflexivity |].
    change (1 - 1) with 0. unfold script_push_at.
    change (0 =? 0) with true. rewrite orb_true_r. split; reflexivity.
  - unfold wally_witness_program_from_bytes_and_version.
    destruct (Z.eqb_spec len 0) as [Hz | Hnz];
      [rewrite !orb_true_r; flat_result; lia |].
    destruct (_ || _); [flat_result; lia |].
    destruct (if negb _ then _ else _); [flat_result; lia |].
    destruct (Z.eqb_spec (Z.land flags WALLY_SCRIPT_AS_PUSH) 0);
      cbn [negb andb].
    + destruct (script_push_at _ _ _ _ _) as [[ret w] m] eqn:Hp.
      destruct (Z.eqb_spec ret WALLY_OK) as [-> | Hne]; flat_result.
      * apply script_push_at_ok in Hp. destruct Hp as (_ & Hl0 & _ & ->).
        intros Hw.
        replace (len - 1 <? w) with true by (symmetry; apply Z.ltb_lt; lia).
        repeat split; [lia].
      * apply script_push_at_not_ok in Hp; [| exact Hne]. lia.
    + destruct (Z.ltb_spec len 2); [flat_result; lia |].
      destruct (script_push_at _ _ _ _ _) as [[ret w] m] eqn:Hp.
      destruct (Z.eqb_spec ret WALLY_OK) as [-> | Hne]; flat_result.
      * apply script_push_at_ok in Hp. destruct Hp as (_ & _ & _ & ->).
        intros Hw.
        replace (len - 1 - 1 <? w) with true
          by (symmetry; apply Z.ltb_lt; lia).
        replace (w + 1 + 1 - 1) with (w + 1) by lia.
        pose proof (store_at_before [Z.land (w + 1) 255]
                      [value_to_op_n version] mem) as Hst.
        change (blen [Z.land (w + 1) 255]) with 1 in Hst.
        repeat split; [lia | exact Hst].
      * apply script_push_at_not_ok in Hp; [| exact Hne]. lia.
Qed.
End ShortBuffers.

(** ** The push-size reader *)

Lemma le16_at_range (p : list Z) (i : Z) :
  bytes_ok p -> 0 <= le16_at p i < 65536.
Proof.
  intros Hok. unfold le16_at.
  pose proof (Hok i) as Ha. pose proof (Hok (i + 1)) as Hb.
  unfold is_byte in *.
  rewrite lor_low_shiftl by (change (2 ^ 8) with 256; lia).
  change (2 ^ 8) with 256. lia.
Qed.

Lemma le32_at_range (p : list Z) (i : Z) :
  bytes_ok p -> 0 <= le32_at p i < 2 ^ 32.
Proof.
  intros Hok. unfold le32_at.
  pose proof (le16_at_range p i Hok). pose proof (le16_at_range p (i + 2) Hok).
  rewrite lor_low_shiftl by (change (2 ^ 16) with 65536; lia).
  change (2 ^ 16) with 65536. change (2 ^ 32) with 4294967296. lia.
Qed.

(** X26: on a buffer of bytes the two modes of [get_push_size] succeed
    together, and then the push they describe lies inside the buffer: the
    opcode size is 1, 2, 3 or 5 according to the first byte (below 76,
    OP_PUSHDATA1, OP_PUSHDATA2, OP_PUSHDATA4), the payload size is below
    2^32, and opcode and payload together do not exceed the buffer.  No
    other first byte is accepted. *)
Theorem get_push_size_in_buffer (bytes : list Z) :
  bytes_ok bytes ->
  match get_push_size bytes true, get_push_size bytes false with
  | Some h, Some s =>
      0 <= s < 2 ^ 32 /\ h + s <= blen bytes /\
      h = (if byte_at bytes 0 <? 76 then 1
           else if byte_at bytes 0 =? OP_PUSHDATA1 then 2
           else if byte_at bytes 0 =? OP_PUSHDATA2 then 3 else 5) /\
      byte_at bytes 0 <= OP_PUSHDATA4 /\
      (h = 1 -> s = byte_at bytes 0)
  | None, None => True
  | _, _ => False
  end.
Proof.
  intros Hok. unfold get_push_size.
  pose proof (Hok 0) as H0. pose proof (Hok 1) as H1. unfold is_byte in *.
  pose proof (le16_at_range bytes 1 Hok) as H16.
  pose proof (le32_at_range bytes 1 Hok) as H32.
  change (2 ^ 32) with 4294967296 in *.
  unfold OP_PUSHDATA1, OP_PUSHDATA2, OP_PUSHDATA4.
  destruct (blen bytes =? 0); [exact I |].
  destruct (Z.ltb_spec (byte_at bytes 0) 76);
    [| destruct (Z.eqb_spec (byte_at bytes 0) 76);
       [destruct (blen bytes <? 2); [exact I |]
       | destruct (Z.eqb_spec (byte_at bytes 0) 77);
         [destruct (blen bytes <? 3); [exact I |]
         | destruct (Z.eqb_spec (byte_at bytes 0) 78);
           [destruct (blen bytes <? 5); [exact I |] | exact I]]]];
    match goal with
    | |- context [?a <? ?b] => destruct (Z.ltb_spec a b); [exact I |]
    end;
    repeat split; lia.
Qed.

Lemma get_push_size_in_buffer_witness :
  bytes_ok [OP_PUSHDATA1; 2; 7; 8; 9] /\
  match get_push_size [OP_PUSHDATA1; 2; 7; 8; 9] true,
        get_push_size [OP_PUSHDATA1; 2; 7; 8; 9] false with
  | Some h, Some s =>
      0 <= s < 2 ^ 32 /\ h + s <= blen [OP_PUSHDATA1; 2; 7; 8; 9] /\
      h = (if byte_at [OP_PUSHDATA1; 2; 7; 8; 9] 0 <? 76 then 1
           else if byte_at [OP_PUSHDATA1; 2; 7; 8; 9] 0 =? OP_PUSHDATA1 then 2
           else if byte_at [OP_PUSHDATA1; 2; 7; 8; 9] 0 =? OP_PUSHDATA2
                then 3 else 5) /\
      byte_at [OP_PUSHDATA1; 2; 7; 8; 9] 0 <= OP_PUSHDATA4 /\
      (h = 1 -> s = byte_at [OP_PUSHDATA1; 2; 7; 8; 9] 0)
  | None, None => True
  | _, _ => False
  end.
Proof.
  assert (H : bytes_ok [OP_PUSHDATA1; 2; 7; 8; 9])
    by (apply bytesb_ok; reflexivity).
  split; [exact H | exact (get_push_size_in_buffer _ H)].
Defined.

(** ** Confidential commitments (Elements) *)

Section CommitmentVarintFacts.
Context {P : ct_prefixes}.

(** X27: the two readers of a commitment's size agree wherever the length
    accessor accepts the leading byte: for the asset, value and nonce
    fields, a non-zero length returned by the length accessor is the size
    the varint accessor returns.  The varint accessor itself never returns
    0: it returns 1 with the value 0, or 9 or 33 with the value equal to
    the size, and it takes a blinded prefix of any of the three fields. *)
Theorem commitment_varint_agrees_with_length (bs : list Z) :
  ct_prefixes_ok ->
  (confidential_asset_length_from_bytes (Some bs) <> 0 ->
   fst (confidential_asset_varint_from_bytes bs)
   = confidential_asset_length_from_bytes (Some bs)) /\
  (confidential_value_length_from_bytes (Some bs) <> 0 ->
   fst (confidential_value_varint_from_bytes bs)
   = confidential_value_length_from_bytes (Some bs)) /\
  (confidential_nonce_length_from_bytes (Some bs) <> 0 ->
   fst (confidential_nonce_varint_from_bytes bs)
   = confidential_nonce_length_from_bytes (Some bs)) /\
  (forall ct_value,
     let r := confidential_commitment_varint_from_bytes bs ct_value in
     (fst r = 1 /\ snd r = 0) \/
     ((fst r = 9 \/ fst r = 33) /\ snd r = fst r)) /\
  (forall ct_value,
     byte_at bs 0 <> WALLY_TX_ASSET_CT_EXPLICIT_PREFIX ->
     byte_at bs 0 = WALLY_TX_ASSET_CT_VALUE_PREFIX_A \/
     byte_at bs 0 = WALLY_TX_ASSET_CT_VALUE_PREFIX_B \/
     byte_at bs 0 = WALLY_TX_ASSET_CT_ASSET_PREFIX_A \/
     byte_at bs 0 = WALLY_TX_ASSET_CT_ASSET_PREFIX_B \/
     byte_at bs 0 = WALLY_TX_ASSET_CT_NONCE_PREFIX_A \/
     byte_at bs 0 = WALLY_TX_ASSET_CT_NONCE_PREFIX_B ->
     confidential_commitment_varint_from_bytes bs ct_value = (33, 33)).
Proof.
  intros (He & Hva & Hvb & Haa & Hab & Hna & Hnb & Hvae & Hvbe & Hav & Hnv).
  unfold confidential_asset_length_from_bytes,
    confidential_value_length_from_bytes, confidential_nonce_length_from_bytes,
    confidential_asset_varint_from_bytes, confidential_value_varint_from_bytes,
    confidential_nonce_varint_from_bytes,
    confidential_commitment_varint_from_bytes, get_commitment_len,
    WALLY_TX_ASSET_CT_VALUE_UNBLIND_LEN, WALLY_TX_ASSET_CT_LEN.
  set (b := byte_at bs 0).
  repeat match goal with |- _ /\ _ => split end.
  1-3: repeat match goal with
         | |- context [?x =? ?y] => destruct (Z.eqb_spec x y)
         end; cbn [orb fst snd]; intros; congruence.
  - intros ct_value. cbv zeta.
    repeat match goal with
      | |- context [?x =? ?y] => destruct (Z.eqb_spec x y)
      end; cbn [orb fst snd]; destruct ct_value; cbn [fst snd]; tauto.
  - intros ct_value Hne Hb.
    destruct (Z.eqb_spec b WALLY_TX_ASSET_CT_EXPLICIT_PREFIX) as [E |];
      [contradiction |].
    repeat match goal with
      | |- context [?x =? ?y] => destruct (Z.eqb_spec x y)
      end; cbn [orb]; try reflexivity.
    repeat match goal with H : _ \/ _ |- _ => destruct H end; congruence.
Qed.
End CommitmentVarintFacts.

Lemma commitment_varint_agrees_with_length_witness :
  ct_prefixes_ok (P := libwally_ct_prefixes) /\
  fst (confidential_value_varint_from_bytes (P := libwally_ct_prefixes)
         [0x01; 0x2a])
  = confidential_value_length_from_bytes (P := libwally_ct_prefixes)
      (Some [0x01; 0x2a]).
Proof.
  assert (H : ct_prefixes_ok (P := libwally_ct_prefixes))
    by (unfold ct_prefixes_ok; cbn; repeat split; discriminate).
  split; [exact H |].
  apply (commitment_varint_agrees_with_length (P := libwally_ct_prefixes)
           [0x01; 0x2a] H).
  discriminate.
Defined.

(** ** The peg-in rewriter on scripts without keys *)

Section PeginCopy.
Context {C : crypto_ops} {E : secp256k1_ops}.

(** With no key push left to tweak, the loop copies what is left of the
    redeem script to the output position. *)
Lemma pegin_loop_no_keys (fuel : nat) :
  forall p script mem q found,
    bytes_ok p -> 1 <= blen p -> (length p <= fuel)%nat -> 0 <= q ->
    pending_offsets fuel q p found = [] ->
    pegin_loop fuel p script 0 mem q found
    = Some (WALLY_OK, store_at q p mem).
Proof.
  induction fuel as [| f IH]; intros p script mem q found Hok Hp1 Hfuel Hq Hpend;
    [unfold blen in Hp1; lia |].
  cbn [pegin_loop].
  assert (Hstep : forall n found1,
             1 <= n <= blen p ->
             (blen p - n <> 0 -> pending_offsets f (q + n) (advance n p) found1 = []) ->
             (if blen p - n =? 0
              then Some (WALLY_OK, store_at q (firstn (Z.to_nat n) p) mem)
              else pegin_loop f (advance n p) script 0
                     (store_at q (firstn (Z.to_nat n) p) mem) (q + n) found1)
             = Some (WALLY_OK, store_at q p mem)).
  { intros n found1 Hn Hrest.
    destruct (Z.eqb_spec (blen p - n) 0) as [Hz | Hnz].
    - rewrite firstn_all2 by (unfold blen in *; lia). reflexivity.
    - pose proof (blen_nonneg (advance n p)).
      rewrite IH;
        [| now apply bytes_ok_advance | rewrite blen_advance by lia; lia
         | unfold advance; rewrite length_skipn; unfold blen in *; lia
         | lia | now apply Hrest].
      do 2 f_equal.
      assert (Hbl : blen (firstn (Z.to_nat n) p) = n)
        by (unfold blen in *; rewrite length_firstn; lia).
      rewrite <- Hbl at 1. rewrite store_at_app by lia.
      unfold advance. now rewrite firstn_skipn. }
  unfold pending_offsets in Hpend. cbn [key_push_offsets] in Hpend.
  replace (blen p =? 0) with false in Hpend by (symmetry; apply Z.eqb_neq; lia).
  destruct (get_push_size p false) as [s |] eqn:Hs.
  - destruct (get_push_size_bounds p s Hok Hs) as (h & Hh & Hh1 & Hs0 & Hhs).
    rewrite Hh in *.
    replace (blen p <? s + h) with false by (symmetry; apply Z.ltb_ge; lia).
    destruct ((h =? 1) && (s =? EC_PUBLIC_KEY_LEN)) eqn:Hkey; cbn [andb].
    + destruct found; [| discriminate]. cbn [negb].
      apply Hstep; [lia |]. intros _. reflexivity.
    + apply Hstep; [lia |]. intros _. unfold pending_offsets.
      destruct found; [reflexivity | exact Hpend].
  - rewrite Z.eqb_refl, andb_true_r.
    assert (Hpend' : found = false -> byte_at p 0 <> OP_ELSE ->
                     key_push_offsets f (q + 1) (advance 1 p) = []).
    { intros -> Hne. destruct (Z.eqb_spec (byte_at p 0) OP_ELSE);
        [contradiction |].
      now destruct (get_push_size p true). }
    specialize (Hstep 1 (if byte_at p 0 =? OP_ELSE then true else found)).
    replace (firstn (Z.to_nat 1) p) with [byte_at p 0] in Hstep
      by (destruct p as [| b p']; [cbn in Hp1; lia | reflexivity]).
    apply Hstep; [lia |]. intros _. unfold pending_offsets.
    destruct (Z.eqb_spec (byte_at p 0) OP_ELSE); [reflexivity |].
    destruct found; [reflexivity | now apply Hpend'].
Qed.

(** X28: a redeem script of bytes that has no direct 33-byte push before its
    first OP_ELSE opcode is copied unchanged: on a non-empty contract
    script and a buffer of exactly the redeem script's length, the peg-in
    rewriter returns WALLY_OK and that length, the buffer holds the redeem
    script, and no key is tweaked. *)
Theorem pegin_script_without_keys_copied (redeem_script script : list Z)
  (mem : list Z) :
  bytesb redeem_script = true ->
  blen redeem_script <> 0 -> blen script <> 0 ->
  blen redeem_script <= blen mem ->
  key_push_offsets (length redeem_script) 0 redeem_script = [] ->
  let r := wally_elements_pegin_contract_script_from_bytes redeem_script
             script 0 (Some mem) (blen redeem_script) in
  r = Some (WALLY_OK, blen redeem_script,
            Some (store_at 0 redeem_script mem)) /\
  firstn (length redeem_script) (store_at 0 redeem_script mem)
  = redeem_script.
Proof.
  intros Hb Hr Hs Hmem Hkeys. cbv zeta.
  pose proof (blen_nonneg redeem_script) as Hr0.
  split.
  - unfold wally_elements_pegin_contract_script_from_bytes.
    replace (blen redeem_script =? 0) with false
      by (symmetry; now apply Z.eqb_neq).
    replace (blen script =? 0) with false by (symmetry; now apply Z.eqb_neq).
    rewrite !Z.eqb_refl. cbn [negb orb].
    rewrite pegin_loop_no_keys;
      [reflexivity | now apply bytesb_ok | lia | reflexivity | lia
      | exact Hkeys].
  - unfold store_at. change (Z.to_nat 0) with 0%nat.
    apply firstn_store_0. unfold blen in Hmem. lia.
Qed.
End PeginCopy.

Lemma pegin_script_without_keys_copied_witness :
  bytesb [OP_ELSE; 33; 1; 2] = true /\
  blen [OP_ELSE; 33; 1; 2] <> 0 /\ blen [7] <> 0 /\
  blen [OP_ELSE; 33; 1; 2] <= blen (repeat 0 4) /\
  key_push_offsets (length [OP_ELSE; 33; 1; 2]) 0 [OP_ELSE; 33; 1; 2] = [] /\
  wally_elements_pegin_contract_script_from_bytes
    (C := example_crypto) (E := example_secp256k1)
    [OP_ELSE; 33; 1; 2] [7] 0 (Some (repeat 0 4)) (blen [OP_ELSE; 33; 1; 2])
  = Some (WALLY_OK, blen [OP_ELSE; 33; 1; 2],
          Some (store_at 0 [OP_ELSE; 33; 1; 2] (repeat 0 4))).
Proof.
  assert (H1 : bytesb [OP_ELSE; 33; 1; 2] = true) by reflexivity.
  assert (H2 : blen [OP_ELSE; 33; 1; 2] <> 0) by discriminate.
  assert (H3 : blen [7] <> 0) by discriminate.
  assert (H4 : blen [OP_ELSE; 33; 1; 2] <= blen (repeat 0 4))
    by (vm_compute; discriminate).
  assert (H5 : key_push_offsets (length [OP_ELSE; 33; 1; 2]) 0
                 [OP_ELSE; 33; 1; 2] = []) by reflexivity.
  repeat (split; [assumption |]).
  exact (proj1 (pegin_script_without_keys_copied
                  (C := example_crypto) (E := example_secp256k1)
                  _ _ _ H1 H2 H3 H4 H5)).
Defined.

Lemma p2pkh_builder_classified_witness :
  WALLY_SCRIPTPUBKEY_P2PKH_LEN <= 30 /\ 30 <= blen (repeat 0 30) /\
  ret_of (wally_scriptpubkey_p2pkh_from_bytes (C := example_crypto)
            (repeat 7 33) WALLY_SCRIPT_HASH160 (Some (repeat 0 30)) 30)
  = WALLY_OK /\
  wally_scriptpubkey_get_type
    (Some (script_of (wally_scriptpubkey_p2pkh_from_bytes
                        (C := example_crypto) (repeat 7 33)
                        WALLY_SCRIPT_HASH160 (Some (repeat 0 30)) 30)))
  = (WALLY_OK, P2PKH).
Proof.
  assert (H1 : WALLY_SCRIPTPUBKEY_P2PKH_LEN <= 30) by (vm_compute; discriminate).
  assert (H2 : 30 <= blen (repeat 0 30)) by (vm_compute; discriminate).
  assert (H3 : ret_of (wally_scriptpubkey_p2pkh_from_bytes
                         (C := example_crypto) (repeat 7 33)
                         WALLY_SCRIPT_HASH160 (Some (repeat 0 30)) 30)
               = WALLY_OK) by (vm_compute; reflexivity).
  repeat (split; [assumption |]).
  exact (proj2 (proj2 (proj2 (proj2
           (p2pkh_builder_classified (C := example_crypto) (repeat 7 33)
              WALLY_SCRIPT_HASH160 (repeat 0 30) 30 H1 H2 H3))))).
Defined.

Lemma p2sh_builder_classified_witness :
  WALLY_SCRIPTPUBKEY_P2SH_LEN <= 23 /\ 23 <= blen (repeat 0 23) /\
  ret_of (wally_scriptpubkey_p2sh_from_bytes (C := example_crypto)
            (repeat 7 20) 0 (Some (repeat 0 23)) 23) = WALLY_OK /\
  wally_scriptpubkey_get_type
    (Some (script_of (wally_scriptpubkey_p2sh_from_bytes
                        (C := example_crypto) (repeat 7 20) 0
                        (Some (repeat 0 23)) 23)))
  = (WALLY_OK, P2SH).
Proof.
  assert (H1 : WALLY_SCRIPTPUBKEY_P2SH_LEN <= 23) by (vm_compute; discriminate).
  assert (H2 : 23 <= blen (repeat 0 23)) by (vm_compute; discriminate).
  assert (H3 : ret_of (wally_scriptpubkey_p2sh_from_bytes
                         (C := example_crypto) (repeat 7 20) 0
                         (Some (repeat 0 23)) 23) = WALLY_OK)
    by (vm_compute; reflexivity).
  repeat (split; [assumption |]).
  exact (proj2 (proj2 (proj2 (proj2
           (p2sh_builder_classified (C := example_crypto) (repeat 7 20) 0
              (repeat 0 23) 23 H1 H2 H3))))).
Defined.

Lemma witness_program_builder_witness :
  ret_of (wally_witness_program_from_bytes_and_version (C := example_crypto)
            [1; 2; 3] 0 (Z.lor WALLY_SCRIPT_SHA256 WALLY_SCRIPT_AS_PUSH)
            (Some (repeat 0 40)) 40) = WALLY_OK /\
  written_of (wally_witness_program_from_bytes_and_version
                (C := example_crypto) [1; 2; 3] 0
                (Z.lor WALLY_SCRIPT_SHA256 WALLY_SCRIPT_AS_PUSH)
                (Some (repeat 0 40)) 40) <= 40 /\
  40 <= blen (repeat 0 40) /\
  script_of (wally_witness_program_from_bytes_and_version
               (C := example_crypto) [1; 2; 3] 0
               (Z.lor WALLY_SCRIPT_SHA256 WALLY_SCRIPT_AS_PUSH)
               (Some (repeat 0 40)) 40)
  = 34 :: 0 :: 32 :: repeat 0x22 32.
Proof.
  assert (H1 : ret_of (wally_witness_program_from_bytes_and_version
                         (C := example_crypto) [1; 2; 3] 0
                         (Z.lor WALLY_SCRIPT_SHA256 WALLY_SCRIPT_AS_PUSH)
                         (Some (repeat 0 40)) 40) = WALLY_OK)
    by (vm_compute; reflexivity).
  assert (H2 : written_of (wally_witness_program_from_bytes_and_version
                             (C := example_crypto) [1; 2; 3] 0
                             (Z.lor WALLY_SCRIPT_SHA256 WALLY_SCRIPT_AS_PUSH)
                             (Some (repeat 0 40)) 40) <= 40)
    by (vm_compute; discriminate).
  assert (H3 : 40 <= blen (repeat 0 40)) by (vm_compute; discriminate).
  repeat (split; [assumption |]).
  exact (proj1 (witness_program_builder (C := example_crypto) [1; 2; 3] 0
                  (Z.lor WALLY_SCRIPT_SHA256 WALLY_SCRIPT_AS_PUSH)
                  (repeat 0 40) 40 H1 H2 H3)).
Defined.

Lemma p2tr_builder_classified_witness :
  WALLY_SCRIPTPUBKEY_P2TR_LEN <= 34 /\ 34 <= blen (repeat 0 34) /\
  ret_of (wally_scriptpubkey_p2tr_from_bytes (C := example_crypto)
            (repeat 7 33) 0 (Some (repeat 0 34)) 34) = WALLY_OK /\
  wally_scriptpubkey_get_type
    (Some (script_of (wally_scriptpubkey_p2tr_from_bytes
                        (C := example_crypto) (repeat 7 33) 0
                        (Some (repeat 0 34)) 34)))
  = (WALLY_OK, P2TR).
Proof.
  assert (H1 : WALLY_SCRIPTPUBKEY_P2TR_LEN <= 34) by (vm_compute; discriminate).
  assert (H2 : 34 <= blen (repeat 0 34)) by (vm_compute; discriminate).
  assert (H3 : ret_of (wally_scriptpubkey_p2tr_from_bytes
                         (C := example_crypto) (repeat 7 33) 0
                         (Some (repeat 0 34)) 34) = WALLY_OK)
    by (vm_compute; reflexivity).
  repeat (split; [assumption |]).
  exact (proj2 (proj2 (proj2
           (p2tr_builder_classified (C := example_crypto) (repeat 7 33) 0
              (repeat 0 34) 34 H1 H2 H3)))).
Defined.

Lemma op_return_builder_classified_witness :
  ret_of (wally_scriptpubkey_op_return_from_bytes (C := example_crypto)
            (repeat 7 80) 0 (Some (repeat 0 83)) 83) = WALLY_OK /\
  written_of (wally_scriptpubkey_op_return_from_bytes (C := example_crypto)
                (repeat 7 80) 0 (Some (repeat 0 83)) 83) <= 83 /\
  83 <= blen (repeat 0 83) /\
  script_of (wally_scriptpubkey_op_return_from_bytes (C := example_crypto)
               (repeat 7 80) 0 (Some (repeat 0 83)) 83)
  = OP_RETURN :: push_encoding (repeat 7 80).
Proof.
  assert (H1 : ret_of (wally_scriptpubkey_op_return_from_bytes
                         (C := example_crypto) (repeat 7 80) 0
                         (Some (repeat 0 83)) 83) = WALLY_OK)
    by (vm_compute; reflexivity).
  assert (H2 : written_of (wally_scriptpubkey_op_return_from_bytes
                             (C := example_crypto) (repeat 7 80) 0
                             (Some (repeat 0 83)) 83) <= 83)
    by (vm_compute; discriminate).
  assert (H3 : 83 <= blen (repeat 0 83)) by (vm_compute; discriminate).
  repeat (split; [assumption |]).
  exact (proj1 (proj2 (proj2
           (op_return_builder_classified (C := example_crypto) (repeat 7 80) 0
              (repeat 0 83) 83 H1 H2 H3)))).
Defined.

Lemma multisig_builder_classified_witness :
  ret_of (wally_scriptpubkey_multisig_from_bytes (repeat 3 33 ++ repeat 2 33) 1 WALLY_SCRIPT_MULTISIG_SORTED
            (Some (repeat 0 71)) 71) = WALLY_OK /\
  written_of (wally_scriptpubkey_multisig_from_bytes (repeat 3 33 ++ repeat 2 33) 1 WALLY_SCRIPT_MULTISIG_SORTED
                (Some (repeat 0 71)) 71) <= 71 /\
  71 <= blen (repeat 0 71) /\
  wally_scriptpubkey_get_type
    (Some (script_of (wally_scriptpubkey_multisig_from_bytes (repeat 3 33 ++ repeat 2 33) 1
                        WALLY_SCRIPT_MULTISIG_SORTED (Some (repeat 0 71)) 71)))
  = (WALLY_OK, Multisig).
Proof.
  assert (H1 : ret_of (wally_scriptpubkey_multisig_from_bytes (repeat 3 33 ++ repeat 2 33) 1
                         WALLY_SCRIPT_MULTISIG_SORTED (Some (repeat 0 71)) 71)
               = WALLY_OK) by (vm_compute; reflexivity).
  assert (H2 : written_of (wally_scriptpubkey_multisig_from_bytes (repeat 3 33 ++ repeat 2 33) 1
                             WALLY_SCRIPT_MULTISIG_SORTED
                             (Some (repeat 0 71)) 71) <= 71)
    by (vm_compute; discriminate).
  assert (H3 : 71 <= blen (repeat 0 71)) by (vm_compute; discriminate).
  repeat (split; [assumption |]).
  exact (proj2 (proj2 (proj2 (proj2 (proj2 (proj2
           (multisig_builder_classified (repeat 3 33 ++ repeat 2 33) 1 WALLY_SCRIPT_MULTISIG_SORTED
              (repeat 0 71) 71 H1 H2 H3))))))).
Defined.

Lemma csv_2of2_then_1_builder_roundtrip_witness :
  ret_of (wally_scriptpubkey_csv_2of2_then_1_from_bytes
            (repeat 2 33 ++ repeat 3 33) 40000 0 (Some (repeat 0 81)) 81)
  = WALLY_OK /\
  written_of (wally_scriptpubkey_csv_2of2_then_1_from_bytes
                (repeat 2 33 ++ repeat 3 33) 40000 0 (Some (repeat 0 81)) 81)
  <= 81 /\
  81 <= blen (repeat 0 81) /\
  wally_scriptpubkey_csv_blocks_from_csv_2of2_then_1
    (Some (script_of (wally_scriptpubkey_csv_2of2_then_1_from_bytes
                        (repeat 2 33 ++ repeat 3 33) 40000 0
                        (Some (repeat 0 81)) 81)))
  = (WALLY_OK, 40000).
Proof.
  assert (H1 : ret_of (wally_scriptpubkey_csv_2of2_then_1_from_bytes
                         (repeat 2 33 ++ repeat 3 33) 40000 0
                         (Some (repeat 0 81)) 81) = WALLY_OK)
    by (vm_compute; reflexivity).
  assert (H2 : written_of (wally_scriptpubkey_csv_2of2_then_1_from_bytes
                             (repeat 2 33 ++ repeat 3 33) 40000 0
                             (Some (repeat 0 81)) 81) <= 81)
    by (vm_compute; discriminate).
  assert (H3 : 81 <= blen (repeat 0 81)) by (vm_compute; discriminate).
  repeat (split; [assumption |]).
  exact (proj2 (proj2 (proj2
           (csv_2of2_then_1_builder_roundtrip (repeat 2 33 ++ repeat 3 33)
              40000 0 (repeat 0 81) 81 H1 H2 H3)))).
Defined.

Lemma csv_2of2_then_1_opt_builder_roundtrip_witness :
  ret_of (wally_scriptpubkey_csv_2of2_then_1_from_bytes_opt
            (repeat 2 33 ++ repeat 3 33) 17 0 (Some (repeat 0 76)) 76)
  = WALLY_OK /\
  written_of (wally_scriptpubkey_csv_2of2_then_1_from_bytes_opt
                (repeat 2 33 ++ repeat 3 33) 17 0 (Some (repeat 0 76)) 76)
  <= 76 /\
  76 <= blen (repeat 0 76) /\
  wally_scriptpubkey_get_type
    (Some (script_of (wally_scriptpubkey_csv_2of2_then_1_from_bytes_opt
                        (repeat 2 33 ++ repeat 3 33) 17 0
                        (Some (repeat 0 76)) 76)))
  = (WALLY_OK, Csv2of2Then1Opt).
Proof.
  assert (H1 : ret_of (wally_scriptpubkey_csv_2of2_then_1_from_bytes_opt
                         (repeat 2 33 ++ repeat 3 33) 17 0
                         (Some (repeat 0 76)) 76) = WALLY_OK)
    by (vm_compute; reflexivity).
  assert (H2 : written_of (wally_scriptpubkey_csv_2of2_then_1_from_bytes_opt
                             (repeat 2 33 ++ repeat 3 33) 17 0
                             (Some (repeat 0 76)) 76) <= 76)
    by (vm_compute; discriminate).
  assert (H3 : 76 <= blen (repeat 0 76)) by (vm_compute; discriminate).
  repeat (split; [assumption |]).
  exact (proj1 (proj2 (proj2
           (csv_2of2_then_1_opt_builder_roundtrip
              (repeat 2 33 ++ repeat 3 33) 17 0 (repeat 0 76) 76
              H1 H2 H3)))).
Defined.

Lemma pegout_script_built_witness :
  ret_of (wally_elements_pegout_script_from_bytes (C := example_crypto)
            (repeat 1 32) [2; 3] (repeat 4 33) (repeat 5 100) 0
            (Some (repeat 0 200)) 200) = WALLY_OK /\
  written_of (wally_elements_pegout_script_from_bytes (C := example_crypto)
                (repeat 1 32) [2; 3] (repeat 4 33) (repeat 5 100) 0
                (Some (repeat 0 200)) 200) <= 200 /\
  200 <= blen (repeat 0 200) /\
  script_of (wally_elements_pegout_script_from_bytes (C := example_crypto)
               (repeat 1 32) [2; 3] (repeat 4 33) (repeat 5 100) 0
               (Some (repeat 0 200)) 200)
  = pegout_script (repeat 1 32) [2; 3] (repeat 4 33) (repeat 5 100).
Proof.
  assert (H1 : ret_of (wally_elements_pegout_script_from_bytes
                         (C := example_crypto) (repeat 1 32) [2; 3]
                         (repeat 4 33) (repeat 5 100) 0
                         (Some (repeat 0 200)) 200) = WALLY_OK)
    by (vm_compute; reflexivity).
  assert (H2 : written_of (wally_elements_pegout_script_from_bytes
                             (C := example_crypto) (repeat 1 32) [2; 3]
                             (repeat 4 33) (repeat 5 100) 0
                             (Some (repeat 0 200)) 200) <= 200)
    by (vm_compute; discriminate).
  assert (H3 : 200 <= blen (repeat 0 200)) by (vm_compute; discriminate).
  repeat (split; [assumption |]).
  exact (proj1 (proj2 (proj2 (proj2
           (pegout_script_built (C := example_crypto) (repeat 1 32) [2; 3]
              (repeat 4 33) (repeat 5 100) 0 (repeat 0 200) 200
              H1 H2 H3))))).
Defined.

Lemma pegout_undersized_buffer_witness :
  blen (repeat 1 32) = SHA256_LEN /\ blen [2; 3] <> 0 /\
  blen (repeat 4 33) = EC_PUBLIC_KEY_LEN /\ blen (repeat 5 100) <> 0 /\
  0 < 34 /\
  ret_of (wally_elements_pegout_script_from_bytes (C := example_crypto)
            (repeat 1 32) [2; 3] (repeat 4 33) (repeat 5 100) 0
            (Some (repeat 0 200)) 34) = WALLY_EINVAL /\
  written_of (wally_elements_pegout_script_from_bytes (C := example_crypto)
                (repeat 1 32) [2; 3] (repeat 4 33) (repeat 5 100) 0
                (Some (repeat 0 200)) 34) = 34.
Proof.
  assert (H1 : blen (repeat 1 32) = SHA256_LEN) by reflexivity.
  assert (H2 : blen [2; 3] <> 0) by discriminate.
  assert (H3 : blen (repeat 4 33) = EC_PUBLIC_KEY_LEN) by reflexivity.
  assert (H4 : blen (repeat 5 100) <> 0) by discriminate.
  assert (H5 : 0 < 34) by lia.
  repeat (split; [assumption |]).
  apply (pegout_undersized_buffer (C := example_crypto) (repeat 1 32) [2; 3]
           (repeat 4 33) (repeat 5 100) (repeat 0 200) 34 H1 H2 H3 H4 H5).
  right. left. reflexivity.
Defined.

Lemma scriptsig_p2pkh_from_der_built_witness :
  150 <= blen (repeat 0 150) /\
  script_of (wally_scriptsig_p2pkh_from_der (C := example_crypto)
               (repeat 2 33) (repeat 3 71) (Some (repeat 0 150)) 150)
  = push_encoding (repeat 3 71) ++ push_encoding (repeat 2 33).
Proof.
  assert (H : 150 <= blen (repeat 0 150)) by (vm_compute; discriminate).
  split; [exact H |].
  pose proof (scriptsig_p2pkh_from_der_built (C := example_crypto)
                (repeat 2 33) (repeat 3 71) (repeat 0 150) 150 H) as Hb.
  cbv zeta in Hb.
  change (is_pk_len (blen (repeat 2 33)) && (1 <=? blen (repeat 3 71)) &&
          (blen (repeat 3 71) <=? EC_SIGNATURE_DER_MAX_LEN + 1) &&
          (script_get_push_size (blen (repeat 3 71))
           + script_get_push_size (blen (repeat 2 33)) <=? 150))
    with true in Hb.
  exact (proj1 (proj2 (proj2 Hb))).
Defined.

Lemma scriptsig_multisig_built_witness :
  ret_of (wally_scriptsig_multisig_from_bytes (C := example_crypto)
            [82; 1; 2] (repeat 7 128) [1; 1] 0 (Some (repeat 0 200)) 200)
  = WALLY_OK /\
  written_of (wally_scriptsig_multisig_from_bytes (C := example_crypto)
                [82; 1; 2] (repeat 7 128) [1; 1] 0 (Some (repeat 0 200)) 200)
  <= 200 /\
  200 <= blen (repeat 0 200) /\
  exists ders,
    multisig_ders (C := example_crypto)
      (elements (Z.to_nat (blen (repeat 7 128) / EC_SIGNATURE_LEN)) 64
         (repeat 7 128)) [1; 1] = inr ders /\
    script_of (wally_scriptsig_multisig_from_bytes (C := example_crypto)
                 [82; 1; 2] (repeat 7 128) [1; 1] 0 (Some (repeat 0 200)) 200)
    = multisig_scriptsig ders [82; 1; 2].
Proof.
  assert (H1 : ret_of (wally_scriptsig_multisig_from_bytes
                         (C := example_crypto) [82; 1; 2] (repeat 7 128)
                         [1; 1] 0 (Some (repeat 0 200)) 200) = WALLY_OK)
    by (vm_compute; reflexivity).
  assert (H2 : written_of (wally_scriptsig_multisig_from_bytes
                             (C := example_crypto) [82; 1; 2] (repeat 7 128)
                             [1; 1] 0 (Some (repeat 0 200)) 200) <= 200)
    by (vm_compute; discriminate).
  assert (H3 : 200 <= blen (repeat 0 200)) by (vm_compute; discriminate).
  repeat (split; [assumption |]).
  destruct (scriptsig_multisig_built (C := example_crypto) [82; 1; 2]
              (repeat 7 128) [1; 1] 0 (repeat 0 200) 200 H1 H2 H3)
    as (ders & Hd & _ & _ & _ & _ & Hs).
  exists ders. split; [exact Hd | exact Hs].
Defined.

Lemma witness_multisig_items_witness :
  script_is_op_n (byte_at [82; 1; 2] 0) false = Some 2 /\ 2 <= 15 /\
  wally_malloc (witness_stack_ops := example_witness_stack)
    (1 + (1 + DER_AND_HASH_MAX_LEN) * 2 + script_get_push_size (blen [82; 1; 2]))
  = true /\
  blen [82; 1; 2] < 2 ^ 32 /\
  exists ders,
    wally_witness_multisig_from_bytes
      (C := example_crypto) (W := example_witness_stack)
      [82; 1; 2] (repeat 7 128) [1; 1] 0
    = Some (witness_of_items (W := example_witness_stack) 2
              ([] :: ders ++ [[82; 1; 2]])).
Proof.
  assert (H1 : script_is_op_n (byte_at [82; 1; 2] 0) false = Some 2)
    by reflexivity.
  assert (H2 : 2 <= 15) by lia.
  assert (H3 : wally_malloc (witness_stack_ops := example_witness_stack)
                 (1 + (1 + DER_AND_HASH_MAX_LEN) * 2
                  + script_get_push_size (blen [82; 1; 2])) = true)
    by reflexivity.
  assert (H4 : blen [82; 1; 2] < 2 ^ 32) by (vm_compute; reflexivity).
  repeat (split; [assumption |]).
  destruct (witness_multisig_items (C := example_crypto)
              (W := example_witness_stack) [82; 1; 2] (repeat 7 128) [1; 1]
              0 2 H1 H2 H3 H4) as (ders & _ & Hw);
    [vm_compute; reflexivity | vm_compute; discriminate |].
  exists ders. exact Hw.
Defined.

Lemma wally_varint_to_bytes_roundtrip_witness :
  0 <= 70000 < 2 ^ 64 /\ 9 <= blen (repeat 0 9) /\
  varint_from_bytes
    (mem_of (wally_varint_to_bytes 70000 (Some (repeat 0 9)) 9))
  = (5, 70000).
Proof.
  assert (H1 : 0 <= 70000 < 2 ^ 64) by lia.
  assert (H2 : 9 <= blen (repeat 0 9)) by (vm_compute; discriminate).
  repeat (split; [assumption |]).
  pose proof (wally_varint_to_bytes_roundtrip 70000 (repeat 0 9) 9 H1 H2) as Hb.
  cbv zeta in Hb.
  change (snd (wally_varint_get_length 70000) <=? 9) with true in Hb.
  exact (proj1 (proj2 (proj2 Hb))).
Defined.

Lemma varbuff_to_bytes_roundtrip_witness :
  blen (repeat 7 300) < 2 ^ 64 /\
  varint_from_bytes (snd (varbuff_to_bytes (repeat 7 300)) ++ [1; 2])
  = (varint_get_length (blen (repeat 7 300)), blen (repeat 7 300)).
Proof.
  assert (H : blen (repeat 7 300) < 2 ^ 64) by (vm_compute; reflexivity).
  split; [exact H |].
  exact (proj1 (proj2 (proj2
           (varbuff_to_bytes_roundtrip (repeat 7 300) [1; 2] H)))).
Defined.

Lemma short_buffer_left_untouched_witness :
  0 <= 10 /\
  In (wally_scriptpubkey_p2pkh_from_bytes (C := example_crypto)
        (repeat 7 20) 0 (Some (repeat 9 10)) 10)
     [wally_script_push_from_bytes (C := example_crypto) (repeat 7 20) 0
        (Some (repeat 9 10)) 10;
      wally_scriptpubkey_p2pkh_from_bytes (C := example_crypto) (repeat 7 20)
        0 (Some (repeat 9 10)) 10;
      wally_scriptpubkey_p2sh_from_bytes (C := example_crypto) (repeat 7 20)
        0 (Some (repeat 9 10)) 10;
      wally_scriptpubkey_multisig_from_bytes (repeat 7 20) 1 0 (Some (repeat 9 10)) 10;
      wally_scriptpubkey_csv_2of2_then_1_from_bytes (repeat 7 20) 144 0
        (Some (repeat 9 10)) 10;
      wally_scriptpubkey_csv_2of2_then_1_from_bytes_opt (repeat 7 20) 144 0
        (Some (repeat 9 10)) 10;
      wally_scriptpubkey_p2tr_from_bytes (C := example_crypto) (repeat 7 20)
        0 (Some (repeat 9 10)) 10;
      wally_scriptsig_multisig_from_bytes (C := example_crypto) [82]
        (repeat 7 20) [1] 0 (Some (repeat 9 10)) 10] /\
  10 < written_of (wally_scriptpubkey_p2pkh_from_bytes (C := example_crypto)
                     (repeat 7 20) 0 (Some (repeat 9 10)) 10) /\
  mem_of (wally_scriptpubkey_p2pkh_from_bytes (C := example_crypto)
            (repeat 7 20) 0 (Some (repeat 9 10)) 10)
  = repeat 9 10.
Proof.
  assert (H1 : 0 <= 10) by lia.
  assert (H2 : In (wally_scriptpubkey_p2pkh_from_bytes (C := example_crypto)
                     (repeat 7 20) 0 (Some (repeat 9 10)) 10)
     [wally_script_push_from_bytes (C := example_crypto) (repeat 7 20) 0
        (Some (repeat 9 10)) 10;
      wally_scriptpubkey_p2pkh_from_bytes (C := example_crypto) (repeat 7 20)
        0 (Some (repeat 9 10)) 10;
      wally_scriptpubkey_p2sh_from_bytes (C := example_crypto) (repeat 7 20)
        0 (Some (repeat 9 10)) 10;
      wally_scriptpubkey_multisig_from_bytes (repeat 7 20) 1 0 (Some (repeat 9 10)) 10;
      wally_scriptpubkey_csv_2of2_then_1_from_bytes (repeat 7 20) 144 0
        (Some (repeat 9 10)) 10;
      wally_scriptpubkey_csv_2of2_then_1_from_bytes_opt (repeat 7 20) 144 0
        (Some (repeat 9 10)) 10;
      wally_scriptpubkey_p2tr_from_bytes (C := example_crypto) (repeat 7 20)
        0 (Some (repeat 9 10)) 10;
      wally_scriptsig_multisig_from_bytes (C := example_crypto) [82]
        (repeat 7 20) [1] 0 (Some (repeat 9 10)) 10])
    by (right; left; reflexivity).
  assert (H3 : 10 < written_of (wally_scriptpubkey_p2pkh_from_bytes
                                  (C := example_crypto) (repeat 7 20) 0
                                  (Some (repeat 9 10)) 10))
    by (vm_compute; reflexivity).
  repeat (split; [assumption |]).
  exact (proj2 (short_buffer_left_untouched (C := example_crypto)
                  (repeat 7 20) [82] [1] 0 1 144 (repeat 9 10) 10 _
                  H1 H2 H3)).
Defined.

Lemma short_buffer_opcode_written_witness :
  0 <= 5 /\
  mem_of (wally_scriptpubkey_op_return_from_bytes (C := example_crypto)
            (repeat 7 20) 0 (Some (repeat 9 5)) 5)
  = OP_RETURN :: repeat 9 4.
Proof.
  assert (H : 0 <= 5) by lia.
  split; [exact H |].
  destruct (short_buffer_opcode_written (C := example_crypto) (repeat 7 20)
              0 0 (repeat 9 5) 5 H) as (Hop & _).
  destruct Hop as (_ & _ & Hm); [vm_compute; reflexivity |].
  rewrite Hm. reflexivity.
Defined.

(** ** The keys the peg-in rewriter tweaks *)

Lemma key_push_offsets_nil (fuel : nat) (q : Z) :
  key_push_offsets fuel q [] = [].
Proof. now destruct fuel. Qed.

Lemma advance_advance (a b : Z) (p : list Z) :
  0 <= a -> 0 <= b -> advance a (advance b p) = advance (b + a) p.
Proof.
  intros Ha Hb. unfold advance. rewrite skipn_skipn. f_equal. lia.
Qed.

Lemma advance_all (p : list Z) : advance (blen p) p = [].
Proof. unfold advance, blen. rewrite Nat2Z.id. apply skipn_all. Qed.

Section PeginTweaks.
Context {C : crypto_ops} {E : secp256k1_ops}.
Hypothesis Hser : serialize_is_compressed.

(** The key branch passes only by storing the tweaked push at [q]. *)
Lemma pegin_tweak_key_push (p script mem : list Z) (q bytes_len : Z) mem1 :
  34 <= bytes_len ->
  pegin_tweak_key p script mem q bytes_len = inr mem1 ->
  exists push,
    pegin_tweaked_push (firstn 33 (advance 1 p)) script = Some push /\
    blen push = 34 /\ mem1 = store_at q push mem.
Proof.
  intros Hlen. unfold pegin_tweak_key, pegin_tweaked_push.
  change (Z.to_nat EC_PUBLIC_KEY_LEN) with 33%nat.
  destruct (pubkey_parse _) as [pk |]; [| discriminate].
  destruct (wally_hmac_sha256 _ _) as [r tw].
  destruct (negb (r =? WALLY_OK)); [discriminate |].
  destruct (pubkey_tweak_add _ _) as [pkt |]; [| discriminate].
  destruct (pubkey_serialize pkt) as [ser |] eqn:Hs; [| discriminate].
  apply Hser in Hs. unfold EC_PUBLIC_KEY_LEN in Hs.
  rewrite script_push_at_fits
    by (rewrite Hs; change (script_get_push_size 33) with 34; lia).
  change (negb (WALLY_OK =? WALLY_OK)) with false. cbv iota.
  destruct (pubkey_create _); [| discriminate].
  destruct (pubkey_negate _); [| discriminate].
  destruct (pubkey_combine _ _); [| discriminate].
  destruct (pubkey_same _ _); [| discriminate].
  intros [= <-]. exists (push_encoding ser). repeat split.
  now rewrite blen_push_encoding, Hs.
Qed.

Lemma pegin_loop_tweaks (fuel : nat) :
  forall p script mem q found mem',
    bytes_ok p -> 1 <= blen p -> 0 <= q -> q + blen p <= blen mem ->
    pegin_loop fuel p script 0 mem q found = Some (WALLY_OK, mem') ->
    forall off, In off (pending_offsets fuel q p found) ->
      q <= off /\ off + 34 <= q + blen p /\
      exists push,
        pegin_tweaked_push (firstn 33 (advance (off - q + 1) p)) script
        = Some push /\
        blen push = 34 /\
        forall j, 0 <= j < 34 -> byte_at mem' (off + j) = byte_at push j.
Proof.
  induction fuel as [| f IH];
    intros p script mem q found mem' Hok Hp1 Hq Hfit Hrun; [discriminate |].
  cbn [pegin_loop] in Hrun.
  (* the offsets pending after a turn that consumed [n] bytes *)
  assert (Hstep : forall n mem1 found1 off,
             1 <= n <= blen p ->
             blen mem1 = blen mem ->
             (if blen p - n =? 0 then Some (WALLY_OK, mem1)
              else pegin_loop f (advance n p) script 0 mem1 (q + n) found1)
             = Some (WALLY_OK, mem') ->
             In off (pending_offsets f (q + n) (advance n p) found1) ->
             q <= off /\ off + 34 <= q + blen p /\
             exists push,
               pegin_tweaked_push (firstn 33 (advance (off - q + 1) p)) script
               = Some push /\
               blen push = 34 /\
               forall j, 0 <= j < 34 ->
                         byte_at mem' (off + j) = byte_at push j).
  { intros n mem1 found1 off Hn Hlen1 Hnext Hin.
    destruct (Z.eqb_spec (blen p - n) 0) as [Hend | Hmore].
    - replace n with (blen p) in Hin by lia.
      rewrite advance_all in Hin. unfold pending_offsets in Hin.
      rewrite key_push_offsets_nil in Hin. now destruct found1.
    - pose proof (blen_nonneg (advance n p)).
      pose proof (blen_advance n p ltac:(lia)) as Hba.
      destruct (IH (advance n p) script mem1 (q + n) found1 mem'
                  (bytes_ok_advance n p Hok) ltac:(lia)
                  ltac:(lia) ltac:(lia) Hnext off Hin)
        as (Hge & Hle & push & Hpush & Hbl & Hbytes).
      split; [lia |]. split; [lia |].
      exists push. repeat split; auto.
      rewrite <- Hpush. do 2 f_equal.
      rewrite advance_advance by lia. f_equal. lia. }
  (* the bytes a turn stored below [q + n] stay *)
  assert (Hkeep : forall n mem1 found1,
             1 <= n <= blen p ->
             blen mem1 = blen mem ->
             (if blen p - n =? 0 then Some (WALLY_OK, mem1)
              else pegin_loop f (advance n p) script 0 mem1 (q + n) found1)
             = Some (WALLY_OK, mem') ->
             forall i, 0 <= i < q + n -> byte_at mem' i = byte_at mem1 i).
  { intros n mem1 found1 Hn Hlen1 Hnext i Hi.
    destruct (Z.eqb_spec (blen p - n) 0) as [Hend | Hmore].
    - now injection Hnext as <-.
    - pose proof (blen_advance n p ltac:(lia)) as Hba.
      apply (pegin_loop_frame Hser) in Hnext;
        [| now apply bytes_ok_advance | lia | lia | lia].
      destruct Hnext as (_ & Hlo & _). now apply Hlo. }
  clear IH. intros off Hin.
  destruct (get_push_size p false) as [s |] eqn:Hs.
  - destruct (get_push_size_bounds p s Hok Hs) as (h & Hh & Hh1 & Hs0 & Hhs).
    rewrite Hh in Hrun.
    replace (blen p <? s + h) with false in Hrun
      by (symmetry; apply Z.ltb_ge; lia).
    assert (Hoffs : key_push_offsets (S f) q p =
              let rest := key_push_offsets f (q + (s + h)) (advance (s + h) p) in
              if (h =? 1) && (s =? EC_PUBLIC_KEY_LEN) then q :: rest else rest).
    { cbn [key_push_offsets].
      replace (blen p =? 0) with false by (symmetry; apply Z.eqb_neq; lia).
      now rewrite Hh, Hs. }
    destruct ((h =? 1) && (s =? EC_PUBLIC_KEY_LEN) && negb found) eqn:Hkey.
    + apply andb_prop in Hkey. destruct Hkey as [Hkey Hnf].
      rewrite Hkey in Hoffs. apply andb_prop in Hkey. destruct Hkey as [Hh' Hs'].
      apply Z.eqb_eq in Hh', Hs'. subst h s.
      destruct found; [discriminate |]. unfold EC_PUBLIC_KEY_LEN in *.
      destruct (pegin_tweak_key p script mem q (blen p)) as [[r m] | mem1] eqn:Htw.
      * apply pegin_tweak_key_inl in Htw. congruence.
      * apply pegin_tweak_key_push in Htw; [| lia].
        destruct Htw as (push & Hpush & Hbl & ->).
        unfold pending_offsets in Hin. rewrite Hoffs in Hin. cbv zeta in Hin.
        destruct Hin as [<- | Hin].
        -- split; [lia |]. split; [lia |].
           exists push. rewrite Z.sub_diag. repeat split; auto.
           intros j Hj.
           rewrite (Hkeep (33 + 1) _ false ltac:(lia) (blen_store_at _ _ _)
                      Hrun) by lia.
           rewrite byte_at_store_at_in by lia. f_equal. lia.
        -- apply (Hstep (33 + 1) (store_at q push mem) false off);
             auto; try lia. apply blen_store_at.
    + apply (Hstep (s + h) (store_at q (firstn (Z.to_nat (s + h)) p) mem)
               found off); auto; try lia.
      * apply blen_store_at.
      * unfold pending_offsets in *. destruct found; [exact Hin |].
        rewrite Hoffs in Hin. cbv zeta in Hin.
        rewrite andb_true_r in Hkey. rewrite Hkey in Hin. exact Hin.
  - assert (Hoffs : key_push_offsets (S f) q p =
              if byte_at p 0 =? OP_ELSE then []
              else key_push_offsets f (q + 1) (advance 1 p)).
    { cbn [key_push_offsets].
      replace (blen p =? 0) with false by (symmetry; apply Z.eqb_neq; lia).
      rewrite Hs. now destruct (get_push_size p true). }
    change (0 =? 0) with true in Hrun. rewrite andb_true_r in Hrun.
    apply (Hstep 1 (store_at q [byte_at p 0] mem)
             (if byte_at p 0 =? OP_ELSE then true else found) off);
      auto; try lia.
    + apply blen_store_at.
    + unfold pending_offsets in *. destruct found.
      * now destruct (byte_at p 0 =? OP_ELSE).
      * rewrite Hoffs in Hin. now destruct (byte_at p 0 =? OP_ELSE).
Qed.

(** X29: when the peg-in rewriter succeeds on a redeem script of bytes, every
    direct 33-byte key push before the first OP_ELSE opcode has been
    replaced, at the same offset, by the push of the key tweaked with
    HMAC-SHA256(key, contract script): the 34 bytes found there in the
    output are that push, and the tweak of each of those keys succeeded. *)
Theorem pegin_rewrite_tweaks_keys (redeem_script script : list Z) (flags : Z)
  (mem : list Z) (len w : Z) (out : option (list Z)) :
  bytesb redeem_script = true -> len <= blen mem ->
  wally_elements_pegin_contract_script_from_bytes
    redeem_script script flags (Some mem) len = Some (WALLY_OK, w, out) ->
  forall off,
    In off (key_push_offsets (length redeem_script) 0 redeem_script) ->
    0 <= off /\ off + 34 <= blen redeem_script /\
    exists push,
      pegin_tweaked_push (firstn 33 (advance (off + 1) redeem_script)) script
      = Some push /\
      firstn 34 (advance off (mem_of (WALLY_OK, w, out))) = push.
Proof.
  intros Hb Hlen. unfold wally_elements_pegin_contract_script_from_bytes.
  pose proof (blen_nonneg redeem_script) as Hr0.
  destruct (Z.eqb_spec (blen redeem_script) 0) as [| Hne]; [discriminate |].
  destruct (blen script =? 0); [discriminate |].
  destruct (Z.eqb_spec flags 0) as [-> | ]; [| discriminate].
  destruct (Z.eqb_spec len (blen redeem_script)) as [-> | ]; [| discriminate].
  cbn [negb orb].
  destruct (pegin_loop _ _ _ _ _ _ _) as [[r m] |] eqn:Hrun; [| discriminate].
  destruct (Z.eqb_spec r WALLY_OK) as [-> | ]; [| intros [= ? _ _]; congruence].
  intros [= <- <-] off Hin.
  pose proof (pegin_loop_frame Hser (length redeem_script) redeem_script
                script mem 0 false m (bytesb_ok _ Hb)
                ltac:(lia) ltac:(lia) ltac:(lia) Hrun) as (Hlm & _ & _).
  destruct (pegin_loop_tweaks (length redeem_script) redeem_script script
              mem 0 false m (bytesb_ok _ Hb)
              ltac:(lia) ltac:(lia) ltac:(lia) Hrun off Hin)
    as (Hge & Hle & push & Hpush & Hbl & Hbytes).
  rewrite Z.sub_0_r in Hpush. split; [lia |]. split; [lia |].
  exists push. split; [exact Hpush |].
  unfold mem_of. cbn [snd].
  apply (nth_ext _ _ 0 0).
  - rewrite length_firstn. unfold advance. rewrite length_skipn.
    unfold blen in *. lia.
  - intros i Hi. rewrite length_firstn in Hi.
    rewrite nth_firstn.
    replace (i <? 34)%nat with true by (symmetry; apply Nat.ltb_lt; lia).
    specialize (Hbytes (Z.of_nat i) ltac:(lia)).
    unfold byte_at in Hbytes. rewrite Nat2Z.id in Hbytes. rewrite <- Hbytes.
    unfold advance. rewrite nth_skipn. f_equal. lia.
Qed.
End PeginTweaks.

Lemma pegin_rewrite_tweaks_keys_witness :
  serialize_is_compressed (E := example_secp256k1) /\
  bytesb example_redeem_script = true /\
  71 <= blen (repeat 0xee 71) /\
  exists w out,
    wally_elements_pegin_contract_script_from_bytes
      (C := example_crypto) (E := example_secp256k1)
      example_redeem_script [1; 2; 3] 0 (Some (repeat 0xee 71)) 71
    = Some (WALLY_OK, w, out) /\
    exists push,
      pegin_tweaked_push (C := example_crypto) (E := example_secp256k1)
        (firstn 33 (advance (0 + 1) example_redeem_script)) [1; 2; 3]
      = Some push /\
      firstn 34 (advance 0 (mem_of (WALLY_OK, w, out))) = push.
Proof.
  assert (H1 : serialize_is_compressed (E := example_secp256k1))
    by (intros pk s [= <-]; reflexivity).
  assert (H2 : bytesb example_redeem_script = true) by reflexivity.
  assert (H3 : 71 <= blen (repeat 0xee 71)) by (vm_compute; discriminate).
  repeat (split; [assumption |]).
  assert (Hrun : exists out,
             wally_elements_pegin_contract_script_from_bytes
               (C := example_crypto) (E := example_secp256k1)
               example_redeem_script [1; 2; 3] 0 (Some (repeat 0xee 71)) 71
             = Some (WALLY_OK, 71, out))
    by (eexists; vm_compute; reflexivity).
  destruct Hrun as (out & Hrun).
  exists 71, out. split; [exact Hrun |].
  assert (Hin : In 0 (key_push_offsets (length example_redeem_script) 0
                        example_redeem_script))
    by (vm_compute; left; reflexivity).
  exact (proj2 (proj2
           (pegin_rewrite_tweaks_keys (C := example_crypto)
              (E := example_secp256k1) H1 example_redeem_script [1; 2; 3] 0
              (repeat 0xee 71) 71 71 out H2 H3 Hrun 0 Hin))).
Defined.

(** ** No write past the buffer *)

Lemma same_beyond_refl (mem : list Z) (len : Z) : same_beyond mem mem len.
Proof. split; auto. Qed.

Lemma same_beyond_store (off : Z) (data m mem : list Z) (len : Z) :
  0 <= off -> off + blen data <= len ->
  same_beyond m mem len -> same_beyond (store_at off data m) mem len.
Proof.
  intros Hoff Hfit [Hl Hb]. split.
  - now rewrite blen_store_at.
  - intros i Hi. pose proof (blen_nonneg data).
    rewrite byte_at_store_at_out by lia. now apply Hb.
Qed.

Section WithinBuffer.
Context {C : crypto_ops}.

(** The push primitive writes inside the capacity it is given. *)
Lemma script_push_at_within (bytes : list Z) (flags : Z) (m mem : list Z)
  (off plen len ret w : Z) (m' : list Z) :
  script_push_at bytes flags m off plen = (ret, w, m') ->
  0 <= off -> off + plen <= len ->
  same_beyond m mem len -> same_beyond m' mem len.
Proof.
  intros Hp Hoff Hfit Hm.
  destruct (Z.eq_dec ret WALLY_OK) as [-> | Hne].
  - apply script_push_at_ok in Hp. destruct Hp as (_ & _ & -> & ->).
    destruct (Z.ltb_spec plen
                (script_get_push_size (blen (push_payload bytes flags))));
      [exact Hm |].
    apply same_beyond_store; [lia | rewrite blen_push_encoding; lia | exact Hm].
  - apply script_push_at_not_ok in Hp; [| exact Hne].
    destruct Hp as [_ ->]. exact Hm.
Qed.

Lemma multisig_push_ders_within (ders : list (list Z)) :
  forall m mem p plen len ret m' p' plen',
    multisig_push_ders ders m p plen = (ret, m', p', plen') ->
    0 <= p -> p + plen <= len ->
    same_beyond m mem len ->
    same_beyond m' mem len /\ 0 <= p' /\ p' + plen' <= len.
Proof.
  induction ders as [| d ds IH];
    intros m mem p plen len ret m' p' plen' Hrun Hp Hfit Hm;
    cbn [multisig_push_ders] in Hrun.
  - injection Hrun as <- <- <- <-. auto.
  - destruct (script_push_at d 0 m p plen) as [[r w] m1] eqn:Hpush.
    pose proof (script_push_at_within _ _ _ _ _ _ _ _ _ _ Hpush Hp Hfit Hm)
      as Hm1.
    destruct (Z.eqb_spec r WALLY_OK) as [-> | Hne]; cbn [negb] in Hrun.
    + apply script_push_at_ok in Hpush. destruct Hpush as (_ & _ & Hw & _).
      change (push_payload d 0) with d in Hw.
      pose proof (script_get_push_size_pos _ (blen_nonneg d)).
      apply (IH _ _ _ _ _ _ _ _ _ Hrun); [lia | lia | exact Hm1].
    + injection Hrun as <- <- <- <-. auto.
Qed.

Lemma pegout_script_push_within (bytes : list Z) (st : pegout_state)
  (mem : list Z) (len : Z) :
  0 <= po_off st -> 0 <= po_bytes_written st ->
  po_off st + po_len st <= len ->
  same_beyond (po_mem st) mem len ->
  match pegout_script_push bytes st with
  | inl (_, _, m) => same_beyond m mem len
  | inr st' =>
      0 <= po_off st' /\ 0 <= po_bytes_written st' /\
      po_off st' + po_len st' <= len /\ same_beyond (po_mem st') mem len
  end.
Proof.
  intros Hoff Hbw Hfit Hm. unfold pegout_script_push.
  destruct (po_len st <? po_bytes_written st); [exact Hm |].
  destruct (script_push_at _ _ _ _ _) as [[ret w] m] eqn:Hp.
  assert (Hm' : same_beyond m mem len)
    by (apply (script_push_at_within _ _ _ _ _ _ len _ _ _ Hp);
        [lia | lia | exact Hm]).
  destruct (Z.eqb_spec ret WALLY_OK) as [-> | Hne]; cbn [negb];
    [| exact Hm'].
  apply script_push_at_ok in Hp. destruct Hp as (_ & _ & Hw & _).
  pose proof (script_get_push_size_pos _ (blen_nonneg (push_payload bytes 0))).
  cbn [po_off po_len po_bytes_written po_mem].
  split; [lia | split; [lia | split; [lia | exact Hm']]].
Qed.

Lemma scriptsig_p2pkh_from_der_within (pub_key sig mem : list Z) (len : Z) :
  same_beyond
    (mem_of (wally_scriptsig_p2pkh_from_der pub_key sig (Some mem) len))
    mem len.
Proof.
  unfold wally_scriptsig_p2pkh_from_der.
  destruct (_ || _); [apply same_beyond_refl |].
  destruct (Z.ltb_spec len (script_get_push_size (blen pub_key)
                            + script_get_push_size (blen sig)));
    [apply same_beyond_refl |].
  pose proof (script_get_push_size_pos _ (blen_nonneg pub_key)).
  pose proof (script_get_push_size_pos _ (blen_nonneg sig)).
  destruct (script_push_at sig 0 mem 0 len) as [[ret n] m1] eqn:Hp1.
  assert (Hm1 : same_beyond m1 mem len)
    by (apply (script_push_at_within _ _ _ _ _ _ len _ _ _ Hp1);
        [lia | lia | apply same_beyond_refl]).
  destruct (Z.eqb_spec ret WALLY_OK) as [-> | Hne]; [| exact Hm1].
  apply script_push_at_ok in Hp1. destruct Hp1 as (_ & _ & Hn & _).
  change (push_payload sig 0) with sig in Hn.
  destruct (script_push_at pub_key 0 m1 n (len - n)) as [[ret w] m2] eqn:Hp2.
  assert (Hm2 : same_beyond m2 mem len)
    by (apply (script_push_at_within _ _ _ _ _ _ len _ _ _ Hp2);
        [lia | lia | exact Hm1]).
  destruct (ret =? WALLY_OK); cbn [mem_of snd]; [exact Hm2 |].
  apply same_beyond_store; [lia | | exact Hm2].
  unfold blen. rewrite repeat_length. lia.
Qed.

Lemma multisig_script_blen (bytes : list Z) (threshold : Z) (sort : bool) :
  blen bytes mod 33 = 0 ->
  let n := blen bytes / 33 in
  let keys := elements (Z.to_nat n) 33 bytes in
  blen (multisig_script threshold n
          (if sort then qsort pubkey_compare keys else keys))
  = 3 + n * 34.
Proof.
  intros Hmod n keys.
  pose proof (blen_nonneg bytes) as H0.
  assert (Hn : 0 <= n) by (apply Z.div_pos; lia).
  assert (Hbl : length bytes = (Z.to_nat n * 33)%nat).
  { pose proof (Z.div_mod (blen bytes) 33 ltac:(lia)) as Hd. fold n in Hd.
    unfold blen in *. lia. }
  destruct (elements_sized 33 (Z.to_nat n) bytes Hbl) as (Hsz & _ & Hcnt).
  fold keys in Hsz, Hcnt.
  set (sorted := if sort then qsort pubkey_compare keys else keys).
  assert (Hperm : Permutation keys sorted).
  { subst sorted. destruct sort; [apply (qsort_perm 33) | reflexivity]. }
  assert (Hsz' : Forall (sized 33) sorted).
  { rewrite Forall_forall in *. intros z Hz. apply Hsz.
    now apply (Permutation_in z (Permutation_sym Hperm)). }
  assert (Hcnt' : n = Z.of_nat (length sorted)).
  { rewrite <- (Permutation_length Hperm), Hcnt. lia. }
  destruct (multisig_script_bare threshold sorted Hsz') as (_ & _ & Hlen).
  rewrite <- Hcnt' in Hlen. lia.
Qed.

Ltac unchanged := cbn [mem_of snd]; apply same_beyond_refl.
Ltac literal_len := unfold blen; cbn [length]; lia.

(** X30: no builder writes past the capacity it is given: after a call of
    the push primitive, of the P2PKH, OP_RETURN, P2SH, multisig, CSV (both
    templates), witness-program and taproot scriptPubkey builders, of the
    P2PKH (from a DER or a compact signature) and multisig scriptSig
    builders or of the peg-out builder on a buffer of capacity [len], the
    memory has its size and every byte at an offset of [len] or more is
    what it was, whatever the inputs and the return code. *)
Theorem builders_write_within_len
  (bytes script sighashes genesis mainchain sub_pubkey proof : list Z)
  (flags threshold csv_blocks version sighash : Z) (mem : list Z) (len : Z)
  (r : built) :
  0 <= len ->
  In r [wally_script_push_from_bytes bytes flags (Some mem) len;
        wally_scriptpubkey_p2pkh_from_bytes bytes flags (Some mem) len;
        wally_scriptsig_p2pkh_from_der sub_pubkey bytes (Some mem) len;
        wally_scriptsig_p2pkh_from_sig sub_pubkey bytes sighash (Some mem)
          len;
        wally_scriptpubkey_op_return_from_bytes bytes flags (Some mem) len;
        wally_scriptpubkey_p2sh_from_bytes bytes flags (Some mem) len;
        wally_scriptpubkey_multisig_from_bytes bytes threshold flags
          (Some mem) len;
        wally_scriptsig_multisig_from_bytes script bytes sighashes flags
          (Some mem) len;
        wally_scriptpubkey_csv_2of2_then_1_from_bytes bytes csv_blocks flags
          (Some mem) len;
        wally_scriptpubkey_csv_2of2_then_1_from_bytes_opt bytes csv_blocks
          flags (Some mem) len;
        wally_witness_program_from_bytes_and_version bytes version flags
          (Some mem) len;
        wally_scriptpubkey_p2tr_from_bytes bytes flags (Some mem) len;
        wally_elements_pegout_script_from_bytes genesis mainchain sub_pubkey
          proof flags (Some mem) len] ->
  same_beyond (mem_of r) mem len.
Proof.
  intros Hlen Hin. cbn [In] in Hin.
  destruct Hin as [<- | [<- | [<- | [<- | [<- | [<- | [<- | [<- | [<- |
                  [<- | [<- | [<- | [<- | []]]]]]]]]]]]]].
  - (* push *)
    unfold wally_script_push_from_bytes.
    destruct (script_push_at bytes flags mem 0 len) as [[ret w] m] eqn:Hp.
    cbn [mem_of snd].
    apply (script_push_at_within _ _ _ _ _ _ len _ _ _ Hp);
      [lia | lia | apply same_beyond_refl].
  - (* P2PKH *)
    unfold wally_scriptpubkey_p2pkh_from_bytes,
      WALLY_SCRIPTPUBKEY_P2PKH_LEN.
    destruct (_ || _); [unchanged |].
    destruct (Z.ltb_spec len 25); [unchanged |].
    destruct (if negb _ then _ else _); [unchanged |].
    destruct (script_push_at _ _ _ _ _) as [[ret w] m] eqn:Hp.
    assert (Hm : same_beyond m mem len).
    { apply (script_push_at_within _ _ _ _ _ _ len _ _ _ Hp); [lia | lia |].
      apply same_beyond_store; [lia | literal_len | apply same_beyond_refl]. }
    destruct (ret =? WALLY_OK); cbn [mem_of snd]; [| exact Hm].
    apply same_beyond_store; [lia | literal_len |].
    apply same_beyond_store; [lia | literal_len | exact Hm].
  - (* P2PKH scriptSig from DER *)
    apply scriptsig_p2pkh_from_der_within.
  - (* P2PKH scriptSig from a compact signature *)
    unfold wally_scriptsig_p2pkh_from_sig.
    destruct (negb _); [unchanged |].
    destruct (wally_ec_sig_to_der bytes) as [ret der].
    destruct (ret =? WALLY_OK); [| unchanged].
    apply scriptsig_p2pkh_from_der_within.
  - (* OP_RETURN *)
    unfold wally_scriptpubkey_op_return_from_bytes.
    destruct (Z.eqb_spec len 0) as [Hz | Hnz];
      [rewrite !orb_true_r; unchanged |].
    destruct (_ || _); [unchanged |].
    destruct (script_push_at _ _ _ _ _) as [[ret w] m] eqn:Hp.
    assert (Hm : same_beyond m mem len).
    { apply (script_push_at_within _ _ _ _ _ _ len _ _ _ Hp);
        [lia | lia | apply same_beyond_refl]. }
    destruct (ret =? WALLY_OK); cbn [mem_of snd]; [| exact Hm].
    apply same_beyond_store; [lia | literal_len | exact Hm].
  - (* P2SH *)
    unfold wally_scriptpubkey_p2sh_from_bytes, WALLY_SCRIPTPUBKEY_P2SH_LEN.
    destruct (_ || _); [unchanged |].
    destruct (_ && _); [unchanged |].
    destruct (Z.ltb_spec len 23); [unchanged |].
    destruct (script_push_at _ _ _ _ _) as [[ret w] m] eqn:Hp.
    assert (Hm : same_beyond m mem len).
    { apply (script_push_at_within _ _ _ _ _ _ len _ _ _ Hp); [lia | lia |].
      apply same_beyond_store; [lia | literal_len | apply same_beyond_refl]. }
    destruct (ret =? WALLY_OK); cbn [mem_of snd]; [| exact Hm].
    apply same_beyond_store; [lia | literal_len | exact Hm].
  - (* multisig *)
    unfold wally_scriptpubkey_multisig_from_bytes, EC_PUBLIC_KEY_LEN.
    destruct (Z.eqb_spec (blen bytes) 0); [unchanged |].
    destruct (Z.eqb_spec (blen bytes mod 33) 0) as [Hmod |]; [| unchanged].
    cbn [negb orb].
    destruct (_ || _); [unchanged |].
    destruct (Z.ltb_spec len (3 + blen bytes / 33 * (33 + 1)));
      [unchanged |].
    cbn [mem_of snd]. change (Z.to_nat 33) with 33%nat.
    apply same_beyond_store; [lia | | apply same_beyond_refl].
    rewrite (multisig_script_blen bytes threshold _ Hmod). lia.
  - (* multisig scriptSig *)
    unfold wally_scriptsig_multisig_from_bytes.
    destruct (_ || _); [unchanged |].
    destruct (multisig_ders _ _) as [e | ders]; [unchanged |].
    pose proof (push_sizes_sum_ge ders 0) as Hsum.
    pose proof (script_get_push_size_pos _ (blen_nonneg script)) as Hscr.
    match goal with
    | |- context [if len <? ?req then _ else _] =>
        destruct (Z.ltb_spec len req); [unchanged |]
    end.
    destruct (multisig_push_ders _ _ _ _) as [[[ret m] p] l] eqn:Hders.
    destruct (multisig_push_ders_within _ _ mem _ _ len _ _ _ _ Hders)
      as (Hm & Hp0 & Hpl); [lia | lia | |].
    { apply same_beyond_store; [lia | literal_len | apply same_beyond_refl]. }
    destruct (negb (ret =? WALLY_OK)); [exact Hm |].
    destruct (script_push_at script 0 m p l) as [[ret' w] m'] eqn:Hp.
    pose proof (script_push_at_within _ _ _ _ _ _ len _ _ _ Hp Hp0 Hpl Hm)
      as Hm'.
    destruct (negb (ret' =? WALLY_OK)); [exact Hm' |].
    destruct (l <? w); exact Hm'.
  - (* CSV, template A *)
    unfold wally_scriptpubkey_csv_2of2_then_1_from_bytes.
    destruct (Z.eqb_spec (blen bytes) (2 * EC_PUBLIC_KEY_LEN)) as [Hb |];
      [| unchanged].
    destruct (Z.ltb_spec csv_blocks 17); [unchanged |].
    destruct (csv_blocks >? 65535) eqn:Hmax; [unchanged |].
    destruct (flags =? 0); [| unchanged]. cbn [negb orb].
    assert (Hv : 17 <= csv_blocks <= 65535) by lia.
    destruct (csv_keys_sized bytes Hb) as [Hk1 Hk2].
    destruct (csv_2of2_then_1_script_matches _ _ _ _ _ Hk1 Hk2
                (csv_encoding_of_delay csv_blocks Hv)) as (Hl & _).
    change (2 * (EC_PUBLIC_KEY_LEN + 1) + 9 + 1
            + scriptint_get_length csv_blocks)
      with (78 + scriptint_get_length csv_blocks).
    destruct (Z.ltb_spec len (78 + scriptint_get_length csv_blocks));
      [unchanged |].
    cbn [mem_of snd].
    apply same_beyond_store; [lia | lia | apply same_beyond_refl].
  - (* CSV, template B *)
    unfold wally_scriptpubkey_csv_2of2_then_1_from_bytes_opt.
    destruct (Z.eqb_spec (blen bytes) (2 * EC_PUBLIC_KEY_LEN)) as [Hb |];
      [| unchanged].
    destruct (Z.ltb_spec csv_blocks 17); [unchanged |].
    destruct (csv_blocks >? 65535) eqn:Hmax; [unchanged |].
    destruct (flags =? 0); [| unchanged]. cbn [negb orb].
    assert (Hv : 17 <= csv_blocks <= 65535) by lia.
    destruct (csv_keys_sized bytes Hb) as [Hk1 Hk2].
    destruct (csv_2of2_then_1_opt_script_matches _ _ _ _ _ Hk1 Hk2
                (csv_encoding_of_delay csv_blocks Hv)) as (Hl & _).
    change (2 * (EC_PUBLIC_KEY_LEN + 1) + 6 + 1
            + scriptint_get_length csv_blocks)
      with (75 + scriptint_get_length csv_blocks).
    destruct (Z.ltb_spec len (75 + scriptint_get_length csv_blocks));
      [unchanged |].
    cbn [mem_of snd].
    apply same_beyond_store; [lia | lia | apply same_beyond_refl].
  - (* witness program *)
    unfold wally_witness_program_from_bytes_and_version.
    destruct (Z.eqb_spec len 0) as [Hz | Hnz];
      [rewrite !orb_true_r; unchanged |].
    destruct (_ || _); [unchanged |].
    destruct (if negb _ then _ else _); [unchanged |].
    destruct (negb (Z.land flags WALLY_SCRIPT_AS_PUSH =? 0)); cbn [andb].
    + destruct (Z.ltb_spec len 2); [unchanged |].
      destruct (script_push_at _ _ _ _ _) as [[ret w] m] eqn:Hp.
      assert (Hm : same_beyond m mem len).
      { apply (script_push_at_within _ _ _ _ _ _ len _ _ _ Hp);
          [lia | lia |].
        apply same_beyond_store;
          [lia | literal_len | apply same_beyond_refl]. }
      destruct (ret =? WALLY_OK); cbn [mem_of snd]; [| exact Hm].
      apply same_beyond_store; [lia | literal_len | exact Hm].
    + destruct (script_push_at _ _ _ _ _) as [[ret w] m] eqn:Hp.
      assert (Hm : same_beyond m mem len).
      { apply (script_push_at_within _ _ _ _ _ _ len _ _ _ Hp);
          [lia | lia |].
        apply same_beyond_store;
          [lia | literal_len | apply same_beyond_refl]. }
      destruct (ret =? WALLY_OK); cbn [mem_of snd]; exact Hm.
  - (* taproot *)
    unfold wally_scriptpubkey_p2tr_from_bytes, WALLY_SCRIPTPUBKEY_P2TR_LEN.
    destruct (if BUILD_ELEMENTS then _ else _); [unchanged |].
    destruct (Z.ltb_spec len 34); [unchanged |].
    destruct (if blen bytes =? EC_PUBLIC_KEY_LEN then _ else _) as [ret x].
    destruct (negb (ret =? WALLY_OK)); [unchanged |].
    destruct (Z.eqb_spec (blen x) EC_XONLY_PUBLIC_KEY_LEN) as [Hx |];
      [| unchanged].
    cbn [negb mem_of snd].
    apply same_beyond_store; [lia | | apply same_beyond_refl].
    rewrite !blen_cons, Hx. unfold EC_XONLY_PUBLIC_KEY_LEN. lia.
  - (* peg-out *)
    unfold wally_elements_pegout_script_from_bytes.
    destruct (Z.eqb_spec len 0) as [Hz | Hnz];
      [rewrite !orb_true_r; unchanged |].
    destruct (_ || _); [unchanged |].
    match goal with
    | |- context [pegout_script_push genesis ?s] => set (st0 := s)
    end.
    assert (H0 : 0 <= po_off st0 /\ 0 <= po_bytes_written st0 /\
                 po_off st0 + po_len st0 <= len /\
                 same_beyond (po_mem st0) mem len).
    { subst st0. cbn [po_off po_len po_bytes_written po_mem].
      split; [lia | split; [lia | split; [lia |]]].
      apply same_beyond_store; [lia | literal_len | apply same_beyond_refl]. }
    clearbody st0. destruct H0 as (Ha & Hb & Hc & Hd).
    pose proof (pegout_script_push_within genesis st0 mem len Ha Hb Hc Hd)
      as H1.
    destruct (pegout_script_push genesis st0) as [[[ret w] m] | st1];
      [exact H1 |].
    destruct H1 as (Ha1 & Hb1 & Hc1 & Hd1).
    pose proof (pegout_script_push_within mainchain st1 mem len Ha1 Hb1 Hc1
                  Hd1) as H2.
    destruct (pegout_script_push mainchain st1) as [[[ret w] m] | st2];
      [exact H2 |].
    destruct H2 as (Ha2 & Hb2 & Hc2 & Hd2).
    pose proof (pegout_script_push_within sub_pubkey st2 mem len Ha2 Hb2 Hc2
                  Hd2) as H3.
    destruct (pegout_script_push sub_pubkey st2) as [[[ret w] m] | st3];
      [exact H3 |].
    destruct H3 as (Ha3 & Hb3 & Hc3 & Hd3).
    pose proof (pegout_script_push_within proof st3 mem len Ha3 Hb3 Hc3
                  Hd3) as H4.
    destruct (pegout_script_push proof st3) as [[[ret w] m] | st4];
      [exact H4 |].
    cbn [mem_of snd]. apply H4.
Qed.
End WithinBuffer.

Lemma p2pkh_from_sig_appends_sighash_witness :
  0 <= 1 < 2 ^ 32 /\
  wally_ec_sig_to_der (crypto_ops := example_crypto) (repeat 7 64)
  = (WALLY_OK, 0x30 :: repeat 0x44 69) /\
  is_pk_len (blen (repeat 2 33)) = true /\
  blen (0x30 :: repeat 0x44 69) <= EC_SIGNATURE_DER_MAX_LEN /\
  150 <= blen (repeat 0 150) /\
  script_of (wally_scriptsig_p2pkh_from_sig (C := example_crypto)
               (repeat 2 33) (repeat 7 64) 1 (Some (repeat 0 150)) 150)
  = push_encoding ((0x30 :: repeat 0x44 69) ++ [1])
    ++ push_encoding (repeat 2 33) /\
  wally_witness_p2wpkh_from_sig (C := example_crypto)
    (W := example_witness_stack) (repeat 2 33) (repeat 7 64) 1
  = Some (witness_of_items (W := example_witness_stack) 2
            [(0x30 :: repeat 0x44 69) ++ [1]; repeat 2 33]).
Proof.
  assert (H1 : 0 <= 1 < 2 ^ 32) by (split; [lia | reflexivity]).
  assert (H2 : wally_ec_sig_to_der (crypto_ops := example_crypto)
                 (repeat 7 64) = (WALLY_OK, 0x30 :: repeat 0x44 69))
    by reflexivity.
  assert (H3 : is_pk_len (blen (repeat 2 33)) = true) by reflexivity.
  assert (H4 : blen (0x30 :: repeat 0x44 69) <= EC_SIGNATURE_DER_MAX_LEN)
    by (vm_compute; discriminate).
  assert (H5 : script_get_push_size (blen ((0x30 :: repeat 0x44 69) ++ [1]))
               + script_get_push_size (blen (repeat 2 33)) <= 150)
    by (vm_compute; discriminate).
  assert (H6 : 150 <= blen (repeat 0 150)) by (vm_compute; discriminate).
  repeat (split; [assumption |]).
  exact (proj2 (p2pkh_from_sig_appends_sighash (C := example_crypto)
                  (W := example_witness_stack) (repeat 2 33) (repeat 7 64)
                  (0x30 :: repeat 0x44 69) 1 (repeat 0 150) 150
                  H1 H2 H3 H4 H5 H6)).
Defined.

Lemma builders_write_within_len_witness :
  0 <= 30 /\
  same_beyond
    (mem_of (wally_scriptpubkey_p2sh_from_bytes (C := example_crypto)
               (repeat 7 20) 0 (Some (repeat 9 40)) 30))
    (repeat 9 40) 30.
Proof.
  assert (H1 : 0 <= 30) by lia.
  split; [exact H1 |].
  apply (builders_write_within_len (C := example_crypto) (repeat 7 20) [82]
           [1] [] [] (repeat 2 33) [] 0 1 144 0 1 (repeat 9 40) 30 _ H1).
  cbn [In]. do 5 right. left. reflexivity.
Defined.
